(** * Gardening grid simulation: shallow embedding and checked properties

    The JavaScript sources (config.js, utils.js, soil.js, structure.js,
    plant.js, square.js, main.js) are embedded as pure functions.

    Conventions of the embedding:
    - a JavaScript number is an exact rational ([Q]); integer-valued
      counters (levels, stages, tick counts, coordinates) are [Z].  The
      rounding of the double-precision arithmetic is not modelled: an
      equality between computed amounts is exact here and holds only up
      to rounding in the code.  The [isNaN] repair branches of the sources cannot fire on
      rationals and are left out;
    - a coordinate key "x,y" is the pair [(x, y)]; the grid
      [Map<string, Square>] is a [gmap (Z * Z) Square];
    - every [Math.random()] call reads the next value of an explicit source
      of draws, in the order in which the code performs the calls;
    - the blocking [confirm()] dialog and the simulated time of day (through
      the light factor) are inputs of the functions that consult them;
    - a lookup [table[key]] in an object literal goes through [JS.get]: a
      key that is not an entry of the table but names a member that every
      object inherits from [Object.prototype] yields that member, a
      truthy value, and not [undefined]. *)

From Stdlib Require Import QArith Qround Lqa ZArith Lia Bool List.
From stdpp Require Import gmap strings pretty list fin_maps.

#[local] Open Scope Q_scope.

(** ** JavaScript number primitives *)
Module JS.

(** [a >= b], [a > b], [a < b], [a <= b] on numbers. *)
Definition ge (a b : Q) : bool := Qle_bool b a.
Definition le (a b : Q) : bool := Qle_bool a b.
Definition gt (a b : Q) : bool := negb (Qle_bool a b).
Definition lt (a b : Q) : bool := negb (Qle_bool b a).

Definition Math_max (a b : Q) : Q := if Qle_bool a b then b else a.
Definition Math_min (a b : Q) : Q := if Qle_bool a b then a else b.

(** [Math.round]: the nearest integer, halves rounded up. *)
Definition Math_round (x : Q) : Q := inject_Z (Qfloor (x + 0.5)).

(** [x || d] on numbers: [d] replaces a falsy (zero) [x]. *)
Definition or_default (x d : Q) : Q := if Qeq_bool x 0 then d else x.

(** The names of the members of [Object.prototype], which every object
    literal inherits: built-in functions and, under [__proto__], the
    prototype object itself. *)
Definition Object_prototype : list string :=
  ["constructor"; "__defineGetter__"; "__defineSetter__"; "hasOwnProperty";
   "__lookupGetter__"; "__lookupSetter__"; "isPrototypeOf";
   "propertyIsEnumerable"; "toString"; "valueOf"; "__proto__";
   "toLocaleString"]%string.

Definition inherited (key : string) : bool :=
  existsb (String.eqb key) Object_prototype.

(** The value of [table[key]]: an entry of the table, an inherited
    member, or [undefined]. *)
Inductive Member (A : Type) : Type :=
| Own (a : A)
| Inherited
| Undefined.
Arguments Own {A} a.
Arguments Inherited {A}.
Arguments Undefined {A}.

(** [table[key]] for an object literal whose own entries are [own]. *)
Definition get {A : Type} (own : string -> option A) (key : string)
  : Member A :=
  match own key with
  | Some a => Own a
  | None => if inherited key then Inherited else Undefined
  end.

(** Truthiness of a looked-up value: entries are objects and inherited
    members are functions or objects, all truthy. *)
Definition truthy {A : Type} (v : Member A) : bool :=
  match v with
  | Undefined => false
  | _ => true
  end.

End JS.

Notation "x |? d" := (JS.or_default x d) (at level 35, no associativity).

(** ** config.js *)
Module Config.

Definition GRID_ROWS : Z := 15.
Definition GRID_COLS : Z := 15.
Definition INITIAL_DOT_SIZE_RATIO : Q := 0.05.
Definition INITIAL_CHO : Q := 5.0.
Definition INITIAL_ATP : Q := 1.0.
Definition INITIAL_LEAF_DENSITY : Q := 0.2.
Definition INITIAL_STEM_DEV : Q := 0.1.
Definition INITIAL_WEED_CHANCE : Q := 0.08.
Definition STARTING_MONEY : Q := 150.

Module DEFAULTS.
Definition temperature : Q := 20.
End DEFAULTS.

Module RATES.
Definition soilDegradeMoist : Q := 0.01.
Definition soilDegradeWet : Q := 0.02.
Definition evaporationCoolingFactor : Q := 0.15.
Definition evaporationHumidityGain : Q := 0.05.
Definition windHumidityLoss : Q := 0.1.
Definition moistSoilCoolingFactor : Q := 0.05.
Definition acidifyRateHighOM : Q := 0.02.
Definition tempEffectOnEvap : Q := 0.007.
Definition humidityEffectOnEvap : Q := 0.9.
Definition microbeGrowthOxygen : Q := 0.1.
Definition microbeConversionBase : Q := 1.0.
Definition microbeDeathLowOM : Q := 0.2.
Definition tempEffectOnMicrobes : Q := 0.05.
Definition beansMICRate : Q := 0.2.
Definition plantConsumption : Q := 0.5.
Definition plantShrink : Q := 0.002.
Definition tempEffectOnGrowth : Q := 0.04.
Definition rootDensityGrowthBase : Q := 0.02.
Definition rootRecoveryRate : Q := 0.8.
Definition basePhotosynthesisRate : Q := 0.18.
Definition baseRespirationRate : Q := 0.001.
Definition respirationCHOToATPConversion : Q := 30.
Definition rootRecoveryATPCost : Q := 0.1.
Definition growthATPCost : Q := 0.05.
Definition stemDevRate : Q := 0.01.
Definition leafDevRate : Q := 0.01.
Definition senescenceShrinkRate : Q := 0.001.
Definition beansOMRate : Q := 0.1.
Definition pestSpawnBaseChance : Q := 0.001.
Definition pestLevelUpChance : Q := 0.01.
Definition pestNematodeShrinkAdd : Q := 0.001.
Definition rootDamageNematodeFactor : Q := 0.3.
Definition pestYieldFactorReduction : Q := 0.4.
Definition weedNutrientSapRate : Q := 0.08.
Definition weedGrowthChance : Q := 0.015.
Definition weedSpreadChance : Q := 0.01.
Definition compostOM : Q := 12.
Definition compostMicrobeAdd : Q := 5.
Definition compostMoistureAdd : Q := 3.
Definition crhMoistureReduce : Q := 5.
Definition crhCompactionReduce : Q := 8.
Definition crhOmAdd : Q := 2.
Definition crhPhIncrease : Q := 0.1.
Definition sandMoistureReduce : Q := 8.
Definition waterMoistureAdd : Q := 7.
Definition waterCompactionAdd : Q := 0.5.
Definition wateringCooling : Q := 0.5.
Definition tillCompactionReduce : Q := 20.
Definition tillMicrobesReduce : Q := 5.
Definition rootDamageLowOxygen : Q := 0.4.
Definition rootDamageWetness : Q := 0.2.
Definition rootDamageHighTempFactor : Q := 0.15.
Definition beneficialAttractionGain : Q := 0.5.
Definition beneficialDecay : Q := 0.98.
Definition beePollinationWindReduction : Q := 3.
Definition ladybeetleAphidRemovalChanceFactor : Q := 0.02.
Definition ollaWaterRelease : Q := 3.5.
Definition ollaDistributionRadius1Ratio : Q := 0.7.
Definition ollaDistributionRadius2Ratio : Q := 0.3.
End RATES.

Module THRESHOLDS.
Definition wet : Q := 80.
Definition moist : Q := 30.
Definition compactionMax : Q := 100.
Definition oxygenHigh : Q := 80.
Definition lowOxygenForRoots : Q := 30.
Definition microbeHigh : Q := 100.
Definition microbeActive : Q := 50.
Definition omLowForMicrobes : Q := 5.
Definition highOMAcidify : Q := 70.
Definition phMax : Q := 9.0.
Definition phMin : Q := 4.0.
Definition phOptimalLow : Q := 5.5.
Definition phOptimalHigh : Q := 6.0.
Definition microbeOptimalPhLow : Q := 6.0.
Definition microbeOptimalPhHigh : Q := 7.5.
Definition microbeMinMoisture : Q := 15.
Definition microbeMinBN : Q := 5.
Definition soilConditionGrow : Q := 65.
Definition moistureShrink : Q := 20.
Definition plantMaxSize : Q := 1.0.
Definition goodRootDensity : Q := 1.0.
Definition goodRootHealth : Q := 80.
Definition maxRootDensity : Q := 2.5.
Definition minRootDensity : Q := 0.1.
Definition plantTier1Maturity : Q := 0.15.
Definition plantTier2Maturity : Q := 0.50.
Definition plantTier3Maturity : Q := 0.85.
Definition minNutrientsForFlowering : Q := 10.
Definition moistureStressPhotosynthesis : Q := 30.
Definition lowCHOThreshold : Q := 1.0.
Definition lowNutrientThreshold : Q := 5.
Definition maxTempRootDamage : Q := 38.
Definition maxTempMicrobeDeath : Q := 40.
Definition minTempMicrobeSlowdown : Q := 10.
Definition optimalTempMicrobeLow : Q := 15.
Definition optimalTempMicrobeHigh : Q := 35.
Definition minTempPlantSlowdown : Q := 5.
Definition optimalTempPlantLow : Q := 15.
Definition optimalTempPlantHigh : Q := 30.
Definition maxTempPlantSlowdown : Q := 35.
Definition pestSpawnMoisture : Q := 70.
Definition pestSpawnHumidity : Q := 75.
Definition nematodeWetDuration : Z := 8.
Definition highMicrobesForNematodeDefense : Q := 70.
Definition pollinationWindThreshold : Q := 5.
Definition beneficialAttractionThreshold : Q := 5.
Definition plantMaturityForBeneficials : Q := 0.85.
Definition windStressThreshold : Q := 8.
Definition squashEffectSize : Q := 0.5.
Definition ollaMaxWater : Q := 200.
End THRESHOLDS.

(** One entry of [PLANT_PROPERTIES]; [addsOM] and [addsMIC] are absent
    (falsy) on every species but Beans.  The function below lists the
    eight entries of the table. *)
Record PlantProps := mkPlantProps {
  H2O_Mod : Q;
  BN_Mod : Q;
  O2_Mod : Q;
  addsOM : bool;
  addsMIC : bool;
  maxYield : Q;
  price : Q;
  attractsBeneficials : bool;
  wetnessSensitivity : Q;
  suppressesNematodes : bool;
  daysToHarvestableStage : Q;
  isPerennial : bool
}.

Definition PLANT_PROPERTIES (type : string) : option PlantProps :=
  if String.eqb type "Test" then
    Some (mkPlantProps 1.0 1.0 1.0 false false 0 0 false 1.0 false 10 true)
  else if String.eqb type "Corn" then
    Some (mkPlantProps 6.0 5.0 2.0 false false 2 60 false 1.0 false 60 false)
  else if String.eqb type "Beans" then
    Some (mkPlantProps 1.0 1.0 1.0 true true 3 40 false 1.0 false 50 false)
  else if String.eqb type "Squash" then
    Some (mkPlantProps 1.0 1.0 1.0 false false 1 70 false 1.0 false 55 false)
  else if String.eqb type "Tomato" then
    Some (mkPlantProps 1.2 1.8 1.0 false false 4 30 false 1.5 false 70 false)
  else if String.eqb type "Basil" then
    Some (mkPlantProps 1.0 1.0 1.0 false false 1 20 true 1.0 false 40 false)
  else if String.eqb type "Flower" then
    Some (mkPlantProps 1.5 1.5 1.0 false false 0 50 true 1.2 false 45 false)
  else if String.eqb type "Marigold" then
    Some (mkPlantProps 1.6 1.2 1.0 false false 0 25 true 1.0 true 50 false)
  else None.

(** One entry of [STRUCTURE_INFO]; the description texts are left out. *)
Record StructureInfo := mkStructureInfo {
  name : string;
  visualClass : string
}.

(** The three entries of [STRUCTURE_INFO]. *)
Definition STRUCTURE_INFO (type : string) : option StructureInfo :=
  if String.eqb type "Olla" then
    Some (mkStructureInfo "Olla" "structure-olla")
  else if String.eqb type "Trellis" then
    Some (mkStructureInfo "Trellis" "structure-trellis")
  else if String.eqb type "Net" then
    Some (mkStructureInfo "Net" "structure-net")
  else None.

Module SHOP_COSTS.
Definition massNeem : Q := 2000.
Definition massWeed : Q := 5000.
Definition soilConditioner : Q := 10000.
End SHOP_COSTS.

End Config.

(** ** utils.js *)
Definition Key : Type := (Z * Z)%type.

Module Utils.

(** The values [lo, lo+1, ..., hi] of a [for] loop counter. *)
Definition range (lo hi : Z) : list Z :=
  List.map (fun i => (lo + Z.of_nat i)%Z) (seq 0 (Z.to_nat (hi - lo + 1))).

Definition getNeighbors (x y : Z) (includeDiagonals : bool) (radius : Z)
  : list Key :=
  let COLS := Config.GRID_COLS in
  let ROWS := Config.GRID_ROWS in
  flat_map (fun dy =>
    flat_map (fun dx =>
      if ((dx =? 0) && (dy =? 0))%Z then []
      else if negb includeDiagonals && negb (dx =? 0)%Z
              && negb (dy =? 0)%Z && (radius =? 1)%Z then []
      else
        let nx := (x + dx)%Z in
        let ny := (y + dy)%Z in
        if ((0 <=? nx) && (nx <? COLS) && (0 <=? ny) && (ny <? ROWS))%Z then
          if (dx * dx + dy * dy <=? radius * radius)%Z then [(nx, ny)]
          else []
        else [])
      (range (- radius) radius))
    (range (- radius) radius).

Definition clamp (value min max : Q) : Q :=
  JS.Math_max min (JS.Math_min max value).

End Utils.

(** ** soil.js *)
Module Soil.

Record t := mk {
  moisture : Q;
  nutrition : Q;
  compaction : Q;
  microbes : Q;
  oxygen : Q;
  organicMatter : Q;
  bioavailableNutrition : Q;
  pH : Q;
  soilCondition : Q;
  evaporationRate : Q;
  wetDuration : Z;
  oxygenBasePotential : Q
}.

Definition set_moisture (v : Q) (s : t) : t :=
  mk v (nutrition s) (compaction s) (microbes s) (oxygen s)
     (organicMatter s) (bioavailableNutrition s) (pH s) (soilCondition s)
     (evaporationRate s) (wetDuration s) (oxygenBasePotential s).
Definition set_nutrition (v : Q) (s : t) : t :=
  mk (moisture s) v (compaction s) (microbes s) (oxygen s)
     (organicMatter s) (bioavailableNutrition s) (pH s) (soilCondition s)
     (evaporationRate s) (wetDuration s) (oxygenBasePotential s).
Definition set_compaction (v : Q) (s : t) : t :=
  mk (moisture s) (nutrition s) v (microbes s) (oxygen s)
     (organicMatter s) (bioavailableNutrition s) (pH s) (soilCondition s)
     (evaporationRate s) (wetDuration s) (oxygenBasePotential s).
Definition set_microbes (v : Q) (s : t) : t :=
  mk (moisture s) (nutrition s) (compaction s) v (oxygen s)
     (organicMatter s) (bioavailableNutrition s) (pH s) (soilCondition s)
     (evaporationRate s) (wetDuration s) (oxygenBasePotential s).
Definition set_oxygen (v : Q) (s : t) : t :=
  mk (moisture s) (nutrition s) (compaction s) (microbes s) v
     (organicMatter s) (bioavailableNutrition s) (pH s) (soilCondition s)
     (evaporationRate s) (wetDuration s) (oxygenBasePotential s).
Definition set_organicMatter (v : Q) (s : t) : t :=
  mk (moisture s) (nutrition s) (compaction s) (microbes s) (oxygen s)
     v (bioavailableNutrition s) (pH s) (soilCondition s)
     (evaporationRate s) (wetDuration s) (oxygenBasePotential s).
Definition set_bioavailableNutrition (v : Q) (s : t) : t :=
  mk (moisture s) (nutrition s) (compaction s) (microbes s) (oxygen s)
     (organicMatter s) v (pH s) (soilCondition s)
     (evaporationRate s) (wetDuration s) (oxygenBasePotential s).
Definition set_pH (v : Q) (s : t) : t :=
  mk (moisture s) (nutrition s) (compaction s) (microbes s) (oxygen s)
     (organicMatter s) (bioavailableNutrition s) v (soilCondition s)
     (evaporationRate s) (wetDuration s) (oxygenBasePotential s).
Definition set_soilCondition (v : Q) (s : t) : t :=
  mk (moisture s) (nutrition s) (compaction s) (microbes s) (oxygen s)
     (organicMatter s) (bioavailableNutrition s) (pH s) v
     (evaporationRate s) (wetDuration s) (oxygenBasePotential s).
Definition set_evaporationRate (v : Q) (s : t) : t :=
  mk (moisture s) (nutrition s) (compaction s) (microbes s) (oxygen s)
     (organicMatter s) (bioavailableNutrition s) (pH s) (soilCondition s)
     v (wetDuration s) (oxygenBasePotential s).
Definition set_wetDuration (v : Z) (s : t) : t :=
  mk (moisture s) (nutrition s) (compaction s) (microbes s) (oxygen s)
     (organicMatter s) (bioavailableNutrition s) (pH s) (soilCondition s)
     (evaporationRate s) v (oxygenBasePotential s).
Definition set_oxygenBasePotential (v : Q) (s : t) : t :=
  mk (moisture s) (nutrition s) (compaction s) (microbes s) (oxygen s)
     (organicMatter s) (bioavailableNutrition s) (pH s) (soilCondition s)
     (evaporationRate s) (wetDuration s) v.

(** [Soil.DEFAULTS] *)
Module DEFAULTS.
Definition moisture : Q := 50.
Definition nutrition : Q := 50.
Definition compaction : Q := 50.
Definition microbes : Q := 50.
Definition oxygen : Q := 100.
Definition organicMatter : Q := 10.
Definition bioavailableNutrition : Q := 10.
Definition pH : Q := 7.0.
Definition soilCondition : Q := 50.
Definition evaporationRate : Q := 0.1.
Definition wetDuration : Z := 0.
End DEFAULTS.

(** The stored fields a caller of the constructor may provide. *)
Record Init := mkInit {
  i_moisture : option Q;
  i_nutrition : option Q;
  i_compaction : option Q;
  i_microbes : option Q;
  i_oxygen : option Q;
  i_organicMatter : option Q;
  i_bioavailableNutrition : option Q;
  i_pH : option Q;
  i_soilCondition : option Q;
  i_evaporationRate : option Q;
  i_wetDuration : option Z
}.

Definition noInit : Init :=
  mkInit None None None None None None None None None None None.

(** The pH factor of [updateDerivedVariables]. *)
Definition phFactor (currentPH : Q) : Q :=
  if JS.ge currentPH Config.THRESHOLDS.phOptimalLow
     && JS.le currentPH Config.THRESHOLDS.phOptimalHigh
  then 100
  else
    let diff :=
      if JS.lt currentPH Config.THRESHOLDS.phOptimalLow
      then Config.THRESHOLDS.phOptimalLow - currentPH
      else currentPH - Config.THRESHOLDS.phOptimalHigh in
    JS.Math_max 0 (100 - JS.Math_round (diff * 10) * 10).

Definition updateDerivedVariables (s : t) : t :=
  let phFactor := phFactor (pH s) in
  let microbeNutrientFactor := Utils.clamp (microbes s |? 0) 0 100 in
  let omFactor := Utils.clamp ((organicMatter s |? 0) * 2) 0 100 in
  let bnFactor := Utils.clamp ((bioavailableNutrition s |? 0) * 3) 0 100 in
  let moistureFactor := Utils.clamp (moisture s |? 0) 0 100 in
  let aerationFactor := Utils.clamp (100 - (compaction s |? 50)) 0 100 in
  let nutrition' :=
    Utils.clamp
      ((bnFactor + omFactor + phFactor + microbeNutrientFactor) / 4) 0 100 in
  let soilCondition' :=
    Utils.clamp
      ((moistureFactor + nutrition' + aerationFactor + microbeNutrientFactor) / 4)
      0 100 in
  let o2Reduction :=
    if JS.ge (moisture s |? 0) Config.THRESHOLDS.wet then 0.9 else 0 in
  let o2Reduction :=
    if JS.ge (compaction s |? 0) Config.THRESHOLDS.compactionMax
    then JS.Math_max o2Reduction 0.9 else o2Reduction in
  set_oxygenBasePotential (100 * (1 - o2Reduction))
    (set_soilCondition soilCondition' (set_nutrition nutrition' s)).

Definition addMoisture (amount : Q) (s : t) : t :=
  let currentMoisture := moisture s in
  updateDerivedVariables
    (set_moisture (Utils.clamp (currentMoisture + amount) 0 100) s).

(** The pH suitability factor of the organic-matter conversion. *)
Definition microbePhFactor (currentPH : Q) : Q :=
  if JS.ge currentPH Config.THRESHOLDS.microbeOptimalPhLow
     && JS.le currentPH Config.THRESHOLDS.microbeOptimalPhHigh
  then 1.0
  else
    let diff :=
      if JS.lt currentPH Config.THRESHOLDS.microbeOptimalPhLow
      then Config.THRESHOLDS.microbeOptimalPhLow - currentPH
      else currentPH - Config.THRESHOLDS.microbeOptimalPhHigh in
    JS.Math_max 0 (1.0 - (diff / 0.5) * 0.25).

Definition updateMicrobes (temperature : Q) (s : t) : t :=
  let currentMicrobes := microbes s in
  let currentOM := organicMatter s in
  let currentBN := bioavailableNutrition s in
  let currentOxygen := oxygen s in
  let currentMoisture := moisture s in
  let currentPH := pH s in
  let tempNum := temperature in
  let '(microbeActivityFactor, deathDelta) :=
    if JS.lt tempNum Config.THRESHOLDS.minTempMicrobeSlowdown then (0.1, 0)
    else if JS.gt tempNum Config.THRESHOLDS.maxTempMicrobeDeath
    then (0, 0 + currentMicrobes * 0.5)
    else if JS.lt tempNum Config.THRESHOLDS.optimalTempMicrobeLow
    then (Utils.clamp
            (1.0 - (Config.THRESHOLDS.optimalTempMicrobeLow - tempNum)
                   * Config.RATES.tempEffectOnMicrobes) 0.1 1.0, 0)
    else if JS.gt tempNum Config.THRESHOLDS.optimalTempMicrobeHigh
    then (Utils.clamp
            (1.0 - (tempNum - Config.THRESHOLDS.optimalTempMicrobeHigh)
                   * Config.RATES.tempEffectOnMicrobes) 0.1 1.0, 0)
    else (1.0, 0) in
  let microbeGrowthConditionsMet :=
    JS.gt currentOxygen Config.THRESHOLDS.lowOxygenForRoots
    && JS.gt currentMoisture Config.THRESHOLDS.microbeMinMoisture
    && JS.gt currentBN Config.THRESHOLDS.microbeMinBN in
  let growthDelta :=
    if microbeGrowthConditionsMet && JS.gt microbeActivityFactor 0.1
    then (if JS.gt currentOxygen Config.THRESHOLDS.oxygenHigh
          then 0 + Config.RATES.microbeGrowthOxygen else 0)
         * microbeActivityFactor
    else 0 in
  let deathDelta :=
    if JS.lt currentOM Config.THRESHOLDS.omLowForMicrobes
       && JS.gt currentMicrobes 0
    then deathDelta + Config.RATES.microbeDeathLowOM else deathDelta in
  let conversionDelta :=
    if JS.ge currentMicrobes Config.THRESHOLDS.microbeActive
       && JS.gt currentOM 0 && JS.gt microbeActivityFactor 0
    then
      let conversionRate :=
        Config.RATES.microbeConversionBase
        * (if JS.ge currentMicrobes Config.THRESHOLDS.microbeHigh
           then 2 else 1)
        * microbePhFactor currentPH
        * microbeActivityFactor in
      JS.Math_min currentOM conversionRate
    else 0 in
  set_bioavailableNutrition (JS.Math_max 0 (currentBN + conversionDelta))
    (set_organicMatter (JS.Math_max 0 (currentOM - conversionDelta))
       (set_microbes
          (Utils.clamp (currentMicrobes + growthDelta - deathDelta) 0 1000)
          s)).

(** Returns the evaporated amount together with the updated soil. *)
Definition applyEvaporation (temperature humidity wind squashModifier : Q)
    (s : t) : Q * t :=
  let baseEvap := (temperature |? 0) * Config.RATES.tempEffectOnEvap in
  let humidityFactor :=
    1.0 - ((humidity |? 60) / 100 * Config.RATES.humidityEffectOnEvap) in
  let s1 :=
    set_evaporationRate
      (JS.Math_max 0 (baseEvap * humidityFactor * squashModifier)) s in
  let evaporationAmount :=
    evaporationRate s1 * ((moisture s1 |? 0) / 100) in
  (evaporationAmount, addMoisture (- evaporationAmount) s1).

Definition updateDegradation (s : t) : t :=
  let degradeRate :=
    if JS.ge (moisture s |? 0) Config.THRESHOLDS.wet
    then Config.RATES.soilDegradeWet
    else if JS.ge (moisture s |? 0) Config.THRESHOLDS.moist
    then Config.RATES.soilDegradeMoist
    else 0 in
  if JS.gt degradeRate 0 then
    let s1 := addMoisture (- degradeRate) s in
    set_microbes (Utils.clamp ((microbes s1 |? 0) - degradeRate) 0 1000) s1
  else s.

Definition updateOxygen (plantOxygenConsumption : Q) (s : t) : t :=
  let s1 := updateDerivedVariables s in
  set_oxygen
    (Utils.clamp (oxygenBasePotential s1 - plantOxygenConsumption) 0 100) s1.

Definition updatePH (s : t) : t :=
  if JS.gt (organicMatter s |? 0) Config.THRESHOLDS.highOMAcidify then
    let currentPH := pH s in
    set_pH (Utils.clamp (currentPH - Config.RATES.acidifyRateHighOM)
              Config.THRESHOLDS.phMin Config.THRESHOLDS.phMax) s
  else s.

Definition updateWetDuration (s : t) : t :=
  set_wetDuration
    (if JS.ge (moisture s |? 0) Config.THRESHOLDS.wet
     then (wetDuration s + 1)%Z else 0%Z) s.

(** [new Soil(initialConditions)]: the given fields, defaults elsewhere,
    then the two initial recomputations. *)
Definition new (init : Init) : t :=
  updateOxygen 0
    (updateDerivedVariables
       (mk (default DEFAULTS.moisture (i_moisture init))
           (default DEFAULTS.nutrition (i_nutrition init))
           (default DEFAULTS.compaction (i_compaction init))
           (default DEFAULTS.microbes (i_microbes init))
           (default DEFAULTS.oxygen (i_oxygen init))
           (default DEFAULTS.organicMatter (i_organicMatter init))
           (default DEFAULTS.bioavailableNutrition
              (i_bioavailableNutrition init))
           (default DEFAULTS.pH (i_pH init))
           (default DEFAULTS.soilCondition (i_soilCondition init))
           (default DEFAULTS.evaporationRate (i_evaporationRate init))
           (default DEFAULTS.wetDuration (i_wetDuration init))
           100)).

End Soil.

(** ** structure.js *)
Module Structure.

Record Connections := mkConnections {
  top : bool;
  right : bool;
  bottom : bool;
  left : bool
}.

(** [waterLevel] is defined on an Olla only. *)
Record t := mk {
  type : string;
  connections : Connections;
  waterLevel : option Q
}.

Definition noConnections : Connections :=
  mkConnections false false false false.

(** [new Structure(type)], the only form in which the constructor is
    called. *)
Definition new (type : string) : t :=
  mk type noConnections
     (if String.eqb type "Olla"
      then Some Config.THRESHOLDS.ollaMaxWater else None).

(** Returns the released water together with the updated structure. *)
Definition update (st : t) : Q * t :=
  match waterLevel st with
  | Some w =>
      if String.eqb (type st) "Olla" && JS.gt w 0 then
        let releaseAmount := JS.Math_min w Config.RATES.ollaWaterRelease in
        (releaseAmount,
         mk (type st) (connections st) (Some (w - releaseAmount)))
      else (0, st)
  | None => (0, st)
  end.

End Structure.

(** ** The pest entry of a square: [{type, level}] *)
Module Pests.

Record t := mk {
  type : option string;
  level : Z
}.

Definition none : t := mk None 0.

Definition is_type (name : string) (p : t) : bool :=
  match type p with
  | Some n => String.eqb n name
  | None => false
  end.

Definition present (p : t) : bool :=
  match type p with Some _ => true | None => false end.

End Pests.

(** Truthiness of an optional object: [!!x]. *)
Definition isSome {A : Type} (o : option A) : bool :=
match o with Some _ => true | None => false end.

(** [list.includes(s)] on strings. *)
Definition includes (l : list string) (s : string) : bool :=
  existsb (String.eqb s) l.

(** ** plant.js *)
Module Plant.

Record t := mk {
  type : string;
  properties : Config.PlantProps;
  size : Q;
  rootHealth : Q;
  rootDensity : Q;
  CHO : Q;
  ATP : Q;
  stemHealth : Q;
  leafDensity : Q;
  stemDevelopment : Q;
  wasPollinated : bool;
  ageTicks : Z;
  ageDays : Q;
  maturityProgress : Q;
  growthStage : Z;
  lastO2Consumed : Q;
  displayStatus : string
}.

Definition set_size (v : Q) (p : t) : t :=
  mk (type p) (properties p) v (rootHealth p) (rootDensity p) (CHO p)
     (ATP p) (stemHealth p) (leafDensity p) (stemDevelopment p)
     (wasPollinated p) (ageTicks p) (ageDays p) (maturityProgress p)
     (growthStage p) (lastO2Consumed p) (displayStatus p).
Definition set_rootHealth (v : Q) (p : t) : t :=
  mk (type p) (properties p) (size p) v (rootDensity p) (CHO p)
     (ATP p) (stemHealth p) (leafDensity p) (stemDevelopment p)
     (wasPollinated p) (ageTicks p) (ageDays p) (maturityProgress p)
     (growthStage p) (lastO2Consumed p) (displayStatus p).
Definition set_rootDensity (v : Q) (p : t) : t :=
  mk (type p) (properties p) (size p) (rootHealth p) v (CHO p)
     (ATP p) (stemHealth p) (leafDensity p) (stemDevelopment p)
     (wasPollinated p) (ageTicks p) (ageDays p) (maturityProgress p)
     (growthStage p) (lastO2Consumed p) (displayStatus p).
Definition set_CHO (v : Q) (p : t) : t :=
  mk (type p) (properties p) (size p) (rootHealth p) (rootDensity p) v
     (ATP p) (stemHealth p) (leafDensity p) (stemDevelopment p)
     (wasPollinated p) (ageTicks p) (ageDays p) (maturityProgress p)
     (growthStage p) (lastO2Consumed p) (displayStatus p).
Definition set_ATP (v : Q) (p : t) : t :=
  mk (type p) (properties p) (size p) (rootHealth p) (rootDensity p) (CHO p)
     v (stemHealth p) (leafDensity p) (stemDevelopment p)
     (wasPollinated p) (ageTicks p) (ageDays p) (maturityProgress p)
     (growthStage p) (lastO2Consumed p) (displayStatus p).
Definition set_leafDensity (v : Q) (p : t) : t :=
  mk (type p) (properties p) (size p) (rootHealth p) (rootDensity p) (CHO p)
     (ATP p) (stemHealth p) v (stemDevelopment p)
     (wasPollinated p) (ageTicks p) (ageDays p) (maturityProgress p)
     (growthStage p) (lastO2Consumed p) (displayStatus p).
Definition set_stemDevelopment (v : Q) (p : t) : t :=
  mk (type p) (properties p) (size p) (rootHealth p) (rootDensity p) (CHO p)
     (ATP p) (stemHealth p) (leafDensity p) v
     (wasPollinated p) (ageTicks p) (ageDays p) (maturityProgress p)
     (growthStage p) (lastO2Consumed p) (displayStatus p).
Definition set_wasPollinated (v : bool) (p : t) : t :=
  mk (type p) (properties p) (size p) (rootHealth p) (rootDensity p) (CHO p)
     (ATP p) (stemHealth p) (leafDensity p) (stemDevelopment p)
     v (ageTicks p) (ageDays p) (maturityProgress p)
     (growthStage p) (lastO2Consumed p) (displayStatus p).
Definition set_ageTicks (v : Z) (p : t) : t :=
  mk (type p) (properties p) (size p) (rootHealth p) (rootDensity p) (CHO p)
     (ATP p) (stemHealth p) (leafDensity p) (stemDevelopment p)
     (wasPollinated p) v (ageDays p) (maturityProgress p)
     (growthStage p) (lastO2Consumed p) (displayStatus p).
Definition set_ageDays (v : Q) (p : t) : t :=
  mk (type p) (properties p) (size p) (rootHealth p) (rootDensity p) (CHO p)
     (ATP p) (stemHealth p) (leafDensity p) (stemDevelopment p)
     (wasPollinated p) (ageTicks p) v (maturityProgress p)
     (growthStage p) (lastO2Consumed p) (displayStatus p).
Definition set_maturityProgress (v : Q) (p : t) : t :=
  mk (type p) (properties p) (size p) (rootHealth p) (rootDensity p) (CHO p)
     (ATP p) (stemHealth p) (leafDensity p) (stemDevelopment p)
     (wasPollinated p) (ageTicks p) (ageDays p) v
     (growthStage p) (lastO2Consumed p) (displayStatus p).
Definition set_growthStage (v : Z) (p : t) : t :=
  mk (type p) (properties p) (size p) (rootHealth p) (rootDensity p) (CHO p)
     (ATP p) (stemHealth p) (leafDensity p) (stemDevelopment p)
     (wasPollinated p) (ageTicks p) (ageDays p) (maturityProgress p)
     v (lastO2Consumed p) (displayStatus p).
Definition set_lastO2Consumed (v : Q) (p : t) : t :=
  mk (type p) (properties p) (size p) (rootHealth p) (rootDensity p) (CHO p)
     (ATP p) (stemHealth p) (leafDensity p) (stemDevelopment p)
     (wasPollinated p) (ageTicks p) (ageDays p) (maturityProgress p)
     (growthStage p) v (displayStatus p).
Definition set_displayStatus (v : string) (p : t) : t :=
  mk (type p) (properties p) (size p) (rootHealth p) (rootDensity p) (CHO p)
     (ATP p) (stemHealth p) (leafDensity p) (stemDevelopment p)
     (wasPollinated p) (ageTicks p) (ageDays p) (maturityProgress p)
     (growthStage p) (lastO2Consumed p) v.

(** [PLANT_PROPERTIES['Test']], the constructor's fallback entry. *)
Definition Test_properties : Config.PlantProps :=
  Config.mkPlantProps 1.0 1.0 1.0 false false 0 0 false 1.0 false 10 true.

(** The fields of an inherited member taken for a property record: it
    has none of them, so each reads as [undefined].  The code reads a
    numeric field through [x || d] only, except for the comparison
    [maxYield === 0] of [harvestPlant], which it joins with a test of the
    type against three entries of the table; and it reads a flag through
    its truthiness only.  None of these reads tells [undefined] from [0]
    or [false], which stand for it here. *)
Definition inherited_properties : Config.PlantProps :=
  Config.mkPlantProps 0 0 0 false false 0 0 false 0 false 0 false.

(** [SimulationConfig.PLANT_PROPERTIES[type]] when it is truthy. *)
Definition lookupProperties (type : string) : option Config.PlantProps :=
  match JS.get Config.PLANT_PROPERTIES type with
  | JS.Own props => Some props
  | JS.Inherited => Some inherited_properties
  | JS.Undefined => None
  end.

(** [new Plant(type)]: a type whose lookup is [undefined] falls back to
    the Test plant. *)
Definition new (type : string) : t :=
  let '(type, properties) :=
    match lookupProperties type with
    | Some props => (type, props)
    | None => ("Test"%string, Test_properties)
    end in
  mk type properties
     Config.INITIAL_DOT_SIZE_RATIO 100 1.0
     Config.INITIAL_CHO Config.INITIAL_ATP
     100 Config.INITIAL_LEAF_DENSITY Config.INITIAL_STEM_DEV
     false 0 0 0 0
     0 "initializing".

(** What the methods of a plant read and write of the square that
    contains it: [square.soil], [square.variables.temperature],
    [square.variables.pests] and [square.structure]. *)
Record Host := mkHost {
  soil : Soil.t;
  temperature : Q;
  pests : Pests.t;
  structure : option Structure.t
}.

Definition set_soil (s : Soil.t) (h : Host) : Host :=
  mkHost s (temperature h) (pests h) (structure h).

Definition structure_is (name : string) (h : Host) : bool :=
  match structure h with
  | Some st => String.eqb (Structure.type st) name
  | None => false
  end.

Definition _updateAge (elapsedSimMinutes : Q) (p : t) : t :=
  set_ageDays (ageDays p + elapsedSimMinutes / (24 * 60))
    (set_ageTicks (ageTicks p + 1)%Z p).

(** Returns whether the plant is senescent or dead, and the plant. *)
Definition _handleSenescence (p : t) : bool * t :=
  let props := properties p in
  let isSenescent := (growthStage p =? 4)%Z in
  let trigger :=
    negb isSenescent && negb (Config.isPerennial props)
    && JS.ge (maturityProgress p) 1.0 && (growthStage p =? 3)%Z in
  let p1 := if trigger then set_growthStage 4 p else p in
  let isSenescent := isSenescent || trigger in
  let p2 :=
    if isSenescent then
      let pa := set_rootHealth (JS.Math_max 0 ((rootHealth p1 |? 0) - 0.5)) p1 in
      let pb :=
        set_size (JS.Math_max 0 ((size pa |? 0)
                                 - Config.RATES.senescenceShrinkRate)) pa in
      let pc :=
        set_CHO (JS.Math_max 0
                   ((CHO pb |? 0)
                    - (Config.RATES.baseRespirationRate * (size pb |? 0) * 0.1)))
                pb in
      set_ATP (JS.Math_max 0
                 ((ATP pc |? 0)
                  - (Config.RATES.baseRespirationRate * (size pc |? 0) * 0.05)))
              pc
    else p1 in
  (JS.le (size p2 |? 0) 0 || JS.le (rootHealth p2 |? 0) 0 || isSenescent, p2).

Definition overallHealthFactor (p : t) : Q :=
  Utils.clamp
    (((stemHealth p |? 100) + (rootHealth p |? 0) + (leafDensity p |? 0) * 100)
     / 300) 0.1 1.0.

Definition dailyProgressRate (p : t) : Q :=
  let daysToHarvestable :=
    Config.daysToHarvestableStage (properties p) |? 60 in
  if JS.gt daysToHarvestable 0
  then Config.THRESHOLDS.plantTier3Maturity / daysToHarvestable else 0.

(** The maturity gained in one tick, before it is added and clamped. *)
Definition progressThisTick (elapsedSimMinutes : Q) (h : Host) (p : t) : Q :=
  let conditionFactor :=
    Utils.clamp
      ((Soil.soilCondition (soil h) |? 0) / Config.THRESHOLDS.soilConditionGrow)
      0.1 1.2 in
  (dailyProgressRate p * (elapsedSimMinutes / (24 * 60)))
  * conditionFactor * overallHealthFactor p.

Definition _updateMaturityAndStage (elapsedSimMinutes : Q) (h : Host) (p : t)
  : t :=
  let bn := Soil.bioavailableNutrition (soil h) |? 0 in
  let p1 :=
    set_maturityProgress
      (Utils.clamp ((maturityProgress p |? 0)
                    + progressThisTick elapsedSimMinutes h p) 0 1) p in
  if (growthStage p1 <? 4)%Z then
    if JS.ge (maturityProgress p1) Config.THRESHOLDS.plantTier3Maturity then
      if JS.ge bn Config.THRESHOLDS.minNutrientsForFlowering
      then set_growthStage 3 p1
      else set_growthStage (Z.min (growthStage p1) 2) p1
    else if JS.ge (maturityProgress p1) Config.THRESHOLDS.plantTier2Maturity then
      if JS.ge bn Config.THRESHOLDS.minNutrientsForFlowering
      then set_growthStage 2 p1
      else set_growthStage (Z.min (growthStage p1) 1) p1
    else if JS.ge (maturityProgress p1) Config.THRESHOLDS.plantTier1Maturity
    then set_growthStage 1 p1
    else set_growthStage 0 p1
  else p1.

(** The banded temperature curve shared by photosynthesis and growth. *)
Definition tempBand (temp : Q) : Q :=
  if JS.lt temp Config.THRESHOLDS.minTempPlantSlowdown then 0.1
  else if JS.gt temp Config.THRESHOLDS.maxTempPlantSlowdown then
    Utils.clamp (1.0 - (temp - Config.THRESHOLDS.maxTempPlantSlowdown)
                       * Config.RATES.tempEffectOnGrowth) 0.1 1.0
  else if JS.lt temp Config.THRESHOLDS.optimalTempPlantLow then
    Utils.clamp (1.0 - (Config.THRESHOLDS.optimalTempPlantLow - temp)
                       * Config.RATES.tempEffectOnGrowth) 0.1 1.0
  else if JS.gt temp Config.THRESHOLDS.optimalTempPlantHigh then
    Utils.clamp (1.0 - (temp - Config.THRESHOLDS.optimalTempPlantHigh)
                       * Config.RATES.tempEffectOnGrowth) 0.1 1.0
  else 1.0.

Definition _calculatePhotosynthesis (h : Host) (lightFactor : Q) (p : t) : Q :=
  if JS.le lightFactor 0 || JS.le (size p |? 0) 0 then 0
  else
    let healthFactor_photo := Utils.clamp ((rootHealth p |? 0) / 100) 0.2 1.0 in
    let waterFactor :=
      Utils.clamp ((Soil.moisture (soil h) |? 0)
                   / Config.THRESHOLDS.moistureStressPhotosynthesis) 0.1 1.0 in
    let photoTempFactor := tempBand (temperature h) in
    let tierFactor := 0.5 + (inject_Z (growthStage p) / 3 * 0.5) in
    let structureFactor := (leafDensity p |? 0) * (size p |? 0) in
    let choGained :=
      Config.RATES.basePhotosynthesisRate * lightFactor * structureFactor
      * healthFactor_photo * waterFactor * photoTempFactor * tierFactor in
    JS.Math_max 0 choGained.

Definition _applyMaintenanceRespiration (h : Host) (p : t) : t :=
  let respTempFactor := Utils.clamp (temperature h / 25) 0.5 2.0 in
  let maintenanceCHOCost :=
    Config.RATES.baseRespirationRate * (size p |? 0) * respTempFactor in
  let actualMaintenanceCHOConsumed :=
    JS.Math_min (CHO p |? 0) maintenanceCHOCost in
  set_CHO (JS.Math_max 0 ((CHO p |? 0) - actualMaintenanceCHOConsumed)) p.

Definition vining : list string := ["Beans"; "Squash"; "Tomato"]%string.

(** Returns the oxygen consumed and the soil after the water and
    nutrient draws. *)
Definition _consumeResources (h : Host) (p : t) : Q * Soil.t :=
  let props := properties p in
  let baseConsumption := Config.RATES.plantConsumption * (size p |? 0) in
  let rootHealthFactor_consume :=
    Utils.clamp ((rootHealth p |? 0) / 100) 0 1.0 in
  let waterConsumed := baseConsumption * (Config.H2O_Mod props |? 1.0) in
  let soil1 := Soil.addMoisture (- waterConsumed) (soil h) in
  let bnMod := Config.BN_Mod props |? 1.0 in
  let bnMod :=
    if structure_is "Trellis" h && includes vining (type p)
    then bnMod * 0.75 else bnMod in
  let bnConsumed :=
    baseConsumption * bnMod * (rootDensity p |? 0) * rootHealthFactor_consume in
  let soil2 :=
    Soil.set_bioavailableNutrition
      (JS.Math_max 0 ((Soil.bioavailableNutrition soil1 |? 0) - bnConsumed))
      soil1 in
  let oxygenConsumed :=
    baseConsumption * (Config.O2_Mod props |? 1.0) * (rootDensity p |? 0) in
  (oxygenConsumed, soil2).

Record RecoveryInfo := mkRecoveryInfo {
  r_atpNeeded : Q;
  canRecover : bool
}.

Definition _updateHealthAndRecoveryDemand (h : Host) (p : t)
  : RecoveryInfo * t :=
  let props := properties p in
  let isLowOxygen :=
    JS.lt (Soil.oxygen (soil h) |? 100) Config.THRESHOLDS.lowOxygenForRoots in
  let isWet := JS.ge (Soil.moisture (soil h) |? 0) Config.THRESHOLDS.wet in
  let isTooHot := JS.gt (temperature h) Config.THRESHOLDS.maxTempRootDamage in
  let wetnessSensitivity := Config.wetnessSensitivity props |? 1.0 in
  let rootDamage := 0 in
  let rootDamage :=
    if isLowOxygen then rootDamage + Config.RATES.rootDamageLowOxygen
    else rootDamage in
  let rootDamage :=
    if isWet
    then rootDamage + Config.RATES.rootDamageWetness * wetnessSensitivity
    else rootDamage in
  let rootDamage :=
    if isTooHot
    then rootDamage
         + (temperature h - Config.THRESHOLDS.maxTempRootDamage)
           * Config.RATES.rootDamageHighTempFactor
    else rootDamage in
  let rootDamage :=
    if Pests.is_type "Nematodes" (pests h)
    then rootDamage
         + Config.RATES.rootDamageNematodeFactor
           * inject_Z (Pests.level (pests h))
    else rootDamage in
  let p1 :=
    set_rootHealth (Utils.clamp ((rootHealth p |? 0) - rootDamage) 0 100) p in
  let needsRecovery := JS.lt (rootHealth p1 |? 0) 100 in
  let conditionsAllowRecovery :=
    negb isLowOxygen && negb isWet && negb isTooHot in
  let atpNeededForRecovery :=
    if needsRecovery && conditionsAllowRecovery
    then Config.RATES.rootRecoveryATPCost else 0 in
  (mkRecoveryInfo atpNeededForRecovery
     (needsRecovery && conditionsAllowRecovery), p1).

(** [square.variables] carries no [windSpeed] field, so the wind read by
    this method is the fallback 0. *)
Definition _updateStemAndLeaf (h : Host) (lightFactor : Q) (p : t) : t :=
  let windSpeed := 0 in
  let nutrientFactor_dev :=
    Utils.clamp ((Soil.bioavailableNutrition (soil h) |? 0)
                 / (Config.THRESHOLDS.lowNutrientThreshold * 5)) 0.2 1.0 in
  let choFactor_dev :=
    Utils.clamp ((CHO p |? 0) / (Config.THRESHOLDS.lowCHOThreshold * 5))
                0.2 1.0 in
  let resourceFactor := nutrientFactor_dev * choFactor_dev in
  let targetStemDev := 0.5 in
  let targetStemDev :=
    if JS.lt lightFactor 0.3 then targetStemDev * 0.5
    else targetStemDev * 1.5 in
  let targetStemDev :=
    if JS.gt windSpeed Config.THRESHOLDS.windStressThreshold
    then targetStemDev * 1.3 else targetStemDev * 0.8 in
  let targetStemDev := targetStemDev * resourceFactor in
  let targetLeafDensity := 0.1 + (inject_Z (growthStage p) / 3) * 0.9 in
  let targetLeafDensity :=
    targetLeafDensity * (resourceFactor * Utils.clamp lightFactor 0.5 1.0) in
  let p1 :=
    set_stemDevelopment
      (Utils.clamp
         ((stemDevelopment p |? 0)
          + (targetStemDev - (stemDevelopment p |? 0))
            * Config.RATES.stemDevRate) 0.05 1.0) p in
  set_leafDensity
    (Utils.clamp
       ((leafDensity p1 |? 0)
        + (targetLeafDensity - (leafDensity p1 |? 0))
          * Config.RATES.leafDevRate) 0.05 1.0) p1.

Record GrowthInfo := mkGrowthInfo {
  potentialSizeChange : Q;
  g_atpNeeded : Q;
  isShrinking : bool;
  tempFactor : Q;
  g_lightFactor : Q;
  baseConditionStatus : string
}.

Definition _calculatePotentialGrowth (h : Host) (elapsedSimMinutes : Q)
    (lightFactor : Q) (p : t) : GrowthInfo :=
  let currentSoilCondition := Soil.soilCondition (soil h) |? 0 in
  let currentMoisture := Soil.moisture (soil h) |? 0 in
  let canGrowBase :=
    JS.gt currentSoilCondition Config.THRESHOLDS.soilConditionGrow
    && JS.ge currentMoisture Config.THRESHOLDS.moistureShrink in
  let isShrinking := JS.lt currentMoisture Config.THRESHOLDS.moistureShrink in
  let overallHealthFactor := overallHealthFactor p in
  let temp := temperature h in
  let netTempEffect := tempBand temp in
  let tempStatus :=
    (if JS.lt temp Config.THRESHOLDS.minTempPlantSlowdown then "too cold"
     else if JS.gt temp Config.THRESHOLDS.maxTempPlantSlowdown then "too hot!"
     else if JS.lt temp Config.THRESHOLDS.optimalTempPlantLow then "cool"
     else if JS.gt temp Config.THRESHOLDS.optimalTempPlantHigh then "warm"
     else "optimal temp")%string in
  let mitigated :=
    structure_is "Net" h && JS.gt temp Config.THRESHOLDS.optimalTempPlantHigh in
  let netTempEffect :=
    if mitigated then 1.0 - (1.0 - netTempEffect) * (1.0 - 0.6)
    else netTempEffect in
  let tempStatus :=
    (if mitigated then
       if String.eqb tempStatus "too hot!" then "hot! (Net)"
       else if String.eqb tempStatus "warm" then "warm (Net)"
       else tempStatus
     else tempStatus)%string in
  let growthTempFactor := netTempEffect in
  let '(potentialSizeChange, atpNeededForGrowth) :=
    if canGrowBase && JS.gt growthTempFactor 0.1 && JS.gt lightFactor 0.1
       && negb isShrinking
    then
      let conditionFactor :=
        Utils.clamp (currentSoilCondition / Config.THRESHOLDS.soilConditionGrow)
                    0.1 1.2 in
      let tierGrowthMultiplier := 1.0 + (inject_Z (growthStage p) * 0.5) in
      let potentialGrowthRate :=
        dailyProgressRate p * 2.5 * conditionFactor * overallHealthFactor in
      let potentialSizeChange :=
        JS.Math_max 0
          (potentialGrowthRate * growthTempFactor * tierGrowthMultiplier
           * (elapsedSimMinutes / (24 * 60))) in
      (potentialSizeChange,
       JS.Math_max 0
         (potentialSizeChange * Config.RATES.growthATPCost
          * (1 + (size p |? 0))))
    else (0, 0) in
  mkGrowthInfo potentialSizeChange atpNeededForGrowth isShrinking
    growthTempFactor lightFactor tempStatus.

Definition _generateATP (totalATPDemand : Q) (p : t) : t :=
  let choNeededForATP :=
    JS.Math_max 0 totalATPDemand
    / Config.RATES.respirationCHOToATPConversion in
  let availableCHOForATP := JS.Math_max 0 (CHO p |? 0) in
  let choToConsumeForATP := JS.Math_min choNeededForATP availableCHOForATP in
  let atpGenerated :=
    choToConsumeForATP * Config.RATES.respirationCHOToATPConversion in
  let p1 := set_CHO (JS.Math_max 0 ((CHO p |? 0) - choToConsumeForATP)) p in
  set_ATP ((ATP p1 |? 0) + atpGenerated) p1.

Definition _applyGrowthAndRecoveryCosts (growthInfo : GrowthInfo)
    (recoveryInfo : RecoveryInfo) (currentStatus : string) (h : Host) (p : t)
  : string * t :=
  let status := currentStatus in
  let currentATP := ATP p |? 0 in
  let growthCost := g_atpNeeded growthInfo |? 0 in
  let recoveryCost := r_atpNeeded recoveryInfo |? 0 in
  let canAffordRecovery := JS.ge currentATP recoveryCost in
  let '(status, p1) :=
    if canRecover recoveryInfo then
      if canAffordRecovery then
        let pa :=
          set_rootHealth
            (Utils.clamp ((rootHealth p |? 0) + Config.RATES.rootRecoveryRate)
                         0 100) p in
        (status, set_ATP (ATP pa - recoveryCost) pa)
      else
        (if negb (includes ["shrinking"; "low ATP"; "Aphids!"; "Nematodes!";
                            "senescent"; "too hot!"; "too cold"; "dark";
                            "low light"]%string status)
         then "low ATP (root)"%string else status, p)
    else (status, p) in
  let pests := pests h in
  let '(sizeChange, status, p2) :=
    if isShrinking growthInfo then
      let shrinkRate := Config.RATES.plantShrink in
      let shrinkRate :=
        if Pests.is_type "Nematodes" pests
        then shrinkRate
             + Config.RATES.pestNematodeShrinkAdd * inject_Z (Pests.level pests)
        else shrinkRate in
      let shrinkRate :=
        if Pests.is_type "Aphids" pests
        then shrinkRate
             + (Config.RATES.plantShrink / 2) * inject_Z (Pests.level pests)
        else shrinkRate in
      (- shrinkRate,
       if negb (includes ["Aphids!"; "Nematodes!"; "too hot!"]%string status)
       then "shrinking"%string else status,
       p1)
    else if JS.gt (potentialSizeChange growthInfo) 0 then
      if JS.ge (ATP p1 |? 0) growthCost then
        (potentialSizeChange growthInfo,
         if negb (includes ["shrinking"; "Aphids!"; "Nematodes!"; "hot! (Net)";
                            "warm (Net)"]%string status)
         then "growing"%string else status,
         set_ATP (ATP p1 - growthCost) p1)
      else
        (0,
         if negb (includes ["shrinking"; "low ATP (root)"; "Aphids!";
                            "Nematodes!"; "senescent"; "too hot!"; "too cold";
                            "dark"; "low light"]%string status)
         then "low ATP"%string else status,
         p1)
    else (0, status, p1) in
  let p3 :=
    set_size (Utils.clamp ((size p2 |? 0) + sizeChange) 0
                          Config.THRESHOLDS.plantMaxSize) p2 in
  let status :=
    (if Pests.is_type "Aphids" pests then "Aphids!"
     else if Pests.is_type "Nematodes" pests
             && negb (String.eqb status "shrinking")
     then "Nematodes!"
     else status)%string in
  (status, p3).

Definition _updateRootDensity (h : Host) (growthTempFactor : Q) (p : t) : t :=
  if JS.le (size p |? 0) 0 then p
  else
    let sizeFactor := size p |? 0 in
    let nutrientFactor :=
      Utils.clamp ((Soil.bioavailableNutrition (soil h) |? 0) / 50) 0.2 1.5 in
    let oxygenFactor :=
      Utils.clamp ((Soil.oxygen (soil h) |? 0) / 80) 0.2 1.2 in
    let compactionFactor :=
      Utils.clamp ((100 - (Soil.compaction (soil h) |? 50)) / 60) 0.1 1.0 in
    let rootDensityDelta :=
      Config.RATES.rootDensityGrowthBase * sizeFactor * nutrientFactor
      * oxygenFactor * compactionFactor * (growthTempFactor |? 1.0) in
    set_rootDensity
      (Utils.clamp ((rootDensity p |? 0) + rootDensityDelta)
                   Config.THRESHOLDS.minRootDensity
                   Config.THRESHOLDS.maxRootDensity) p.

(** The neighbour loop of this method is commented out in the source:
    what is left computes a local bonus factor and changes nothing. *)
Definition _applyBeanEffects (h : Host) (p : t) : t := p.

Definition _finalizeStatus (currentStatus : string) (growthInfo : GrowthInfo)
    (recoveryInfo : RecoveryInfo) (p : t) : string * t :=
  let status := currentStatus in
  let maxPotentialATPCost :=
    JS.Math_max (g_atpNeeded growthInfo |? 0) (r_atpNeeded recoveryInfo |? 0) in
  let currentATP := ATP p |? 0 in
  let currentCHO := CHO p |? 0 in
  let status :=
    (if JS.lt currentATP maxPotentialATPCost && JS.gt maxPotentialATPCost 0
        && negb (includes ["shrinking"; "Aphids!"; "Nematodes!"; "senescent";
                           "low CHO"; "dark"; "low light"; "too cold";
                           "too hot!"; "low ATP (root)"] status)
     then "low ATP" else status)%string in
  let status :=
    (if JS.lt currentCHO Config.THRESHOLDS.lowCHOThreshold
        && negb (includes ["low ATP"; "low ATP (root)"; "Aphids!";
                           "Nematodes!"; "senescent"] status)
     then "low CHO" else status)%string in
  (status,
   set_ATP (JS.Math_max 0 currentATP) (set_CHO (JS.Math_max 0 currentCHO) p)).

Record UpdateResult := mkUpdateResult {
  status : string;
  oxygenConsumed : Q
}.

(** [update(square, elapsedSimMinutes)].  [lightFactor] is the value of
    [_calculateLightFactor()], a cosine of the simulated time of day,
    which is the same at both places where the tick consults it.
    Returns the result object, the plant and the soil of the square. *)
Definition update (h : Host) (elapsedSimMinutes : Q) (lightFactor : Q) (p : t)
  : UpdateResult * t * Soil.t :=
  let p := set_lastO2Consumed 0 p in
  let p := _updateAge elapsedSimMinutes p in
  let '(finished, p) := _handleSenescence p in
  if finished then
    let p :=
      set_displayStatus
        (if JS.le (size p) 0 || JS.le (rootHealth p) 0
         then "dead" else "senescent")%string p in
    (mkUpdateResult (displayStatus p) 0, p, soil h)
  else
    let p := _updateMaturityAndStage elapsedSimMinutes h p in
    let choGained := _calculatePhotosynthesis h lightFactor p in
    let p := set_CHO ((CHO p |? 0) + choGained) p in
    let p := _applyMaintenanceRespiration h p in
    let '(o2, soil') := _consumeResources h p in
    let p := set_lastO2Consumed o2 p in
    let h := set_soil soil' h in
    let '(recoveryInfo, p) := _updateHealthAndRecoveryDemand h p in
    let p := _updateStemAndLeaf h lightFactor p in
    let growthInfo :=
      _calculatePotentialGrowth h elapsedSimMinutes lightFactor p in
    let status := baseConditionStatus growthInfo in
    let p :=
      _generateATP (g_atpNeeded growthInfo + r_atpNeeded recoveryInfo) p in
    let '(status, p) :=
      _applyGrowthAndRecoveryCosts growthInfo recoveryInfo status h p in
    let p := _updateRootDensity h (tempFactor growthInfo) p in
    let p := _applyBeanEffects h p in
    let '(status, p) := _finalizeStatus status growthInfo recoveryInfo p in
    let p := set_displayStatus status p in
    (mkUpdateResult status (lastO2Consumed p), p, soil h).

End Plant.

(** ** The source of [Math.random()] values *)
Module Rand.

Record t := mk {
  draws : nat -> Q;
  pos : nat
}.

(** One call of [Math.random()]. *)
Definition next (r : t) : Q * t :=
  (draws r (pos r), mk (draws r) (S (pos r))).

End Rand.

(** The four keys of a [connections] object, in the order in which
    [Object.entries] lists them. *)
Inductive Dir := Top | Right | Bottom | Left.

Definition allDirs : list Dir := [Top; Right; Bottom; Left].

Definition opposite (d : Dir) : Dir :=
  match d with
  | Top => Bottom
  | Bottom => Top
  | Left => Right
  | Right => Left
  end.

(** The key reached from ["x,y"] in a direction: [ny--] for top, [ny++]
    for bottom, [nx--] for left, [nx++] for right. *)
Definition step (k : Key) (d : Dir) : Key :=
  let '(x, y) := k in
  match d with
  | Top => (x, y - 1)%Z
  | Bottom => (x, y + 1)%Z
  | Left => (x - 1, y)%Z
  | Right => (x + 1, y)%Z
  end.

Definition flag (d : Dir) (c : Structure.Connections) : bool :=
  match d with
  | Top => Structure.top c
  | Right => Structure.right c
  | Bottom => Structure.bottom c
  | Left => Structure.left c
  end.

Definition set_flag (d : Dir) (v : bool) (c : Structure.Connections)
  : Structure.Connections :=
  match d with
  | Top =>
      Structure.mkConnections v (Structure.right c) (Structure.bottom c)
        (Structure.left c)
  | Right =>
      Structure.mkConnections (Structure.top c) v (Structure.bottom c)
        (Structure.left c)
  | Bottom =>
      Structure.mkConnections (Structure.top c) (Structure.right c) v
        (Structure.left c)
  | Left =>
      Structure.mkConnections (Structure.top c) (Structure.right c)
        (Structure.bottom c) v
  end.

Definition set_connections (c : Structure.Connections) (st : Structure.t)
  : Structure.t :=
  Structure.mk (Structure.type st) c (Structure.waterLevel st).

(** The global simulation variables handed to the per-square updates. *)
Record GlobalState := mkGlobalState {
  currentHumidity : Q;
  currentWindSpeed : Q;
  currentWindDirection : string;
  isPollinated : bool;
  beneficialAttractionLevel : Q;
  beePosition : Z * Z
}.

(** ** square.js *)
Module Square.

Record Display := mkDisplay {
  moistureText : string;
  plantText : string;
  statusText : string
}.

(** [variables.temperature], [variables.weeds] and [variables.pests] are
    the fields [temperature], [weeds] and [pests]. *)
Record t := mk {
  soil : Soil.t;
  temperature : Q;
  weeds : Z;
  pests : Pests.t;
  plant : option Plant.t;
  structure : option Structure.t;
  display : Display
}.

Definition set_soil (v : Soil.t) (s : t) : t :=
  mk v (temperature s) (weeds s) (pests s) (plant s) (structure s) (display s).
Definition set_temperature (v : Q) (s : t) : t :=
  mk (soil s) v (weeds s) (pests s) (plant s) (structure s) (display s).
Definition set_weeds (v : Z) (s : t) : t :=
  mk (soil s) (temperature s) v (pests s) (plant s) (structure s) (display s).
Definition set_pests (v : Pests.t) (s : t) : t :=
  mk (soil s) (temperature s) (weeds s) v (plant s) (structure s) (display s).
Definition set_plant (v : option Plant.t) (s : t) : t :=
  mk (soil s) (temperature s) (weeds s) (pests s) v (structure s) (display s).
Definition set_structure (v : option Structure.t) (s : t) : t :=
  mk (soil s) (temperature s) (weeds s) (pests s) (plant s) v (display s).
Definition set_display (v : Display) (s : t) : t :=
  mk (soil s) (temperature s) (weeds s) (pests s) (plant s) (structure s) v.
Definition set_statusText (v : string) (s : t) : t :=
  set_display
    (mkDisplay (moistureText (display s)) (plantText (display s)) v) s.

Abbreviation Grid := (gmap Key t).

(** [f] applied to the soil of the square at [k], when there is one:
    [if (neighbor?.soil) {...}]. *)
Definition onSoil (f : Soil.t -> Soil.t) (k : Key) (g : Grid) : Grid :=
  alter (fun sq => set_soil (f (soil sq)) sq) k g.

Definition updateDisplayText (s : t) : t :=
  let moistureText :=
    (if JS.ge (Soil.moisture (soil s) |? 0) Config.THRESHOLDS.wet then "wet"
     else if JS.ge (Soil.moisture (soil s) |? 0) Config.THRESHOLDS.moist
     then "moist" else "dry")%string in
  let plantText :=
    match plant s with
    | Some p => Plant.type p
    | None =>
        match structure s with
        | Some st => Structure.type st
        | None => "empty"%string
        end
    end in
  set_display (mkDisplay moistureText plantText (statusText (display s))) s.

(** [new Square(key, elementRefs, initialVariables)] *)
Definition new (temperature : Q) (weeds : Z) (pests : Pests.t) : t :=
  let soil := Soil.new Soil.noInit in
  let s :=
    mk soil temperature weeds pests None None (mkDisplay "-" "empty" "-") in
  let s := set_soil (Soil.updateDerivedVariables (Square.soil s)) s in
  let s := set_soil (Soil.updateOxygen 0 (Square.soil s)) s in
  updateDisplayText s.

(** The shading test of [updateEnvironment]: a large enough Squash on the
    square itself or on a radius-1 neighbour. *)
Definition squashModifier (k : Key) (g : Grid) : Q :=
  let '(x, y) := k in
  let checkKeys := k :: Utils.getNeighbors x y true 1 in
  if existsb
       (fun checkKey =>
          match g !! checkKey with
          | Some checkSq =>
              match plant checkSq with
              | Some p =>
                  String.eqb (Plant.type p) "Squash"
                  && JS.ge (Plant.size p |? 0) Config.THRESHOLDS.squashEffectSize
              | None => false
              end
          | None => false
          end)
       checkKeys
  then 0.5 else 1.0.

(** Returns the evaporated amount and the updated square. *)
Definition updateEnvironment_at (ambientTemp humidity wind modifier : Q)
    (s : t) : Q * t :=
  let coolingFromEvap :=
    (Soil.evaporationRate (soil s) |? 0)
    * Config.RATES.evaporationCoolingFactor in
  let coolingFromMoist :=
    if JS.ge (Soil.moisture (soil s) |? 0) Config.THRESHOLDS.moist
    then Config.RATES.moistSoilCoolingFactor else 0 in
  let s :=
    set_temperature
      (Utils.clamp (ambientTemp - coolingFromEvap - coolingFromMoist) (-10) 50)
      s in
  let '(evaporated, soil1) :=
    Soil.applyEvaporation (temperature s) humidity wind modifier (soil s) in
  let soil2 := Soil.updateDegradation soil1 in
  let soil3 := Soil.updateMicrobes (temperature s) soil2 in
  let soil4 := Soil.updatePH soil3 in
  let soil5 := Soil.updateWetDuration soil4 in
  (evaporated, set_soil soil5 s).

Definition updateEnvironment (ambientTemp humidity wind : Q) (k : Key)
    (g : Grid) : option (Q * Grid) :=
  match g !! k with
  | None => None
  | Some s =>
      let '(evaporated, s') :=
        updateEnvironment_at ambientTemp humidity wind (squashModifier k g) s in
      Some (evaporated, <[k := s']> g)
  end.

(** The two rings of an Olla at ["x,y"]. *)
Definition neighbors1 (k : Key) : list Key :=
  let '(x, y) := k in Utils.getNeighbors x y true 1.

Definition key_eqb (a b : Key) : bool :=
  ((fst a =? fst b) && (snd a =? snd b))%Z.

Definition neighbors2 (k : Key) : list Key :=
  let '(x, y) := k in
  List.filter
    (fun nk => negb (existsb (key_eqb nk) (neighbors1 k)) && negb (key_eqb nk k))
    (Utils.getNeighbors x y true 2).

Definition releasePerNeighbor1 (k : Key) (waterReleasedByOlla : Q) : Q :=
  let r1 := Config.RATES.ollaDistributionRadius1Ratio |? 0 in
  let r2 := Config.RATES.ollaDistributionRadius2Ratio |? 0 in
  let totalRatio := r1 + r2 in
  let effectiveRatio1 := if JS.gt totalRatio 0 then r1 / totalRatio else 0 in
  if (0 <? Z.of_nat (length (neighbors1 k)))%Z
  then (waterReleasedByOlla * effectiveRatio1)
       / inject_Z (Z.of_nat (length (neighbors1 k)))
  else 0.

Definition releasePerNeighbor2 (k : Key) (waterReleasedByOlla : Q) : Q :=
  let r1 := Config.RATES.ollaDistributionRadius1Ratio |? 0 in
  let r2 := Config.RATES.ollaDistributionRadius2Ratio |? 0 in
  let totalRatio := r1 + r2 in
  let effectiveRatio2 := if JS.gt totalRatio 0 then r2 / totalRatio else 0 in
  if (0 <? Z.of_nat (length (neighbors2 k)))%Z
  then (waterReleasedByOlla * effectiveRatio2)
       / inject_Z (Z.of_nat (length (neighbors2 k)))
  else 0.

(** The [addMoisture] calls of one Olla release, in order: every
    radius-1 key with its share, then every radius-2 key with its
    share. *)
Definition ollaDeliveries (k : Key) (waterReleasedByOlla : Q)
  : list (Key * Q) :=
  List.map (fun nKey => (nKey, releasePerNeighbor1 k waterReleasedByOlla))
           (neighbors1 k)
  ++ List.map (fun nKey => (nKey, releasePerNeighbor2 k waterReleasedByOlla))
              (neighbors2 k).

Definition deliver (g : Grid) (d : Key * Q) : Grid :=
  onSoil (Soil.addMoisture (snd d)) (fst d) g.

Definition distributeOllaWater (k : Key) (waterReleasedByOlla : Q) (g : Grid)
  : Grid :=
  if JS.gt waterReleasedByOlla 0
  then fold_left deliver (ollaDeliveries k waterReleasedByOlla) g
  else g.

Definition hostOf (s : t) : Plant.Host :=
  Plant.mkHost (soil s) (temperature s) (pests s) (structure s).

(** The plant part of [updateEntities] on the square itself: update,
    pollination, death check.  Returns the oxygen consumed. *)
Definition updatePlant (elapsedSimMinutes lightFactor : Q) (k : Key)
    (globalState : GlobalState) (s : t) : Q * t :=
  match plant s with
  | Some p =>
      let '(updateResult, p, soil') :=
        Plant.update (hostOf s) elapsedSimMinutes lightFactor p in
      let s := set_soil soil' s in
      let plantOxygenConsumption := Plant.oxygenConsumed updateResult |? 0 in
      let s := set_statusText (Plant.status updateResult) s in
      let beeIsOnSquare := key_eqb (beePosition globalState) k in
      let p :=
        if isPollinated globalState || beeIsOnSquare
        then Plant.set_wasPollinated true p else p in
      let s := set_plant (Some p) s in
      let s :=
        if JS.le (Plant.size p |? 0) 0 || JS.le (Plant.rootHealth p |? 0) 0
           || ((Plant.growthStage p =? 4)%Z && JS.lt (Plant.size p |? 0) 0.01)
        then set_statusText "-" (set_pests Pests.none (set_plant None s))
        else s in
      (plantOxygenConsumption, s)
  | None => (0, set_statusText "-" s)
  end.

(** The Beans donation to one neighbouring soil. *)
Definition beanDonation (props : Config.PlantProps) (bonusFactor : Q)
    (ns : Soil.t) : Soil.t :=
  let ns :=
    if Config.addsOM props then
      Soil.set_organicMatter
        (JS.Math_max 0 ((Soil.organicMatter ns |? 0)
                        + (Config.RATES.beansOMRate |? 0) * bonusFactor)) ns
    else ns in
  if Config.addsMIC props then
    Soil.set_microbes
      (Utils.clamp ((Soil.microbes ns |? 0)
                    + (Config.RATES.beansMICRate |? 0) * bonusFactor) 0 1000) ns
  else ns.

(** The Marigold suppression of one neighbour, with its random draw. *)
Definition marigoldSuppress (acc : Grid * Rand.t) (nKey : Key)
  : Grid * Rand.t :=
  let '(g, r) := acc in
  match g !! nKey with
  | Some nSq =>
      if Pests.is_type "Nematodes" (pests nSq) then
        let '(u, r) := Rand.next r in
        if JS.lt u 0.1 then
          let level := Z.max 0 (Pests.level (pests nSq) - 1) in
          let type := if (level =? 0)%Z then None else Pests.type (pests nSq) in
          (<[nKey := set_pests (Pests.mk type level) nSq]> g, r)
        else (g, r)
      else (g, r)
  | None => (g, r)
  end.

Definition neighborEffects (k : Key) (p : Plant.t) (g : Grid) (r : Rand.t)
  : Grid * Rand.t :=
  let props := Plant.properties p in
  let g :=
    if Config.addsOM props || Config.addsMIC props then
      let bonusFactor :=
        if JS.ge (Plant.rootDensity p |? 0) Config.THRESHOLDS.goodRootDensity
           && JS.ge (Plant.rootHealth p |? 0) Config.THRESHOLDS.goodRootHealth
        then 1.5 else 1.0 in
      fold_left (fun g nKey => onSoil (beanDonation props bonusFactor) nKey g)
                (neighbors1 k) g
    else g in
  if Config.suppressesNematodes props && String.eqb (Plant.type p) "Marigold"
  then fold_left marigoldSuppress (neighbors1 k) (g, r)
  else (g, r).

Definition updateEntities (elapsedSimMinutes lightFactor : Q) (k : Key)
    (globalState : GlobalState) (g : Grid) (r : Rand.t)
  : option (Grid * Rand.t) :=
  match g !! k with
  | None => None
  | Some s =>
      let '(waterReleasedByOlla, s) :=
        match structure s with
        | Some st =>
            let '(w, st') := Structure.update st in
            (w, set_structure (Some st') s)
        | None => (0, s)
        end in
      let g := distributeOllaWater k waterReleasedByOlla (<[k := s]> g) in
      let '(plantOxygenConsumption, s) :=
        updatePlant elapsedSimMinutes lightFactor k globalState s in
      let g := <[k := s]> g in
      let '(g, r) :=
        match plant s with
        | Some p => neighborEffects k p g r
        | None => (g, r)
        end in
      Some (onSoil (Soil.updateOxygen plantOxygenConsumption) k g, r)
  end.

(** The neighbours a weed may spread to under a wind direction. *)
Definition downwindNeighbors (windDirection : string) (k : Key) : list Key :=
let '(x, y) := k in
let neighbors := Utils.getNeighbors x y true 1 in
if String.eqb windDirection "N"
then List.filter (fun nKey => (y <? snd nKey)%Z) neighbors
else if String.eqb windDirection "E"
then List.filter (fun nKey => (fst nKey <? x)%Z) neighbors
else if String.eqb windDirection "S"
then List.filter (fun nKey => (snd nKey <? y)%Z) neighbors
else if String.eqb windDirection "W"
then List.filter (fun nKey => (x <? fst nKey)%Z) neighbors
else neighbors.

(** [list[Math.floor(u * list.length)]], undefined outside the list. *)
Definition pick {A : Type} (u : Q) (l : list A) : option A :=
let i := Qfloor (u * inject_Z (Z.of_nat (length l))) in
if (i <? 0)%Z then None else nth_error l (Z.to_nat i).

(** The spread step of [updateWeeds], entered with [currentWeeds === 4]. *)
Definition spreadWeeds (k : Key) (globalState : GlobalState) (g : Grid)
  (r : Rand.t) : Grid * Rand.t :=
let '(u, r) := Rand.next r in
if JS.lt u Config.RATES.weedSpreadChance then
  let downwind := downwindNeighbors (currentWindDirection globalState) k in
  if (0 <? Z.of_nat (length downwind))%Z then
    let '(u', r) := Rand.next r in
    match pick u' downwind with
    | Some targetNeighborKey =>
        match g !! targetNeighborKey with
        | Some neighborSquare =>
            if (weeds neighborSquare =? 0)%Z
               && negb (isSome (plant neighborSquare))
               && negb (isSome (structure neighborSquare))
            then (<[targetNeighborKey := set_weeds 1 neighborSquare]> g, r)
            else (g, r)
        | None => (g, r)
        end
    | None => (g, r)
    end
  else (g, r)
else (g, r).

Definition updateWeeds (k : Key) (globalState : GlobalState) (g : Grid)
  (r : Rand.t) : option (Grid * Rand.t) :=
match g !! k with
| None => None
| Some s =>
    let currentWeeds := weeds s in
    let '(s, r) :=
      if ((0 <? currentWeeds) && (currentWeeds <? 4))%Z then
        let '(u, r) := Rand.next r in
        if JS.lt u Config.RATES.weedGrowthChance
        then (set_weeds (weeds s + 1)%Z s, r) else (s, r)
      else (s, r) in
    let s :=
      if (0 <? currentWeeds)%Z then
        let nutrientSap :=
          Config.RATES.weedNutrientSapRate * inject_Z currentWeeds in
        set_soil
          (Soil.set_bioavailableNutrition
             (JS.Math_max 0
                ((Soil.bioavailableNutrition (soil s) |? 0) - nutrientSap))
             (soil s)) s
      else s in
    let g := <[k := s]> g in
    if (currentWeeds =? 4)%Z then Some (spreadWeeds k globalState g r)
    else Some (g, r)
end.

(** The "Pest Spawning" and "Pest Level Up" part of [updatePests];
    [isMarigoldNear] is its reading of the neighbours. *)
Definition pestSpawnOrLevelUp (isMarigoldNear : bool)
  (globalState : GlobalState) (s : t) (r : Rand.t) : t * Rand.t :=
let pests0 := pests s in
if negb (Pests.present pests0) then
  let hasPlant := isSome (plant s) in
  let spawnChanceAphids := Config.RATES.pestSpawnBaseChance in
  let spawnChanceAphids :=
    if hasPlant then
      if JS.gt (Soil.moisture (soil s) |? 0) Config.THRESHOLDS.pestSpawnMoisture
         || JS.gt (currentHumidity globalState)
                  Config.THRESHOLDS.pestSpawnHumidity
      then spawnChanceAphids * 2 else spawnChanceAphids
    else 0 in
  let selfMarigold :=
    match plant s with
    | Some p => String.eqb (Plant.type p) "Marigold"
    | None => false
    end in
  let nematodeSuppressionFactor :=
    if selfMarigold || isMarigoldNear then 0.1 else 1.0 in
  let '(spawnChanceNematodes, spawnChanceAphids) :=
    if (Config.THRESHOLDS.nematodeWetDuration <=? Soil.wetDuration (soil s))%Z
       && JS.lt (Soil.microbes (soil s) |? 0)
                Config.THRESHOLDS.highMicrobesForNematodeDefense
    then (Config.RATES.pestSpawnBaseChance * 3 * nematodeSuppressionFactor,
          if hasPlant then spawnChanceAphids * 0.3 else spawnChanceAphids)
    else (0, spawnChanceAphids) in
  let '(u, r) := Rand.next r in
  if JS.lt u spawnChanceNematodes
  then (set_pests (Pests.mk (Some "Nematodes"%string) 1) s, r)
  else
    let '(u', r) := Rand.next r in
    if JS.lt u' spawnChanceAphids
    then (set_pests (Pests.mk (Some "Aphids"%string) 1) s, r)
    else (s, r)
else
  let levelUpChance := Config.RATES.pestLevelUpChance in
  let levelUpChance :=
    if Pests.is_type "Aphids" pests0
       && match structure s with
          | Some st => String.eqb (Structure.type st) "Net"
          | None => false
          end
    then levelUpChance * 0.3 else levelUpChance in
  if (Pests.level pests0 <? 4)%Z then
    let '(u, r) := Rand.next r in
    if JS.lt u levelUpChance
    then (set_pests (Pests.mk (Pests.type pests0) (Pests.level pests0 + 1)) s,
          r)
    else (s, r)
  else (s, r).

(** The ladybeetle step of "Pest Removal / Control". *)
Definition ladybeetleRemoval (globalState : GlobalState) (s : t) (r : Rand.t)
  : t * Rand.t :=
if Pests.is_type "Aphids" (pests s)
   && JS.ge (beneficialAttractionLevel globalState)
            Config.THRESHOLDS.beneficialAttractionThreshold
then
  let removalChance :=
    Utils.clamp (beneficialAttractionLevel globalState / 10) 0 1
    * Config.RATES.ladybeetleAphidRemovalChanceFactor in
  let '(u, r) := Rand.next r in
  if JS.lt u removalChance then
    let level := Z.max 0 (Pests.level (pests s) - 1) in
    let type := if (level =? 0)%Z then None else Pests.type (pests s) in
    (set_pests (Pests.mk type level) s, r)
  else (s, r)
else (s, r).

(** The microbe defence step of "Pest Removal / Control". *)
Definition microbeDefense (s : t) (r : Rand.t) : t * Rand.t :=
if Pests.is_type "Nematodes" (pests s)
   && JS.gt (Soil.microbes (soil s) |? 0)
            Config.THRESHOLDS.highMicrobesForNematodeDefense
then
  let '(u, r) := Rand.next r in
  if JS.lt u 0.2 then (set_pests Pests.none s, r) else (s, r)
else (s, r).

(** "Pest Removal / Control", entered when the tick started with a pest. *)
Definition pestRemoval (globalState : GlobalState) (s : t) (r : Rand.t)
  : t * Rand.t :=
let '(s, r) := ladybeetleRemoval globalState s r in
let '(s, r) := microbeDefense s r in
let s :=
  if negb (isSome (plant s)) then set_pests Pests.none s
  else s in
(s, r).

(** [updatePests] on the square itself.  The local [pests] of the source
    is an alias of [variables.pests]: it follows the in-place level
    changes and keeps the old object when [variables.pests] is replaced by
    a new one, so the removal part is entered exactly when the tick
    started with a pest, and then reads the current entry. *)
Definition updatePests_at (isMarigoldNear : bool) (globalState : GlobalState)
  (s : t) (r : Rand.t) : t * Rand.t :=
let pests0 := pests s in
let '(s, r) := pestSpawnOrLevelUp isMarigoldNear globalState s r in
if Pests.present pests0 then pestRemoval globalState s r else (s, r).

Definition isMarigoldNear (k : Key) (g : Grid) : bool :=
existsb
  (fun nKey =>
     match g !! nKey with
     | Some nSq =>
         match plant nSq with
         | Some p => String.eqb (Plant.type p) "Marigold"
         | None => false
         end
     | None => false
     end)
  (neighbors1 k).

Definition updatePests (k : Key) (globalState : GlobalState) (g : Grid)
  (r : Rand.t) : option (Grid * Rand.t) :=
match g !! k with
| None => None
| Some s =>
    let '(s', r) := updatePests_at (isMarigoldNear k g) globalState s r in
    Some (<[k := s']> g, r)
end.

(** *** Action methods *)

Definition addWater (k : Key) (g : Grid) : option (bool * Grid) :=
match g !! k with
| None => None
| Some s =>
    let isOlla :=
      match structure s with
      | Some st => String.eqb (Structure.type st) "Olla"
      | None => false
      end in
    let '(splash, s) :=
      match structure s with
      | Some st =>
          if String.eqb (Structure.type st) "Olla" then
            let level := default 0 (Structure.waterLevel st) in
            let waterNeeded :=
              (Config.THRESHOLDS.ollaMaxWater |? 200) - (level |? 0) in
            let waterAdded :=
              JS.Math_min ((Config.RATES.waterMoistureAdd |? 7) * 4)
                          waterNeeded in
            (0,
             set_structure
               (Some (Structure.mk (Structure.type st)
                        (Structure.connections st)
                        (Some (level + waterAdded)))) s)
          else
            let waterAmount := Config.RATES.waterMoistureAdd |? 7 in
            let s := set_soil (Soil.addMoisture waterAmount (soil s)) s in
            let s :=
              set_soil
                (Soil.set_compaction
                   (Utils.clamp
                      ((Soil.compaction (soil s) |? 0)
                       + (Config.RATES.waterCompactionAdd |? 0.5))
                      0 Config.THRESHOLDS.compactionMax) (soil s)) s in
            let s :=
              set_temperature
                (JS.Math_max 0
                   ((temperature s |? 20)
                    - (Config.RATES.wateringCooling |? 0.5))) s in
            (waterAmount * 0.20, s)
      | None =>
          let waterAmount := Config.RATES.waterMoistureAdd |? 7 in
          let s := set_soil (Soil.addMoisture waterAmount (soil s)) s in
          let s :=
            set_soil
              (Soil.set_compaction
                 (Utils.clamp
                    ((Soil.compaction (soil s) |? 0)
                     + (Config.RATES.waterCompactionAdd |? 0.5))
                    0 Config.THRESHOLDS.compactionMax) (soil s)) s in
          let s :=
            set_temperature
              (JS.Math_max 0
                 ((temperature s |? 20)
                  - (Config.RATES.wateringCooling |? 0.5))) s in
          (waterAmount * 0.20, s)
      end in
    let g := <[k := s]> g in
    let g :=
      if JS.gt splash 0
      then fold_left (fun g nk => onSoil (Soil.addMoisture splash) nk g)
                     (neighbors1 k) g
      else g in
    Some (true, onSoil Soil.updateDerivedVariables k g)
end.

(** Returns whether the action succeeded, and the square. *)
Definition addAmendment (type : string) (s : t) : bool * t :=
let soil0 := soil s in
if String.eqb type "compost" then
  let soil1 :=
    Soil.set_organicMatter
      ((Soil.organicMatter soil0 |? 0) + (Config.RATES.compostOM |? 0)) soil0 in
  let soil2 :=
    Soil.set_microbes
      (Utils.clamp ((Soil.microbes soil1 |? 0)
                    + (Config.RATES.compostMicrobeAdd |? 0)) 0 1000) soil1 in
  let soil3 := Soil.addMoisture (Config.RATES.compostMoistureAdd |? 0) soil2 in
  (true, set_soil (Soil.updateDerivedVariables soil3) s)
else if String.eqb type "crh" then
  let soil1 := Soil.addMoisture (- (Config.RATES.crhMoistureReduce |? 0)) soil0 in
  let soil2 :=
    Soil.set_compaction
      (Utils.clamp ((Soil.compaction soil1 |? 0)
                    - (Config.RATES.crhCompactionReduce |? 0))
                   0 Config.THRESHOLDS.compactionMax) soil1 in
  let soil3 :=
    Soil.set_organicMatter
      ((Soil.organicMatter soil2 |? 0) + (Config.RATES.crhOmAdd |? 0)) soil2 in
  let soil4 :=
    Soil.set_pH
      (Utils.clamp ((Soil.pH soil3 |? 7.0) + (Config.RATES.crhPhIncrease |? 0))
                   Config.THRESHOLDS.phMin Config.THRESHOLDS.phMax) soil3 in
  (true, set_soil (Soil.updateDerivedVariables soil4) s)
else if String.eqb type "sand" then
  let soil1 := Soil.addMoisture (- (Config.RATES.sandMoistureReduce |? 0)) soil0 in
  (true, set_soil (Soil.updateDerivedVariables soil1) s)
else (false, s).

(** The loop of [till] and [removeEntity] over the entries of the local
    [connections]: each set flag clears the opposite flag of the
    structure found in that direction. *)
Definition clearNeighborFlag (k : Key) (c : Structure.Connections)
  (g : Grid) (dir : Dir) : Grid :=
if flag dir c then
  let nKey := step k dir in
  match g !! nKey with
  | Some neighborSq =>
      match structure neighborSq with
      | Some nst =>
          if flag (opposite dir) (Structure.connections nst) then
            <[nKey :=
                set_structure
                  (Some (set_connections
                           (set_flag (opposite dir) false
                              (Structure.connections nst)) nst))
                  neighborSq]> g
          else g
      | None => g
      end
  | None => g
  end
else g.

Definition clearNeighborFlags (k : Key) (c : Structure.Connections) (g : Grid)
  : Grid :=
fold_left (clearNeighborFlag k c) allDirs g.

Record TillResult := mkTillResult {
  tilled : bool;
  removed : list string
}.

Definition till (k : Key) (g : Grid) : option (TillResult * Grid) :=
match g !! k with
| None => None
| Some s =>
    let soil1 :=
      Soil.set_compaction
        (JS.Math_max 0 ((Soil.compaction (soil s) |? 0)
                        - (Config.RATES.tillCompactionReduce |? 0))) (soil s) in
    let soil2 :=
      Soil.set_microbes
        (JS.Math_max 0 ((Soil.microbes soil1 |? 0)
                        - (Config.RATES.tillMicrobesReduce |? 0))) soil1 in
    let s := set_soil soil2 s in
    let '(removedItems, s) :=
      if (0 <? weeds s)%Z then (["weeds"%string], set_weeds 0 s) else ([], s) in
    let '(removedItems, s, g) :=
      match structure s with
      | Some st =>
          if String.eqb (Structure.type st) "Trellis"
             || String.eqb (Structure.type st) "Net"
          then (removedItems ++ [Structure.type st],
                set_structure None s,
                clearNeighborFlags k (Structure.connections st) g)
          else (removedItems, s, g)
      | None => (removedItems, s, g)
      end in
    let s := set_soil (Soil.updateDerivedVariables (soil s)) s in
    Some (mkTillResult true removedItems, <[k := s]> g)
end.

Definition applyNeem (s : t) : bool * t :=
if Pests.is_type "Aphids" (pests s) then (true, set_pests Pests.none s)
else (false, s).

Definition applySoilConditioner (s : t) : bool * t :=
let soil' :=
  Soil.new
    (Soil.mkInit (Some 70) None (Some 30) (Some 80) None (Some 20) (Some 80)
                 (Some 6.5) None None (Some 0%Z)) in
let s := set_soil soil' s in
let s := set_weeds 0 s in
let s := set_pests Pests.none s in
let s := set_soil (Soil.updateDerivedVariables (soil s)) s in
let s := set_soil (Soil.updateOxygen 0 (soil s)) s in
(true, updateDisplayText s).

(** The result object of [harvestPlant]; absent fields are [None]. *)
Record HarvestResult := mkHarvestResult {
  harvested : bool;
  yield : option Q;
  value : option Q;
  h_type : option string;
  reason : option string
}.

Definition earlyHarvest : list string := ["Flower"; "Marigold"; "Basil"]%string.

Definition harvestableStage (p : Plant.t) : Z :=
if includes earlyHarvest (Plant.type p) then 2 else 3.

Definition requiresPollination (p : Plant.t) : bool :=
JS.gt (Config.maxYield (Plant.properties p) |? 0) 0
|| includes Plant.vining (Plant.type p).

Definition harvestPlant (s : t) : HarvestResult * t :=
match plant s with
| None => (mkHarvestResult false None None None (Some "empty"%string), s)
| Some plant =>
    let plantProps := Plant.properties plant in
    if (Plant.growthStage plant =? 4)%Z then
      (mkHarvestResult false None None (Some (Plant.type plant))
         (Some "senescent"%string), s)
    else
      let harvestableStage := harvestableStage plant in
      let requiresPollination := requiresPollination plant in
      if (harvestableStage <=? Plant.growthStage plant)%Z
         && (negb requiresPollination || Plant.wasPollinated plant)
      then
        let soilCondFactor :=
          Utils.clamp ((Soil.soilCondition (soil s) |? 0) / 100) 0 1 in
        let rootHealthFactor :=
          Utils.clamp ((Plant.rootHealth plant |? 0) / 100) 0 1 in
        let potentialYieldFactor :=
          Utils.clamp ((soilCondFactor + rootHealthFactor) / 2) 0 1 in
        let potentialYieldFactor :=
          if match structure s with
             | Some st => String.eqb (Structure.type st) "Trellis"
             | None => false
             end && includes Plant.vining (Plant.type plant)
          then JS.Math_min 1.0 (potentialYieldFactor * 1.3)
          else potentialYieldFactor in
        let potentialYieldFactor :=
          if Pests.present (pests s)
          then potentialYieldFactor
               * (1 - (Config.RATES.pestYieldFactorReduction |? 0))
          else potentialYieldFactor in
        let harvestedYield :=
          JS.Math_max 0
            (JS.Math_round ((Config.maxYield plantProps |? 0)
                            * potentialYieldFactor)) in
        let harvestedYield :=
          if Qeq_bool (Config.maxYield plantProps) 0
             && Qeq_bool harvestedYield 0
             && includes earlyHarvest (Plant.type plant)
          then 1 else harvestedYield in
        let moneyEarned := harvestedYield * (Config.price plantProps |? 0) in
        let s := set_statusText "-" (set_plant None s) in
        (mkHarvestResult true (Some harvestedYield) (Some moneyEarned)
           (Some (Plant.type plant)) None, s)
      else
        let reason :=
          ("stage " ++ pretty (Plant.growthStage plant))%string in
        let reason :=
          if (Plant.growthStage plant <? harvestableStage)%Z
          then "immature"%string else reason in
        let reason :=
          if requiresPollination && negb (Plant.wasPollinated plant)
          then "unpollinated"%string else reason in
        (mkHarvestResult false None None (Some (Plant.type plant))
           (Some reason), s)
end.

Definition removeEntity (k : Key) (g : Grid) : option (option string * Grid) :=
match g !! k with
| None => None
| Some s =>
    let '(removed, s, g) :=
      match plant s with
      | Some p =>
          (Some (Plant.type p), set_statusText "-" (set_plant None s), g)
      | None =>
          match structure s with
          | Some st =>
              let removed := Structure.type st in
              let g :=
                if String.eqb removed "Trellis" || String.eqb removed "Net"
                then clearNeighborFlags k (Structure.connections st) g
                else g in
              (Some removed, set_structure None s, g)
          | None => (None, s, g)
          end
      end in
    Some (removed, <[k := updateDisplayText s]> g)
end.

(** [new Plant] never throws, so the [catch] arm of the source is never
    taken. *)
Definition tryPlanting (plantType : string) (s : t) : bool * t :=
match plant s, structure s with
| None, None => (true, updateDisplayText (set_plant (Some (Plant.new plantType)) s))
| _, _ => (false, s)
end.

(** One adjacent structure of the placed type, connected both ways. *)
Definition connectNeighbor (k : Key)
  (acc : Structure.Connections * Grid) (nKey : Key)
  : Structure.Connections * Grid :=
let '(c, g) := acc in
let '(x, y) := k in
let '(nx, ny) := nKey in
match g !! nKey with
| Some neighborSq =>
    match structure neighborSq with
    | Some nst =>
        let nc := Structure.connections nst in
        let '(c, nc) :=
          if (ny <? y)%Z then (set_flag Top true c, set_flag Bottom true nc)
          else if (y <? ny)%Z then (set_flag Bottom true c, set_flag Top true nc)
          else (c, nc) in
        let '(c, nc) :=
          if (nx <? x)%Z then (set_flag Left true c, set_flag Right true nc)
          else if (x <? nx)%Z then (set_flag Right true c, set_flag Left true nc)
          else (c, nc) in
        (c, <[nKey := set_structure (Some (set_connections nc nst)) neighborSq]> g)
    | None => (c, g)
    end
| None => (c, g)
end.

(** [userConfirmed] is the answer of the [confirm()] dialog, which is
    asked only when an adjacent structure of the same type exists. *)
Definition tryAddingStructure (structureType : string) (userConfirmed : bool)
  (k : Key) (g : Grid) : option (bool * Grid) :=
match g !! k with
| None => None
| Some s =>
    if negb (JS.truthy (JS.get Config.STRUCTURE_INFO structureType))
    then Some (false, g)
    else if isSome (plant s) || isSome (structure s)
    then Some (false, g)
    else
      let newStructure := Structure.new structureType in
      if String.eqb structureType "Trellis" || String.eqb structureType "Net"
      then
        let adjacentActiveNeighbors :=
          List.filter
            (fun nKey =>
               match g !! nKey with
               | Some neighborSq =>
                   match structure neighborSq with
                   | Some nst => String.eqb (Structure.type nst) structureType
                   | None => false
                   end
               | None => false
               end)
            (neighbors1 k) in
        if (0 <? Z.of_nat (length adjacentActiveNeighbors))%Z then
          if userConfirmed then
            let '(c, g) :=
              fold_left (connectNeighbor k) adjacentActiveNeighbors
                        (Structure.connections newStructure, g) in
            let s := set_structure (Some (set_connections c newStructure)) s in
            Some (true, <[k := updateDisplayText s]> g)
          else
            let s := set_structure (Some newStructure) s in
            Some (true, <[k := updateDisplayText s]> g)
        else
          let s := set_structure (Some newStructure) s in
          Some (true, <[k := updateDisplayText s]> g)
      else
        let s := set_structure (Some newStructure) s in
        Some (true, <[k := updateDisplayText s]> g)
end.

End Square.

(** ** main.js: the pass of [updateAllSquares] over the squares *)
Module Main.

(** The insertion order of the grid map, which [forEach] follows: rows
    outside, columns inside. *)
Definition gridKeys : list Key :=
flat_map (fun y => List.map (fun x => (x, y))
                            (Utils.range 0 (Config.GRID_COLS - 1)))
         (Utils.range 0 (Config.GRID_ROWS - 1)).

(** The aggregators of a tick together with the grid and the draws. *)
Record Pass := mkPass {
  totalGridEvaporation : Q;
  currentBeneficialAttraction : Q;
  grid : Square.Grid;
  rand : Rand.t
}.

(** Steps 4a to 4e of [updateAllSquares] for the square at [k]. *)
Definition updateSquare (ambientTemperature elapsedSimMinutes lightFactor : Q)
  (globalState : GlobalState) (acc : Pass) (k : Key) : Pass :=
match Square.updateEnvironment ambientTemperature
        (currentHumidity globalState) (currentWindSpeed globalState)
        k (grid acc) with
| None => acc
| Some (evaporated, g) =>
    match Square.updateEntities elapsedSimMinutes lightFactor k globalState g
            (rand acc) with
    | None => acc
    | Some (g, r) =>
        match Square.updateWeeds k globalState g r with
        | None => acc
        | Some (g, r) =>
            match Square.updatePests k globalState g r with
            | None => acc
            | Some (g, r) =>
                let gain :=
                  match g !! k with
                  | Some s =>
                      match Square.plant s with
                      | Some p =>
                          if Config.attractsBeneficials (Plant.properties p)
                             && JS.ge (Plant.maturityProgress p |? 0)
                                  Config.THRESHOLDS.plantMaturityForBeneficials
                          then Config.RATES.beneficialAttractionGain |? 0
                          else 0
                      | None => 0
                      end
                  | None => 0
                  end in
                let g :=
                  alter (fun s =>
                           Square.updateDisplayText
                             (Square.set_soil
                                (Soil.updateDerivedVariables (Square.soil s)) s))
                        k g in
                mkPass (totalGridEvaporation acc + evaporated)
                       (currentBeneficialAttraction acc + gain) g r
            end
        end
    end
end.

Definition updateSquares (ambientTemperature elapsedSimMinutes lightFactor : Q)
  (globalState : GlobalState) (g : Square.Grid) (r : Rand.t) : Pass :=
fold_left (updateSquare ambientTemperature elapsedSimMinutes lightFactor
             globalState)
          gridKeys (mkPass 0 0 g r).

(** *** The bee *)

(** [updateBee].  [preferred] is the outcome of the test that sorts a
    neighbour into [preferredNeighbors]; the test reads the identifier
    [Config], which main.js binds only inside [updateWeather], so its
    outcome is an input here.  The first draw is made only when a
    preferred neighbour exists. *)
Definition updateBee (preferred : Key -> bool) (g : Square.Grid)
  (beePosition : Key) (r : Rand.t) : Key * Rand.t :=
if (size g =? 0)%nat then (beePosition, r)
else
  let '(x, y) := beePosition in
  let neighbors := Utils.getNeighbors x y true 1 in
  let preferredNeighbors := List.filter preferred neighbors in
  let anyNeighbor (r : Rand.t) : option Key * Rand.t :=
    if (0 <? Z.of_nat (length neighbors))%Z then
      let '(u, r) := Rand.next r in (Square.pick u neighbors, r)
    else (None, r) in
  let '(nextKey, r) :=
    if (0 <? Z.of_nat (length preferredNeighbors))%Z then
      let '(u, r) := Rand.next r in
      if JS.lt u 0.7 then
        let '(u', r) := Rand.next r in
        (Square.pick u' preferredNeighbors, r)
      else anyNeighbor r
    else anyNeighbor r in
  match nextKey with
  | Some nk => (nk, r)
  | None => (beePosition, r)
  end.

(** *** Initialisation *)

(** The callback of [initializeGridDOM] for one key: a draw decides the
    initial weed, and the square starts pest-free at the ambient
    temperature. *)
Definition createSquare (ambientTemperature : Q) (acc : Square.Grid * Rand.t)
  (k : Key) : Square.Grid * Rand.t :=
let '(g, r) := acc in
let '(u, r) := Rand.next r in
let weeds := if JS.lt u (Config.INITIAL_WEED_CHANCE |? 0) then 1%Z else 0%Z in
(<[k := Square.new ambientTemperature weeds Pests.none]> g, r).

(** The grid built by [initializeGrid]. *)
Definition initializeGrid (ambientTemperature : Q) (r : Rand.t)
  : Square.Grid * Rand.t :=
fold_left (createSquare ambientTemperature) gridKeys (∅, r).

(** *** The player's actions *)

(** [Object.keys(SimulationConfig.PLANT_PROPERTIES)]. *)
Definition plantTypes : list string :=
["Test"; "Corn"; "Beans"; "Squash"; "Tomato"; "Basil"; "Flower";
 "Marigold"]%string.

(** What the event handlers read and write: the grid, the money and the
    cumulative yield per plant type of the harvest table (its [price]
    fields are copies of the configuration that the handlers never
    read). *)
Record Game := mkGame {
  squareState : Square.Grid;
  playerMoney : Q;
  harvestData : gmap string Q
}.

(** [initializeHarvestData]: every configured type at yield 0. *)
Definition initializeHarvestData : gmap string Q :=
list_to_map (List.map (fun plantType => (plantType, 0)) plantTypes).

(** The table update after a successful harvest: a missing entry resets
    the whole table first.  [false] stands for the [TypeError] of reading
    [yield] of an entry that is still missing; the table reached at that
    point is returned with it.  Under the name of an inherited member the
    lookup is truthy and the yield is added on that member, outside the
    entries of the table. *)
Definition recordHarvest (type : string) (harvestedYield : Q)
  (hd : gmap string Q) : gmap string Q * bool :=
let hd :=
  if JS.truthy (JS.get (fun key => hd !! key) type) then hd
  else initializeHarvestData in
match JS.get (fun key => hd !! key) type with
| JS.Own y => (<[type := y + harvestedYield]> hd, true)
| JS.Inherited => (hd, true)
| JS.Undefined => (hd, false)
end.

(** A method of the clicked square that touches this square only. *)
Definition onSquare (f : Square.t -> bool * Square.t) (k : Key)
  (s : Square.t) (game : Game) : Game :=
mkGame (<[k := snd (f s)]> (squareState game)) (playerMoney game)
       (harvestData game).

(** A method of the clicked square that also reaches its neighbours. *)
Definition onGrid {A : Type} (f : Key -> Square.Grid -> option (A * Square.Grid))
  (k : Key) (game : Game) : Game :=
match f k (squareState game) with
| Some (_, g) => mkGame g (playerMoney game) (harvestData game)
| None => game
end.

(** [handleSquareClick] on the square at [k].  [currentMode] is the
    selected action, [plantTypeValue] the value of the plant selector and
    [userConfirmed] the answer of the connection dialog.  A [TypeError]
    of the harvest bookkeeping ends the handler before the money is
    paid out. *)
Definition handleSquareClick (currentMode plantTypeValue : string)
  (userConfirmed : bool) (k : Key) (game : Game) : Game :=
match squareState game !! k with
| None => game
| Some sqInstance =>
    if String.eqb currentMode "plant" then
      onSquare (Square.tryPlanting plantTypeValue) k sqInstance game
    else if String.eqb currentMode "water" then
      onGrid Square.addWater k game
    else if String.eqb currentMode "add_compost" then
      onSquare (Square.addAmendment "compost") k sqInstance game
    else if String.eqb currentMode "add_crh" then
      onSquare (Square.addAmendment "crh") k sqInstance game
    else if String.eqb currentMode "add_sand" then
      onSquare (Square.addAmendment "sand") k sqInstance game
    else if String.eqb currentMode "add_olla" then
      onGrid (Square.tryAddingStructure "Olla" userConfirmed) k game
    else if String.eqb currentMode "add_trellis" then
      onGrid (Square.tryAddingStructure "Trellis" userConfirmed) k game
    else if String.eqb currentMode "add_net" then
      onGrid (Square.tryAddingStructure "Net" userConfirmed) k game
    else if String.eqb currentMode "till" then
      onGrid Square.till k game
    else if String.eqb currentMode "apply_neem" then
      onSquare Square.applyNeem k sqInstance game
    else if String.eqb currentMode "shop" then
      let costSC := Config.SHOP_COSTS.soilConditioner |? 0 in
      if JS.ge (playerMoney game) costSC then
        let moneySpent := costSC in
        let game := onSquare Square.applySoilConditioner k sqInstance game in
        if JS.gt moneySpent 0
        then mkGame (squareState game) (playerMoney game - moneySpent)
                    (harvestData game)
        else game
      else game
    else if String.eqb currentMode "harvest" then
      let '(actionResult, s) := Square.harvestPlant sqInstance in
      let g := <[k := s]> (squareState game) in
      if Square.harvested actionResult then
        let '(hd, ok) :=
          recordHarvest (default ""%string (Square.h_type actionResult))
                        (default 0 (Square.yield actionResult))
                        (harvestData game) in
        if ok then
          mkGame g (playerMoney game + default 0 (Square.value actionResult)) hd
        else mkGame g (playerMoney game) hd
      else mkGame g (playerMoney game) (harvestData game)
    else if String.eqb currentMode "remove" then
      onGrid Square.removeEntity k game
    else game
end.

(** The running state of the mass harvest loop; [running] is cleared by
    the [TypeError] that ends the handler. *)
Record MassHarvest := mkMassHarvest {
  m_grid : Square.Grid;
  m_harvestData : gmap string Q;
  totalValueGained : Q;
  harvestedCount : Z;
  running : bool
}.

Definition massHarvestSquare (acc : MassHarvest) (k : Key) : MassHarvest :=
if running acc then
  match m_grid acc !! k with
  | None => acc
  | Some sqInstance =>
      let '(harvestResult, s) := Square.harvestPlant sqInstance in
      let g := <[k := s]> (m_grid acc) in
      if Square.harvested harvestResult then
        let '(hd, ok) :=
          recordHarvest (default ""%string (Square.h_type harvestResult))
                        (default 0 (Square.yield harvestResult))
                        (m_harvestData acc) in
        if ok then
          mkMassHarvest g hd
            (totalValueGained acc + default 0 (Square.value harvestResult))
            (harvestedCount acc + 1) true
        else
          mkMassHarvest g hd (totalValueGained acc) (harvestedCount acc) false
      else
        mkMassHarvest g (m_harvestData acc) (totalValueGained acc)
                      (harvestedCount acc) true
  end
else acc.

(** The click handler of the mass harvest button. *)
Definition massHarvest (game : Game) : Game :=
let acc :=
  fold_left massHarvestSquare gridKeys
            (mkMassHarvest (squareState game) (harvestData game) 0 0 true) in
if running acc && (0 <? harvestedCount acc)%Z
then mkGame (m_grid acc) (playerMoney game + totalValueGained acc)
            (m_harvestData acc)
else mkGame (m_grid acc) (playerMoney game) (m_harvestData acc).

(** The click handler of the mass neem button. *)
Definition buyMassNeem (game : Game) : Game :=
let cost := Config.SHOP_COSTS.massNeem |? 0 in
if JS.ge (playerMoney game) cost then
  mkGame ((fun state => snd (Square.applyNeem state)) <$> squareState game)
         (playerMoney game - cost) (harvestData game)
else game.

(** The click handler of the mass weeding button. *)
Definition buyMassWeed (game : Game) : Game :=
let cost := Config.SHOP_COSTS.massWeed |? 0 in
if JS.ge (playerMoney game) cost then
  mkGame ((fun state =>
             if (0 <? Square.weeds state)%Z then Square.set_weeds 0 state
             else state) <$> squareState game)
         (playerMoney game - cost) (harvestData game)
else game.

(** The state that [initializeGrid] hands to the event handlers: the new
    grid, the starting money and the reset harvest table. *)
Definition newGame (ambientTemperature : Q) (r : Rand.t) : Game :=
mkGame (fst (initializeGrid ambientTemperature r)) Config.STARTING_MONEY
       initializeHarvestData.

End Main.

(** * Vocabulary of the statements *)

(** The two lifecycle fields of a plant. *)
Definition lifecycle (p : Plant.t) : Z * Q :=
(Plant.growthStage p, Plant.maturityProgress p).

(** The first three steps of [Plant.update]: age, senescence, maturity and
    stage. *)
Definition staged (h : Plant.Host) (e : Q) (p : Plant.t) : Plant.t :=
let p0 := Plant._updateAge e (Plant.set_lastO2Consumed 0 p) in
let '(finished, p1) := Plant._handleSenescence p0 in
if finished then p1 else Plant._updateMaturityAndStage e h p1.


(** The documented ranges of the soil state. *)
Definition Soil_inv (s : Soil.t) : Prop :=
0 <= Soil.moisture s <= 100
/\ 0 <= Soil.compaction s <= 100
/\ 0 <= Soil.oxygen s <= 100
/\ 0 <= Soil.soilCondition s <= 100
/\ 0 <= Soil.nutrition s <= 100
/\ 0 <= Soil.microbes s <= 1000
/\ 4.0 <= Soil.pH s <= 9.0.

Definition Grid_inv (g : Square.Grid) : Prop :=
map_Forall (fun _ s => Soil_inv (Square.soil s)) g.


(** The operations of [Soil], as commands, and their runs in sequence. *)
Inductive SoilOp :=
| OpUpdateDerivedVariables
| OpAddMoisture (amount : Q)
| OpUpdateMicrobes (temperature : Q)
| OpApplyEvaporation (temperature humidity wind squashModifier : Q)
| OpUpdateDegradation
| OpUpdateOxygen (plantOxygenConsumption : Q)
| OpUpdatePH
| OpUpdateWetDuration.

Definition runSoilOp (s : Soil.t) (op : SoilOp) : Soil.t :=
match op with
| OpUpdateDerivedVariables => Soil.updateDerivedVariables s
| OpAddMoisture amount => Soil.addMoisture amount s
| OpUpdateMicrobes temperature => Soil.updateMicrobes temperature s
| OpApplyEvaporation temperature humidity wind squashModifier =>
    snd (Soil.applyEvaporation temperature humidity wind squashModifier s)
| OpUpdateDegradation => Soil.updateDegradation s
| OpUpdateOxygen plantOxygenConsumption =>
    Soil.updateOxygen plantOxygenConsumption s
| OpUpdatePH => Soil.updatePH s
| OpUpdateWetDuration => Soil.updateWetDuration s
end.

Definition runSoilOps (ops : list SoilOp) (s : Soil.t) : Soil.t :=
fold_left runSoilOp ops s.

(** A key inside the 15 x 15 grid. *)
Definition inGrid (k : Key) : Prop :=
(0 <= fst k < Config.GRID_COLS)%Z /\ (0 <= snd k < Config.GRID_ROWS)%Z.







(** A square with the flag [d] of its structure, if it has one, cleared. *)
Definition clearFlagOf (d : Dir) (sq : Square.t) : Square.t :=
match Square.structure sq with
| Some nst =>
    Square.set_structure
      (Some (set_connections
               (set_flag d false (Structure.connections nst)) nst)) sq
| None => sq
end.

(** The direction in which [n] lies next to [k], if it does. *)
Definition towards (k n : Key) : option Dir :=
if decide (n = step k Top) then Some Top
else if decide (n = step k Right) then Some Right
else if decide (n = step k Bottom) then Some Bottom
else if decide (n = step k Left) then Some Left
else None.

(** Every set connection flag is mirrored: the square in that direction
    holds a structure of the same type whose opposite flag is set. *)
Definition Mirrored (g : Square.Grid) : Prop :=
forall (k : Key) (d : Dir) (s : Square.t) (st : Structure.t),
  g !! k = Some s ->
  Square.structure s = Some st ->
  flag d (Structure.connections st) = true ->
  exists ns nst,
    g !! step k d = Some ns
    /\ Square.structure ns = Some nst
    /\ Structure.type nst = Structure.type st
    /\ flag (opposite d) (Structure.connections nst) = true.

(** The structures that carry connections. *)
Definition connectable (st : Structure.t) : bool :=
String.eqb (Structure.type st) "Trellis" || String.eqb (Structure.type st) "Net".

(** What removing the connectable structure [st] from the square at [k]
    leaves in the grid [g']: a square without structure at [k]; in every
    direction in which [st] was connected, the square that was there
    before with the mirrored flag of its structure cleared and nothing
    else changed; every other square as it was; and, when the grid [g]
    before was mirrored, a mirrored grid in which every neighbour that
    [st] was connected to still holds its structure of the same type,
    now without the flag towards [k]. *)
Definition disconnects (g : Square.Grid) (k : Key) (st : Structure.t)
  (g' : Square.Grid) : Prop :=
(exists s', g' !! k = Some s' /\ Square.structure s' = None)
/\ (forall d,
      flag d (Structure.connections st) = true ->
      g' !! step k d = clearFlagOf (opposite d) <$> g !! step k d)
/\ (forall d ns nst,
      flag d (Structure.connections st) = true ->
      g' !! step k d = Some ns ->
      Square.structure ns = Some nst ->
      flag (opposite d) (Structure.connections nst) = false)
/\ (forall n,
      n <> k ->
      (forall d, flag d (Structure.connections st) = true -> n <> step k d) ->
      g' !! n = g !! n)
/\ (Mirrored g ->
      Mirrored g'
      /\ forall d,
          flag d (Structure.connections st) = true ->
          exists ns nst,
            g !! step k d = Some ns
            /\ Square.structure ns = Some nst
            /\ Structure.type nst = Structure.type st
            /\ flag (opposite d) (Structure.connections nst) = true
            /\ g' !! step k d
               = Some (Square.set_structure
                         (Some (set_connections
                                  (set_flag (opposite d) false
                                     (Structure.connections nst)) nst)) ns)).

(** ** Sample states *)

(** A freshly built square at 20 degrees, without weeds or pests. *)
Definition freshSquare : Square.t := Square.new 20 0 Pests.none.

(** A one-square grid. *)
Definition singleGrid : Square.Grid := <[(7, 7)%Z := freshSquare]> ∅.

(** A full Olla on the square (7,7), alone in the grid. *)
Definition ollaGrid : Square.Grid :=
<[(7, 7)%Z := Square.set_structure (Some (Structure.new "Olla")) freshSquare]> ∅.



(** A level-4 weed on (1,1) with a bare square to its west. *)
Definition weedGrid : Square.Grid :=
<[(0, 1)%Z := freshSquare]> (<[(1, 1)%Z := Square.set_weeds 4 freshSquare]> ∅).

Definition eastWind : GlobalState := mkGlobalState 60 0 "E" false 0 (0, 0)%Z.

(** Draws that are all zero: every chance test succeeds and every pick
    takes the first candidate. *)
Definition zeroDraws : Rand.t := Rand.mk (fun _ => 0) 0.

(** Two Trellises placed side by side, the second one connected to the
    first through the dialog. *)
Definition trellisGrid : Square.Grid :=
let g0 : Square.Grid := <[(1, 0)%Z := freshSquare]> (<[(0, 0)%Z := freshSquare]> ∅) in
let g1 := default g0 (snd <$> Square.tryAddingStructure "Trellis" true (0, 0)%Z g0) in
default g1 (snd <$> Square.tryAddingStructure "Trellis" true (1, 0)%Z g1).

(** A pollinated Corn in its fruiting stage, with aphids on the square. *)
Definition ripeCornWithAphids : Square.t :=
Square.set_pests (Pests.mk (Some "Aphids"%string) 2)
  (Square.set_plant
     (Some (Plant.set_growthStage 3
              (Plant.set_wasPollinated true (Plant.new "Corn"))))
     freshSquare).

(** The host view of a square after the soil conditioner. *)
Definition richHost : Plant.Host :=
Square.hostOf (snd (Square.applySoilConditioner freshSquare)).

(** The documented ranges of the plant state. *)
Definition Plant_inv (p : Plant.t) : Prop :=
0 <= Plant.size p <= 1
/\ 0 <= Plant.rootHealth p <= 100
/\ 0.1 <= Plant.rootDensity p <= 2.5
/\ 0.05 <= Plant.leafDensity p <= 1
/\ 0.05 <= Plant.stemDevelopment p <= 1
/\ 0 <= Plant.CHO p
/\ 0 <= Plant.ATP p
/\ 0 <= Plant.maturityProgress p <= 1
/\ (0 <= Plant.growthStage p <= 4)%Z.

(** The stage that the maturity thresholds give to a progress value while
    the nutrient gate is open. *)
Definition stageOfMaturity (m : Q) : Z :=
if JS.ge m Config.THRESHOLDS.plantTier3Maturity then 3
else if JS.ge m Config.THRESHOLDS.plantTier2Maturity then 2
else if JS.ge m Config.THRESHOLDS.plantTier1Maturity then 1
else 0.

(** Below senescence the stage of a plant is never ahead of its maturity
    progress. *)
Definition StageConsistent (p : Plant.t) : Prop :=
(Plant.growthStage p <= 3 ->
 Plant.growthStage p <= stageOfMaturity (Plant.maturityProgress p))%Z.

(** A run of updates of one plant, each with its own host view, elapsed
    time and light. *)
Definition plantTicks (ticks : list (Plant.Host * Q * Q)) (p : Plant.t)
  : Plant.t :=
fold_left (fun p t => snd (fst (Plant.update (fst (fst t)) (snd (fst t)) (snd t) p)))
          ticks p.

(** The plant carries the properties that the lookup of its type in the
    configuration yields, as every constructed plant does. *)
Definition Configured (p : Plant.t) : Prop :=
Plant.lookupProperties (Plant.type p) = Some (Plant.properties p).

(** The pest entry of a square is empty at level 0 or names a pest at a
    level from 1 to 4. *)
Definition Pests_wf (p : Pests.t) : Prop :=
match Pests.type p with
| Some _ => (1 <= Pests.level p <= 4)%Z
| None => Pests.level p = 0%Z
end.

(** The water of an Olla stays within its capacity. *)
Definition Structure_wf (st : Structure.t) : Prop :=
match Structure.waterLevel st with
| Some w => 0 <= w <= Config.THRESHOLDS.ollaMaxWater
| None => True
end.

(** The entities of a square: weeds at a level from 0 to 4, a well-formed
    pest entry, a plant within its ranges that carries the properties of
    its type, an Olla within its capacity, and never a plant together
    with a structure. *)
Definition Square_wf (s : Square.t) : Prop :=
(0 <= Square.weeds s <= 4)%Z
/\ Pests_wf (Square.pests s)
/\ (forall p, Square.plant s = Some p -> Plant_inv p /\ Configured p)
/\ (forall st, Square.structure s = Some st -> Structure_wf st)
/\ (Square.plant s = None \/ Square.structure s = None).

Definition Garden_wf (g : Square.Grid) : Prop :=
map_Forall (fun _ s => Square_wf s) g.

(** A square whose soil and entities are both within their ranges. *)
Definition Square_ok (s : Square.t) : Prop :=
Soil_inv (Square.soil s) /\ Square_wf s.

Definition Garden_ok (g : Square.Grid) : Prop :=
map_Forall (fun _ s => Square_ok s) g.

(** The events of a game: a pass of the simulation over the squares, a
    click on a square, and the three mass buttons. *)
Inductive Event :=
| Tick (ambientTemperature elapsedSimMinutes lightFactor : Q)
       (globalState : GlobalState) (r : Rand.t)
| Click (currentMode plantTypeValue : string) (userConfirmed : bool) (k : Key)
| MassHarvest
| BuyMassNeem
| BuyMassWeed.

Definition perform (game : Main.Game) (ev : Event) : Main.Game :=
match ev with
| Tick a e lf gs r =>
    Main.mkGame
      (Main.grid (Main.updateSquares a e lf gs (Main.squareState game) r))
      (Main.playerMoney game) (Main.harvestData game)
| Click currentMode plantTypeValue userConfirmed k =>
    Main.handleSquareClick currentMode plantTypeValue userConfirmed k game
| MassHarvest => Main.massHarvest game
| BuyMassNeem => Main.buyMassNeem game
| BuyMassWeed => Main.buyMassWeed game
end.

Definition play (events : list Event) (game : Main.Game) : Main.Game :=
fold_left perform events game.

(** The events that harvest. *)
Definition harvests (ev : Event) : bool :=
match ev with
| Click currentMode _ _ _ => String.eqb currentMode "harvest"
| MassHarvest => true
| _ => false
end.

(** The events that go through the shop. *)
Definition buys (ev : Event) : bool :=
match ev with
| Click currentMode _ _ _ => String.eqb currentMode "shop"
| BuyMassNeem | BuyMassWeed => true
| _ => false
end.

(** A square as the grid initialisation builds it: bare, pest-free, at
    the ambient temperature, with at most a level-1 weed. *)
Definition Fresh (ambientTemperature : Q) (s : Square.t) : Prop :=
Square.plant s = None /\ Square.structure s = None
/\ Square.pests s = Pests.none
/\ (Square.weeds s = 0 \/ Square.weeds s = 1)%Z
/\ Square.temperature s = ambientTemperature.

(** The state of the connection loop of [tryAddingStructure] while a
    structure of type [T] is being placed on the still empty square [k]
    with the flags [c] collected so far: every set flag of another square
    is mirrored by its neighbour or points to [k] and is mirrored in [c],
    and every flag of [c] is mirrored by a structure of type [T]. *)
Definition Connecting (T : string) (k : Key) (c : Structure.Connections)
  (g : Square.Grid) : Prop :=
(forall (m : Key) (d : Dir) (sm : Square.t) (stm : Structure.t),
   m <> k ->
   g !! m = Some sm ->
   Square.structure sm = Some stm ->
   flag d (Structure.connections stm) = true ->
   (step m d = k /\ flag (opposite d) c = true /\ Structure.type stm = T)
   \/ (exists ns nst,
         g !! step m d = Some ns
         /\ Square.structure ns = Some nst
         /\ Structure.type nst = Structure.type stm
         /\ flag (opposite d) (Structure.connections nst) = true))
/\ (forall d : Dir,
      flag d c = true ->
      exists ns nst,
        g !! step k d = Some ns
        /\ Square.structure ns = Some nst
        /\ Structure.type nst = T
        /\ flag (opposite d) (Structure.connections nst) = true)
/\ (exists s, g !! k = Some s /\ Square.structure s = None).

(** Two grids with the same squares, related square by square. *)
Definition Grid_rel (R : Square.t -> Square.t -> Prop) (g g' : Square.Grid)
  : Prop :=
forall n : Key,
  match g !! n, g' !! n with
  | Some s, Some s' => R s s'
  | None, None => True
  | _, _ => False
  end.

(** The weeds of a square are as before or cleared. *)
Definition weedsKept (s s' : Square.t) : Prop :=
Square.weeds s' = Square.weeds s \/ Square.weeds s' = 0%Z.

Abbreviation Kept := (Grid_rel weedsKept).

(** Two grids with the same squares. *)
Abbreviation Same := (Grid_rel (fun _ _ => True)).

(** No square of the grid carries weeds. *)
Definition NoWeeds (g : Square.Grid) : Prop :=
map_Forall (fun _ s => Square.weeds s = 0%Z) g.

(** [n] successive updates of a structure: the total water released and
    the structure left. *)
Fixpoint ollaRun (n : nat) (st : Structure.t) : Q * Structure.t :=
match n with
| O => (0, st)
| S n =>
    let '(released, st) := Structure.update st in
    let '(total, st) := ollaRun n st in
    (released + total, st)
end.

(** * Proof automation *)

Create HintDb kept.

(** Case analysis on one comparison of the goal, innermost first. *)
Ltac js_case :=
  match goal with
  | |- context [Qle_bool ?a ?b] =>
      lazymatch a with context [Qle_bool _ _] => fail | context [Qeq_bool _ _] => fail | _ => idtac end;
      lazymatch b with context [Qle_bool _ _] => fail | context [Qeq_bool _ _] => fail | _ => idtac end;
      let E := fresh "E" in
      destruct (Qle_bool a b) eqn:E;
      [apply Qle_bool_iff in E
      |assert (b < a) by (apply Qnot_le_lt; intros HH; apply Qle_bool_iff in HH; congruence);
       clear E]
  | |- context [Qeq_bool ?a ?b] =>
      lazymatch a with context [Qle_bool _ _] => fail | context [Qeq_bool _ _] => fail | _ => idtac end;
      lazymatch b with context [Qle_bool _ _] => fail | context [Qeq_bool _ _] => fail | _ => idtac end;
      let E := fresh "E" in
      destruct (Qeq_bool a b) eqn:E;
      [apply Qeq_bool_iff in E
      |assert (~ a == b) by (intros HH; apply Qeq_bool_iff in HH; congruence);
       clear E]
  end.

Ltac js_unfold :=
  unfold Utils.clamp, JS.Math_max, JS.Math_min, JS.or_default,
    JS.ge, JS.le, JS.gt, JS.lt in *.

Ltac js_arith := js_unfold; repeat js_case; simpl; try lra.

(** Reduces the field accesses of a plant record. *)
Ltac plant_fields :=
  cbn [Plant.size Plant.rootHealth Plant.rootDensity Plant.CHO Plant.ATP
       Plant.stemHealth Plant.leafDensity Plant.stemDevelopment
       Plant.maturityProgress Plant.growthStage Plant.type Plant.properties
       Plant.wasPollinated Plant.ageTicks Plant.ageDays Plant.lastO2Consumed
       Plant.displayStatus
       Plant.set_size Plant.set_rootHealth Plant.set_rootDensity Plant.set_CHO
       Plant.set_ATP Plant.set_leafDensity Plant.set_stemDevelopment
       Plant.set_wasPollinated Plant.set_ageTicks Plant.set_ageDays
       Plant.set_maturityProgress Plant.set_growthStage
       Plant.set_lastO2Consumed Plant.set_displayStatus] in *.

(** Reduces the field accesses of a square record. *)
Ltac square_fields :=
  cbn [Square.soil Square.temperature Square.weeds Square.pests Square.plant
       Square.structure Square.display Square.set_soil Square.set_temperature
       Square.set_weeds Square.set_pests Square.set_plant Square.set_structure
       Square.set_display Square.set_statusText] in *.

(** Closes a goal [weedsKept s s'] where [s'] is [s] with other fields
    changed. *)
Ltac kept_same :=
  unfold weedsKept; left; try reflexivity;
  match goal with
  | |- Square.weeds _ = Square.weeds ?s => destruct s; reflexivity
  end.


(** * Facts about the number primitives *)


Lemma Qle_bool_false (a b : Q) : Qle_bool a b = false -> b < a.
Proof.
  intros E. apply Qnot_le_lt. intros H.
  apply Qle_bool_iff in H. congruence.
Qed.

Lemma Qeq_bool_true (a b : Q) : Qeq_bool a b = true -> a == b.
Proof. apply Qeq_bool_iff. Qed.

Lemma Qeq_bool_false (a b : Q) : Qeq_bool a b = false -> ~ a == b.
Proof. intros E H. apply Qeq_bool_iff in H. congruence. Qed.

Lemma clamp_bounds (v lo hi : Q) :
  lo <= hi -> lo <= Utils.clamp v lo hi <= hi.
Proof. intros H. js_arith. Qed.

Lemma clamp_above (x v lo hi : Q) :
  x <= v -> x <= hi -> x <= Utils.clamp v lo hi.
Proof. intros H1 H2. js_arith. Qed.

Lemma Math_max_lower (a b : Q) : a <= JS.Math_max a b.
Proof. js_arith. Qed.

Lemma Math_max_upper (a b c : Q) : a <= c -> b <= c -> JS.Math_max a b <= c.
Proof. intros. js_arith. Qed.

Lemma or_default_nonneg (x d : Q) : 0 <= x -> 0 <= d -> 0 <= x |? d.
Proof. intros. js_arith. Qed.


Lemma lifecycle_applyGrowth gi ri st h p :
  lifecycle (snd (Plant._applyGrowthAndRecoveryCosts gi ri st h p)) = lifecycle p.
Proof.
  unfold Plant._applyGrowthAndRecoveryCosts.
  destruct (Plant.canRecover ri); [destruct (JS.ge _ _)|];
  (destruct (Plant.isShrinking gi); [|destruct (JS.gt _ _); [destruct (JS.ge _ _)|]]);
  reflexivity.
Qed.

Lemma lifecycle_updateRootDensity h f p :
  lifecycle (Plant._updateRootDensity h f p) = lifecycle p.
Proof. unfold Plant._updateRootDensity. destruct (JS.le _ _); reflexivity. Qed.

Lemma handleSenescence_maturity p :
  Plant.maturityProgress (snd (Plant._handleSenescence p)) = Plant.maturityProgress p.
Proof.
  unfold Plant._handleSenescence.
  destruct (Plant.growthStage p =? 4)%Z;
  destruct (negb (Config.isPerennial (Plant.properties p))); 
  destruct (JS.ge _ _); destruct (Plant.growthStage p =? 3)%Z; reflexivity.
Qed.

Lemma update_lifecycle h e lf p :
  lifecycle (snd (fst (Plant.update h e lf p))) = lifecycle (staged h e p).
Proof.
  unfold Plant.update, staged.
  destruct (Plant._handleSenescence _) as [finished p1].
  destruct finished; [reflexivity|].
  set (p2 := Plant._updateMaturityAndStage e h p1).
  destruct (Plant._consumeResources _ _) as [o2 soil'].
  destruct (Plant._updateHealthAndRecoveryDemand _ _) as [ri p3] eqn:E3.
  match goal with |- context [Plant._applyGrowthAndRecoveryCosts ?gi ?ri ?st ?h ?p] =>
    pose proof (lifecycle_applyGrowth gi ri st h p) as HG;
    destruct (Plant._applyGrowthAndRecoveryCosts gi ri st h p) as [st4 p4] end.
  match goal with |- context [Plant._finalizeStatus ?a ?b ?c ?p] =>
    pose proof (eq_refl (snd (Plant._finalizeStatus a b c p))) as E5;
    unfold Plant._finalizeStatus at 2 in E5;
    destruct (Plant._finalizeStatus a b c p) as [st5 p5] end.
  cbn [fst snd] in *. subst p5.
  unfold Plant._applyBeanEffects.
  match goal with |- lifecycle (Plant.set_displayStatus _ (Plant.set_ATP _ (Plant.set_CHO _ ?q))) = _ =>
    change (lifecycle q = lifecycle p2) end.
  rewrite lifecycle_updateRootDensity, HG.
  unfold Plant._updateHealthAndRecoveryDemand in E3. injection E3 as _ <-.
  reflexivity.
Qed.


Lemma dailyProgressRate_nonneg p : 0 <= Plant.dailyProgressRate p.
Proof.
  unfold Plant.dailyProgressRate.
  set (d := Config.daysToHarvestableStage (Plant.properties p) |? 60).
  unfold JS.gt. destruct (Qle_bool d 0) eqn:E; cbn [negb]; [lra|].
  apply Qle_bool_false in E.
  apply Qle_shift_div_l; [exact E|].
  unfold Config.THRESHOLDS.plantTier3Maturity. lra.
Qed.

Lemma overallHealthFactor_bounds p :
  0.1 <= Plant.overallHealthFactor p <= 1.0.
Proof. apply clamp_bounds. lra. Qed.

Lemma progressThisTick_nonneg e h p :
  0 <= e -> 0 <= Plant.progressThisTick e h p.
Proof.
  intros He. unfold Plant.progressThisTick.
  apply Qmult_le_0_compat; [apply Qmult_le_0_compat; [apply Qmult_le_0_compat|]|].
  - apply dailyProgressRate_nonneg.
  - apply Qle_shift_div_l; lra.
  - match goal with |- _ <= Utils.clamp ?v ?lo ?hi =>
      pose proof (clamp_bounds v lo hi) end. lra.
  - pose proof (overallHealthFactor_bounds p). lra.
Qed.

Lemma updateMaturityAndStage_maturity e h p :
  Plant.maturityProgress (Plant._updateMaturityAndStage e h p)
  = Utils.clamp ((Plant.maturityProgress p |? 0) + Plant.progressThisTick e h p) 0 1.
Proof.
  unfold Plant._updateMaturityAndStage.
  repeat match goal with |- context [if ?c then _ else _] => destruct c end;
  reflexivity.
Qed.

Lemma staged_maturity_cases h e p :
  Plant.maturityProgress (staged h e p) = Plant.maturityProgress p
  \/ Plant.maturityProgress (staged h e p)
     = Utils.clamp ((Plant.maturityProgress p |? 0)
                    + Plant.progressThisTick e h (snd (Plant._handleSenescence
                         (Plant._updateAge e (Plant.set_lastO2Consumed 0 p))))) 0 1.
Proof.
  unfold staged.
  pose proof (handleSenescence_maturity (Plant._updateAge e (Plant.set_lastO2Consumed 0 p))) as H.
  destruct (Plant._handleSenescence _) as [finished p1]. cbn [snd] in *.
  destruct finished.
  - left. exact H.
  - right. rewrite updateMaturityAndStage_maturity. rewrite H. reflexivity.
Qed.

(** C10: in one [Plant.update] with a non-negative elapsed time, on a
    plant whose maturity progress lies in [0,1], the progress gained in
    the tick is non-negative, the maturity progress does not decrease,
    and it stays in [0,1]. *)
Theorem maturityProgress_monotone_bounded
    (h : Plant.Host) (elapsedSimMinutes lightFactor : Q) (p : Plant.t) :
  0 <= elapsedSimMinutes ->
  0 <= Plant.maturityProgress p <= 1 ->
  let p' := snd (fst (Plant.update h elapsedSimMinutes lightFactor p)) in
  (forall q, 0 <= Plant.progressThisTick elapsedSimMinutes h q)
  /\ Plant.maturityProgress p <= Plant.maturityProgress p'
  /\ 0 <= Plant.maturityProgress p' <= 1.
Proof.
  intros He Hp p'.
  split; [intros q; apply progressThisTick_nonneg; exact He|].
  assert (Plant.maturityProgress p' = Plant.maturityProgress (staged h elapsedSimMinutes p)) as ->.
  { pose proof (update_lifecycle h elapsedSimMinutes lightFactor p) as H.
    unfold lifecycle in H. injection H as _ H. exact H. }
  destruct (staged_maturity_cases h elapsedSimMinutes p) as [-> | ->]; [lra|].
  match goal with |- context [Plant.progressThisTick ?e ?h ?q] =>
    pose proof (progressThisTick_nonneg e h q He);
    generalize dependent (Plant.progressThisTick e h q) end.
  intros inc Hinc.
  split.
  - apply clamp_above; [|lra]. unfold JS.or_default.
    destruct (Qeq_bool _ 0) eqn:E; [apply Qeq_bool_true in E|]; lra.
  - apply clamp_bounds. lra.
Qed.

Lemma maturityProgress_monotone_bounded_witness :
  let h := Square.hostOf (Square.new 20 0 Pests.none) in
  let p := Plant.new "Corn" in
  let p' := snd (fst (Plant.update h 72 0.5 p)) in
  (forall q, 0 <= Plant.progressThisTick 72 h q)
  /\ Plant.maturityProgress p <= Plant.maturityProgress p'
  /\ 0 <= Plant.maturityProgress p' <= 1.
Proof.
  apply (maturityProgress_monotone_bounded
           (Square.hostOf (Square.new 20 0 Pests.none)) 72 0.5 (Plant.new "Corn")).
  - vm_compute. discriminate.
  - vm_compute. split; discriminate.
Defined.


(** C7, amended: harvesting a plant that is below its harvestable stage
    and not senescent fails and leaves the square as it is; the reason is
    "unpollinated" when the plant requires pollination and has not been
    pollinated, and "immature" otherwise. *)
Theorem harvest_below_harvestable_stage (s : Square.t) (p : Plant.t) :
  Square.plant s = Some p ->
  (Plant.growthStage p < Square.harvestableStage p)%Z ->
  Plant.growthStage p <> 4%Z ->
  Square.harvestPlant s
  = (Square.mkHarvestResult false None None (Some (Plant.type p))
       (Some (if Square.requiresPollination p && negb (Plant.wasPollinated p)
              then "unpollinated" else "immature")%string),
     s).
Proof.
  intros Hp Hlt H4. unfold Square.harvestPlant. rewrite Hp.
  destruct (Plant.growthStage p =? 4)%Z eqn:E4; [apply Z.eqb_eq in E4; contradiction|].
  destruct (Square.harvestableStage p <=? Plant.growthStage p)%Z eqn:Ele;
    [apply Z.leb_le in Ele; lia|].
  cbn [andb].
  destruct (Plant.growthStage p <? Square.harvestableStage p)%Z eqn:Elt;
    [|apply Z.ltb_ge in Elt; lia].
  reflexivity.
Qed.

Lemma harvest_below_harvestable_stage_witness :
  let s := snd (Square.tryPlanting "Basil" (Square.new 20 0 Pests.none)) in
  let p := Plant.new "Basil" in
  Square.harvestPlant s
  = (Square.mkHarvestResult false None None (Some (Plant.type p))
       (Some (if Square.requiresPollination p && negb (Plant.wasPollinated p)
              then "unpollinated" else "immature")%string),
     s).
Proof.
  apply (harvest_below_harvestable_stage
           (snd (Square.tryPlanting "Basil" (Square.new 20 0 Pests.none)))
           (Plant.new "Basil")).
  - reflexivity.
  - vm_compute. reflexivity.
  - vm_compute. discriminate.
Defined.

(** C7 as stated fails: a freshly planted Corn is below its harvestable
    stage and the reason returned is "unpollinated". *)
Lemma harvest_immature_counterexample :
  let s := snd (Square.tryPlanting "Corn" (Square.new 20 0 Pests.none)) in
  let p := Plant.new "Corn" in
  Square.plant s = Some p
  /\ (Plant.growthStage p < Square.harvestableStage p)%Z
  /\ Plant.growthStage p <> 4%Z
  /\ Square.reason (fst (Square.harvestPlant s)) = Some "unpollinated"%string
  /\ Square.reason (fst (Square.harvestPlant s)) <> Some "immature"%string.
Proof.
  vm_compute. repeat split; try reflexivity; discriminate.
Qed.

Lemma pestSpawnOrLevelUp_plant near gs s r :
  Square.plant (fst (Square.pestSpawnOrLevelUp near gs s r)) = Square.plant s.
Proof.
  unfold Square.pestSpawnOrLevelUp.
  destruct (negb (Pests.present (Square.pests s))).
  - match goal with |- context [if ?c then (?a, ?b) else (0, ?d)] =>
      destruct c end;
    destruct (Rand.next r) as [u r1]; destruct (JS.lt u _); try reflexivity;
    destruct (Rand.next r1) as [u' r2]; destruct (JS.lt u' _); reflexivity.
  - destruct (Pests.level (Square.pests s) <? 4)%Z; [|reflexivity].
    destruct (Rand.next r) as [u r1]. destruct (JS.lt u _); reflexivity.
Qed.

Lemma ladybeetleRemoval_plant gs s r :
  Square.plant (fst (Square.ladybeetleRemoval gs s r)) = Square.plant s.
Proof.
  unfold Square.ladybeetleRemoval.
  destruct (_ && _); [|reflexivity].
  destruct (Rand.next r) as [u r1]. destruct (JS.lt u _); reflexivity.
Qed.

Lemma microbeDefense_plant s r :
  Square.plant (fst (Square.microbeDefense s r)) = Square.plant s.
Proof.
  unfold Square.microbeDefense.
  destruct (_ && _); [|reflexivity].
  destruct (Rand.next r) as [u r1]. destruct (JS.lt u _); reflexivity.
Qed.

Lemma pestRemoval_without_host gs s r :
  Square.plant s = None ->
  Square.pests (fst (Square.pestRemoval gs s r)) = Pests.none.
Proof.
  intros Hp. unfold Square.pestRemoval.
  pose proof (ladybeetleRemoval_plant gs s r) as H1.
  destruct (Square.ladybeetleRemoval gs s r) as [s1 r1]. cbn [fst] in H1.
  pose proof (microbeDefense_plant s1 r1) as H2.
  destruct (Square.microbeDefense s1 r1) as [s2 r2]. cbn [fst] in *.
  rewrite H2, H1, Hp. reflexivity.
Qed.

Lemma updatePests_clears_without_host near gs s r :
  Square.plant s = None ->
  Pests.present (Square.pests s) = true ->
  Square.pests (fst (Square.updatePests_at near gs s r)) = Pests.none.
Proof.
  intros Hp Hpr. unfold Square.updatePests_at. rewrite Hpr.
  pose proof (pestSpawnOrLevelUp_plant near gs s r) as H1.
  destruct (Square.pestSpawnOrLevelUp near gs s r) as [s1 r1]. cbn [fst] in H1.
  apply pestRemoval_without_host. congruence.
Qed.

Lemma harvest_success_state s :
  Square.harvested (fst (Square.harvestPlant s)) = true ->
  exists p, Square.plant s = Some p
    /\ snd (Square.harvestPlant s) = Square.set_statusText "-" (Square.set_plant None s).
Proof.
  unfold Square.harvestPlant.
  destruct (Square.plant s) as [p|] eqn:Hp; [|discriminate].
  destruct (Plant.growthStage p =? 4)%Z; [discriminate|].
  destruct (_ && _); [|discriminate].
  intros _. exists p. split; reflexivity.
Qed.

(** C2, amended: a successful harvest removes the plant and leaves the
    pest entry of the square as it was; a pest that is present is reset
    to "none" by the next [updatePests] of the square, whatever the
    draws. *)
Theorem harvest_removes_plant_defers_pest_reset (s : Square.t) :
  Square.harvested (fst (Square.harvestPlant s)) = true ->
  let s' := snd (Square.harvestPlant s) in
  Square.plant s' = None
  /\ Square.pests s' = Square.pests s
  /\ (Pests.present (Square.pests s) = true ->
      forall near gs r,
        Square.pests (fst (Square.updatePests_at near gs s' r)) = Pests.none).
Proof.
  intros H s'. destruct (harvest_success_state s H) as (p & Hp & Hs).
  subst s'. rewrite Hs. split; [reflexivity|]. split; [reflexivity|].
  intros Hpr near gs r. apply updatePests_clears_without_host; [reflexivity|exact Hpr].
Qed.

Lemma harvest_removes_plant_defers_pest_reset_witness :
  let s := Square.set_pests (Pests.mk (Some "Aphids"%string) 2)
             (Square.set_plant
                (Some (Plant.set_growthStage 3
                         (Plant.set_wasPollinated true (Plant.new "Corn"))))
                (Square.new 20 0 Pests.none)) in
  let s' := snd (Square.harvestPlant s) in
  Square.plant s' = None
  /\ Square.pests s' = Square.pests s
  /\ (Pests.present (Square.pests s) = true ->
      forall near gs r,
        Square.pests (fst (Square.updatePests_at near gs s' r)) = Pests.none).
Proof.
  apply (harvest_removes_plant_defers_pest_reset
           (Square.set_pests (Pests.mk (Some "Aphids"%string) 2)
             (Square.set_plant
                (Some (Plant.set_growthStage 3
                         (Plant.set_wasPollinated true (Plant.new "Corn"))))
                (Square.new 20 0 Pests.none)))).
  vm_compute. reflexivity.
Defined.

(** C2 as stated fails: after the successful harvest of a ripe Corn with
    level-2 aphids, the plant is gone and the aphids are still there. *)
Lemma harvest_keeps_pests_counterexample :
  let s := Square.set_pests (Pests.mk (Some "Aphids"%string) 2)
             (Square.set_plant
                (Some (Plant.set_growthStage 3
                         (Plant.set_wasPollinated true (Plant.new "Corn"))))
                (Square.new 20 0 Pests.none)) in
  Square.harvested (fst (Square.harvestPlant s)) = true
  /\ Square.plant (snd (Square.harvestPlant s)) = None
  /\ Square.pests (snd (Square.harvestPlant s)) = Pests.mk (Some "Aphids"%string) 2
  /\ Square.pests (snd (Square.harvestPlant s)) <> Pests.none.
Proof.
  vm_compute. repeat split; try reflexivity. discriminate.
Qed.








Lemma udv_moisture s : Soil.moisture (Soil.updateDerivedVariables s) = Soil.moisture s.
Proof. reflexivity. Qed.
Lemma udv_compaction s : Soil.compaction (Soil.updateDerivedVariables s) = Soil.compaction s.
Proof. reflexivity. Qed.
Lemma udv_microbes s : Soil.microbes (Soil.updateDerivedVariables s) = Soil.microbes s.
Proof. reflexivity. Qed.
Lemma udv_pH s : Soil.pH (Soil.updateDerivedVariables s) = Soil.pH s.
Proof. reflexivity. Qed.
Lemma udv_organicMatter s : Soil.organicMatter (Soil.updateDerivedVariables s) = Soil.organicMatter s.
Proof. reflexivity. Qed.
Lemma udv_bioavailableNutrition s : Soil.bioavailableNutrition (Soil.updateDerivedVariables s) = Soil.bioavailableNutrition s.
Proof. reflexivity. Qed.
Lemma udv_oxygen s : Soil.oxygen (Soil.updateDerivedVariables s) = Soil.oxygen s.
Proof. reflexivity. Qed.
Lemma udv_wetDuration s : Soil.wetDuration (Soil.updateDerivedVariables s) = Soil.wetDuration s.
Proof. reflexivity. Qed.
Lemma udv_evaporationRate s : Soil.evaporationRate (Soil.updateDerivedVariables s) = Soil.evaporationRate s.
Proof. reflexivity. Qed.

Lemma udv_ext s1 s2 :
  Soil.moisture s1 = Soil.moisture s2 ->
  Soil.compaction s1 = Soil.compaction s2 ->
  Soil.microbes s1 = Soil.microbes s2 ->
  Soil.oxygen s1 = Soil.oxygen s2 ->
  Soil.organicMatter s1 = Soil.organicMatter s2 ->
  Soil.bioavailableNutrition s1 = Soil.bioavailableNutrition s2 ->
  Soil.pH s1 = Soil.pH s2 ->
  Soil.evaporationRate s1 = Soil.evaporationRate s2 ->
  Soil.wetDuration s1 = Soil.wetDuration s2 ->
  Soil.updateDerivedVariables s1 = Soil.updateDerivedVariables s2.
Proof.
  destruct s1, s2.
  cbn [Soil.moisture Soil.compaction Soil.microbes Soil.oxygen Soil.organicMatter
       Soil.bioavailableNutrition Soil.pH Soil.evaporationRate Soil.wetDuration].
  intros -> -> -> -> -> -> -> -> ->.
  unfold Soil.updateDerivedVariables.
  cbn [Soil.moisture Soil.compaction Soil.microbes Soil.oxygen Soil.organicMatter
       Soil.bioavailableNutrition Soil.pH Soil.evaporationRate Soil.wetDuration
       Soil.nutrition Soil.soilCondition Soil.oxygenBasePotential
       Soil.set_oxygenBasePotential Soil.set_soilCondition Soil.set_nutrition].
  reflexivity.
Qed.

Lemma udv_set_oxygen v s :
  Soil.updateDerivedVariables (Soil.set_oxygen v s)
  = Soil.set_oxygen v (Soil.updateDerivedVariables s).
Proof.
  destruct s. unfold Soil.updateDerivedVariables.
  cbn [Soil.moisture Soil.compaction Soil.microbes Soil.oxygen Soil.organicMatter
       Soil.bioavailableNutrition Soil.pH Soil.evaporationRate Soil.wetDuration
       Soil.nutrition Soil.soilCondition Soil.oxygenBasePotential Soil.set_oxygen
       Soil.set_oxygenBasePotential Soil.set_soilCondition Soil.set_nutrition].
  reflexivity.
Qed.

Lemma updateDerivedVariables_idempotent s :
  Soil.updateDerivedVariables (Soil.updateDerivedVariables s)
  = Soil.updateDerivedVariables s.
Proof. apply udv_ext; reflexivity. Qed.

Lemma updateOxygen_idempotent c s :
  Soil.updateOxygen c (Soil.updateOxygen c s) = Soil.updateOxygen c s.
Proof.
  unfold Soil.updateOxygen.
  rewrite udv_set_oxygen, updateDerivedVariables_idempotent.
  generalize (Soil.updateDerivedVariables s). intros u.
  destruct u. reflexivity.
Qed.

(** C4, amended: [updateDerivedVariables] and [updateOxygen(c)] are
    idempotent. *)
Theorem derived_recomputations_idempotent :
  (forall s, Soil.updateDerivedVariables (Soil.updateDerivedVariables s)
             = Soil.updateDerivedVariables s)
  /\ (forall c s, Soil.updateOxygen c (Soil.updateOxygen c s)
                  = Soil.updateOxygen c s).
Proof.
  split; [exact updateDerivedVariables_idempotent | exact updateOxygen_idempotent].
Qed.

Lemma udv_nutrition_bounds s :
  0 <= Soil.nutrition (Soil.updateDerivedVariables s) <= 100.
Proof. apply clamp_bounds. lra. Qed.

Lemma udv_soilCondition_bounds s :
  0 <= Soil.soilCondition (Soil.updateDerivedVariables s) <= 100.
Proof. apply clamp_bounds. lra. Qed.

Lemma updateDerivedVariables_inv s :
  Soil_inv s -> Soil_inv (Soil.updateDerivedVariables s).
Proof.
  unfold Soil_inv. intros (Hm & Hc & Ho & _ & _ & Hmi & Hp).
  rewrite udv_moisture, udv_compaction, udv_oxygen, udv_microbes, udv_pH.
  pose proof (udv_nutrition_bounds s). pose proof (udv_soilCondition_bounds s).
  tauto.
Qed.

Lemma set_moisture_inv v s :
  0 <= v <= 100 -> Soil_inv s -> Soil_inv (Soil.set_moisture v s).
Proof. unfold Soil_inv. destruct s. cbn [Soil.set_moisture Soil.moisture Soil.compaction
  Soil.oxygen Soil.soilCondition Soil.nutrition Soil.microbes Soil.pH]. tauto. Qed.

Lemma set_microbes_inv v s :
  0 <= v <= 1000 -> Soil_inv s -> Soil_inv (Soil.set_microbes v s).
Proof. unfold Soil_inv. destruct s. cbn [Soil.set_microbes Soil.moisture Soil.compaction
  Soil.oxygen Soil.soilCondition Soil.nutrition Soil.microbes Soil.pH]. tauto. Qed.

Lemma set_compaction_inv v s :
  0 <= v <= 100 -> Soil_inv s -> Soil_inv (Soil.set_compaction v s).
Proof. unfold Soil_inv. destruct s. cbn [Soil.set_compaction Soil.moisture Soil.compaction
  Soil.oxygen Soil.soilCondition Soil.nutrition Soil.microbes Soil.pH]. tauto. Qed.

Lemma set_oxygen_inv v s :
  0 <= v <= 100 -> Soil_inv s -> Soil_inv (Soil.set_oxygen v s).
Proof. unfold Soil_inv. destruct s. cbn [Soil.set_oxygen Soil.moisture Soil.compaction
  Soil.oxygen Soil.soilCondition Soil.nutrition Soil.microbes Soil.pH]. tauto. Qed.

Lemma set_pH_inv v s :
  4.0 <= v <= 9.0 -> Soil_inv s -> Soil_inv (Soil.set_pH v s).
Proof. unfold Soil_inv. destruct s. cbn [Soil.set_pH Soil.moisture Soil.compaction
  Soil.oxygen Soil.soilCondition Soil.nutrition Soil.microbes Soil.pH]. tauto. Qed.

Lemma set_organicMatter_inv v s :
  Soil_inv s -> Soil_inv (Soil.set_organicMatter v s).
Proof. unfold Soil_inv. destruct s. cbn [Soil.set_organicMatter Soil.moisture Soil.compaction
  Soil.oxygen Soil.soilCondition Soil.nutrition Soil.microbes Soil.pH]. tauto. Qed.

Lemma set_bioavailableNutrition_inv v s :
  Soil_inv s -> Soil_inv (Soil.set_bioavailableNutrition v s).
Proof. unfold Soil_inv. destruct s. cbn [Soil.set_bioavailableNutrition Soil.moisture Soil.compaction
  Soil.oxygen Soil.soilCondition Soil.nutrition Soil.microbes Soil.pH]. tauto. Qed.

Lemma set_evaporationRate_inv v s :
  Soil_inv s -> Soil_inv (Soil.set_evaporationRate v s).
Proof. unfold Soil_inv. destruct s. cbn [Soil.set_evaporationRate Soil.moisture Soil.compaction
  Soil.oxygen Soil.soilCondition Soil.nutrition Soil.microbes Soil.pH]. tauto. Qed.

Lemma set_wetDuration_inv v s :
  Soil_inv s -> Soil_inv (Soil.set_wetDuration v s).
Proof. unfold Soil_inv. destruct s. cbn [Soil.set_wetDuration Soil.moisture Soil.compaction
  Soil.oxygen Soil.soilCondition Soil.nutrition Soil.microbes Soil.pH]. tauto. Qed.

Lemma addMoisture_inv a s : Soil_inv s -> Soil_inv (Soil.addMoisture a s).
Proof.
  intros H. unfold Soil.addMoisture.
  apply updateDerivedVariables_inv, set_moisture_inv; [apply clamp_bounds; lra|exact H].
Qed.

Lemma updateMicrobes_inv temp s : Soil_inv s -> Soil_inv (Soil.updateMicrobes temp s).
Proof.
  intros H. unfold Soil.updateMicrobes.
  match goal with |- context [let '(a, b) := ?c in _] => destruct c as [maf dd] end.
  apply set_bioavailableNutrition_inv, set_organicMatter_inv, set_microbes_inv;
    [apply clamp_bounds; lra|exact H].
Qed.

Lemma applyEvaporation_inv t hu w m s :
  Soil_inv s -> Soil_inv (snd (Soil.applyEvaporation t hu w m s)).
Proof.
  intros H. unfold Soil.applyEvaporation. cbn [snd].
  apply addMoisture_inv, set_evaporationRate_inv, H.
Qed.

Lemma updateDegradation_inv s : Soil_inv s -> Soil_inv (Soil.updateDegradation s).
Proof.
  intros H. unfold Soil.updateDegradation.
  match goal with |- context [if JS.gt ?d 0 then _ else _] => destruct (JS.gt d 0) end;
    [|exact H].
  apply set_microbes_inv; [apply clamp_bounds; lra|apply addMoisture_inv, H].
Qed.

Lemma updateOxygen_inv c s : Soil_inv s -> Soil_inv (Soil.updateOxygen c s).
Proof.
  intros H. unfold Soil.updateOxygen.
  apply set_oxygen_inv; [apply clamp_bounds; lra|apply updateDerivedVariables_inv, H].
Qed.

Lemma updatePH_inv s : Soil_inv s -> Soil_inv (Soil.updatePH s).
Proof.
  intros H. unfold Soil.updatePH. destruct (JS.gt _ _); [|exact H].
  apply set_pH_inv; [|exact H].
  apply clamp_bounds. unfold Config.THRESHOLDS.phMin, Config.THRESHOLDS.phMax. lra.
Qed.

Lemma updateWetDuration_inv s : Soil_inv s -> Soil_inv (Soil.updateWetDuration s).
Proof. intros H. apply set_wetDuration_inv, H. Qed.

Lemma new_inv init :
  (forall v, Soil.i_moisture init = Some v -> 0 <= v <= 100) ->
  (forall v, Soil.i_compaction init = Some v -> 0 <= v <= 100) ->
  (forall v, Soil.i_microbes init = Some v -> 0 <= v <= 1000) ->
  (forall v, Soil.i_pH init = Some v -> 4.0 <= v <= 9.0) ->
  Soil_inv (Soil.new init).
Proof.
  intros Hm Hc Hmi Hp. unfold Soil.new.
  set (s := Soil.mk _ _ _ _ _ _ _ _ _ _ _ _).
  unfold Soil.updateOxygen.
  rewrite updateDerivedVariables_idempotent.
  pose proof (udv_nutrition_bounds s) as Hn.
  pose proof (udv_soilCondition_bounds s) as Hsc.
  pose proof (udv_moisture s) as E1. pose proof (udv_compaction s) as E2.
  pose proof (udv_microbes s) as E3. pose proof (udv_pH s) as E4.
  match goal with |- Soil_inv (Soil.set_oxygen ?v _) =>
    pose proof (clamp_bounds (Soil.oxygenBasePotential (Soil.updateDerivedVariables s) - 0) 0 100) as Ho;
    generalize dependent v end.
  generalize dependent (Soil.updateDerivedVariables s). intros u Hn Hsc E1 E2 E3 E4 v Ho.
  unfold Soil_inv. destruct u.
  cbn [Soil.set_oxygen Soil.moisture Soil.compaction Soil.oxygen Soil.soilCondition
       Soil.nutrition Soil.microbes Soil.pH] in *.
  subst s. cbn [Soil.moisture Soil.compaction Soil.microbes Soil.pH] in *. subst.
  assert (0 <= default Soil.DEFAULTS.moisture (Soil.i_moisture init) <= 100).
  { destruct (Soil.i_moisture init) as [x|]; cbn [default];
      [apply (Hm x eq_refl) | unfold Soil.DEFAULTS.moisture; lra]. }
  assert (0 <= default Soil.DEFAULTS.compaction (Soil.i_compaction init) <= 100).
  { destruct (Soil.i_compaction init) as [x|]; cbn [default];
      [apply (Hc x eq_refl) | unfold Soil.DEFAULTS.compaction; lra]. }
  assert (0 <= default Soil.DEFAULTS.microbes (Soil.i_microbes init) <= 1000).
  { destruct (Soil.i_microbes init) as [x|]; cbn [default];
      [apply (Hmi x eq_refl) | unfold Soil.DEFAULTS.microbes; lra]. }
  assert (4.0 <= default Soil.DEFAULTS.pH (Soil.i_pH init) <= 9.0).
  { destruct (Soil.i_pH init) as [x|]; cbn [default];
      [apply (Hp x eq_refl) | unfold Soil.DEFAULTS.pH; lra]. }
  assert (0 <= v <= 100) by (apply Ho; lra).
  tauto.
Qed.

(** C4 as stated fails: on concrete soils, a second run of
    [addMoisture], [updateMicrobes], [applyEvaporation],
    [updateDegradation], [updatePH] and [updateWetDuration] with the same
    arguments changes the state again. *)
Lemma soil_operations_not_idempotent :
  let s := Soil.new Soil.noInit in
  let wet := Soil.addMoisture 40 s in
  let rich := Soil.set_organicMatter 80 s in
  ~ Soil.moisture (Soil.addMoisture 7 (Soil.addMoisture 7 s))
    == Soil.moisture (Soil.addMoisture 7 s)
  /\ ~ Soil.organicMatter (Soil.updateMicrobes 20 (Soil.updateMicrobes 20 s))
       == Soil.organicMatter (Soil.updateMicrobes 20 s)
  /\ ~ Soil.moisture (snd (Soil.applyEvaporation 20 60 0 1
                             (snd (Soil.applyEvaporation 20 60 0 1 s))))
       == Soil.moisture (snd (Soil.applyEvaporation 20 60 0 1 s))
  /\ ~ Soil.moisture (Soil.updateDegradation (Soil.updateDegradation s))
       == Soil.moisture (Soil.updateDegradation s)
  /\ ~ Soil.pH (Soil.updatePH (Soil.updatePH rich)) == Soil.pH (Soil.updatePH rich)
  /\ Soil.wetDuration (Soil.updateWetDuration (Soil.updateWetDuration wet))
     <> Soil.wetDuration (Soil.updateWetDuration wet).
Proof.
  cbv zeta. repeat split; intros H; vm_compute in H; discriminate.
Qed.



Lemma Grid_inv_insert (g : Square.Grid) (k : Key) (s : Square.t) :
  Grid_inv g -> Soil_inv (Square.soil s) -> Grid_inv (<[k := s]> g).
Proof.
  intros H Hs i x. rewrite lookup_insert. case_decide.
  - intros E0; simplify_eq. exact Hs.
  - apply H.
Qed.

Lemma Grid_inv_alter (f : Square.t -> Square.t) (g : Square.Grid) (k : Key) :
  (forall s, Soil_inv (Square.soil s) -> Soil_inv (Square.soil (f s))) ->
  Grid_inv g -> Grid_inv (alter f k g).
Proof.
  intros Hf H i x. rewrite lookup_alter. case_decide.
  - subst i. destruct (g !! k) as [y|] eqn:E; [|discriminate].
    cbn. intros E0; injection E0 as <-. apply Hf. exact (H k y E).
  - apply H.
Qed.

Lemma Grid_inv_onSoil (f : Soil.t -> Soil.t) (g : Square.Grid) (k : Key) :
  (forall s, Soil_inv s -> Soil_inv (f s)) ->
  Grid_inv g -> Grid_inv (Square.onSoil f k g).
Proof.
  intros Hf. unfold Square.onSoil. apply Grid_inv_alter.
  intros s Hs. destruct s. apply Hf. exact Hs.
Qed.

Lemma Grid_inv_fold {A} (f : Square.Grid -> A -> Square.Grid) (l : list A) (g : Square.Grid) :
  (forall g a, Grid_inv g -> Grid_inv (f g a)) ->
  Grid_inv g -> Grid_inv (fold_left f l g).
Proof.
  intros Hf. revert g. induction l as [|a l IH]; intros g Hg; [exact Hg|].
  cbn [fold_left]. apply IH, Hf, Hg.
Qed.

(** updateEnvironment *)
Lemma updateEnvironment_at_soil a hu w m s :
  Soil_inv (Square.soil s) ->
  Soil_inv (Square.soil (snd (Square.updateEnvironment_at a hu w m s))).
Proof.
  intros H. unfold Square.updateEnvironment_at.
  match goal with |- context [Soil.applyEvaporation ?t ?h ?w' ?m' ?so] =>
    pose proof (applyEvaporation_inv t h w' m' so) as HE;
    destruct (Soil.applyEvaporation t h w' m' so) as [ev s1] end.
  cbn [snd fst Square.soil Square.set_soil] in *.
  apply updateWetDuration_inv, updatePH_inv, updateMicrobes_inv, updateDegradation_inv, HE.
  destruct s; exact H.
Qed.

Lemma updateEnvironment_inv (a hu w : Q) (k : Key) (g : Square.Grid) (ev : Q) (g' : Square.Grid) :
  Grid_inv g -> Square.updateEnvironment a hu w k g = Some (ev, g') -> Grid_inv g'.
Proof.
  intros Hg. unfold Square.updateEnvironment.
  destruct (g !! k) as [s|] eqn:E; [|discriminate].
  pose proof (updateEnvironment_at_soil a hu w (Square.squashModifier k g) s (Hg k s E)) as H.
  destruct (Square.updateEnvironment_at _ _ _ _ s) as [ev' s']. cbn [snd] in H.
  intros E0; simplify_eq. apply Grid_inv_insert; assumption.
Qed.

(** updateEntities *)
Lemma distributeOllaWater_inv k w g :
  Grid_inv g -> Grid_inv (Square.distributeOllaWater k w g).
Proof.
  intros Hg. unfold Square.distributeOllaWater. destruct (JS.gt w 0); [|exact Hg].
  apply Grid_inv_fold; [|exact Hg].
  intros g0 d H0. unfold Square.deliver. apply Grid_inv_onSoil; [|exact H0].
  intros s. apply addMoisture_inv.
Qed.

Lemma consumeResources_inv h p :
  Soil_inv (Plant.soil h) -> Soil_inv (snd (Plant._consumeResources h p)).
Proof.
  intros H. unfold Plant._consumeResources. cbn [snd].
  apply set_bioavailableNutrition_inv, addMoisture_inv, H.
Qed.

Lemma update_soil_cases h e lf p :
  snd (Plant.update h e lf p) = Plant.soil h
  \/ exists q, snd (Plant.update h e lf p) = snd (Plant._consumeResources h q).
Proof.
  unfold Plant.update.
  destruct (Plant._handleSenescence _) as [finished p1].
  destruct finished; [left; reflexivity|].
  right.
  match goal with |- context [Plant._consumeResources h ?q] => exists q;
    destruct (Plant._consumeResources h q) as [o2 soil'] end.
  destruct (Plant._updateHealthAndRecoveryDemand _ _) as [ri p3].
  destruct (Plant._applyGrowthAndRecoveryCosts _ _ _ _ _) as [st4 p4].
  destruct (Plant._finalizeStatus _ _ _ _) as [st5 p5].
  reflexivity.
Qed.

Lemma update_soil_inv h e lf p :
  Soil_inv (Plant.soil h) -> Soil_inv (snd (Plant.update h e lf p)).
Proof.
  intros H. destruct (update_soil_cases h e lf p) as [-> | [q ->]];
    [exact H | apply consumeResources_inv, H].
Qed.

Lemma updatePlant_soil e lf k gs s :
  Soil_inv (Square.soil s) ->
  Soil_inv (Square.soil (snd (Square.updatePlant e lf k gs s))).
Proof.
  intros H. unfold Square.updatePlant.
  destruct (Square.plant s) as [p|]; [|destruct s; exact H].
  pose proof (update_soil_inv (Square.hostOf s) e lf p H) as HU.
  destruct (Plant.update _ _ _ p) as [[res p'] soil']. cbn [snd] in HU.
  match goal with |- context [if ?c then Square.set_statusText _ _ else _] => destruct c end;
    cbn [snd]; exact HU.
Qed.

Lemma beanDonation_inv props b s : Soil_inv s -> Soil_inv (Square.beanDonation props b s).
Proof.
  intros H. unfold Square.beanDonation.
  destruct (Config.addsMIC props), (Config.addsOM props);
    repeat first [apply set_microbes_inv; [apply clamp_bounds; lra|]
                 | apply set_organicMatter_inv]; exact H.
Qed.

Lemma marigoldSuppress_inv g r n :
  Grid_inv g -> Grid_inv (fst (Square.marigoldSuppress (g, r) n)).
Proof.
  intros Hg. unfold Square.marigoldSuppress.
  destruct (g !! n) as [s|] eqn:E; [|exact Hg].
  destruct (Pests.is_type _ _); [|exact Hg].
  destruct (Rand.next r) as [u r']. destruct (JS.lt u 0.1); [|exact Hg].
  cbn [fst]. apply Grid_inv_insert; [exact Hg|]. destruct s. exact (Hg n _ E).
Qed.

Lemma fold_marigold_inv l g r :
  Grid_inv g -> Grid_inv (fst (fold_left Square.marigoldSuppress l (g, r))).
Proof.
  revert g r. induction l as [|n l IH]; intros g r Hg; [exact Hg|].
  cbn [fold_left].
  pose proof (marigoldSuppress_inv g r n Hg) as H.
  destruct (Square.marigoldSuppress (g, r) n) as [g1 r1]. apply IH, H.
Qed.

Lemma neighborEffects_inv k p g r :
  Grid_inv g -> Grid_inv (fst (Square.neighborEffects k p g r)).
Proof.
  intros Hg. unfold Square.neighborEffects.
  match goal with |- context [fold_left Square.marigoldSuppress _ (?g1, r)] =>
    assert (Grid_inv g1) as H1 end.
  { destruct (_ || _); [|exact Hg].
    apply Grid_inv_fold; [|exact Hg].
    intros g0 n H0. apply Grid_inv_onSoil; [|exact H0]. intros s. apply beanDonation_inv. }
  destruct (Config.suppressesNematodes _ && _); [apply fold_marigold_inv, H1|exact H1].
Qed.

Lemma updateEntities_inv (e lf : Q) (k : Key) (gs : GlobalState) (g : Square.Grid) (r : Rand.t) (g' : Square.Grid) (r' : Rand.t) :
  Grid_inv g -> Square.updateEntities e lf k gs g r = Some (g', r') -> Grid_inv g'.
Proof.
  intros Hg. unfold Square.updateEntities.
  destruct (g !! k) as [s|] eqn:E; [|discriminate].
  pose proof (Hg k s E) as Hs.
  set (c := match Square.structure s with
            | Some st => let '(w, st') := Structure.update st in
                         (w, Square.set_structure (Some st') s)
            | None => (0, s) end).
  assert (Soil_inv (Square.soil (snd c))) as Hs1.
  { subst c. destruct (Square.structure s) as [st|]; [|exact Hs].
    destruct (Structure.update st) as [w st']. destruct s; exact Hs. }
  destruct c as [w s1]. cbn [snd] in Hs1.
  pose proof (updatePlant_soil e lf k gs s1 Hs1) as Hs2.
  destruct (Square.updatePlant e lf k gs s1) as [o2 s2]. cbn [snd] in Hs2.
  assert (Grid_inv (<[k:=s2]> (Square.distributeOllaWater k w (<[k:=s1]> g)))) as Hi.
  { apply Grid_inv_insert; [|exact Hs2].
    apply distributeOllaWater_inv, Grid_inv_insert; assumption. }
  set (c2 := match Square.plant s2 with
             | Some p => Square.neighborEffects k p _ r
             | None => _ end).
  assert (Grid_inv (fst c2)) as Hg3.
  { subst c2. destruct (Square.plant s2); [apply neighborEffects_inv, Hi|exact Hi]. }
  destruct c2 as [g3 r3]. cbn [fst] in Hg3. intros E0; injection E0 as <- <-.
  apply Grid_inv_onSoil; [|exact Hg3]. intros s0. apply updateOxygen_inv.
Qed.

(** updateWeeds, updatePests *)
Lemma spreadWeeds_inv k gs g r :
  Grid_inv g -> Grid_inv (fst (Square.spreadWeeds k gs g r)).
Proof.
  intros Hg. unfold Square.spreadWeeds.
  destruct (Rand.next r) as [u r1]. destruct (JS.lt u _); [|exact Hg].
  destruct (0 <? _)%Z; [|exact Hg].
  destruct (Rand.next r1) as [u' r2].
  destruct (Square.pick u' _) as [t|]; [|exact Hg].
  destruct (g !! t) as [n|] eqn:E; [|exact Hg].
  destruct (_ && _); [|exact Hg].
  cbn [fst]. apply Grid_inv_insert; [exact Hg|]. destruct n. exact (Hg t _ E).
Qed.

Lemma updateWeeds_inv (k : Key) (gs : GlobalState) (g : Square.Grid) (r : Rand.t) (g' : Square.Grid) (r' : Rand.t) :
  Grid_inv g -> Square.updateWeeds k gs g r = Some (g', r') -> Grid_inv g'.
Proof.
  intros Hg. unfold Square.updateWeeds.
  destruct (g !! k) as [s|] eqn:E; [|discriminate].
  pose proof (Hg k s E) as Hs.
  match goal with |- context [let '(s0, r0) := ?c in _] =>
    assert (Soil_inv (Square.soil (fst c))) as Hs1; [|destruct c as [s1 r1]] end.
  { destruct (_ && _)%Z; [|exact Hs].
    destruct (Rand.next r) as [u r1]. destruct (JS.lt u _); [destruct s|]; exact Hs. }
  cbn [fst] in Hs1.
  match goal with |- context [<[k := ?s2]> g] =>
    assert (Soil_inv (Square.soil s2)) as Hs2 end.
  { destruct (0 <? Square.weeds s)%Z; [|exact Hs1].
    destruct s1. apply set_bioavailableNutrition_inv. exact Hs1. }
  destruct (Square.weeds s =? 4)%Z.
  - intros E0; injection E0 as H. pose proof (spreadWeeds_inv k gs _ r1 (Grid_inv_insert g k _ Hg Hs2)) as HH.
    rewrite H in HH. exact HH.
  - intros E0; simplify_eq. apply Grid_inv_insert; assumption.
Qed.

Lemma pestSpawnOrLevelUp_soil near gs s r :
  Square.soil (fst (Square.pestSpawnOrLevelUp near gs s r)) = Square.soil s.
Proof.
  unfold Square.pestSpawnOrLevelUp.
  destruct (negb (Pests.present (Square.pests s))).
  - match goal with |- context [if ?c then (?a, ?b) else (0, ?d)] =>
      destruct c end;
    destruct (Rand.next r) as [u r1]; destruct (JS.lt u _); try reflexivity;
    destruct (Rand.next r1) as [u' r2]; destruct (JS.lt u' _); reflexivity.
  - destruct (Pests.level (Square.pests s) <? 4)%Z; [|reflexivity].
    destruct (Rand.next r) as [u r1]. destruct (JS.lt u _); reflexivity.
Qed.

Lemma ladybeetleRemoval_soil gs s r :
  Square.soil (fst (Square.ladybeetleRemoval gs s r)) = Square.soil s.
Proof.
  unfold Square.ladybeetleRemoval.
  destruct (_ && _); [|reflexivity].
  destruct (Rand.next r) as [u r1]. destruct (JS.lt u _); reflexivity.
Qed.

Lemma microbeDefense_soil s r :
  Square.soil (fst (Square.microbeDefense s r)) = Square.soil s.
Proof.
  unfold Square.microbeDefense.
  destruct (_ && _); [|reflexivity].
  destruct (Rand.next r) as [u r1]. destruct (JS.lt u _); reflexivity.
Qed.

Lemma pestRemoval_soil gs s r :
  Square.soil (fst (Square.pestRemoval gs s r)) = Square.soil s.
Proof.
  unfold Square.pestRemoval.
  pose proof (ladybeetleRemoval_soil gs s r) as H1.
  destruct (Square.ladybeetleRemoval gs s r) as [s1 r1]. cbn [fst] in H1.
  pose proof (microbeDefense_soil s1 r1) as H2.
  destruct (Square.microbeDefense s1 r1) as [s2 r2]. cbn [fst] in *.
  destruct (negb _); cbn [Square.soil Square.set_pests]; congruence.
Qed.

Lemma updatePests_at_soil near gs s r :
  Square.soil (fst (Square.updatePests_at near gs s r)) = Square.soil s.
Proof.
  unfold Square.updatePests_at.
  pose proof (pestSpawnOrLevelUp_soil near gs s r) as H1.
  destruct (Square.pestSpawnOrLevelUp near gs s r) as [s1 r1]. cbn [fst] in H1.
  destruct (Pests.present _); [|exact H1].
  rewrite pestRemoval_soil. exact H1.
Qed.

Lemma updatePests_inv (k : Key) (gs : GlobalState) (g : Square.Grid) (r : Rand.t)
    (g' : Square.Grid) (r' : Rand.t) :
  Grid_inv g -> Square.updatePests k gs g r = Some (g', r') -> Grid_inv g'.
Proof.
  intros Hg. unfold Square.updatePests.
  destruct (g !! k) as [s|] eqn:E; [|discriminate].
  pose proof (updatePests_at_soil (Square.isMarigoldNear k g) gs s r) as H.
  destruct (Square.updatePests_at _ gs s r) as [s' r1]. cbn [fst] in H.
  intros E0; injection E0 as <- <-.
  apply Grid_inv_insert; [exact Hg|]. rewrite H. exact (Hg k s E).
Qed.

Lemma updateSquare_inv (a e lf : Q) (gs : GlobalState) (acc : Main.Pass) (k : Key) :
  Grid_inv (Main.grid acc) -> Grid_inv (Main.grid (Main.updateSquare a e lf gs acc k)).
Proof.
  intros Hg. unfold Main.updateSquare.
  destruct (Square.updateEnvironment _ _ _ k _) as [[ev g1]|] eqn:E1; [|exact Hg].
  apply updateEnvironment_inv in E1; [|exact Hg].
  destruct (Square.updateEntities _ _ k gs g1 _) as [[g2 r2]|] eqn:E2; [|exact Hg].
  apply updateEntities_inv in E2; [|exact E1].
  destruct (Square.updateWeeds k gs g2 r2) as [[g3 r3]|] eqn:E3; [|exact Hg].
  apply updateWeeds_inv in E3; [|exact E2].
  destruct (Square.updatePests k gs g3 r3) as [[g4 r4]|] eqn:E4; [|exact Hg].
  apply updatePests_inv in E4; [|exact E3].
  cbn [Main.grid]. apply Grid_inv_alter; [|exact E4].
  intros s Hs. destruct s.
  unfold Square.updateDisplayText. cbn [Square.soil Square.set_display Square.set_soil].
  apply updateDerivedVariables_inv. exact Hs.
Qed.

Lemma updateSquares_inv (a e lf : Q) (gs : GlobalState) (g : Square.Grid) (r : Rand.t) :
  Grid_inv g -> Grid_inv (Main.grid (Main.updateSquares a e lf gs g r)).
Proof.
  intros Hg. unfold Main.updateSquares.
  assert (forall l acc, Grid_inv (Main.grid acc) ->
            Grid_inv (Main.grid (fold_left (Main.updateSquare a e lf gs) l acc))) as H.
  { induction l as [|k l IH]; intros acc Hacc; [exact Hacc|].
    cbn [fold_left]. apply IH, updateSquare_inv, Hacc. }
  apply H. exact Hg.
Qed.

Lemma runSoilOp_inv s op : Soil_inv s -> Soil_inv (runSoilOp s op).
Proof.
  intros H. destruct op; cbn [runSoilOp].
  - apply updateDerivedVariables_inv, H.
  - apply addMoisture_inv, H.
  - apply updateMicrobes_inv, H.
  - apply applyEvaporation_inv, H.
  - apply updateDegradation_inv, H.
  - apply updateOxygen_inv, H.
  - apply updatePH_inv, H.
  - apply updateWetDuration_inv, H.
Qed.

Lemma runSoilOps_inv ops s : Soil_inv s -> Soil_inv (runSoilOps ops s).
Proof.
  unfold runSoilOps. revert s. induction ops as [|op ops IH]; intros s H; [exact H|].
  cbn [fold_left]. apply IH, runSoilOp_inv, H.
Qed.

Lemma Square_new_inv t w p : Soil_inv (Square.soil (Square.new t w p)).
Proof.
  unfold Square.new.
  unfold Square.updateDisplayText. cbn [Square.soil Square.set_display Square.set_soil].
  apply updateOxygen_inv, updateDerivedVariables_inv.
  apply new_inv; cbn [Soil.noInit Soil.i_moisture Soil.i_compaction Soil.i_microbes Soil.i_pH];
    discriminate.
Qed.

(** C5: on a grid whose soils are within their ranges (moisture,
    compaction, oxygen, soil condition and nutrition in [0,100], microbes
    in [0,1000], pH in [4,9]), the soils are within their ranges after the
    pass of a tick over the squares, for all weather inputs and draws, and
    after every sequence of soil operations on a square. *)
Theorem soil_bounds_preserved (g : Square.Grid) :
  Grid_inv g ->
  (forall ambientTemperature elapsedSimMinutes lightFactor globalState r,
     Grid_inv (Main.grid (Main.updateSquares ambientTemperature elapsedSimMinutes
                            lightFactor globalState g r)))
  /\ (forall (k : Key) s ops,
        g !! k = Some s -> Soil_inv (runSoilOps ops (Square.soil s))).
Proof.
  intros Hg. split.
  - intros. apply updateSquares_inv, Hg.
  - intros k s ops E. apply runSoilOps_inv. exact (Hg k s E).
Qed.


Lemma in_range lo hi i : In i (Utils.range lo hi) <-> (lo <= i <= hi)%Z.
Proof.
  unfold Utils.range. rewrite in_map_iff. split.
  - intros (n & <- & Hn). apply in_seq in Hn. lia.
  - intros H. exists (Z.to_nat (i - lo)). split; [lia|]. apply in_seq. lia.
Qed.

Lemma inGrid_gridKeys k : inGrid k -> In k Main.gridKeys.
Proof.
  destruct k as [x y]. unfold inGrid, Main.gridKeys. cbn [fst snd].
  unfold Config.GRID_COLS, Config.GRID_ROWS. intros [Hx Hy].
  apply in_flat_map. exists y. split; [apply in_range; lia|].
  apply in_map_iff. exists x. split; [reflexivity|apply in_range; lia].
Qed.



























Lemma pick_In {A} (u : Q) (l : list A) (x : A) : Square.pick u l = Some x -> In x l.
Proof.
  unfold Square.pick. destruct (_ <? 0)%Z; [discriminate|]. apply nth_error_In.
Qed.

Lemma spreadWeeds_effect (k : Key) (gs : GlobalState) (g : Square.Grid) (r : Rand.t) (n : Key) :
  fst (Square.spreadWeeds k gs g r) !! n <> g !! n ->
  In n (Square.downwindNeighbors (currentWindDirection gs) k)
  /\ exists ns, g !! n = Some ns
       /\ Square.weeds ns = 0%Z /\ Square.plant ns = None /\ Square.structure ns = None
       /\ fst (Square.spreadWeeds k gs g r) !! n = Some (Square.set_weeds 1 ns).
Proof.
  unfold Square.spreadWeeds.
  destruct (Rand.next r) as [u r1]. destruct (JS.lt u _); [|intros H; contradiction].
  destruct (0 <? _)%Z; [|intros H; contradiction].
  destruct (Rand.next r1) as [u' r2].
  destruct (Square.pick u' _) as [t|] eqn:Ep; [|intros H; contradiction].
  destruct (g !! t) as [ns|] eqn:Et; [|intros H; contradiction].
  destruct (Square.weeds ns =? 0)%Z eqn:Ew; [|intros H; contradiction].
  destruct (Square.plant ns) as [p|] eqn:Epl; [intros H; contradiction|].
  destruct (Square.structure ns) as [st|] eqn:Est; [intros H; contradiction|].
  cbn [andb negb isSome fst].
  rewrite lookup_insert. case_decide as Hd; [|intros H; contradiction].
  subst t. intros _. split; [apply (pick_In _ _ _ Ep)|].
  exists ns. apply Z.eqb_eq in Ew. repeat split; assumption.
Qed.

Lemma downwind_east (k n : Key) :
  In n (Square.downwindNeighbors "E" k) -> (fst n < fst k)%Z /\ In n (Square.neighbors1 k).
Proof.
  destruct k as [x y]. unfold Square.downwindNeighbors, Square.neighbors1.
  cbn [String.eqb Ascii.eqb Bool.eqb fst].
  rewrite filter_In. intros [Hin Hlt]. apply Z.ltb_lt in Hlt. split; assumption.
Qed.

(** C8: the weed update of a square below level 4 changes no other
    square; under wind direction "E", the only other square it can change
    is a weed-free one with a strictly smaller x-coordinate, which gets a
    level-1 weed, and only when the square is at level 4. *)
Theorem weeds_spread_only_downwind
    (k : Key) (gs : GlobalState) (g : Square.Grid) (r : Rand.t)
    (s : Square.t) (g' : Square.Grid) (r' : Rand.t) :
  g !! k = Some s ->
  Square.updateWeeds k gs g r = Some (g', r') ->
  (Square.weeds s <> 4%Z -> forall n, n <> k -> g' !! n = g !! n)
  /\ (currentWindDirection gs = "E"%string ->
      forall n, n <> k -> g' !! n <> g !! n ->
        Square.weeds s = 4%Z
        /\ (fst n < fst k)%Z
        /\ exists ns, g !! n = Some ns /\ Square.weeds ns = 0%Z
             /\ g' !! n = Some (Square.set_weeds 1 ns)).
Proof.
  intros Hs. unfold Square.updateWeeds. rewrite Hs.
  set (c := if ((0 <? Square.weeds s) && (Square.weeds s <? 4))%Z then _ else _).
  destruct c as [s1 r1].
  match goal with |- context [<[k := ?x]> g] => set (s2 := x) end.
  destruct (Square.weeds s =? 4)%Z eqn:E4.
  - apply Z.eqb_eq in E4. intros E0; injection E0 as E0.
    split; [intros H; contradiction|].
    intros HE n Hn Hch.
    assert (g' = fst (Square.spreadWeeds k gs (<[k:=s2]> g) r1)) as -> by (rewrite E0; reflexivity).
    assert (g !! n = <[k:=s2]> g !! n) as Hg by (rewrite lookup_insert_ne; congruence).
    rewrite Hg in Hch. apply spreadWeeds_effect in Hch as (Hin & ns & Hns & Hw & _ & _ & Hres).
    rewrite HE in Hin. apply downwind_east in Hin as [Hlt _].
    split; [exact E4|]. split; [exact Hlt|].
    exists ns. rewrite Hg. repeat split; assumption.
  - apply Z.eqb_neq in E4. intros E0; injection E0 as <- <-.
    split.
    + intros _ n Hn. rewrite lookup_insert_ne; congruence.
    + intros _ n Hn Hch. exfalso. apply Hch. rewrite lookup_insert_ne; congruence.
Qed.


Lemma step_inj k d d' : step k d = step k d' -> d = d'.
Proof.
  destruct k as [x y], d, d'; cbn [step]; intros E; try reflexivity;
    injection E; intros; lia.
Qed.

Lemma step_ne k d : step k d <> k.
Proof. destruct k as [x y], d; cbn [step]; intros E; injection E; intros; lia. Qed.

Lemma step_opposite k d : step (step k d) (opposite d) = k.
Proof. destruct k as [x y], d; cbn [step opposite]; f_equal; lia. Qed.

Lemma opposite_involutive d : opposite (opposite d) = d.
Proof. destruct d; reflexivity. Qed.

Lemma towards_step k d : towards k (step k d) = Some d.
Proof.
  unfold towards.
  repeat (destruct (decide _) as [E | ?]; [apply step_inj in E; subst; reflexivity|]).
  destruct d; congruence.
Qed.

Lemma towards_Some k n d : towards k n = Some d -> n = step k d.
Proof.
  unfold towards.
  repeat (destruct (decide _) as [E | ?]; [intros E0; injection E0 as <-; exact E|]).
  discriminate.
Qed.

Lemma flag_set_flag_same d v c : flag d (set_flag d v c) = v.
Proof. destruct d; reflexivity. Qed.

Lemma flag_set_flag_other d d' v c : d <> d' -> flag d' (set_flag d v c) = flag d' c.
Proof. destruct d, d'; intros H; try reflexivity; contradiction. Qed.

Lemma set_flag_false_id d c : flag d c = false -> set_flag d false c = c.
Proof. destruct c, d; cbn [flag set_flag Structure.top Structure.right Structure.bottom Structure.left];
  intros ->; reflexivity. Qed.

Lemma clearFlagOf_id d sq :
  (forall nst, Square.structure sq = Some nst -> flag d (Structure.connections nst) = false) ->
  clearFlagOf d sq = sq.
Proof.
  unfold clearFlagOf. destruct sq as [so te we pe pl str di]. cbn [Square.structure].
  destruct str as [nst|]; [|reflexivity]. intros H.
  rewrite set_flag_false_id by (apply H; reflexivity).
  destruct nst. reflexivity.
Qed.

Lemma clearNeighborFlag_lookup (k : Key) (c : Structure.Connections) (g : Square.Grid)
    (dir : Dir) (n : Key) :
  Square.clearNeighborFlag k c g dir !! n
  = if decide (n = step k dir)
    then (if flag dir c then clearFlagOf (opposite dir) <$> g !! n else g !! n)
    else g !! n.
Proof.
  unfold Square.clearNeighborFlag.
  destruct (flag dir c); [|case_decide; reflexivity].
  destruct (g !! step k dir) as [nsq|] eqn:En.
  - destruct (Square.structure nsq) as [nst|] eqn:Est.
    + destruct (flag (opposite dir) (Structure.connections nst)) eqn:Ef.
      * rewrite lookup_insert. case_decide as E1; case_decide as E2; try congruence.
        subst n. rewrite En. cbn. unfold clearFlagOf. rewrite Est. reflexivity.
      * case_decide as E; [|reflexivity]. subst n. rewrite En. cbn.
        rewrite clearFlagOf_id; [reflexivity|]. intros x Hx. congruence.
    + case_decide as E; [|reflexivity]. subst n. rewrite En. cbn.
      unfold clearFlagOf. rewrite Est. reflexivity.
  - case_decide as E; [|reflexivity]. subst n. rewrite En. reflexivity.
Qed.

Lemma clearNeighborFlags_lookup (k : Key) (c : Structure.Connections) (g : Square.Grid)
    (n : Key) :
  Square.clearNeighborFlags k c g !! n
  = match towards k n with
    | Some d => if flag d c then clearFlagOf (opposite d) <$> g !! n else g !! n
    | None => g !! n
    end.
Proof.
  unfold Square.clearNeighborFlags, allDirs. cbn [fold_left].
  rewrite !clearNeighborFlag_lookup. unfold towards.
  destruct (decide (n = step k Top)) as [E1|E1].
  { subst n. repeat (destruct (decide _) as [E | ?]; [apply step_inj in E; discriminate|]).
    reflexivity. }
  destruct (decide (n = step k Right)) as [E2|E2].
  { subst n. repeat (destruct (decide _) as [E | ?]; [apply step_inj in E; discriminate|]).
    reflexivity. }
  destruct (decide (n = step k Bottom)) as [E3|E3].
  { subst n. repeat (destruct (decide _) as [E | ?]; [apply step_inj in E; discriminate|]).
    reflexivity. }
  destruct (decide (n = step k Left)) as [E4|E4]; reflexivity.
Qed.

Lemma step_inj_l k m d : step k d = step m d -> k = m.
Proof.
  destruct k as [x y], m as [x' y'], d; cbn [step]; intros E; injection E; intros;
    f_equal; lia.
Qed.

Lemma opposite_inj d d' : opposite d = opposite d' -> d = d'.
Proof. destruct d, d'; intros E; try reflexivity; discriminate. Qed.

(** What clearing a flag leaves of the structure of a square. *)
Lemma clearFlagOf_structure d sq st :
  Square.structure (clearFlagOf d sq) = Some st ->
  exists st0, Square.structure sq = Some st0
    /\ Structure.type st = Structure.type st0
    /\ flag d (Structure.connections st) = false
    /\ forall d', d' <> d ->
         flag d' (Structure.connections st) = flag d' (Structure.connections st0).
Proof.
  unfold clearFlagOf. destruct (Square.structure sq) as [st0|] eqn:E.
  - cbn [Square.structure Square.set_structure]. intros E0; injection E0 as <-.
    exists st0. split; [reflexivity|]. split; [reflexivity|].
    cbn [set_connections Structure.connections]. split.
    + apply flag_set_flag_same.
    + intros d' Hd. apply flag_set_flag_other. congruence.
  - rewrite E. discriminate.
Qed.

Lemma clearFlagOf_structure_of d sq st0 :
  Square.structure sq = Some st0 ->
  exists st, Square.structure (clearFlagOf d sq) = Some st
    /\ Structure.type st = Structure.type st0
    /\ forall d', d' <> d ->
         flag d' (Structure.connections st) = flag d' (Structure.connections st0).
Proof.
  intros E. unfold clearFlagOf. rewrite E. eexists. split; [reflexivity|].
  split; [reflexivity|]. intros d' Hd.
  cbn [set_connections Structure.connections]. apply flag_set_flag_other. congruence.
Qed.

Lemma removal_keeps_mirrored (g : Square.Grid) (k : Key) (s : Square.t)
    (st : Structure.t) (s' : Square.t) :
  Mirrored g ->
  g !! k = Some s ->
  Square.structure s = Some st ->
  Square.structure s' = None ->
  Mirrored (<[k := s']> (Square.clearNeighborFlags k (Structure.connections st) g)).
Proof.
  intros HM Hk Hst Hs' m d sm stm Hm Hstm Hflag.
  destruct (decide (m = k)) as [-> | Hmk].
  { rewrite lookup_insert_eq in Hm. injection Hm as <-. congruence. }
  rewrite lookup_insert_ne in Hm by congruence.
  rewrite clearNeighborFlags_lookup in Hm.
  (* the square at [m] before the removal, with the same flag set *)
  assert (exists sm0 stm0, g !! m = Some sm0 /\ Square.structure sm0 = Some stm0
            /\ Structure.type stm = Structure.type stm0
            /\ flag d (Structure.connections stm0) = true
            /\ (step m d = k -> False)) as (sm0 & stm0 & Hm0 & Hstm0 & Hty & Hfl0 & Hnk).
  { destruct (towards k m) as [dm|] eqn:Et.
    - apply towards_Some in Et.
      destruct (flag dm (Structure.connections st)) eqn:Efl.
      + destruct (g !! m) as [sm0|] eqn:Em0; [|discriminate].
        cbn in Hm. injection Hm as <-.
        apply clearFlagOf_structure in Hstm as (stm0 & Hstm0 & Hty & Hcl & Hoth).
        assert (d <> opposite dm) as Hd by (intros ->; congruence).
        exists sm0, stm0. repeat split; try assumption.
        * rewrite <- Hoth by exact Hd. exact Hflag.
        * intros Hstep. apply Hd.
          assert (step k dm = step k (opposite d)) as HH.
          { rewrite <- Et, <- Hstep. symmetry. apply step_opposite. }
          apply step_inj in HH. subst dm. symmetry. apply opposite_involutive.
      + exists sm, stm. repeat split; try assumption.
        intros Hstep.
        destruct (HM m d sm stm Hm Hstm Hflag) as (ns & nst & Hn & Hnst & _ & Hnfl).
        rewrite Hstep, Hk in Hn. injection Hn as <-.
        rewrite Hst in Hnst. injection Hnst as <-.
        assert (step k dm = step k (opposite d)) as HH.
        { rewrite <- Et, <- Hstep. symmetry. apply step_opposite. }
        apply step_inj in HH. subst dm. congruence.
    - exists sm, stm. repeat split; try assumption.
      intros Hstep.
      assert (m = step k (opposite d)) as Hm' by (rewrite <- Hstep; symmetry; apply step_opposite).
      rewrite Hm', towards_step in Et. discriminate. }
  destruct (HM m d sm0 stm0 Hm0 Hstm0 Hfl0) as (ns & nst & Hn & Hnst & Hnty & Hnfl).
  rewrite lookup_insert_ne by (intros E; apply Hnk; congruence).
  rewrite clearNeighborFlags_lookup.
  destruct (towards k (step m d)) as [dn|] eqn:Etn.
  - apply towards_Some in Etn.
    destruct (flag dn (Structure.connections st)).
    + rewrite Hn. cbn.
      destruct (clearFlagOf_structure_of (opposite dn) ns nst Hnst) as (nst' & Hnst' & Hty' & Hoth).
      exists (clearFlagOf (opposite dn) ns), nst'.
      split; [reflexivity|]. split; [exact Hnst'|]. split; [congruence|].
      rewrite Hoth; [exact Hnfl|].
      intros E. apply opposite_inj in E. subst dn.
      apply step_inj_l in Etn. congruence.
    + exists ns, nst. repeat split; try assumption. congruence.
  - exists ns, nst. repeat split; try assumption. congruence.
Qed.


Lemma removal_disconnects (g : Square.Grid) (k : Key) (s : Square.t)
    (st : Structure.t) (s' : Square.t) :
  g !! k = Some s ->
  Square.structure s = Some st ->
  Square.structure s' = None ->
  disconnects g k st
    (<[k := s']> (Square.clearNeighborFlags k (Structure.connections st) g)).
Proof.
  intros Hk Hst Hs'.
  assert (forall d, flag d (Structure.connections st) = true ->
            <[k := s']> (Square.clearNeighborFlags k (Structure.connections st) g)
              !! step k d
            = clearFlagOf (opposite d) <$> g !! step k d) as Hstep.
  { intros d Hfl.
    rewrite lookup_insert_ne by (intros E; symmetry in E; exact (step_ne k d E)).
    rewrite clearNeighborFlags_lookup, towards_step, Hfl. reflexivity. }
  split; [|split; [|split; [|split]]].
  - exists s'. split; [apply lookup_insert_eq|exact Hs'].
  - exact Hstep.
  - intros d ns nst Hfl Hn Hnst.
    rewrite (Hstep d Hfl) in Hn.
    destruct (g !! step k d) as [ns0|]; [|discriminate].
    cbn in Hn. injection Hn as <-.
    apply clearFlagOf_structure in Hnst as (_ & _ & _ & Hcl & _). exact Hcl.
  - intros n Hn Hnot.
    rewrite lookup_insert_ne by congruence.
    rewrite clearNeighborFlags_lookup.
    destruct (towards k n) as [d|] eqn:Et; [|reflexivity].
    apply towards_Some in Et.
    destruct (flag d (Structure.connections st)) eqn:Hfl; [|reflexivity].
    exfalso. exact (Hnot d Hfl Et).
  - intros HM. split; [apply (removal_keeps_mirrored g k s st s' HM Hk Hst Hs')|].
    intros d Hfl.
    destruct (HM k d s st Hk Hst Hfl) as (ns & nst & Hn & Hnst & Hty & Hop).
    exists ns, nst.
    split; [exact Hn|]. split; [exact Hnst|]. split; [exact Hty|].
    split; [exact Hop|].
    rewrite (Hstep d Hfl), Hn. cbn [fmap option_fmap option_map].
    unfold clearFlagOf. rewrite Hnst. reflexivity.
Qed.

Lemma till_removes_structure (g : Square.Grid) (k : Key) (s : Square.t) (st : Structure.t) :
  g !! k = Some s ->
  Square.structure s = Some st ->
  connectable st = true ->
  exists res s',
    Square.till k g
    = Some (res, <[k := s']> (Square.clearNeighborFlags k (Structure.connections st) g))
    /\ Square.structure s' = None
    /\ In (Structure.type st) (Square.removed res).
Proof.
  intros Hk Hst Hc. unfold Square.till. rewrite Hk.
  set (c := if (0 <? _)%Z then _ else _).
  assert (Square.structure (snd c) = Some st) as Hc2.
  { subst c. destruct (0 <? _)%Z; exact Hst. }
  destruct c as [items s1]. cbn [snd] in Hc2. rewrite Hc2.
  unfold connectable in Hc. rewrite Hc.
  eexists _, _. split; [reflexivity|]. split; [reflexivity|].
  cbn [Square.removed]. apply in_or_app. right. left. reflexivity.
Qed.

Lemma removeEntity_removes_structure (g : Square.Grid) (k : Key) (s : Square.t)
    (st : Structure.t) :
  g !! k = Some s ->
  Square.plant s = None ->
  Square.structure s = Some st ->
  connectable st = true ->
  exists s',
    Square.removeEntity k g
    = Some (Some (Structure.type st),
            <[k := s']> (Square.clearNeighborFlags k (Structure.connections st) g))
    /\ Square.structure s' = None.
Proof.
  intros Hk Hp Hst Hc. unfold Square.removeEntity. rewrite Hk, Hp, Hst.
  unfold connectable in Hc. rewrite Hc.
  eexists. split; [reflexivity|]. reflexivity.
Qed.

(** C9: tilling a square that holds a Trellis or a Net, and removing that
    structure with [removeEntity], delete the structure and clear the
    mirrored flag of every neighbour it was connected to, which is
    otherwise left as it was, as is every other square; the connection
    flags of a mirrored grid stay mirrored, and each neighbour that was
    connected keeps its structure, without the flag towards the removed
    one. *)
Theorem removal_clears_mirrored_flags
    (g : Square.Grid) (k : Key) (s : Square.t) (st : Structure.t) :
  g !! k = Some s ->
  Square.structure s = Some st ->
  connectable st = true ->
  (exists res g', Square.till k g = Some (res, g') /\ disconnects g k st g')
  /\ (Square.plant s = None ->
      exists g', Square.removeEntity k g = Some (Some (Structure.type st), g')
                 /\ disconnects g k st g').
Proof.
  intros Hk Hst Hc. split.
  - destruct (till_removes_structure g k s st Hk Hst Hc) as (res & s' & Ht & Hs' & _).
    exists res. eexists. split; [exact Ht|].
    apply (removal_disconnects g k s st s' Hk Hst Hs').
  - intros Hp.
    destruct (removeEntity_removes_structure g k s st Hk Hp Hst Hc) as (s' & Hr & Hs').
    eexists. split; [exact Hr|].
    apply (removal_disconnects g k s st s' Hk Hst Hs').
Qed.


(** C1 fails on the code: a Corn that reached Flowering (stage 2) on a
    rich soil falls back to Vegetative (stage 1) in the next update when
    the bioavailable nutrition is below the flowering minimum. *)
Example growthStage_falls_back_at_nutrient_gate :
  let '(_, p1, soil1) := Plant.update richHost 72000 0.5 (Plant.new "Corn") in
  let poorHost :=
    Plant.set_soil (Soil.set_bioavailableNutrition 5 soil1) richHost in
  let '(_, p2, _) := Plant.update poorHost 72 0.5 p1 in
  Plant.growthStage p1 = 2%Z /\ Plant.growthStage p2 = 1%Z.
Proof. vm_compute. split; reflexivity. Qed.


Lemma soil_bounds_preserved_witness :
  (forall ambientTemperature elapsedSimMinutes lightFactor globalState r,
     Grid_inv (Main.grid (Main.updateSquares ambientTemperature elapsedSimMinutes
                            lightFactor globalState singleGrid r)))
  /\ (forall (k : Key) s ops,
        singleGrid !! k = Some s -> Soil_inv (runSoilOps ops (Square.soil s))).
Proof.
  apply (soil_bounds_preserved singleGrid).
  unfold singleGrid. apply map_Forall_insert_2; [|apply map_Forall_empty].
  vm_compute. repeat split; discriminate.
Defined.


Lemma weeds_spread_only_downwind_witness :
  let g' := fst (default (weedGrid, zeroDraws)
                   (Square.updateWeeds (1, 1)%Z eastWind weedGrid zeroDraws)) in
  (Square.weeds (Square.set_weeds 4 freshSquare) <> 4%Z ->
   forall n, n <> (1, 1)%Z -> g' !! n = weedGrid !! n)
  /\ (currentWindDirection eastWind = "E"%string ->
      forall n, n <> (1, 1)%Z -> g' !! n <> weedGrid !! n ->
        Square.weeds (Square.set_weeds 4 freshSquare) = 4%Z
        /\ (fst n < fst (1, 1)%Z)%Z
        /\ exists ns, weedGrid !! n = Some ns /\ Square.weeds ns = 0%Z
             /\ g' !! n = Some (Square.set_weeds 1 ns)).
Proof.
  apply (weeds_spread_only_downwind (1, 1)%Z eastWind weedGrid zeroDraws
           (Square.set_weeds 4 freshSquare)
           (fst (default (weedGrid, zeroDraws)
                   (Square.updateWeeds (1, 1)%Z eastWind weedGrid zeroDraws)))
           (snd (default (weedGrid, zeroDraws)
                   (Square.updateWeeds (1, 1)%Z eastWind weedGrid zeroDraws)))).
  - reflexivity.
  - vm_compute. reflexivity.
Defined.

Lemma removal_clears_mirrored_flags_witness :
  let s := default freshSquare (trellisGrid !! (1, 0)%Z) in
  let st := default (Structure.new "Trellis") (Square.structure s) in
  (exists res g', Square.till (1, 0)%Z trellisGrid = Some (res, g')
                  /\ disconnects trellisGrid (1, 0)%Z st g')
  /\ (Square.plant s = None ->
      exists g', Square.removeEntity (1, 0)%Z trellisGrid
                 = Some (Some (Structure.type st), g')
                 /\ disconnects trellisGrid (1, 0)%Z st g').
Proof.
  apply (removal_clears_mirrored_flags trellisGrid (1, 0)%Z
           (default freshSquare (trellisGrid !! (1, 0)%Z))
           (default (Structure.new "Trellis")
              (Square.structure (default freshSquare (trellisGrid !! (1, 0)%Z))))).
  - vm_compute. reflexivity.
  - vm_compute. reflexivity.
  - vm_compute. reflexivity.
Defined.


(** * The ranges of the plant state *)

Lemma or_default_zero x : x |? 0 == x.
Proof. js_arith. Qed.

Lemma Plant_inv_set_size v p :
  0 <= v <= 1 -> Plant_inv p -> Plant_inv (Plant.set_size v p).
Proof. unfold Plant_inv. destruct p. plant_fields. tauto. Qed.

Lemma Plant_inv_set_rootHealth v p :
  0 <= v <= 100 -> Plant_inv p -> Plant_inv (Plant.set_rootHealth v p).
Proof. unfold Plant_inv. destruct p. plant_fields. tauto. Qed.

Lemma Plant_inv_set_rootDensity v p :
  0.1 <= v <= 2.5 -> Plant_inv p -> Plant_inv (Plant.set_rootDensity v p).
Proof. unfold Plant_inv. destruct p. plant_fields. tauto. Qed.

Lemma Plant_inv_set_leafDensity v p :
  0.05 <= v <= 1 -> Plant_inv p -> Plant_inv (Plant.set_leafDensity v p).
Proof. unfold Plant_inv. destruct p. plant_fields. tauto. Qed.

Lemma Plant_inv_set_stemDevelopment v p :
  0.05 <= v <= 1 -> Plant_inv p -> Plant_inv (Plant.set_stemDevelopment v p).
Proof. unfold Plant_inv. destruct p. plant_fields. tauto. Qed.

Lemma Plant_inv_set_CHO v p :
  0 <= v -> Plant_inv p -> Plant_inv (Plant.set_CHO v p).
Proof. unfold Plant_inv. destruct p. plant_fields. tauto. Qed.

Lemma Plant_inv_set_ATP v p :
  0 <= v -> Plant_inv p -> Plant_inv (Plant.set_ATP v p).
Proof. unfold Plant_inv. destruct p. plant_fields. tauto. Qed.

Lemma Plant_inv_set_maturityProgress v p :
  0 <= v <= 1 -> Plant_inv p -> Plant_inv (Plant.set_maturityProgress v p).
Proof. unfold Plant_inv. destruct p. plant_fields. tauto. Qed.

Lemma Plant_inv_set_growthStage v p :
  (0 <= v <= 4)%Z -> Plant_inv p -> Plant_inv (Plant.set_growthStage v p).
Proof. unfold Plant_inv. destruct p. plant_fields. tauto. Qed.

Lemma Plant_inv_set_lastO2Consumed v p :
  Plant_inv p -> Plant_inv (Plant.set_lastO2Consumed v p).
Proof. unfold Plant_inv. destruct p. plant_fields. tauto. Qed.

Lemma Plant_inv_set_displayStatus v p :
  Plant_inv p -> Plant_inv (Plant.set_displayStatus v p).
Proof. unfold Plant_inv. destruct p. plant_fields. tauto. Qed.

Lemma Plant_inv_set_wasPollinated v p :
  Plant_inv p -> Plant_inv (Plant.set_wasPollinated v p).
Proof. unfold Plant_inv. destruct p. plant_fields. tauto. Qed.

Lemma Plant_inv_updateAge e p : Plant_inv p -> Plant_inv (Plant._updateAge e p).
Proof. unfold Plant_inv, Plant._updateAge. destruct p. plant_fields. tauto. Qed.

Lemma Math_max_zero_bounds x hi :
  x <= hi -> 0 <= hi -> 0 <= JS.Math_max 0 x <= hi.
Proof. intros. js_arith. Qed.

Lemma Plant_inv_handleSenescence p :
  Plant_inv p -> Plant_inv (snd (Plant._handleSenescence p)).
Proof.
  intros H. unfold Plant._handleSenescence.
  set (trigger := negb _ && negb _ && JS.ge _ _ && (_ =? 3)%Z).
  set (p1 := if trigger then Plant.set_growthStage 4 p else p).
  assert (Plant_inv p1) as H1.
  { subst p1. destruct trigger; [apply Plant_inv_set_growthStage; [lia|exact H]|exact H]. }
  clearbody p1. cbn [snd].
  destruct ((Plant.growthStage p =? 4)%Z || trigger); [|exact H1].
  assert (0 <= Config.RATES.senescenceShrinkRate) by (unfold Config.RATES.senescenceShrinkRate; lra).
  assert (0 <= Config.RATES.baseRespirationRate) by (unfold Config.RATES.baseRespirationRate; lra).
  apply Plant_inv_set_ATP; [apply Math_max_lower|].
  apply Plant_inv_set_CHO; [apply Math_max_lower|].
  apply Plant_inv_set_size.
  { destruct H1 as (Hs & _). plant_fields.
    pose proof (or_default_zero (Plant.size (Plant.set_rootHealth
       (JS.Math_max 0 ((Plant.rootHealth p1 |? 0) - 0.5)) p1))) as E.
    destruct p1. plant_fields. apply Math_max_zero_bounds; lra. }
  apply Plant_inv_set_rootHealth; [|exact H1].
  destruct H1 as (_ & Hr & _).
  pose proof (or_default_zero (Plant.rootHealth p1)).
  apply Math_max_zero_bounds; lra.
Qed.

Lemma clamp_range (v lo hi a b : Q) :
  lo <= hi -> a <= lo -> hi <= b -> a <= Utils.clamp v lo hi <= b.
Proof. intros H Ha Hb. pose proof (clamp_bounds v lo hi H). lra. Qed.

Lemma Plant_inv_updateMaturityAndStage e h p :
  Plant_inv p -> Plant_inv (Plant._updateMaturityAndStage e h p).
Proof.
  intros H. unfold Plant._updateMaturityAndStage.
  set (p1 := Plant.set_maturityProgress _ p).
  assert (Plant_inv p1) as H1.
  { apply Plant_inv_set_maturityProgress; [apply clamp_range; vm_compute; discriminate|exact H]. }
  assert (0 <= Plant.growthStage p1 <= 4)%Z as Hg by (destruct H1 as (_&_&_&_&_&_&_&_&Hg); exact Hg).
  clearbody p1.
  destruct (Plant.growthStage p1 <? 4)%Z; [|exact H1].
  repeat match goal with |- Plant_inv (if ?c then _ else _) => destruct c end;
    apply Plant_inv_set_growthStage; try exact H1; lia.
Qed.

Lemma calculatePhotosynthesis_nonneg h lf p : 0 <= Plant._calculatePhotosynthesis h lf p.
Proof.
  unfold Plant._calculatePhotosynthesis.
  destruct (_ || _); [lra|apply Math_max_lower].
Qed.

Lemma Plant_inv_applyMaintenanceRespiration h p :
  Plant_inv p -> Plant_inv (Plant._applyMaintenanceRespiration h p).
Proof.
  intros H. unfold Plant._applyMaintenanceRespiration.
  apply Plant_inv_set_CHO; [apply Math_max_lower|exact H].
Qed.

Lemma Plant_inv_updateHealthAndRecoveryDemand h p :
  Plant_inv p -> Plant_inv (snd (Plant._updateHealthAndRecoveryDemand h p)).
Proof.
  intros H. unfold Plant._updateHealthAndRecoveryDemand. cbn [snd].
  apply Plant_inv_set_rootHealth; [apply clamp_range; vm_compute; discriminate|exact H].
Qed.

Lemma Plant_inv_updateStemAndLeaf h lf p :
  Plant_inv p -> Plant_inv (Plant._updateStemAndLeaf h lf p).
Proof.
  intros H. unfold Plant._updateStemAndLeaf.
  apply Plant_inv_set_leafDensity; [apply clamp_range; vm_compute; discriminate|].
  apply Plant_inv_set_stemDevelopment; [apply clamp_range; vm_compute; discriminate|exact H].
Qed.

Lemma Math_min_nonneg a b : 0 <= a -> 0 <= b -> 0 <= JS.Math_min a b.
Proof. intros. js_arith. Qed.

Lemma Plant_inv_generateATP d p : Plant_inv p -> Plant_inv (Plant._generateATP d p).
Proof.
  intros H. unfold Plant._generateATP.
  set (p1 := Plant.set_CHO _ p).
  assert (Plant_inv p1) as H1 by (apply Plant_inv_set_CHO; [apply Math_max_lower|exact H]).
  apply Plant_inv_set_ATP; [|exact H1].
  assert (0 <= Plant.ATP p1 |? 0) as Ha.
  { destruct H1 as (_&_&_&_&_&_&Ha&_). pose proof (or_default_zero (Plant.ATP p1)). lra. }
  assert (0 <= JS.Math_min
                 (JS.Math_max 0 d / Config.RATES.respirationCHOToATPConversion)
                 (JS.Math_max 0 (Plant.CHO p |? 0))) as Hm.
  { apply Math_min_nonneg; [|apply Math_max_lower].
    apply Qle_shift_div_l; [unfold Config.RATES.respirationCHOToATPConversion; lra|].
    pose proof (Math_max_lower 0 d). lra. }
  unfold Config.RATES.respirationCHOToATPConversion in *.
  generalize dependent (JS.Math_min (JS.Math_max 0 d / 30) (JS.Math_max 0 (Plant.CHO p |? 0))).
  intros m Hm. lra.
Qed.

Lemma ge_true a b : JS.ge a b = true -> b <= a.
Proof. unfold JS.ge. apply Qle_bool_iff. Qed.

Lemma Plant_inv_applyGrowthAndRecoveryCosts gi ri st h p :
  Plant_inv p ->
  Plant_inv (snd (Plant._applyGrowthAndRecoveryCosts gi ri st h p)).
Proof.
  intros H. unfold Plant._applyGrowthAndRecoveryCosts.
  set (c1 := if Plant.canRecover ri then _ else _).
  assert (Plant_inv (snd c1)) as H1.
  { subst c1. destruct (Plant.canRecover ri); [|exact H].
    destruct (JS.ge (Plant.ATP p |? 0) (Plant.r_atpNeeded ri |? 0)) eqn:E; [|exact H].
    cbn [snd]. apply ge_true in E.
    apply Plant_inv_set_ATP.
    - plant_fields. pose proof (or_default_zero (Plant.ATP p)).
      destruct p; plant_fields. lra.
    - apply Plant_inv_set_rootHealth; [apply clamp_range; vm_compute; discriminate|exact H]. }
  destruct c1 as [st1 p1]. cbn [snd] in H1.
  set (c2 := if Plant.isShrinking gi then _ else _).
  assert (Plant_inv (snd c2)) as H2.
  { subst c2. destruct (Plant.isShrinking gi); [exact H1|].
    destruct (JS.gt _ 0); [|exact H1].
    destruct (JS.ge (Plant.ATP p1 |? 0) (Plant.g_atpNeeded gi |? 0)) eqn:E; [|exact H1].
    cbn [snd]. apply ge_true in E.
    apply Plant_inv_set_ATP; [|exact H1].
    pose proof (or_default_zero (Plant.ATP p1)). lra. }
  destruct c2 as [[sc st2] p2]. cbn [snd] in *.
  apply Plant_inv_set_size; [|exact H2].
  apply clamp_range; vm_compute; discriminate.
Qed.

Lemma Plant_inv_updateRootDensity h f p :
  Plant_inv p -> Plant_inv (Plant._updateRootDensity h f p).
Proof.
  intros H. unfold Plant._updateRootDensity. destruct (JS.le _ 0); [exact H|].
  apply Plant_inv_set_rootDensity; [|exact H].
  apply clamp_range; vm_compute; discriminate.
Qed.

Lemma Plant_inv_finalizeStatus st gi ri p :
  Plant_inv p -> Plant_inv (snd (Plant._finalizeStatus st gi ri p)).
Proof.
  intros H. unfold Plant._finalizeStatus. cbn [snd].
  apply Plant_inv_set_ATP; [apply Math_max_lower|].
  apply Plant_inv_set_CHO; [apply Math_max_lower|exact H].
Qed.

Lemma Plant_inv_update h e lf p :
  Plant_inv p -> Plant_inv (snd (fst (Plant.update h e lf p))).
Proof.
  intros H. unfold Plant.update.
  pose proof (Plant_inv_handleSenescence
                (Plant._updateAge e (Plant.set_lastO2Consumed 0 p))
                (Plant_inv_updateAge e _ (Plant_inv_set_lastO2Consumed 0 p H))) as H1.
  destruct (Plant._handleSenescence _) as [finished p1]. cbn [snd] in H1.
  destruct finished.
  { cbn [fst snd]. apply Plant_inv_set_displayStatus, H1. }
  pose proof (Plant_inv_updateMaturityAndStage e h p1 H1) as H2.
  set (p2 := Plant._updateMaturityAndStage e h p1) in *.
  assert (Plant_inv (Plant.set_CHO ((Plant.CHO p2 |? 0)
             + Plant._calculatePhotosynthesis h lf p2) p2)) as H3.
  { apply Plant_inv_set_CHO; [|exact H2].
    pose proof (calculatePhotosynthesis_nonneg h lf p2).
    destruct H2 as (_&_&_&_&_&Hc&_). pose proof (or_default_zero (Plant.CHO p2)). lra. }
  apply Plant_inv_applyMaintenanceRespiration with (h := h) in H3.
  set (p4 := Plant._applyMaintenanceRespiration h _) in *.
  destruct (Plant._consumeResources h p4) as [o2 soil'].
  pose proof (Plant_inv_updateHealthAndRecoveryDemand (Plant.set_soil soil' h)
                (Plant.set_lastO2Consumed o2 p4)
                (Plant_inv_set_lastO2Consumed o2 p4 H3)) as H5.
  destruct (Plant._updateHealthAndRecoveryDemand _ _) as [ri p5]. cbn [snd] in H5.
  apply Plant_inv_updateStemAndLeaf with (h := Plant.set_soil soil' h) (lf := lf) in H5.
  set (p6 := Plant._updateStemAndLeaf _ lf p5) in *.
  set (gi := Plant._calculatePotentialGrowth _ e lf p6).
  pose proof (Plant_inv_generateATP (Plant.g_atpNeeded gi + Plant.r_atpNeeded ri) p6 H5) as H7.
  pose proof (Plant_inv_applyGrowthAndRecoveryCosts gi ri (Plant.baseConditionStatus gi)
                (Plant.set_soil soil' h) _ H7) as H8.
  destruct (Plant._applyGrowthAndRecoveryCosts _ _ _ _ _) as [st8 p8]. cbn [snd] in H8.
  apply Plant_inv_updateRootDensity with (h := Plant.set_soil soil' h)
                                         (f := Plant.tempFactor gi) in H8.
  unfold Plant._applyBeanEffects.
  pose proof (Plant_inv_finalizeStatus st8 gi ri _ H8) as H9.
  destruct (Plant._finalizeStatus _ _ _ _) as [st9 p9]. cbn [fst snd] in *.
  apply Plant_inv_set_displayStatus, H9.
Qed.

Lemma Plant_inv_new type : Plant_inv (Plant.new type).
Proof.
  unfold Plant.new. destruct (Plant.lookupProperties type);
    unfold Plant_inv; plant_fields;
    unfold Config.INITIAL_DOT_SIZE_RATIO, Config.INITIAL_CHO, Config.INITIAL_ATP,
      Config.INITIAL_LEAF_DENSITY, Config.INITIAL_STEM_DEV;
    repeat split; try lra; lia.
Qed.


(** X1: the ranges of the plant state (size in [0,1], root health in
    [0,100], root density in [0.1,2.5], leaf density and stem development
    in [0.05,1], CHO and ATP non-negative, maturity in [0,1], stage in
    0..4) are kept by every run of updates, whatever the squares, the
    elapsed times and the light. *)
Theorem plant_ranges_preserved
    (ticks : list (Plant.Host * Q * Q)) (p : Plant.t) :
  Plant_inv p -> Plant_inv (plantTicks ticks p).
Proof.
  revert p. induction ticks as [|t ticks IH]; intros p H; [exact H|].
  unfold plantTicks. cbn [fold_left]. apply IH, Plant_inv_update, H.
Qed.

Lemma plant_ranges_preserved_witness :
  Plant_inv (plantTicks [(richHost, 72, 0.5); (richHost, 72, 0)]
                        (Plant.new "Corn")).
Proof.
  apply (plant_ranges_preserved [(richHost, 72, 0.5); (richHost, 72, 0)]
                                (Plant.new "Corn")).
  vm_compute. repeat split; discriminate.
Defined.

(** * Senescence *)

Lemma handleSenescence_senescent p :
  Plant.growthStage p = 4%Z ->
  Plant._handleSenescence p
  = (true,
     let pa := Plant.set_rootHealth
                 (JS.Math_max 0 ((Plant.rootHealth p |? 0) - 0.5)) p in
     let pb := Plant.set_size
                 (JS.Math_max 0 ((Plant.size pa |? 0)
                                 - Config.RATES.senescenceShrinkRate)) pa in
     let pc := Plant.set_CHO
                 (JS.Math_max 0
                    ((Plant.CHO pb |? 0)
                     - (Config.RATES.baseRespirationRate
                        * (Plant.size pb |? 0) * 0.1))) pb in
     Plant.set_ATP
       (JS.Math_max 0
          ((Plant.ATP pc |? 0)
           - (Config.RATES.baseRespirationRate * (Plant.size pc |? 0) * 0.05)))
       pc).
Proof.
  intros H. unfold Plant._handleSenescence. rewrite H.
  cbn [Z.eqb Pos.eqb negb andb orb]. rewrite orb_true_r. reflexivity.
Qed.

(** X2: a senescent plant (stage 4) only declines.  Its update leaves
    the soil of the square untouched and reports no oxygen consumption;
    the plant stays in stage 4 with the same maturity progress; its size,
    root health, CHO and ATP do not increase; and the status reported is
    "dead" or "senescent". *)
Theorem senescent_plant_only_declines
    (h : Plant.Host) (e lf : Q) (p : Plant.t) :
  Plant_inv p ->
  Plant.growthStage p = 4%Z ->
  let r := Plant.update h e lf p in
  let p' := snd (fst r) in
  snd r = Plant.soil h
  /\ Plant.oxygenConsumed (fst (fst r)) = 0
  /\ Plant.growthStage p' = 4%Z
  /\ Plant.maturityProgress p' = Plant.maturityProgress p
  /\ Plant.size p' <= Plant.size p
  /\ Plant.rootHealth p' <= Plant.rootHealth p
  /\ Plant.CHO p' <= Plant.CHO p
  /\ Plant.ATP p' <= Plant.ATP p
  /\ (Plant.status (fst (fst r)) = "dead"%string
      \/ Plant.status (fst (fst r)) = "senescent"%string).
Proof.
  intros H H4 r p'. subst p' r. unfold Plant.update.
  rewrite handleSenescence_senescent
    by (destruct p; plant_fields; exact H4).
  cbv zeta. cbn [fst snd Plant.oxygenConsumed Plant.status].
  destruct H as (Hs & Hr & _ & _ & _ & Hc & Ha & _).
  unfold Plant._updateAge.
  destruct p. plant_fields.
  unfold Config.RATES.senescenceShrinkRate, Config.RATES.baseRespirationRate.
  repeat split; try reflexivity; try exact H4.
  - js_arith.
  - js_arith.
  - js_arith.
  - js_arith.
  - match goal with |- context [if ?c then _ else _] => destruct c end; auto.
Qed.

Lemma senescent_plant_only_declines_witness :
  let r := Plant.update richHost 72 0.5
             (Plant.set_growthStage 4 (Plant.new "Corn")) in
  let p' := snd (fst r) in
  snd r = Plant.soil richHost
  /\ Plant.oxygenConsumed (fst (fst r)) = 0
  /\ Plant.growthStage p' = 4%Z
  /\ Plant.maturityProgress p'
     = Plant.maturityProgress (Plant.set_growthStage 4 (Plant.new "Corn"))
  /\ Plant.size p' <= Plant.size (Plant.set_growthStage 4 (Plant.new "Corn"))
  /\ Plant.rootHealth p'
     <= Plant.rootHealth (Plant.set_growthStage 4 (Plant.new "Corn"))
  /\ Plant.CHO p' <= Plant.CHO (Plant.set_growthStage 4 (Plant.new "Corn"))
  /\ Plant.ATP p' <= Plant.ATP (Plant.set_growthStage 4 (Plant.new "Corn"))
  /\ (Plant.status (fst (fst r)) = "dead"%string
      \/ Plant.status (fst (fst r)) = "senescent"%string).
Proof.
  apply (senescent_plant_only_declines richHost 72 0.5
           (Plant.set_growthStage 4 (Plant.new "Corn"))).
  - vm_compute. repeat split; discriminate.
  - reflexivity.
Defined.


(** * Growth stages *)

Lemma ge_false a b : JS.ge a b = false -> a < b.
Proof.
  unfold JS.ge. intros E. apply Qnot_le_lt. intros H.
  apply Qle_bool_iff in H. congruence.
Qed.

Lemma ge_intro a b : b <= a -> JS.ge a b = true.
Proof. unfold JS.ge. apply Qle_bool_iff. Qed.

Lemma stageOfMaturity_mono a b :
  a <= b -> (stageOfMaturity a <= stageOfMaturity b)%Z.
Proof.
  intros H. unfold stageOfMaturity.
  unfold Config.THRESHOLDS.plantTier3Maturity, Config.THRESHOLDS.plantTier2Maturity,
    Config.THRESHOLDS.plantTier1Maturity.
  repeat match goal with
  | |- context [JS.ge ?x ?y] =>
      let E := fresh "E" in
      destruct (JS.ge x y) eqn:E; [apply ge_true in E|apply ge_false in E]
  end; try lia; exfalso; lra.
Qed.

Lemma stageOfMaturity_range m : (0 <= stageOfMaturity m <= 3)%Z.
Proof.
  unfold stageOfMaturity.
  repeat match goal with |- context [if ?c then _ else _] => destruct c end; lia.
Qed.

Lemma updateMaturityAndStage_stage e h p :
  let p' := Plant._updateMaturityAndStage e h p in
  ((Plant.growthStage p <? 4)%Z = false
   /\ Plant.growthStage p' = Plant.growthStage p)
  \/ ((Plant.growthStage p < 4)%Z
      /\ (Plant.growthStage p' <= stageOfMaturity (Plant.maturityProgress p'))%Z
      /\ (Config.THRESHOLDS.minNutrientsForFlowering
            <= Soil.bioavailableNutrition (Plant.soil h) ->
          Plant.growthStage p' = stageOfMaturity (Plant.maturityProgress p'))).
Proof.
  intros p'. subst p'. unfold Plant._updateMaturityAndStage.
  set (m := Utils.clamp _ 0 1).
  assert (Plant.growthStage (Plant.set_maturityProgress m p) = Plant.growthStage p)
    as Eg by (destruct p; reflexivity).
  assert (Plant.maturityProgress (Plant.set_maturityProgress m p) = m)
    as Em by (destruct p; reflexivity).
  rewrite Eg, Em.
  destruct (Plant.growthStage p <? 4)%Z eqn:E4.
  2:{ left. split; [reflexivity|exact Eg]. }
  right. apply Z.ltb_lt in E4. split; [exact E4|].
  assert (forall k, Plant.maturityProgress
                      (Plant.set_growthStage k (Plant.set_maturityProgress m p)) = m)
    as Em' by (intros k; destruct p; reflexivity).
  assert (forall k, Plant.growthStage
                      (Plant.set_growthStage k (Plant.set_maturityProgress m p)) = k)
    as Eg' by (intros k; destruct p; reflexivity).
  assert (Config.THRESHOLDS.minNutrientsForFlowering
            <= Soil.bioavailableNutrition (Plant.soil h) ->
          JS.ge (Soil.bioavailableNutrition (Plant.soil h) |? 0)
                Config.THRESHOLDS.minNutrientsForFlowering = true) as Hfed.
  { intros Hb. apply ge_intro. rewrite or_default_zero. exact Hb. }
  unfold stageOfMaturity.
  destruct (JS.ge m Config.THRESHOLDS.plantTier3Maturity) eqn:E3.
  { destruct (JS.ge _ Config.THRESHOLDS.minNutrientsForFlowering) eqn:Eb;
      rewrite Em', Eg', E3; split; try lia; auto.
    intros Hb. specialize (Hfed Hb). discriminate. }
  destruct (JS.ge m Config.THRESHOLDS.plantTier2Maturity) eqn:E2.
  { destruct (JS.ge _ Config.THRESHOLDS.minNutrientsForFlowering) eqn:Eb;
      rewrite Em', Eg', E3, E2; split; try lia; auto.
    intros Hb. specialize (Hfed Hb). discriminate. }
  destruct (JS.ge m Config.THRESHOLDS.plantTier1Maturity) eqn:E1;
    rewrite Em', Eg', E3, E2, E1; split; try lia; auto.
Qed.

Lemma handleSenescence_stage p :
  let r := Plant._handleSenescence p in
  Plant.growthStage (snd r) = Plant.growthStage p
  \/ (Plant.growthStage p = 3%Z /\ Plant.growthStage (snd r) = 4%Z
      /\ fst r = true).
Proof.
  intros r. subst r. unfold Plant._handleSenescence.
  set (trigger := negb _ && negb _ && JS.ge _ _ && (_ =? 3)%Z).
  destruct trigger eqn:Et.
  - right. subst trigger. apply andb_true_iff in Et as [_ E3].
    apply Z.eqb_eq in E3. rewrite !orb_true_r. cbn [fst snd].
    split; [exact E3|]. split; [destruct p; reflexivity|reflexivity].
  - left. rewrite orb_false_r. cbn [snd].
    destruct (Plant.growthStage p =? 4)%Z; destruct p; reflexivity.
Qed.

Lemma updateAge_lifecycle e p :
  lifecycle (Plant._updateAge e (Plant.set_lastO2Consumed 0 p)) = lifecycle p.
Proof. destruct p; reflexivity. Qed.

(** The stage and the maturity progress after the first three steps of an
    update. *)
Lemma staged_stage h e p :
  0 <= e -> 0 <= Plant.maturityProgress p <= 1 -> StageConsistent p ->
  let p' := staged h e p in
  StageConsistent p'
  /\ (Config.THRESHOLDS.minNutrientsForFlowering
        <= Soil.bioavailableNutrition (Plant.soil h) ->
      (Plant.growthStage p <= Plant.growthStage p')%Z).
Proof.
  intros He Hm Hc p'. subst p'. unfold staged.
  set (p0 := Plant._updateAge e (Plant.set_lastO2Consumed 0 p)).
  assert (Plant.growthStage p0 = Plant.growthStage p) as Eg0
    by (destruct p; reflexivity).
  assert (Plant.maturityProgress p0 = Plant.maturityProgress p) as Em0
    by (destruct p; reflexivity).
  clearbody p0.
  pose proof (handleSenescence_stage p0) as Hs.
  pose proof (handleSenescence_maturity p0) as Hsm.
  destruct (Plant._handleSenescence p0) as [finished p1]. cbn [fst snd] in *.
  rewrite Eg0 in Hs. rewrite Em0 in Hsm.
  destruct finished.
  { unfold StageConsistent. rewrite Hsm.
    destruct Hs as [-> | (E3 & -> & _)]; [split; [exact Hc|lia]|].
    split; lia. }
  destruct Hs as [Hs | (_ & _ & ?)]; [|discriminate].
  pose proof (updateMaturityAndStage_stage e h p1) as Hu.
  pose proof (updateMaturityAndStage_maturity e h p1) as Hum.
  set (p2 := Plant._updateMaturityAndStage e h p1) in *. cbv zeta in Hu.
  rewrite Hs in Hu.
  destruct Hu as [[E4 Eg] | (E4 & Hle & Hfed)].
  { apply Z.ltb_ge in E4. unfold StageConsistent. rewrite Eg. split; lia. }
  split; [intros _; exact Hle|].
  intros Hb. rewrite (Hfed Hb).
  assert (Plant.maturityProgress p <= Plant.maturityProgress p2) as Hmono.
  { rewrite Hum, Hsm.
    pose proof (progressThisTick_nonneg e h p1 He).
    apply clamp_above; [|lra].
    pose proof (or_default_zero (Plant.maturityProgress p)). lra. }
  pose proof (stageOfMaturity_mono _ _ Hmono).
  unfold StageConsistent in Hc. lia.
Qed.

(** X3: while the nutrient gate is open (bioavailable nutrition of the
    square at least [minNutrientsForFlowering]), an update never lowers
    the growth stage of a plant whose stage is not ahead of its maturity
    progress; and, gate open or not, the updated plant is again not ahead
    of its maturity progress. *)
Theorem stage_never_regresses_when_fed
    (h : Plant.Host) (e lf : Q) (p : Plant.t) :
  0 <= e ->
  0 <= Plant.maturityProgress p <= 1 ->
  StageConsistent p ->
  let p' := snd (fst (Plant.update h e lf p)) in
  StageConsistent p'
  /\ (Config.THRESHOLDS.minNutrientsForFlowering
        <= Soil.bioavailableNutrition (Plant.soil h) ->
      (Plant.growthStage p <= Plant.growthStage p')%Z).
Proof.
  intros He Hm Hc p'.
  pose proof (update_lifecycle h e lf p) as E. unfold lifecycle in E.
  injection E as Eg Em. fold p' in Eg, Em.
  pose proof (staged_stage h e p He Hm Hc) as [H1 H2].
  unfold StageConsistent in *. rewrite Eg, Em. split; assumption.
Qed.

Lemma stage_never_regresses_when_fed_witness :
  let p' := snd (fst (Plant.update richHost 72 0.5 (Plant.new "Corn"))) in
  StageConsistent p'
  /\ (Config.THRESHOLDS.minNutrientsForFlowering
        <= Soil.bioavailableNutrition (Plant.soil richHost) ->
      (Plant.growthStage (Plant.new "Corn") <= Plant.growthStage p')%Z).
Proof.
  apply (stage_never_regresses_when_fed richHost 72 0.5 (Plant.new "Corn")).
  - vm_compute. discriminate.
  - vm_compute. split; discriminate.
  - intros _. vm_compute. discriminate.
Defined.

(** * Darkness *)

Lemma handleSenescence_declines p :
  Plant_inv p ->
  Plant.size (snd (Plant._handleSenescence p)) <= Plant.size p
  /\ Plant.CHO (snd (Plant._handleSenescence p)) <= Plant.CHO p.
Proof.
  intros (Hs & Hr & _ & _ & _ & Hc & Ha & _).
  unfold Plant._handleSenescence. cbn [snd].
  set (trigger := negb _ && negb _ && JS.ge _ _ && (_ =? 3)%Z).
  unfold Config.RATES.senescenceShrinkRate, Config.RATES.baseRespirationRate.
  destruct ((Plant.growthStage p =? 4)%Z || trigger); destruct trigger;
    destruct p; plant_fields; split; try lra; js_arith.
Qed.

Lemma updateMaturityAndStage_size_CHO e h p :
  Plant.size (Plant._updateMaturityAndStage e h p) = Plant.size p
  /\ Plant.CHO (Plant._updateMaturityAndStage e h p) = Plant.CHO p.
Proof.
  unfold Plant._updateMaturityAndStage.
  repeat match goal with |- context [if ?c then _ else _] => destruct c end;
    destruct p; split; reflexivity.
Qed.

Lemma applyMaintenanceRespiration_size_CHO h p :
  0 <= Plant.size p -> 0 <= Plant.CHO p ->
  Plant.size (Plant._applyMaintenanceRespiration h p) = Plant.size p
  /\ Plant.CHO (Plant._applyMaintenanceRespiration h p) <= Plant.CHO p.
Proof.
  intros Hs Hc. unfold Plant._applyMaintenanceRespiration.
  split; [destruct p; reflexivity|].
  set (c := Utils.clamp (Plant.temperature h / 25) 0.5 2.0).
  assert (0.5 <= c <= 2.0) as Hcl by (apply clamp_bounds; lra).
  assert (0 <= Config.RATES.baseRespirationRate * (Plant.size p |? 0) * c) as Hcost.
  { pose proof (or_default_zero (Plant.size p)).
    apply Qmult_le_0_compat; [apply Qmult_le_0_compat|]; try lra.
    unfold Config.RATES.baseRespirationRate. lra. }
  pose proof (or_default_zero (Plant.CHO p)) as Ec.
  assert (0 <= JS.Math_min (Plant.CHO p |? 0)
                 (Config.RATES.baseRespirationRate * (Plant.size p |? 0) * c)) as Hm
    by (apply Math_min_nonneg; lra).
  revert Hm. generalize (JS.Math_min (Plant.CHO p |? 0)
                 (Config.RATES.baseRespirationRate * (Plant.size p |? 0) * c)).
  intros a Ha. generalize dependent (Plant.CHO p |? 0). intros x Ex.
  assert (Plant.CHO (Plant.set_CHO (JS.Math_max 0 (x - a)) p) = JS.Math_max 0 (x - a))
    as -> by (destruct p; reflexivity).
  js_arith.
Qed.

Lemma generateATP_size_CHO d p :
  0 <= Plant.CHO p ->
  Plant.size (Plant._generateATP d p) = Plant.size p
  /\ Plant.CHO (Plant._generateATP d p) <= Plant.CHO p.
Proof.
  intros Hc. unfold Plant._generateATP.
  split; [destruct p; reflexivity|].
  assert (0 <= JS.Math_min
                 (JS.Math_max 0 d / Config.RATES.respirationCHOToATPConversion)
                 (JS.Math_max 0 (Plant.CHO p |? 0))) as Hm.
  { apply Math_min_nonneg; [|apply Math_max_lower].
    apply Qle_shift_div_l; [unfold Config.RATES.respirationCHOToATPConversion; lra|].
    pose proof (Math_max_lower 0 d). lra. }
  revert Hm.
  generalize (JS.Math_min
                (JS.Math_max 0 d / Config.RATES.respirationCHOToATPConversion)
                (JS.Math_max 0 (Plant.CHO p |? 0))).
  intros a Ha.
  pose proof (or_default_zero (Plant.CHO p)) as Ec.
  generalize dependent (Plant.CHO p |? 0). intros x Ex.
  match goal with |- Plant.CHO (Plant.set_ATP ?v (Plant.set_CHO ?w p)) <= _ =>
    assert (Plant.CHO (Plant.set_ATP v (Plant.set_CHO w p)) = w)
      as -> by (destruct p; reflexivity) end.
  js_arith.
Qed.

Lemma calculatePotentialGrowth_dark h e lf p :
  lf <= 0.1 ->
  Plant.potentialSizeChange (Plant._calculatePotentialGrowth h e lf p) = 0.
Proof.
  intros Hl. unfold Plant._calculatePotentialGrowth.
  assert (JS.gt lf 0.1 = false) as ->.
  { unfold JS.gt. apply negb_false_iff, Qle_bool_iff. exact Hl. }
  rewrite andb_false_r. cbn [andb]. reflexivity.
Qed.

Lemma applyGrowth_CHO gi ri st h p :
  Plant.CHO (snd (Plant._applyGrowthAndRecoveryCosts gi ri st h p)) = Plant.CHO p.
Proof.
  unfold Plant._applyGrowthAndRecoveryCosts.
  destruct (Plant.canRecover ri); [destruct (JS.ge _ _)|];
  (destruct (Plant.isShrinking gi); [|destruct (JS.gt _ _); [destruct (JS.ge _ _)|]]);
  destruct p; reflexivity.
Qed.

Lemma applyGrowth_size_dark gi ri st h p :
  Plant.potentialSizeChange gi = 0 ->
  (0 <= Pests.level (Plant.pests h))%Z ->
  0 <= Plant.size p <= 1 ->
  Plant.size (snd (Plant._applyGrowthAndRecoveryCosts gi ri st h p))
  <= Plant.size p.
Proof.
  intros Hg Hl Hs. unfold Plant._applyGrowthAndRecoveryCosts. rewrite Hg.
  assert (JS.gt 0 0 = false) as -> by reflexivity.
  assert (0 <= inject_Z (Pests.level (Plant.pests h))) as Hl'.
  { change 0 with (inject_Z 0). rewrite <- Zle_Qle. exact Hl. }
  revert Hl'. generalize (inject_Z (Pests.level (Plant.pests h))). intros l Hl'.
  pose proof (or_default_zero (Plant.size p)) as Es.
  unfold Config.RATES.plantShrink, Config.RATES.pestNematodeShrinkAdd,
    Config.THRESHOLDS.plantMaxSize.
  destruct (Plant.canRecover ri); [destruct (JS.ge _ _)|];
  (destruct (Plant.isShrinking gi);
   [destruct (Pests.is_type "Nematodes" _); destruct (Pests.is_type "Aphids" _)|]);
  cbn [snd]; destruct p; plant_fields;
  generalize dependent (size |? 0); intros x Ex;
  js_unfold; repeat js_case; unfold Qdiv in *;
  change (/ 2) with (1 # 2) in *; lra.
Qed.

Lemma updateRootDensity_size_CHO h f p :
  Plant.size (Plant._updateRootDensity h f p) = Plant.size p
  /\ Plant.CHO (Plant._updateRootDensity h f p) = Plant.CHO p.
Proof.
  unfold Plant._updateRootDensity. destruct (JS.le _ 0); destruct p; split; reflexivity.
Qed.

Lemma finalizeStatus_size_CHO st gi ri p :
  0 <= Plant.CHO p ->
  Plant.size (snd (Plant._finalizeStatus st gi ri p)) = Plant.size p
  /\ Plant.CHO (snd (Plant._finalizeStatus st gi ri p)) <= Plant.CHO p.
Proof.
  intros Hc. unfold Plant._finalizeStatus. cbn [snd].
  split; [destruct p; reflexivity|].
  pose proof (or_default_zero (Plant.CHO p)) as Ec.
  generalize dependent (Plant.CHO p |? 0). intros x Ex.
  match goal with |- Plant.CHO (Plant.set_ATP ?v (Plant.set_CHO ?w p)) <= _ =>
    assert (Plant.CHO (Plant.set_ATP v (Plant.set_CHO w p)) = w)
      as -> by (destruct p; reflexivity) end.
  js_arith.
Qed.

Lemma Plant_inv_size p : Plant_inv p -> 0 <= Plant.size p <= 1.
Proof. intros (H & _). exact H. Qed.

Lemma Plant_inv_CHO p : Plant_inv p -> 0 <= Plant.CHO p.
Proof. intros (_ & _ & _ & _ & _ & H & _). exact H. Qed.

(** X4: without light a plant neither grows nor gains sugar.  With a
    light factor of at most 0.1 an update never increases the size of the
    plant, and with a light factor of at most 0 it never increases its
    CHO reserve either. *)
Theorem no_growth_in_the_dark
    (h : Plant.Host) (e lf : Q) (p : Plant.t) :
  Plant_inv p ->
  (0 <= Pests.level (Plant.pests h))%Z ->
  lf <= 0.1 ->
  let p' := snd (fst (Plant.update h e lf p)) in
  Plant.size p' <= Plant.size p
  /\ (lf <= 0 -> Plant.CHO p' <= Plant.CHO p).
Proof.
  intros H Hl Hlf p'. subst p'. unfold Plant.update.
  set (p0 := Plant._updateAge e (Plant.set_lastO2Consumed 0 p)).
  assert (Plant_inv p0) as H0
    by (apply Plant_inv_updateAge, Plant_inv_set_lastO2Consumed, H).
  assert (Plant.size p0 = Plant.size p) as Es0 by (destruct p; reflexivity).
  assert (Plant.CHO p0 = Plant.CHO p) as Ec0 by (destruct p; reflexivity).
  pose proof (Plant_inv_handleSenescence p0 H0) as H1.
  pose proof (handleSenescence_declines p0 H0) as [Ls1 Lc1].
  rewrite Es0 in Ls1. rewrite Ec0 in Lc1. clearbody p0.
  destruct (Plant._handleSenescence p0) as [finished p1]. cbn [snd] in H1, Ls1, Lc1.
  destruct finished.
  { cbn [fst snd].
    match goal with |- Plant.size (Plant.set_displayStatus ?s p1) <= _ /\ _ =>
      assert (Plant.size (Plant.set_displayStatus s p1) = Plant.size p1) as ->
        by (destruct p1; reflexivity);
      assert (Plant.CHO (Plant.set_displayStatus s p1) = Plant.CHO p1) as ->
        by (destruct p1; reflexivity) end.
    split; [exact Ls1|intros _; exact Lc1]. }
  pose proof (Plant_inv_updateMaturityAndStage e h p1 H1) as H2.
  pose proof (updateMaturityAndStage_size_CHO e h p1) as [Es2 Ec2].
  set (p2 := Plant._updateMaturityAndStage e h p1) in *.
  set (gain := Plant._calculatePhotosynthesis h lf p2).
  assert (0 <= gain) as Hgain by apply calculatePhotosynthesis_nonneg.
  assert (lf <= 0 -> gain = 0) as Hdark.
  { intros Hz. subst gain. unfold Plant._calculatePhotosynthesis.
    assert (JS.le lf 0 = true) as -> by (apply Qle_bool_iff; exact Hz).
    reflexivity. }
  set (p3 := Plant.set_CHO ((Plant.CHO p2 |? 0) + gain) p2).
  assert (Plant_inv p3) as H3.
  { apply Plant_inv_set_CHO; [|exact H2].
    pose proof (Plant_inv_CHO p2 H2). pose proof (or_default_zero (Plant.CHO p2)). lra. }
  assert (Plant.size p3 = Plant.size p2) as Es3 by (destruct p2; reflexivity).
  assert (lf <= 0 -> Plant.CHO p3 <= Plant.CHO p2) as Lc3.
  { intros Hz. subst p3. rewrite (Hdark Hz).
    pose proof (or_default_zero (Plant.CHO p2)).
    destruct p2; plant_fields. lra. }
  clearbody p3. clear Hdark Hgain. clearbody gain.
  pose proof (Plant_inv_applyMaintenanceRespiration h p3 H3) as H4.
  pose proof (applyMaintenanceRespiration_size_CHO h p3
                (proj1 (Plant_inv_size p3 H3)) (Plant_inv_CHO p3 H3)) as [Es4 Lc4].
  set (p4 := Plant._applyMaintenanceRespiration h p3) in *. clearbody p4.
  destruct (Plant._consumeResources h p4) as [o2 soil'].
  set (h' := Plant.set_soil soil' h).
  assert (Plant.pests h' = Plant.pests h) as Eh by (destruct h; reflexivity).
  pose proof (Plant_inv_updateHealthAndRecoveryDemand h'
                (Plant.set_lastO2Consumed o2 p4)
                (Plant_inv_set_lastO2Consumed o2 p4 H4)) as H5.
  assert (Plant.size (snd (Plant._updateHealthAndRecoveryDemand h'
                             (Plant.set_lastO2Consumed o2 p4))) = Plant.size p4
          /\ Plant.CHO (snd (Plant._updateHealthAndRecoveryDemand h'
                             (Plant.set_lastO2Consumed o2 p4))) = Plant.CHO p4)
    as [Es5 Ec5] by (destruct p4; split; reflexivity).
  destruct (Plant._updateHealthAndRecoveryDemand _ _) as [ri p5].
  cbn [snd] in H5, Es5, Ec5.
  pose proof (Plant_inv_updateStemAndLeaf h' lf p5 H5) as H6.
  assert (Plant.size (Plant._updateStemAndLeaf h' lf p5) = Plant.size p5
          /\ Plant.CHO (Plant._updateStemAndLeaf h' lf p5) = Plant.CHO p5)
    as [Es6 Ec6] by (destruct p5; split; reflexivity).
  set (p6 := Plant._updateStemAndLeaf h' lf p5) in *. clearbody p6.
  pose proof (calculatePotentialGrowth_dark h' e lf p6 Hlf) as Hg.
  set (gi := Plant._calculatePotentialGrowth h' e lf p6) in *. clearbody gi.
  pose proof (Plant_inv_generateATP (Plant.g_atpNeeded gi + Plant.r_atpNeeded ri) p6 H6) as H7.
  pose proof (generateATP_size_CHO (Plant.g_atpNeeded gi + Plant.r_atpNeeded ri) p6
                (Plant_inv_CHO p6 H6)) as [Es7 Lc7].
  set (p7 := Plant._generateATP _ p6) in *. clearbody p7.
  pose proof (Plant_inv_applyGrowthAndRecoveryCosts gi ri
                (Plant.baseConditionStatus gi) h' p7 H7) as H8.
  pose proof (applyGrowth_CHO gi ri (Plant.baseConditionStatus gi) h' p7) as Ec8.
  pose proof (applyGrowth_size_dark gi ri (Plant.baseConditionStatus gi) h' p7 Hg
                ltac:(rewrite Eh; exact Hl) (Plant_inv_size p7 H7)) as Ls8.
  destruct (Plant._applyGrowthAndRecoveryCosts _ _ _ _ _) as [st8 p8].
  cbn [snd] in H8, Ec8, Ls8.
  pose proof (Plant_inv_updateRootDensity h' (Plant.tempFactor gi) p8 H8) as H9.
  pose proof (updateRootDensity_size_CHO h' (Plant.tempFactor gi) p8) as [Es9 Ec9].
  unfold Plant._applyBeanEffects.
  set (p9 := Plant._updateRootDensity h' (Plant.tempFactor gi) p8) in *. clearbody p9.
  pose proof (finalizeStatus_size_CHO st8 gi ri p9 (Plant_inv_CHO p9 H9)) as [Es10 Lc10].
  destruct (Plant._finalizeStatus st8 gi ri p9) as [st10 p10].
  cbn [fst snd] in *.
  assert (Plant.size (Plant.set_displayStatus st10 p10) = Plant.size p10) as ->
    by (destruct p10; reflexivity).
  assert (Plant.CHO (Plant.set_displayStatus st10 p10) = Plant.CHO p10) as ->
    by (destruct p10; reflexivity).
  split.
  - rewrite Es10, Es9. eapply Qle_trans; [exact Ls8|].
    rewrite Es7, Es6, Es5, Es4, Es3, Es2. exact Ls1.
  - intros Hz. specialize (Lc3 Hz).
    eapply Qle_trans; [exact Lc10|]. rewrite Ec9, Ec8.
    eapply Qle_trans; [exact Lc7|]. rewrite Ec6, Ec5.
    eapply Qle_trans; [exact Lc4|].
    eapply Qle_trans; [exact Lc3|]. rewrite Ec2. exact Lc1.
Qed.

Lemma no_growth_in_the_dark_witness :
  let p' := snd (fst (Plant.update richHost 72 0 (Plant.new "Corn"))) in
  Plant.size p' <= Plant.size (Plant.new "Corn")
  /\ (0 <= 0 -> Plant.CHO p' <= Plant.CHO (Plant.new "Corn")).
Proof.
  apply (no_growth_in_the_dark richHost 72 0 (Plant.new "Corn")).
  - vm_compute. repeat split; discriminate.
  - vm_compute. discriminate.
  - vm_compute. discriminate.
Defined.


(** * What a plant takes from the soil *)

Lemma lookupProperties_cases type props :
  Plant.lookupProperties type = Some props ->
  Config.PLANT_PROPERTIES type = Some props
  \/ props = Plant.inherited_properties.
Proof.
  unfold Plant.lookupProperties, JS.get.
  destruct (Config.PLANT_PROPERTIES type) as [props0|].
  - intros E. injection E as <-. left. reflexivity.
  - destruct (JS.inherited type); [|discriminate].
    intros E. injection E as <-. right. reflexivity.
Qed.

Lemma PLANT_PROPERTIES_nonneg type props :
  Plant.lookupProperties type = Some props ->
  0 <= Config.H2O_Mod props /\ 0 <= Config.BN_Mod props
  /\ 0 <= Config.O2_Mod props /\ 0 <= Config.maxYield props
  /\ 0 <= Config.price props.
Proof.
  intros H. apply lookupProperties_cases in H as [H | ->];
    [|vm_compute; repeat split; discriminate].
  revert H. unfold Config.PLANT_PROPERTIES.
  repeat match goal with |- context [String.eqb ?a ?b] => destruct (String.eqb a b) end;
    intros E; try discriminate; injection E as <-; vm_compute;
    repeat split; discriminate.
Qed.

Lemma Configured_new type : Configured (Plant.new type).
Proof.
  unfold Configured, Plant.new.
  destruct (Plant.lookupProperties type) eqn:E; [exact E|reflexivity].
Qed.

Lemma update_type_properties h e lf p :
  Plant.type (snd (fst (Plant.update h e lf p))) = Plant.type p
  /\ Plant.properties (snd (fst (Plant.update h e lf p))) = Plant.properties p.
Proof.
  unfold Plant.update.
  assert (forall q, Plant.type (snd (Plant._handleSenescence q)) = Plant.type q
                    /\ Plant.properties (snd (Plant._handleSenescence q))
                       = Plant.properties q) as Hs.
  { intros q. unfold Plant._handleSenescence. cbn [snd].
    destruct (_ || _); destruct (_ && _); destruct q; split; reflexivity. }
  specialize (Hs (Plant._updateAge e (Plant.set_lastO2Consumed 0 p))).
  destruct (Plant._handleSenescence _) as [finished p1]. cbn [snd] in Hs.
  assert (Plant.type p1 = Plant.type p /\ Plant.properties p1 = Plant.properties p)
    as [Et Ep].
  { destruct Hs as [-> ->]. destruct p; split; reflexivity. }
  clear Hs. destruct finished.
  { cbn [fst snd]. rewrite <- Et, <- Ep. destruct p1; split; reflexivity. }
  assert (Plant.type (Plant._updateMaturityAndStage e h p1) = Plant.type p1
          /\ Plant.properties (Plant._updateMaturityAndStage e h p1)
             = Plant.properties p1) as [Et2 Ep2].
  { unfold Plant._updateMaturityAndStage.
    repeat match goal with |- context [if ?c then _ else _] => destruct c end;
      destruct p1; split; reflexivity. }
  set (p2 := Plant._updateMaturityAndStage e h p1) in *. clearbody p2.
  rewrite <- Et, <- Ep, <- Et2, <- Ep2. clear.
  set (p4 := Plant._applyMaintenanceRespiration h _).
  assert (Plant.type p4 = Plant.type p2 /\ Plant.properties p4 = Plant.properties p2)
    as [<- <-] by (destruct p2; split; reflexivity).
  clearbody p4.
  destruct (Plant._consumeResources h p4) as [o2 soil'].
  set (h' := Plant.set_soil soil' h). clearbody h'.
  assert (Plant.type (snd (Plant._updateHealthAndRecoveryDemand h'
                             (Plant.set_lastO2Consumed o2 p4))) = Plant.type p4
          /\ Plant.properties (snd (Plant._updateHealthAndRecoveryDemand h'
                             (Plant.set_lastO2Consumed o2 p4))) = Plant.properties p4)
    as E5 by (destruct p4; split; reflexivity).
  destruct (Plant._updateHealthAndRecoveryDemand _ _) as [ri p5].
  cbn [snd] in E5. destruct E5 as [<- <-].
  set (p6 := Plant._updateStemAndLeaf h' lf p5).
  assert (Plant.type p6 = Plant.type p5 /\ Plant.properties p6 = Plant.properties p5)
    as [<- <-] by (destruct p5; split; reflexivity).
  clearbody p6.
  set (gi := Plant._calculatePotentialGrowth h' e lf p6). clearbody gi.
  set (p7 := Plant._generateATP _ p6).
  assert (Plant.type p7 = Plant.type p6 /\ Plant.properties p7 = Plant.properties p6)
    as [<- <-] by (destruct p6; split; reflexivity).
  clearbody p7.
  assert (forall st, Plant.type (snd (Plant._applyGrowthAndRecoveryCosts gi ri st h' p7))
                     = Plant.type p7
                     /\ Plant.properties
                          (snd (Plant._applyGrowthAndRecoveryCosts gi ri st h' p7))
                        = Plant.properties p7) as E8.
  { intros st. unfold Plant._applyGrowthAndRecoveryCosts.
    destruct (Plant.canRecover ri); [destruct (JS.ge _ _)|];
    (destruct (Plant.isShrinking gi); [|destruct (JS.gt _ _); [destruct (JS.ge _ _)|]]);
    destruct p7; split; reflexivity. }
  specialize (E8 (Plant.baseConditionStatus gi)).
  destruct (Plant._applyGrowthAndRecoveryCosts _ _ _ _ _) as [st8 p8].
  cbn [snd] in E8. destruct E8 as [<- <-].
  unfold Plant._applyBeanEffects.
  set (p9 := Plant._updateRootDensity h' (Plant.tempFactor gi) p8).
  assert (Plant.type p9 = Plant.type p8 /\ Plant.properties p9 = Plant.properties p8)
    as [<- <-].
  { subst p9. unfold Plant._updateRootDensity.
    destruct (JS.le _ 0); destruct p8; split; reflexivity. }
  clearbody p9.
  assert (Plant.type (snd (Plant._finalizeStatus st8 gi ri p9)) = Plant.type p9
          /\ Plant.properties (snd (Plant._finalizeStatus st8 gi ri p9))
             = Plant.properties p9) as E10 by (destruct p9; split; reflexivity).
  destruct (Plant._finalizeStatus st8 gi ri p9) as [st10 p10].
  cbn [fst snd] in *. destruct E10 as [<- <-].
  destruct p10; split; reflexivity.
Qed.

Lemma Configured_update h e lf p :
  Configured p -> Configured (snd (fst (Plant.update h e lf p))).
Proof.
  unfold Configured. intros H.
  destruct (update_type_properties h e lf p) as [-> ->]. exact H.
Qed.

(** The soil and the oxygen figure of an update come from one call of
    [_consumeResources], unless the plant is dead or senescent. *)
Lemma update_consume_cases h e lf p :
  Plant_inv p ->
  (snd (Plant.update h e lf p) = Plant.soil h
   /\ Plant.oxygenConsumed (fst (fst (Plant.update h e lf p))) = 0)
  \/ exists q,
       Plant_inv q /\ Plant.properties q = Plant.properties p
       /\ Plant.type q = Plant.type p
       /\ snd (Plant.update h e lf p) = snd (Plant._consumeResources h q)
       /\ Plant.oxygenConsumed (fst (fst (Plant.update h e lf p)))
          = fst (Plant._consumeResources h q).
Proof.
  intros H. unfold Plant.update.
  set (p0 := Plant._updateAge e (Plant.set_lastO2Consumed 0 p)).
  assert (Plant_inv p0) as H0
    by (apply Plant_inv_updateAge, Plant_inv_set_lastO2Consumed, H).
  assert (Plant.type p0 = Plant.type p /\ Plant.properties p0 = Plant.properties p)
    as [Et0 Ep0] by (destruct p; split; reflexivity).
  clearbody p0.
  pose proof (Plant_inv_handleSenescence p0 H0) as H1.
  assert (Plant.type (snd (Plant._handleSenescence p0)) = Plant.type p0
          /\ Plant.properties (snd (Plant._handleSenescence p0))
             = Plant.properties p0) as Hs.
  { unfold Plant._handleSenescence. cbn [snd].
    destruct (_ || _); destruct (_ && _); destruct p0; split; reflexivity. }
  destruct (Plant._handleSenescence p0) as [finished p1]. cbn [snd] in H1, Hs.
  destruct Hs as [Et1 Ep1].
  destruct finished; [left; split; reflexivity|].
  right.
  pose proof (Plant_inv_updateMaturityAndStage e h p1 H1) as H2.
  assert (Plant.type (Plant._updateMaturityAndStage e h p1) = Plant.type p1
          /\ Plant.properties (Plant._updateMaturityAndStage e h p1)
             = Plant.properties p1) as [Et2 Ep2].
  { unfold Plant._updateMaturityAndStage.
    repeat match goal with |- context [if ?c then _ else _] => destruct c end;
      destruct p1; split; reflexivity. }
  set (p2 := Plant._updateMaturityAndStage e h p1) in *. clearbody p2.
  set (p3 := Plant.set_CHO _ p2).
  assert (Plant_inv p3) as H3.
  { apply Plant_inv_set_CHO; [|exact H2].
    pose proof (calculatePhotosynthesis_nonneg h lf p2).
    pose proof (Plant_inv_CHO p2 H2). pose proof (or_default_zero (Plant.CHO p2)). lra. }
  assert (Plant.type p3 = Plant.type p2 /\ Plant.properties p3 = Plant.properties p2)
    as [Et3 Ep3] by (destruct p2; split; reflexivity).
  clearbody p3.
  pose proof (Plant_inv_applyMaintenanceRespiration h p3 H3) as H4.
  set (p4 := Plant._applyMaintenanceRespiration h p3) in *.
  assert (Plant.type p4 = Plant.type p3 /\ Plant.properties p4 = Plant.properties p3)
    as [Et4 Ep4] by (destruct p3; split; reflexivity).
  clearbody p4.
  exists p4. split; [exact H4|].
  split; [congruence|]. split; [congruence|].
  destruct (Plant._consumeResources h p4) as [o2 soil'].
  set (h' := Plant.set_soil soil' h).
  assert (Plant.soil h' = soil') as Eh by (destruct h; reflexivity).
  clearbody h'.
  assert (Plant.lastO2Consumed (snd (Plant._updateHealthAndRecoveryDemand h'
                             (Plant.set_lastO2Consumed o2 p4))) = o2)
    as E5 by (destruct p4; reflexivity).
  destruct (Plant._updateHealthAndRecoveryDemand _ _) as [ri p5]. cbn [snd] in E5.
  set (p6 := Plant._updateStemAndLeaf h' lf p5).
  assert (Plant.lastO2Consumed p6 = o2) as E6 by (rewrite <- E5; destruct p5; reflexivity).
  clearbody p6.
  set (gi := Plant._calculatePotentialGrowth h' e lf p6). clearbody gi.
  set (p7 := Plant._generateATP _ p6).
  assert (Plant.lastO2Consumed p7 = o2) as E7 by (rewrite <- E6; destruct p6; reflexivity).
  clearbody p7.
  assert (forall st, Plant.lastO2Consumed
                       (snd (Plant._applyGrowthAndRecoveryCosts gi ri st h' p7))
                     = Plant.lastO2Consumed p7) as E8.
  { intros st. unfold Plant._applyGrowthAndRecoveryCosts.
    destruct (Plant.canRecover ri); [destruct (JS.ge _ _)|];
    (destruct (Plant.isShrinking gi); [|destruct (JS.gt _ _); [destruct (JS.ge _ _)|]]);
    destruct p7; reflexivity. }
  specialize (E8 (Plant.baseConditionStatus gi)).
  destruct (Plant._applyGrowthAndRecoveryCosts _ _ _ _ _) as [st8 p8].
  cbn [snd] in E8.
  unfold Plant._applyBeanEffects.
  set (p9 := Plant._updateRootDensity h' (Plant.tempFactor gi) p8).
  assert (Plant.lastO2Consumed p9 = Plant.lastO2Consumed p8) as E9.
  { subst p9. unfold Plant._updateRootDensity.
    destruct (JS.le _ 0); destruct p8; reflexivity. }
  clearbody p9.
  assert (Plant.lastO2Consumed (snd (Plant._finalizeStatus st8 gi ri p9))
          = Plant.lastO2Consumed p9) as E10 by (destruct p9; reflexivity).
  destruct (Plant._finalizeStatus st8 gi ri p9) as [st10 p10].
  cbn [fst snd Plant.oxygenConsumed] in *.
  split; [exact Eh|].
  assert (Plant.lastO2Consumed (Plant.set_displayStatus st10 p10)
          = Plant.lastO2Consumed p10) as -> by (destruct p10; reflexivity).
  congruence.
Qed.

Lemma consumeResources_draws h q :
  Plant_inv q ->
  0 <= Config.H2O_Mod (Plant.properties q) ->
  0 <= Config.BN_Mod (Plant.properties q) ->
  0 <= Config.O2_Mod (Plant.properties q) ->
  0 <= Soil.moisture (Plant.soil h) <= 100 ->
  0 <= Soil.bioavailableNutrition (Plant.soil h) ->
  let r := Plant._consumeResources h q in
  0 <= fst r
  /\ 0 <= Soil.moisture (snd r) <= Soil.moisture (Plant.soil h)
  /\ 0 <= Soil.bioavailableNutrition (snd r)
     <= Soil.bioavailableNutrition (Plant.soil h)
  /\ Soil.compaction (snd r) = Soil.compaction (Plant.soil h)
  /\ Soil.microbes (snd r) = Soil.microbes (Plant.soil h)
  /\ Soil.organicMatter (snd r) = Soil.organicMatter (Plant.soil h)
  /\ Soil.pH (snd r) = Soil.pH (Plant.soil h).
Proof.
  intros Hq Hw Hb Ho Hm Hbn r. subst r. unfold Plant._consumeResources.
  cbn [fst snd].
  destruct Hq as (Hs & Hr & Hd & _).
  pose proof (or_default_zero (Plant.size q)) as Es.
  pose proof (or_default_zero (Plant.rootDensity q)) as Ed.
  assert (0 <= Config.H2O_Mod (Plant.properties q) |? 1.0) as Hw'
    by (apply or_default_nonneg; lra).
  assert (0 <= Config.BN_Mod (Plant.properties q) |? 1.0) as Hb'
    by (apply or_default_nonneg; lra).
  assert (0 <= Config.O2_Mod (Plant.properties q) |? 1.0) as Ho'
    by (apply or_default_nonneg; lra).
  set (base := Config.RATES.plantConsumption * (Plant.size q |? 0)).
  assert (0 <= base) as Hbase.
  { subst base. apply Qmult_le_0_compat; [unfold Config.RATES.plantConsumption|]; lra. }
  set (rhf := Utils.clamp ((Plant.rootHealth q |? 0) / 100) 0 1.0).
  assert (0 <= rhf <= 1.0) as Hrhf by (apply clamp_bounds; lra).
  set (bnMod := if Plant.structure_is _ _ && _ then _ else _).
  assert (0 <= bnMod) as HbnMod.
  { subst bnMod. destruct (Plant.structure_is _ _ && _); [|lra].
    apply Qmult_le_0_compat; lra. }
  clearbody base rhf bnMod.
  assert (0 <= base * (Config.H2O_Mod (Plant.properties q) |? 1.0)) as Hwc
    by (apply Qmult_le_0_compat; lra).
  assert (0 <= base * bnMod * (Plant.rootDensity q |? 0) * rhf) as Hbc.
  { repeat apply Qmult_le_0_compat; lra. }
  assert (0 <= base * (Config.O2_Mod (Plant.properties q) |? 1.0)
               * (Plant.rootDensity q |? 0)) as Hoc.
  { repeat apply Qmult_le_0_compat; lra. }
  split; [exact Hoc|].
  generalize dependent (base * (Config.H2O_Mod (Plant.properties q) |? 1.0)).
  intros w Hwc.
  generalize dependent (base * bnMod * (Plant.rootDensity q |? 0) * rhf).
  intros b Hbc.
  set (s := Plant.soil h) in *. clearbody s.
  change (Soil.moisture (Soil.set_bioavailableNutrition ?v (Soil.addMoisture ?a s)))
    with (Utils.clamp (Soil.moisture s + a) 0 100).
  change (Soil.bioavailableNutrition
            (Soil.set_bioavailableNutrition ?v (Soil.addMoisture ?a s))) with v.
  change (Soil.bioavailableNutrition (Soil.addMoisture (- w) s))
    with (Soil.bioavailableNutrition s).
  pose proof (or_default_zero (Soil.bioavailableNutrition s)) as Eb.
  generalize dependent (Soil.bioavailableNutrition s |? 0). intros x Ex.
  split; [js_arith|]. split; [js_arith|].
  repeat split; reflexivity.
Qed.

(** X5: a plant only draws from the soil.  For a plant with the
    properties of its configured type, on soil with moisture in [0,100]
    and non-negative bioavailable nutrition, an update never raises the
    moisture or the bioavailable nutrition of the square, keeps both
    non-negative, leaves compaction, microbes, organic matter and pH as
    they were, and reports a non-negative oxygen consumption. *)
Theorem plant_only_draws_from_soil
    (h : Plant.Host) (e lf : Q) (p : Plant.t) :
  Configured p ->
  Plant_inv p ->
  0 <= Soil.moisture (Plant.soil h) <= 100 ->
  0 <= Soil.bioavailableNutrition (Plant.soil h) ->
  let r := Plant.update h e lf p in
  0 <= Plant.oxygenConsumed (fst (fst r))
  /\ 0 <= Soil.moisture (snd r) <= Soil.moisture (Plant.soil h)
  /\ 0 <= Soil.bioavailableNutrition (snd r)
     <= Soil.bioavailableNutrition (Plant.soil h)
  /\ Soil.compaction (snd r) = Soil.compaction (Plant.soil h)
  /\ Soil.microbes (snd r) = Soil.microbes (Plant.soil h)
  /\ Soil.organicMatter (snd r) = Soil.organicMatter (Plant.soil h)
  /\ Soil.pH (snd r) = Soil.pH (Plant.soil h).
Proof.
  intros Hc Hp Hm Hb r. subst r.
  destruct (update_consume_cases h e lf p Hp) as [[-> ->] | (q & Hq & Eq & _ & -> & ->)].
  { repeat split; try reflexivity; lra. }
  unfold Configured in Hc.
  destruct (PLANT_PROPERTIES_nonneg _ _ Hc) as (Hw & Hn & Ho & _).
  rewrite <- Eq in Hw, Hn, Ho.
  exact (consumeResources_draws h q Hq Hw Hn Ho Hm Hb).
Qed.

Lemma plant_only_draws_from_soil_witness :
  let r := Plant.update richHost 72 0.5 (Plant.new "Tomato") in
  0 <= Plant.oxygenConsumed (fst (fst r))
  /\ 0 <= Soil.moisture (snd r) <= Soil.moisture (Plant.soil richHost)
  /\ 0 <= Soil.bioavailableNutrition (snd r)
     <= Soil.bioavailableNutrition (Plant.soil richHost)
  /\ Soil.compaction (snd r) = Soil.compaction (Plant.soil richHost)
  /\ Soil.microbes (snd r) = Soil.microbes (Plant.soil richHost)
  /\ Soil.organicMatter (snd r) = Soil.organicMatter (Plant.soil richHost)
  /\ Soil.pH (snd r) = Soil.pH (Plant.soil richHost).
Proof.
  apply (plant_only_draws_from_soil richHost 72 0.5 (Plant.new "Tomato")).
  - reflexivity.
  - vm_compute. repeat split; discriminate.
  - vm_compute. split; discriminate.
  - vm_compute. discriminate.
Defined.


(** * Soil processes *)

Lemma microbePhFactor_nonneg ph : 0 <= Soil.microbePhFactor ph.
Proof.
  unfold Soil.microbePhFactor. destruct (_ && _); [lra|apply Math_max_lower].
Qed.

(** X6: the microbial conversion only goes from organic matter to
    bioavailable nutrition.  On soil with non-negative organic matter
    and bioavailable nutrition, [updateMicrobes] never raises the organic
    matter nor takes it below zero, never lowers the bioavailable
    nutrition, and leaves moisture, compaction, oxygen and pH alone, at
    every temperature. *)
Theorem microbes_only_convert_organic_matter (temperature : Q) (s : Soil.t) :
  0 <= Soil.organicMatter s ->
  0 <= Soil.bioavailableNutrition s ->
  let s' := Soil.updateMicrobes temperature s in
  0 <= Soil.organicMatter s' <= Soil.organicMatter s
  /\ Soil.bioavailableNutrition s <= Soil.bioavailableNutrition s'
  /\ Soil.moisture s' = Soil.moisture s
  /\ Soil.compaction s' = Soil.compaction s
  /\ Soil.oxygen s' = Soil.oxygen s
  /\ Soil.pH s' = Soil.pH s.
Proof.
  intros Hom Hbn s'. subst s'. unfold Soil.updateMicrobes.
  set (ad := if JS.lt temperature Config.THRESHOLDS.minTempMicrobeSlowdown
             then _ else _).
  assert (0 <= fst ad) as Ha.
  { subst ad.
    repeat match goal with |- context [if ?c then _ else _] => destruct c end;
      cbn [fst]; try lra;
      match goal with |- _ <= Utils.clamp ?v ?lo ?hi =>
        pose proof (clamp_bounds v lo hi ltac:(lra)); lra end. }
  destruct ad as [a d]. cbn [fst] in Ha.
  set (growth := if _ && JS.gt a 0.1 then _ else 0). clearbody growth.
  set (death := if JS.lt (Soil.organicMatter s) _ && _ then _ else d).
  clearbody death.
  set (cd := if _ && JS.gt a 0 then _ else 0).
  assert (0 <= cd <= Soil.organicMatter s) as Hcd.
  { subst cd. destruct (_ && JS.gt a 0); [|lra].
    set (rate := Config.RATES.microbeConversionBase * _ * _ * a).
    assert (0 <= rate) as Hrate.
    { subst rate.
      apply Qmult_le_0_compat; [apply Qmult_le_0_compat; [apply Qmult_le_0_compat|]|].
      - unfold Config.RATES.microbeConversionBase. lra.
      - destruct (JS.ge _ _); lra.
      - apply microbePhFactor_nonneg.
      - exact Ha. }
    clearbody rate. js_arith. }
  clearbody cd. cbn [Soil.organicMatter Soil.bioavailableNutrition Soil.moisture
    Soil.compaction Soil.oxygen Soil.pH Soil.set_bioavailableNutrition
    Soil.set_organicMatter Soil.set_microbes].
  destruct s; cbn [Soil.organicMatter Soil.bioavailableNutrition Soil.moisture
    Soil.compaction Soil.oxygen Soil.pH] in *.
  repeat split; try reflexivity; js_arith.
Qed.

Lemma microbes_only_convert_organic_matter_witness :
  let s := Plant.soil richHost in
  let s' := Soil.updateMicrobes 22 s in
  0 <= Soil.organicMatter s' <= Soil.organicMatter s
  /\ Soil.bioavailableNutrition s <= Soil.bioavailableNutrition s'
  /\ Soil.moisture s' = Soil.moisture s
  /\ Soil.compaction s' = Soil.compaction s
  /\ Soil.oxygen s' = Soil.oxygen s
  /\ Soil.pH s' = Soil.pH s.
Proof.
  apply (microbes_only_convert_organic_matter 22 (Plant.soil richHost)).
  - vm_compute. discriminate.
  - vm_compute. discriminate.
Defined.

(** X7: evaporation only removes water.  On soil with moisture in
    [0,100], [applyEvaporation] returns a non-negative amount, records a
    non-negative evaporation rate, and leaves the moisture in [0,100] and
    not above its old value, for every temperature, humidity, wind and
    shading modifier. *)
Theorem evaporation_only_removes_water
    (temperature humidity wind squashModifier : Q) (s : Soil.t) :
  0 <= Soil.moisture s <= 100 ->
  let r := Soil.applyEvaporation temperature humidity wind squashModifier s in
  0 <= fst r
  /\ 0 <= Soil.moisture (snd r) <= Soil.moisture s
  /\ 0 <= Soil.evaporationRate (snd r).
Proof.
  intros Hm r. subst r. unfold Soil.applyEvaporation. cbn [fst snd].
  set (rate := JS.Math_max 0 _).
  assert (0 <= rate) as Hr by apply Math_max_lower. clearbody rate.
  change (Soil.evaporationRate (Soil.set_evaporationRate rate s)) with rate.
  change (Soil.moisture (Soil.set_evaporationRate rate s)) with (Soil.moisture s).
  pose proof (or_default_zero (Soil.moisture s)) as Em.
  set (amount := rate * ((Soil.moisture s |? 0) / 100)).
  assert (0 <= amount) as Hamt.
  { subst amount. apply Qmult_le_0_compat; [exact Hr|].
    apply Qle_shift_div_l; lra. }
  clearbody amount.
  change (Soil.moisture (Soil.addMoisture (- amount) (Soil.set_evaporationRate rate s)))
    with (Utils.clamp (Soil.moisture s + - amount) 0 100).
  change (Soil.evaporationRate
            (Soil.addMoisture (- amount) (Soil.set_evaporationRate rate s)))
    with rate.
  generalize dependent (Soil.moisture s). intros m Hm _.
  repeat split; try assumption; js_arith.
Qed.

Lemma evaporation_only_removes_water_witness :
  let s := Plant.soil richHost in
  let r := Soil.applyEvaporation 30 40 5 1 s in
  0 <= fst r
  /\ 0 <= Soil.moisture (snd r) <= Soil.moisture s
  /\ 0 <= Soil.evaporationRate (snd r).
Proof.
  apply (evaporation_only_removes_water 30 40 5 1 (Plant.soil richHost)).
  vm_compute. split; discriminate.
Defined.


(** * Neighbourhoods *)

Lemma getNeighbors_flag x y diag diag' r :
  Utils.getNeighbors x y diag r = Utils.getNeighbors x y diag' r.
Proof.
  unfold Utils.getNeighbors.
  apply flat_map_ext. intros dy. apply flat_map_ext. intros dx.
  destruct ((dx =? 0) && (dy =? 0))%Z; [reflexivity|].
  destruct (dx =? 0)%Z eqn:Ex; [rewrite !andb_false_r; reflexivity|].
  destruct (dy =? 0)%Z eqn:Ey; [rewrite !andb_false_r; reflexivity|].
  destruct (r =? 1)%Z eqn:Er; [|rewrite !andb_false_r; reflexivity].
  apply Z.eqb_neq in Ex, Ey. apply Z.eqb_eq in Er. subst r.
  assert ((dx * dx + dy * dy <=? 1 * 1)%Z = false) as -> by (apply Z.leb_gt; nia).
  destruct diag, diag'; cbn [negb andb];
    repeat match goal with |- context [if ?c then _ else _] => destruct c end;
    reflexivity.
Qed.

Lemma square_bound (a b r : Z) :
  (0 <= r)%Z -> (a * a + b * b <= r * r)%Z -> (- r <= b <= r)%Z.
Proof.
  intros Hr H.
  destruct (Z_le_gt_dec b r); destruct (Z_le_gt_dec (- r) b); try lia;
    exfalso; nia.
Qed.

Lemma getNeighbors_In x y diag r n :
  (0 <= r)%Z ->
  In n (Utils.getNeighbors x y diag r)
  <-> inGrid n /\ n <> (x, y)
      /\ ((fst n - x) * (fst n - x) + (snd n - y) * (snd n - y) <= r * r)%Z.
Proof.
  intros Hr. rewrite (getNeighbors_flag x y diag true r).
  unfold Utils.getNeighbors, inGrid. rewrite in_flat_map. split.
  - intros (dy & Hdy & H). apply in_flat_map in H as (dx & Hdx & H).
    cbn [negb andb] in H.
    destruct ((dx =? 0) && (dy =? 0))%Z eqn:E0; [destruct H|].
    destruct ((0 <=? x + dx) && (x + dx <? Config.GRID_COLS)
              && (0 <=? y + dy) && (y + dy <? Config.GRID_ROWS))%Z eqn:Eg;
      [|destruct H].
    destruct (dx * dx + dy * dy <=? r * r)%Z eqn:Ed; [|destruct H].
    destruct H as [<- | []]. cbn [fst snd].
    apply andb_true_iff in Eg as [Eg E4]. apply andb_true_iff in Eg as [Eg E3].
    apply andb_true_iff in Eg as [E1 E2].
    apply Z.leb_le in E1, E3, Ed. apply Z.ltb_lt in E2, E4.
    apply andb_false_iff in E0.
    repeat split; try lia.
    intros E. injection E as Ea Eb.
    destruct E0 as [E0 | E0]; apply Z.eqb_neq in E0; lia.
  - destruct n as [nx ny]. cbn [fst snd]. intros ([[H1 H2] [H3 H4]] & Hne & Hd).
    exists (ny - y)%Z.
    split; [apply in_range, (square_bound (nx - x)); [exact Hr|exact Hd]|].
    apply in_flat_map. exists (nx - x)%Z.
    split; [apply in_range, (square_bound (ny - y)); [exact Hr|lia]|].
    cbn [negb andb].
    destruct ((nx - x =? 0) && (ny - y =? 0))%Z eqn:E0.
    { apply andb_true_iff in E0 as [Ea Eb]. apply Z.eqb_eq in Ea, Eb.
      exfalso. apply Hne. f_equal; lia. }
    replace (x + (nx - x))%Z with nx by lia. replace (y + (ny - y))%Z with ny by lia.
    assert (((0 <=? nx) && (nx <? Config.GRID_COLS) && (0 <=? ny)
             && (ny <? Config.GRID_ROWS))%Z = true) as ->.
    { rewrite !andb_true_iff, !Z.leb_le, !Z.ltb_lt. lia. }
    assert (((nx - x) * (nx - x) + (ny - y) * (ny - y) <=? r * r)%Z = true) as ->
      by (apply Z.leb_le; exact Hd).
    left. reflexivity.
Qed.

(** X8: [getNeighbors] returns exactly the squares of the grid, other
    than the centre, whose squared distance to the centre is at most the
    squared radius; and the [includeDiagonals] argument never changes the
    result: at radius 1 the distance test already excludes the
    diagonals, and at other radii the argument is not consulted. *)
Theorem getNeighbors_characterised
    (x y : Z) (includeDiagonals : bool) (radius : Z) (n : Key) :
  (0 <= radius)%Z ->
  (In n (Utils.getNeighbors x y includeDiagonals radius)
   <-> inGrid n /\ n <> (x, y)
       /\ ((fst n - x) * (fst n - x) + (snd n - y) * (snd n - y)
           <= radius * radius)%Z)
  /\ Utils.getNeighbors x y includeDiagonals radius
     = Utils.getNeighbors x y (negb includeDiagonals) radius.
Proof.
  intros Hr. split; [apply getNeighbors_In, Hr|apply getNeighbors_flag].
Qed.

Lemma getNeighbors_characterised_witness :
  (In (4, 5)%Z (Utils.getNeighbors 3 4 true 1)
   <-> inGrid (4, 5)%Z /\ (4, 5)%Z <> (3, 4)%Z
       /\ ((fst (4, 5) - 3) * (fst (4, 5) - 3)
           + (snd (4, 5) - 4) * (snd (4, 5) - 4) <= 1 * 1)%Z)
  /\ Utils.getNeighbors 3 4 true 1 = Utils.getNeighbors 3 4 (negb true) 1.
Proof.
  apply (getNeighbors_characterised 3 4 true 1 (4, 5)%Z). lia.
Defined.


(** * The entities of the garden across a tick *)

Lemma Garden_wf_lookup (g : Square.Grid) (k : Key) (s : Square.t) :
  Garden_wf g -> g !! k = Some s -> Square_wf s.
Proof. intros H E. exact (H k s E). Qed.

Lemma Garden_wf_insert (g : Square.Grid) (k : Key) (s : Square.t) :
  Garden_wf g -> Square_wf s -> Garden_wf (<[k := s]> g).
Proof.
  intros H Hs i x. rewrite lookup_insert. case_decide.
  - intros E0; simplify_eq. exact Hs.
  - apply H.
Qed.

Lemma Garden_wf_alter (f : Square.t -> Square.t) (g : Square.Grid) (k : Key) :
  (forall s, Square_wf s -> Square_wf (f s)) ->
  Garden_wf g -> Garden_wf (alter f k g).
Proof.
  intros Hf H i x. rewrite lookup_alter. case_decide.
  - subst i. destruct (g !! k) as [y|] eqn:E; [|discriminate].
    cbn. intros E0; injection E0 as <-. apply Hf. exact (H k y E).
  - apply H.
Qed.

Lemma Garden_wf_fold {A} (f : Square.Grid -> A -> Square.Grid) (l : list A)
    (g : Square.Grid) :
  (forall g a, Garden_wf g -> Garden_wf (f g a)) ->
  Garden_wf g -> Garden_wf (fold_left f l g).
Proof.
  intros Hf. revert g. induction l as [|a l IH]; intros g Hg; [exact Hg|].
  cbn [fold_left]. apply IH, Hf, Hg.
Qed.

(** A change of the soil, the temperature or the display keeps the
    entities. *)
Lemma Square_wf_same (s s' : Square.t) :
  Square.weeds s' = Square.weeds s ->
  Square.pests s' = Square.pests s ->
  Square.plant s' = Square.plant s ->
  Square.structure s' = Square.structure s ->
  Square_wf s -> Square_wf s'.
Proof. unfold Square_wf. intros -> -> -> ->. tauto. Qed.

Lemma Square_wf_set_soil v s : Square_wf s -> Square_wf (Square.set_soil v s).
Proof. apply Square_wf_same; destruct s; reflexivity. Qed.

Lemma Square_wf_updateDisplayText s :
  Square_wf s -> Square_wf (Square.updateDisplayText s).
Proof. apply Square_wf_same; destruct s; reflexivity. Qed.

Lemma Square_wf_set_weeds v s :
  (0 <= v <= 4)%Z -> Square_wf s -> Square_wf (Square.set_weeds v s).
Proof. unfold Square_wf. destruct s. square_fields. tauto. Qed.

Lemma Square_wf_set_pests v s :
  Pests_wf v -> Square_wf s -> Square_wf (Square.set_pests v s).
Proof. unfold Square_wf. destruct s. square_fields. tauto. Qed.

Lemma Square_wf_remove_plant s :
  Square_wf s -> Square_wf (Square.set_plant None s).
Proof.
  unfold Square_wf. destruct s. square_fields.
  intros (Hw & Hp & _ & Hst & _).
  split; [exact Hw|]. split; [exact Hp|].
  split; [intros p E; discriminate|]. split; [exact Hst|left; reflexivity].
Qed.

Lemma Square_wf_remove_structure s :
  Square_wf s -> Square_wf (Square.set_structure None s).
Proof.
  unfold Square_wf. destruct s. square_fields.
  intros (Hw & Hp & Hpl & _ & _).
  split; [exact Hw|]. split; [exact Hp|]. split; [exact Hpl|].
  split; [intros st E; discriminate|right; reflexivity].
Qed.

Lemma Square_wf_set_plant p s :
  Plant_inv p -> Configured p -> Square.structure s = None ->
  Square_wf s -> Square_wf (Square.set_plant (Some p) s).
Proof.
  unfold Square_wf. destruct s. square_fields.
  intros Hi Hc -> (Hw & Hp & _ & Hst & _).
  split; [exact Hw|]. split; [exact Hp|].
  split; [intros q E; injection E as <-; split; assumption|].
  split; [exact Hst|right; reflexivity].
Qed.

Lemma Square_wf_replace_plant p s :
  Plant_inv p -> Configured p -> isSome (Square.plant s) = true ->
  Square_wf s -> Square_wf (Square.set_plant (Some p) s).
Proof.
  unfold Square_wf. destruct s. square_fields.
  intros Hi Hc Hs (Hw & Hp & _ & Hst & Hex).
  split; [exact Hw|]. split; [exact Hp|].
  split; [intros q E; injection E as <-; split; assumption|].
  split; [exact Hst|].
  destruct Hex as [-> | ->]; [discriminate|right; reflexivity].
Qed.

Lemma Square_wf_set_structure st s :
  Structure_wf st -> Square.plant s = None ->
  Square_wf s -> Square_wf (Square.set_structure (Some st) s).
Proof.
  unfold Square_wf. destruct s. square_fields.
  intros Hi -> (Hw & Hp & _ & _ & _).
  split; [exact Hw|]. split; [exact Hp|].
  split; [intros q E; discriminate|].
  split; [intros q E; injection E as <-; exact Hi|left; reflexivity].
Qed.

Lemma Garden_wf_onSoil (f : Soil.t -> Soil.t) (g : Square.Grid) (k : Key) :
  Garden_wf g -> Garden_wf (Square.onSoil f k g).
Proof.
  unfold Square.onSoil. apply Garden_wf_alter. intros s. apply Square_wf_set_soil.
Qed.

Lemma Pests_wf_none : Pests_wf Pests.none.
Proof. reflexivity. Qed.

Lemma Pests_wf_decrement p :
  Pests_wf p ->
  Pests_wf (Pests.mk (if (Z.max 0 (Pests.level p - 1) =? 0)%Z
                      then None else Pests.type p)
                     (Z.max 0 (Pests.level p - 1))).
Proof.
  unfold Pests_wf. destruct p as [[n|] l]; cbn [Pests.type Pests.level]; intros H.
  - destruct (Z.max 0 (l - 1) =? 0)%Z eqn:E; cbn [Pests.type Pests.level];
      [apply Z.eqb_eq in E|apply Z.eqb_neq in E]; lia.
  - subst l. reflexivity.
Qed.

Lemma Structure_wf_update st :
  Structure_wf st -> Structure_wf (snd (Structure.update st)).
Proof.
  unfold Structure_wf, Structure.update.
  destruct (Structure.waterLevel st) as [w|] eqn:E;
    [|cbn [snd]; rewrite E; trivial].
  intros H. destruct (_ && JS.gt w 0) eqn:Ew; cbn [snd Structure.waterLevel];
    [|rewrite E; exact H].
  apply andb_true_iff in Ew as [_ Ew].
  unfold Config.RATES.ollaWaterRelease, Config.THRESHOLDS.ollaMaxWater in *.
  js_arith.
Qed.

Lemma Structure_wf_set_connections c st :
  Structure_wf st -> Structure_wf (set_connections c st).
Proof. destruct st. exact id. Qed.

Lemma Structure_wf_new type : Structure_wf (Structure.new type).
Proof.
  unfold Structure_wf, Structure.new. destruct (String.eqb type "Olla");
    cbn [Structure.waterLevel]; [|trivial].
  unfold Config.THRESHOLDS.ollaMaxWater. lra.
Qed.

(** ** updateEnvironment *)

Lemma updateEnvironment_wf (a hu w : Q) (k : Key) (g : Square.Grid) (ev : Q)
    (g' : Square.Grid) :
  Garden_wf g -> Square.updateEnvironment a hu w k g = Some (ev, g') ->
  Garden_wf g'.
Proof.
  intros Hg. unfold Square.updateEnvironment.
  destruct (g !! k) as [s|] eqn:E; [|discriminate].
  assert (Square_wf (snd (Square.updateEnvironment_at a hu w
                            (Square.squashModifier k g) s))) as H.
  { unfold Square.updateEnvironment_at.
    destruct (Soil.applyEvaporation _ _ _ _ _) as [ev' s1]. cbn [snd].
    apply Square_wf_set_soil.
    eapply Square_wf_same; [..|exact (Hg k s E)]; destruct s; reflexivity. }
  destruct (Square.updateEnvironment_at _ _ _ _ s) as [ev' s']. cbn [snd] in H.
  intros E0; simplify_eq. apply Garden_wf_insert; assumption.
Qed.

(** ** updateEntities *)

Lemma distributeOllaWater_wf k w g :
  Garden_wf g -> Garden_wf (Square.distributeOllaWater k w g).
Proof.
  intros Hg. unfold Square.distributeOllaWater. destruct (JS.gt w 0); [|exact Hg].
  apply Garden_wf_fold; [|exact Hg].
  intros g0 d H0. unfold Square.deliver. apply Garden_wf_onSoil, H0.
Qed.

Lemma updatePlant_wf e lf k gs s :
  Square_wf s -> Square_wf (snd (Square.updatePlant e lf k gs s)).
Proof.
  intros H. unfold Square.updatePlant.
  destruct (Square.plant s) as [p|] eqn:Ep.
  2:{ cbn [snd]. eapply Square_wf_same; [..|exact H]; destruct s; reflexivity. }
  pose proof H as (Hw & Hpe & Hpl & Hst & Hex).
  destruct (Hpl p Ep) as [Hi Hc].
  pose proof (Plant_inv_update (Square.hostOf s) e lf p Hi) as Hi'.
  pose proof (Configured_update (Square.hostOf s) e lf p Hc) as Hc'.
  destruct (Plant.update _ _ _ p) as [[res p'] soil']. cbn [fst snd] in Hi', Hc'.
  set (p2 := if _ || _ then Plant.set_wasPollinated true p' else p').
  assert (Plant_inv p2 /\ Configured p2) as [Hi2 Hc2].
  { subst p2. destruct (_ || _); [|split; assumption].
    split; [apply Plant_inv_set_wasPollinated, Hi'|destruct p'; exact Hc']. }
  clearbody p2.
  assert (Square_wf (Square.set_plant (Some p2)
            (Square.set_statusText (Plant.status res) (Square.set_soil soil' s))))
    as H2.
  { apply Square_wf_replace_plant; [exact Hi2|exact Hc2| |exact H].
    change (isSome (Square.plant s) = true). rewrite Ep. reflexivity. }
  match goal with |- context [if ?c then Square.set_statusText _ _ else _] =>
    destruct c end; cbn [snd]; [|exact H2].
  eapply Square_wf_same with (s := Square.set_pests Pests.none (Square.set_plant None _));
    [destruct s; reflexivity..|].
  apply Square_wf_set_pests; [apply Pests_wf_none|].
  apply Square_wf_remove_plant, H2.
Qed.

Lemma marigoldSuppress_wf g r n :
  Garden_wf g -> Garden_wf (fst (Square.marigoldSuppress (g, r) n)).
Proof.
  intros Hg. unfold Square.marigoldSuppress.
  destruct (g !! n) as [s|] eqn:E; [|exact Hg].
  destruct (Pests.is_type _ _); [|exact Hg].
  destruct (Rand.next r) as [u r']. destruct (JS.lt u 0.1); [|exact Hg].
  cbn [fst]. apply Garden_wf_insert; [exact Hg|].
  pose proof (Hg n s E) as Hs.
  apply Square_wf_set_pests; [|exact Hs].
  apply Pests_wf_decrement. destruct Hs as (_ & Hp & _). exact Hp.
Qed.

Lemma fold_marigold_wf l g r :
  Garden_wf g -> Garden_wf (fst (fold_left Square.marigoldSuppress l (g, r))).
Proof.
  revert g r. induction l as [|n l IH]; intros g r Hg; [exact Hg|].
  cbn [fold_left].
  pose proof (marigoldSuppress_wf g r n Hg) as H.
  destruct (Square.marigoldSuppress (g, r) n) as [g1 r1]. apply IH, H.
Qed.

Lemma neighborEffects_wf k p g r :
  Garden_wf g -> Garden_wf (fst (Square.neighborEffects k p g r)).
Proof.
  intros Hg. unfold Square.neighborEffects.
  match goal with |- context [fold_left Square.marigoldSuppress _ (?g1, r)] =>
    assert (Garden_wf g1) as H1 end.
  { destruct (_ || _); [|exact Hg].
    apply Garden_wf_fold; [|exact Hg].
    intros g0 n H0. apply Garden_wf_onSoil, H0. }
  destruct (Config.suppressesNematodes _ && _); [apply fold_marigold_wf, H1|exact H1].
Qed.

Lemma updateEntities_wf (e lf : Q) (k : Key) (gs : GlobalState)
    (g : Square.Grid) (r : Rand.t) (g' : Square.Grid) (r' : Rand.t) :
  Garden_wf g -> Square.updateEntities e lf k gs g r = Some (g', r') ->
  Garden_wf g'.
Proof.
  intros Hg. unfold Square.updateEntities.
  destruct (g !! k) as [s|] eqn:E; [|discriminate].
  pose proof (Hg k s E) as Hs.
  set (c := match Square.structure s with
            | Some st => let '(w, st') := Structure.update st in
                         (w, Square.set_structure (Some st') s)
            | None => (0, s) end).
  assert (Square_wf (snd c)) as Hs1.
  { subst c. destruct (Square.structure s) as [st|] eqn:Est; [|exact Hs].
    pose proof Hs as (Hw & Hp & Hpl & Hst & Hex).
    pose proof (Structure_wf_update st (Hst st Est)) as Hu.
    destruct (Structure.update st) as [w st']. cbn [snd] in *.
    apply Square_wf_set_structure; [exact Hu| |exact Hs].
    destruct Hex as [Hn | Hn]; [exact Hn|congruence]. }
  destruct c as [w s1]. cbn [snd] in Hs1.
  pose proof (updatePlant_wf e lf k gs s1 Hs1) as Hs2.
  destruct (Square.updatePlant e lf k gs s1) as [o2 s2]. cbn [snd] in Hs2.
  assert (Garden_wf (<[k:=s2]> (Square.distributeOllaWater k w (<[k:=s1]> g)))) as Hi.
  { apply Garden_wf_insert; [|exact Hs2].
    apply distributeOllaWater_wf, Garden_wf_insert; assumption. }
  set (c2 := match Square.plant s2 with
             | Some p => Square.neighborEffects k p _ r
             | None => _ end).
  assert (Garden_wf (fst c2)) as Hg3.
  { subst c2. destruct (Square.plant s2); [apply neighborEffects_wf, Hi|exact Hi]. }
  destruct c2 as [g3 r3]. cbn [fst] in Hg3. intros E0; injection E0 as <- <-.
  apply Garden_wf_onSoil, Hg3.
Qed.

(** ** updateWeeds and updatePests *)

Lemma spreadWeeds_wf k gs g r :
  Garden_wf g -> Garden_wf (fst (Square.spreadWeeds k gs g r)).
Proof.
  intros Hg. unfold Square.spreadWeeds.
  destruct (Rand.next r) as [u r1]. destruct (JS.lt u _); [|exact Hg].
  destruct (0 <? _)%Z; [|exact Hg].
  destruct (Rand.next r1) as [u' r2].
  destruct (Square.pick u' _) as [t|]; [|exact Hg].
  destruct (g !! t) as [n|] eqn:E; [|exact Hg].
  destruct (_ && _); [|exact Hg].
  cbn [fst]. apply Garden_wf_insert; [exact Hg|].
  apply Square_wf_set_weeds; [lia|exact (Hg t _ E)].
Qed.

Lemma updateWeeds_wf (k : Key) (gs : GlobalState) (g : Square.Grid) (r : Rand.t)
    (g' : Square.Grid) (r' : Rand.t) :
  Garden_wf g -> Square.updateWeeds k gs g r = Some (g', r') -> Garden_wf g'.
Proof.
  intros Hg. unfold Square.updateWeeds.
  destruct (g !! k) as [s|] eqn:E; [|discriminate].
  pose proof (Hg k s E) as Hs.
  match goal with |- context [let '(s0, r0) := ?c in _] =>
    assert (Square_wf (fst c)) as Hs1; [|destruct c as [s1 r1]] end.
  { destruct (_ && _)%Z eqn:Ew; [|exact Hs].
    apply andb_true_iff in Ew as [E0 E4]. apply Z.ltb_lt in E0, E4.
    destruct (Rand.next r) as [u r1]. destruct (JS.lt u _); [|exact Hs].
    cbn [fst]. apply Square_wf_set_weeds; [lia|exact Hs]. }
  cbn [fst] in Hs1.
  match goal with |- context [<[k := ?s2]> g] =>
    assert (Square_wf s2) as Hs2 end.
  { destruct (0 <? Square.weeds s)%Z; [|exact Hs1].
    apply Square_wf_set_soil, Hs1. }
  destruct (Square.weeds s =? 4)%Z.
  - intros E0; injection E0 as H.
    pose proof (spreadWeeds_wf k gs _ r1 (Garden_wf_insert g k _ Hg Hs2)) as HH.
    rewrite H in HH. exact HH.
  - intros E0; simplify_eq. apply Garden_wf_insert; assumption.
Qed.

Lemma pestSpawnOrLevelUp_wf near gs s r :
  Square_wf s -> Square_wf (fst (Square.pestSpawnOrLevelUp near gs s r)).
Proof.
  intros Hs. unfold Square.pestSpawnOrLevelUp.
  destruct (negb (Pests.present (Square.pests s))) eqn:Ep.
  - match goal with |- context [if ?c then (?a, ?b) else (0, ?d)] =>
      destruct c end;
    destruct (Rand.next r) as [u r1]; destruct (JS.lt u _); cbn [fst];
      try (apply Square_wf_set_pests; [unfold Pests_wf; cbn; lia|exact Hs]);
    destruct (Rand.next r1) as [u' r2]; destruct (JS.lt u' _); cbn [fst];
      try exact Hs;
      apply Square_wf_set_pests; try exact Hs; unfold Pests_wf; cbn; lia.
  - destruct (Pests.level (Square.pests s) <? 4)%Z eqn:E4; [|exact Hs].
    destruct (Rand.next r) as [u r1]. destruct (JS.lt u _); [|exact Hs].
    cbn [fst]. apply Square_wf_set_pests; [|exact Hs].
    destruct Hs as (_ & Hp & _). apply negb_false_iff in Ep.
    apply Z.ltb_lt in E4. unfold Pests_wf, Pests.present in *.
    cbn [Pests.type Pests.level].
    destruct (Pests.type (Square.pests s)); [lia|discriminate].
Qed.

Lemma ladybeetleRemoval_wf gs s r :
  Square_wf s -> Square_wf (fst (Square.ladybeetleRemoval gs s r)).
Proof.
  intros Hs. unfold Square.ladybeetleRemoval.
  destruct (_ && _); [|exact Hs].
  destruct (Rand.next r) as [u r1]. destruct (JS.lt u _); [|exact Hs].
  cbn [fst]. apply Square_wf_set_pests; [|exact Hs].
  apply Pests_wf_decrement. destruct Hs as (_ & Hp & _). exact Hp.
Qed.

Lemma microbeDefense_wf s r :
  Square_wf s -> Square_wf (fst (Square.microbeDefense s r)).
Proof.
  intros Hs. unfold Square.microbeDefense.
  destruct (_ && _); [|exact Hs].
  destruct (Rand.next r) as [u r1]. destruct (JS.lt u _); [|exact Hs].
  cbn [fst]. apply Square_wf_set_pests; [apply Pests_wf_none|exact Hs].
Qed.

Lemma pestRemoval_wf gs s r :
  Square_wf s -> Square_wf (fst (Square.pestRemoval gs s r)).
Proof.
  intros Hs. unfold Square.pestRemoval.
  pose proof (ladybeetleRemoval_wf gs s r Hs) as H1.
  destruct (Square.ladybeetleRemoval gs s r) as [s1 r1]. cbn [fst] in H1.
  pose proof (microbeDefense_wf s1 r1 H1) as H2.
  destruct (Square.microbeDefense s1 r1) as [s2 r2]. cbn [fst] in *.
  destruct (negb _); [|exact H2].
  apply Square_wf_set_pests; [apply Pests_wf_none|exact H2].
Qed.

Lemma updatePests_at_wf near gs s r :
  Square_wf s -> Square_wf (fst (Square.updatePests_at near gs s r)).
Proof.
  intros Hs. unfold Square.updatePests_at.
  pose proof (pestSpawnOrLevelUp_wf near gs s r Hs) as H1.
  destruct (Square.pestSpawnOrLevelUp near gs s r) as [s1 r1]. cbn [fst] in H1.
  destruct (Pests.present _); [|exact H1].
  apply pestRemoval_wf, H1.
Qed.

Lemma updatePests_wf (k : Key) (gs : GlobalState) (g : Square.Grid) (r : Rand.t)
    (g' : Square.Grid) (r' : Rand.t) :
  Garden_wf g -> Square.updatePests k gs g r = Some (g', r') -> Garden_wf g'.
Proof.
  intros Hg. unfold Square.updatePests.
  destruct (g !! k) as [s|] eqn:E; [|discriminate].
  pose proof (updatePests_at_wf (Square.isMarigoldNear k g) gs s r (Hg k s E)) as H.
  destruct (Square.updatePests_at _ gs s r) as [s' r1]. cbn [fst] in H.
  intros E0; injection E0 as <- <-.
  apply Garden_wf_insert; assumption.
Qed.

Lemma updateSquare_wf (a e lf : Q) (gs : GlobalState) (acc : Main.Pass) (k : Key) :
  Garden_wf (Main.grid acc) ->
  Garden_wf (Main.grid (Main.updateSquare a e lf gs acc k)).
Proof.
  intros Hg. unfold Main.updateSquare.
  destruct (Square.updateEnvironment _ _ _ k _) as [[ev g1]|] eqn:E1; [|exact Hg].
  apply updateEnvironment_wf in E1; [|exact Hg].
  destruct (Square.updateEntities _ _ k gs g1 _) as [[g2 r2]|] eqn:E2; [|exact Hg].
  apply updateEntities_wf in E2; [|exact E1].
  destruct (Square.updateWeeds k gs g2 r2) as [[g3 r3]|] eqn:E3; [|exact Hg].
  apply updateWeeds_wf in E3; [|exact E2].
  destruct (Square.updatePests k gs g3 r3) as [[g4 r4]|] eqn:E4; [|exact Hg].
  apply updatePests_wf in E4; [|exact E3].
  cbn [Main.grid]. apply Garden_wf_alter; [|exact E4].
  intros s Hs. apply Square_wf_updateDisplayText, Square_wf_set_soil, Hs.
Qed.

Lemma updateSquares_wf (a e lf : Q) (gs : GlobalState) (g : Square.Grid)
    (r : Rand.t) :
  Garden_wf g -> Garden_wf (Main.grid (Main.updateSquares a e lf gs g r)).
Proof.
  intros Hg. unfold Main.updateSquares.
  assert (forall l acc, Garden_wf (Main.grid acc) ->
            Garden_wf (Main.grid (fold_left (Main.updateSquare a e lf gs) l acc))) as H.
  { induction l as [|k l IH]; intros acc Hacc; [exact Hacc|].
    cbn [fold_left]. apply IH, updateSquare_wf, Hacc. }
  apply H. exact Hg.
Qed.


(** * The player's actions keep the garden within its ranges *)

Lemma Garden_ok_split (g : Square.Grid) :
  Garden_ok g <-> Grid_inv g /\ Garden_wf g.
Proof.
  unfold Garden_ok, Grid_inv, Garden_wf, Square_ok, map_Forall. split.
  - intros H. split; intros k s E; apply (H k s E).
  - intros [H1 H2] k s E. split; [exact (H1 k s E)|exact (H2 k s E)].
Qed.

Lemma Garden_ok_insert (g : Square.Grid) (k : Key) (s : Square.t) :
  Garden_ok g -> Square_ok s -> Garden_ok (<[k := s]> g).
Proof.
  intros H Hs i x. rewrite lookup_insert. case_decide.
  - intros E0; simplify_eq. exact Hs.
  - apply H.
Qed.

Lemma Garden_ok_alter (f : Square.t -> Square.t) (g : Square.Grid) (k : Key) :
  (forall s, Square_ok s -> Square_ok (f s)) ->
  Garden_ok g -> Garden_ok (alter f k g).
Proof.
  intros Hf H i x. rewrite lookup_alter. case_decide.
  - subst i. destruct (g !! k) as [y|] eqn:E; [|discriminate].
    cbn. intros E0; injection E0 as <-. apply Hf. exact (H k y E).
  - apply H.
Qed.

Lemma Garden_ok_fold {A} (f : Square.Grid -> A -> Square.Grid) (l : list A)
    (g : Square.Grid) :
  (forall g a, Garden_ok g -> Garden_ok (f g a)) ->
  Garden_ok g -> Garden_ok (fold_left f l g).
Proof.
  intros Hf. revert g. induction l as [|a l IH]; intros g Hg; [exact Hg|].
  cbn [fold_left]. apply IH, Hf, Hg.
Qed.

Lemma Garden_ok_onSoil (f : Soil.t -> Soil.t) (g : Square.Grid) (k : Key) :
  (forall s, Soil_inv s -> Soil_inv (f s)) ->
  Garden_ok g -> Garden_ok (Square.onSoil f k g).
Proof.
  intros Hf. unfold Square.onSoil. apply Garden_ok_alter.
  intros s [H1 H2]. split; [destruct s; apply Hf, H1|apply Square_wf_set_soil, H2].
Qed.

Lemma Square_ok_set_soil v s :
  Soil_inv v -> Square_ok s -> Square_ok (Square.set_soil v s).
Proof.
  intros Hv [_ H]. split; [destruct s; exact Hv|apply Square_wf_set_soil, H].
Qed.

(** A change of the entities that keeps the soil. *)
Lemma Square_ok_entities (s s' : Square.t) :
  Square.soil s' = Square.soil s -> Square_wf s' -> Square_ok s -> Square_ok s'.
Proof. intros E H [Hs _]. split; [rewrite E; exact Hs|exact H]. Qed.

Lemma Square_ok_updateDisplayText s :
  Square_ok s -> Square_ok (Square.updateDisplayText s).
Proof.
  intros H. eapply Square_ok_entities; [..|exact H]; [destruct s; reflexivity|].
  apply Square_wf_updateDisplayText, H.
Qed.

Lemma Square_ok_set_temperature v s :
  Square_ok s -> Square_ok (Square.set_temperature v s).
Proof.
  intros H. eapply Square_ok_entities; [..|exact H]; [destruct s; reflexivity|].
  eapply Square_wf_same; [..|exact (proj2 H)]; destruct s; reflexivity.
Qed.

Lemma Square_ok_set_statusText v s :
  Square_ok s -> Square_ok (Square.set_statusText v s).
Proof.
  intros H. eapply Square_ok_entities; [..|exact H]; [destruct s; reflexivity|].
  eapply Square_wf_same; [..|exact (proj2 H)]; destruct s; reflexivity.
Qed.

Lemma Square_ok_set_connections c st s :
  Square.structure s = Some st ->
  Square_ok s ->
  Square_ok (Square.set_structure (Some (set_connections c st)) s).
Proof.
  intros E H. eapply Square_ok_entities; [..|exact H]; [destruct s; reflexivity|].
  destruct H as [_ H]. pose proof H as (_ & _ & _ & Hst & Hex).
  apply Square_wf_set_structure; [|destruct Hex; congruence|exact H].
  apply Structure_wf_set_connections, (Hst st E).
Qed.

(** ** addWater *)

Lemma watered_ok s :
  Square_ok s ->
  Square_ok
    (Square.set_temperature
       (JS.Math_max 0 ((Square.temperature
                          (Square.set_soil
                             (Soil.set_compaction
                                (Utils.clamp
                                   ((Soil.compaction
                                       (Square.soil
                                          (Square.set_soil
                                             (Soil.addMoisture
                                                (Config.RATES.waterMoistureAdd |? 7)
                                                (Square.soil s)) s)) |? 0)
                                    + (Config.RATES.waterCompactionAdd |? 0.5))
                                   0 Config.THRESHOLDS.compactionMax)
                                (Square.soil
                                   (Square.set_soil
                                      (Soil.addMoisture
                                         (Config.RATES.waterMoistureAdd |? 7)
                                         (Square.soil s)) s)))
                             (Square.set_soil
                                (Soil.addMoisture
                                   (Config.RATES.waterMoistureAdd |? 7)
                                   (Square.soil s)) s)) |? 20)
                       - (Config.RATES.wateringCooling |? 0.5)))
       (Square.set_soil
          (Soil.set_compaction
             (Utils.clamp
                ((Soil.compaction
                    (Square.soil
                       (Square.set_soil
                          (Soil.addMoisture (Config.RATES.waterMoistureAdd |? 7)
                                            (Square.soil s)) s)) |? 0)
                 + (Config.RATES.waterCompactionAdd |? 0.5))
                0 Config.THRESHOLDS.compactionMax)
             (Square.soil
                (Square.set_soil
                   (Soil.addMoisture (Config.RATES.waterMoistureAdd |? 7)
                                     (Square.soil s)) s)))
          (Square.set_soil
             (Soil.addMoisture (Config.RATES.waterMoistureAdd |? 7)
                               (Square.soil s)) s))).
Proof.
  intros H. apply Square_ok_set_temperature.
  pose proof (addMoisture_inv (Config.RATES.waterMoistureAdd |? 7) (Square.soil s)
                (proj1 H)) as Hm.
  apply Square_ok_set_soil.
  - apply set_compaction_inv.
    + apply clamp_bounds. unfold Config.THRESHOLDS.compactionMax. lra.
    + destruct s; exact Hm.
  - apply Square_ok_set_soil; [exact Hm|exact H].
Qed.

Lemma addWater_ok (k : Key) (g : Square.Grid) (b : bool) (g' : Square.Grid) :
  Garden_ok g -> Square.addWater k g = Some (b, g') -> Garden_ok g'.
Proof.
  intros Hg. unfold Square.addWater.
  destruct (g !! k) as [s|] eqn:E; [|discriminate].
  pose proof (Hg k s E) as Hs.
  match goal with |- context [let '(splash, s0) := ?c in _] =>
    assert (Square_ok (snd c)) as Hc; [|destruct c as [splash s1]] end.
  { destruct (Square.structure s) as [st|] eqn:Est.
    - destruct (String.eqb (Structure.type st) "Olla"); cbn [snd];
        [|apply watered_ok, Hs].
      eapply Square_ok_entities; [..|exact Hs]; [destruct s; reflexivity|].
      destruct Hs as [_ Hs]. pose proof Hs as (_ & _ & _ & Hst & Hex).
      apply Square_wf_set_structure; [|destruct Hex; congruence|exact Hs].
      specialize (Hst st Est). unfold Structure_wf in *.
      cbn [Structure.waterLevel].
      unfold Config.THRESHOLDS.ollaMaxWater, Config.RATES.waterMoistureAdd in *.
      destruct (Structure.waterLevel st) as [w|]; cbn [default from_option];
        js_unfold; repeat js_case; unfold id in *; lra.
    - cbn [snd]. apply watered_ok, Hs. }
  cbn [snd] in Hc. intros E0; injection E0 as _ <-.
  apply Garden_ok_onSoil; [apply updateDerivedVariables_inv|].
  destruct (JS.gt splash 0).
  - apply Garden_ok_fold; [|apply Garden_ok_insert; assumption].
    intros g0 nk H0. apply Garden_ok_onSoil; [intros; apply addMoisture_inv|]; assumption.
  - apply Garden_ok_insert; assumption.
Qed.

(** ** addAmendment, applyNeem, applySoilConditioner, harvestPlant,
    tryPlanting *)

Lemma addAmendment_ok type s :
  Square_ok s -> Square_ok (snd (Square.addAmendment type s)).
Proof.
  intros H. pose proof (proj1 H) as Hs. unfold Square.addAmendment.
  destruct (String.eqb type "compost"); [|destruct (String.eqb type "crh");
    [|destruct (String.eqb type "sand"); [|exact H]]]; cbn [snd];
    apply Square_ok_set_soil; try exact H; apply updateDerivedVariables_inv.
  - apply addMoisture_inv, set_microbes_inv; [apply clamp_bounds; lra|].
    apply set_organicMatter_inv, Hs.
  - apply set_pH_inv.
    { apply clamp_range; vm_compute; discriminate. }
    apply set_organicMatter_inv, set_compaction_inv.
    { apply clamp_bounds. unfold Config.THRESHOLDS.compactionMax. lra. }
    apply addMoisture_inv, Hs.
  - apply addMoisture_inv, Hs.
Qed.

Lemma applyNeem_ok s : Square_ok s -> Square_ok (snd (Square.applyNeem s)).
Proof.
  intros H. unfold Square.applyNeem. destruct (Pests.is_type _ _); [|exact H].
  cbn [snd]. eapply Square_ok_entities; [..|exact H]; [destruct s; reflexivity|].
  apply Square_wf_set_pests; [apply Pests_wf_none|exact (proj2 H)].
Qed.

Lemma applySoilConditioner_ok s :
  Square_ok s -> Square_ok (snd (Square.applySoilConditioner s)).
Proof.
  intros H. unfold Square.applySoilConditioner. cbn [snd].
  apply Square_ok_updateDisplayText.
  match goal with |- Square_ok (Square.set_soil ?a (Square.set_soil ?b ?s0)) =>
    assert (Square_wf s0) as Hw end.
  { apply Square_wf_set_pests; [apply Pests_wf_none|].
    apply Square_wf_set_weeds; [lia|]. apply Square_wf_set_soil, H. }
  split.
  - cbn [Square.soil Square.set_soil Square.set_pests Square.set_weeds].
    apply updateOxygen_inv, updateDerivedVariables_inv, new_inv;
      cbn [Soil.i_moisture Soil.i_compaction Soil.i_microbes Soil.i_pH];
      intros v E; injection E as <-; vm_compute; split; discriminate.
  - apply Square_wf_set_soil, Square_wf_set_soil, Hw.
Qed.

Lemma harvestPlant_ok s : Square_ok s -> Square_ok (snd (Square.harvestPlant s)).
Proof.
  intros H. unfold Square.harvestPlant.
  destruct (Square.plant s) as [p|]; [|exact H].
  destruct (Plant.growthStage p =? 4)%Z; [exact H|].
  destruct (_ && _); [|exact H]. cbn [snd].
  apply Square_ok_set_statusText.
  eapply Square_ok_entities; [..|exact H]; [destruct s; reflexivity|].
  apply Square_wf_remove_plant, H.
Qed.

Lemma tryPlanting_ok plantType s :
  Square_ok s -> Square_ok (snd (Square.tryPlanting plantType s)).
Proof.
  intros H. unfold Square.tryPlanting.
  destruct (Square.plant s) as [p|]; [exact H|].
  destruct (Square.structure s) as [st|] eqn:Est; [exact H|]. cbn [snd].
  apply Square_ok_updateDisplayText.
  eapply Square_ok_entities; [..|exact H]; [destruct s; reflexivity|].
  apply Square_wf_set_plant;
    [apply Plant_inv_new|apply Configured_new|exact Est|exact (proj2 H)].
Qed.

(** ** till and removeEntity *)

Lemma clearNeighborFlag_ok k c g dir :
  Garden_ok g -> Garden_ok (Square.clearNeighborFlag k c g dir).
Proof.
  intros Hg. unfold Square.clearNeighborFlag.
  destruct (flag dir c); [|exact Hg].
  destruct (g !! step k dir) as [n|] eqn:E; [|exact Hg].
  destruct (Square.structure n) as [nst|] eqn:En; [|exact Hg].
  destruct (flag (opposite dir) _); [|exact Hg].
  apply Garden_ok_insert; [exact Hg|].
  apply Square_ok_set_connections; [exact En|exact (Hg _ _ E)].
Qed.

Lemma clearNeighborFlags_ok k c g :
  Garden_ok g -> Garden_ok (Square.clearNeighborFlags k c g).
Proof.
  unfold Square.clearNeighborFlags. apply Garden_ok_fold.
  intros g0 d. apply clearNeighborFlag_ok.
Qed.

Lemma till_ok (k : Key) (g : Square.Grid) (res : Square.TillResult)
    (g' : Square.Grid) :
  Garden_ok g -> Square.till k g = Some (res, g') -> Garden_ok g'.
Proof.
  intros Hg. unfold Square.till.
  destruct (g !! k) as [s|] eqn:E; [|discriminate].
  pose proof (Hg k s E) as Hs.
  set (s1 := Square.set_soil _ s).
  assert (Square_ok s1) as H1.
  { subst s1. apply Square_ok_set_soil; [|exact Hs].
    destruct Hs as [(Hm & Hc & Ho & Hsc & Hn & Hmi & Hp) _].
    apply set_microbes_inv.
    - pose proof (or_default_zero
                    (Soil.microbes
                       (Soil.set_compaction
                          (JS.Math_max 0 ((Soil.compaction (Square.soil s) |? 0)
                                          - (Config.RATES.tillCompactionReduce |? 0)))
                          (Square.soil s)))) as Em.
      change (Soil.microbes (Soil.set_compaction ?v (Square.soil s)))
        with (Soil.microbes (Square.soil s)) in *.
      unfold Config.RATES.tillMicrobesReduce.
      generalize dependent (Soil.microbes (Square.soil s) |? 0). intros x Ex.
      js_arith.
    - apply set_compaction_inv; [|repeat split; tauto].
      pose proof (or_default_zero (Soil.compaction (Square.soil s))) as Ec.
      unfold Config.RATES.tillCompactionReduce.
      generalize dependent (Soil.compaction (Square.soil s) |? 0). intros x Ex.
      js_arith. }
  clearbody s1.
  match goal with |- context [let '(removedItems, s0) := ?c in _] =>
    assert (Square_ok (snd c)) as H2; [|destruct c as [items s2]] end.
  { destruct (0 <? Square.weeds s1)%Z; [|exact H1]. cbn [snd].
    eapply Square_ok_entities; [..|exact H1]; [destruct s1; reflexivity|].
    apply Square_wf_set_weeds; [lia|exact (proj2 H1)]. }
  cbn [snd] in H2.
  match goal with |- context [let '(pr0, g0) := ?c in _] =>
    assert (Square_ok (snd (fst c)) /\ Garden_ok (snd c)) as [H3 Hg3];
      [|destruct c as [[items3 s3] g3]] end.
  { destruct (Square.structure s2) as [st|]; [|split; assumption].
    destruct (_ || _); [|split; assumption]. cbn [fst snd].
    split; [|apply clearNeighborFlags_ok, Hg].
    eapply Square_ok_entities; [..|exact H2]; [destruct s2; reflexivity|].
    apply Square_wf_remove_structure, H2. }
  cbn [fst snd] in H3, Hg3. intros E0; injection E0 as _ <-.
  apply Garden_ok_insert; [exact Hg3|].
  apply Square_ok_set_soil; [apply updateDerivedVariables_inv, H3|exact H3].
Qed.

Lemma removeEntity_ok (k : Key) (g : Square.Grid) (res : option string)
    (g' : Square.Grid) :
  Garden_ok g -> Square.removeEntity k g = Some (res, g') -> Garden_ok g'.
Proof.
  intros Hg. unfold Square.removeEntity.
  destruct (g !! k) as [s|] eqn:E; [|discriminate].
  pose proof (Hg k s E) as Hs.
  match goal with |- context [let '(pr0, g0) := ?c in _] =>
    assert (Square_ok (snd (fst c)) /\ Garden_ok (snd c)) as [H3 Hg3];
      [|destruct c as [[removed s3] g3]] end.
  { destruct (Square.plant s) as [p|].
    - cbn [fst snd]. split; [|exact Hg]. apply Square_ok_set_statusText.
      eapply Square_ok_entities; [..|exact Hs]; [destruct s; reflexivity|].
      apply Square_wf_remove_plant, Hs.
    - destruct (Square.structure s) as [st|]; [|split; assumption].
      cbn [fst snd]. split.
      + eapply Square_ok_entities; [..|exact Hs]; [destruct s; reflexivity|].
        apply Square_wf_remove_structure, Hs.
      + destruct (_ || _); [apply clearNeighborFlags_ok, Hg|exact Hg]. }
  cbn [fst snd] in H3, Hg3. intros E0; injection E0 as _ <-.
  apply Garden_ok_insert; [exact Hg3|apply Square_ok_updateDisplayText, H3].
Qed.

(** ** tryAddingStructure *)

Lemma connectNeighbor_ok k c g n :
  Garden_ok g -> Garden_ok (snd (Square.connectNeighbor k (c, g) n)).
Proof.
  intros Hg. unfold Square.connectNeighbor.
  destruct k as [x y], n as [nx ny].
  destruct (_ !! _) as [ns|] eqn:E; [|exact Hg].
  destruct (Square.structure ns) as [nst|] eqn:En; [|exact Hg].
  destruct (ny <? y)%Z; [|destruct (y <? ny)%Z];
    (destruct (nx <? x)%Z; [|destruct (x <? nx)%Z]); cbn [snd];
    (apply Garden_ok_insert; [exact Hg|]);
    (apply Square_ok_set_connections; [exact En|exact (Hg _ _ E)]).
Qed.

Lemma fold_connectNeighbor_ok k l c g :
  Garden_ok g -> Garden_ok (snd (fold_left (Square.connectNeighbor k) l (c, g))).
Proof.
  revert c g. induction l as [|n l IH]; intros c g Hg; [exact Hg|].
  cbn [fold_left]. pose proof (connectNeighbor_ok k c g n Hg) as H.
  destruct (Square.connectNeighbor k (c, g) n) as [c1 g1]. apply IH, H.
Qed.

Lemma tryAddingStructure_ok (structureType : string) (userConfirmed : bool)
    (k : Key) (g : Square.Grid) (b : bool) (g' : Square.Grid) :
  Garden_ok g ->
  Square.tryAddingStructure structureType userConfirmed k g = Some (b, g') ->
  Garden_ok g'.
Proof.
  intros Hg. unfold Square.tryAddingStructure.
  destruct (g !! k) as [s|] eqn:E; [|discriminate].
  pose proof (Hg k s E) as Hs.
  destruct (negb _); [intros E0; simplify_eq; exact Hg|].
  destruct (isSome (Square.plant s) || isSome (Square.structure s)) eqn:Eo;
    [intros E0; simplify_eq; exact Hg|].
  apply orb_false_iff in Eo as [Ep Est].
  assert (Square.plant s = None) as Ep'
    by (destruct (Square.plant s); [discriminate|reflexivity]).
  clear Ep Est. rename Ep' into Ep.
  assert (forall c, Square_ok (Square.updateDisplayText
            (Square.set_structure
               (Some (set_connections c (Structure.new structureType))) s))) as Hnew.
  { intros c. apply Square_ok_updateDisplayText.
    eapply Square_ok_entities; [..|exact Hs]; [destruct s; reflexivity|].
    apply Square_wf_set_structure; [|exact Ep|exact (proj2 Hs)].
    apply Structure_wf_set_connections, Structure_wf_new. }
  assert (Square_ok (Square.updateDisplayText
            (Square.set_structure (Some (Structure.new structureType)) s))) as Hnew0.
  { apply Square_ok_updateDisplayText.
    eapply Square_ok_entities; [..|exact Hs]; [destruct s; reflexivity|].
    apply Square_wf_set_structure; [|exact Ep|exact (proj2 Hs)].
    apply Structure_wf_new. }
  destruct (_ || _).
  2:{ intros E0; injection E0 as _ <-. apply Garden_ok_insert; assumption. }
  destruct (0 <? _)%Z.
  2:{ intros E0; injection E0 as _ <-. apply Garden_ok_insert; assumption. }
  destruct userConfirmed.
  2:{ intros E0; injection E0 as _ <-. apply Garden_ok_insert; assumption. }
  match goal with |- context [fold_left (Square.connectNeighbor k) ?l (?c, g)] =>
    pose proof (fold_connectNeighbor_ok k l c g Hg) as Hf;
    destruct (fold_left (Square.connectNeighbor k) l (c, g)) as [c1 g1] end.
  cbn [snd] in Hf. intros E0; injection E0 as _ <-.
  apply Garden_ok_insert; [exact Hf|apply Hnew].
Qed.


(** * Events of a game *)

Lemma updateSquares_ok (a e lf : Q) (gs : GlobalState) (g : Square.Grid)
    (r : Rand.t) :
  Garden_ok g -> Garden_ok (Main.grid (Main.updateSquares a e lf gs g r)).
Proof.
  rewrite !Garden_ok_split. intros [H1 H2].
  split; [apply updateSquares_inv, H1|apply updateSquares_wf, H2].
Qed.

Lemma onSquare_ok (f : Square.t -> bool * Square.t) (k : Key) (s : Square.t)
    (game : Main.Game) :
  (forall s, Square_ok s -> Square_ok (snd (f s))) ->
  Main.squareState game !! k = Some s ->
  Garden_ok (Main.squareState game) ->
  Garden_ok (Main.squareState (Main.onSquare f k s game)).
Proof.
  intros Hf E Hg. unfold Main.onSquare. cbn [Main.squareState].
  apply Garden_ok_insert; [exact Hg|apply Hf, (Hg k s E)].
Qed.

Lemma onGrid_ok {A} (f : Key -> Square.Grid -> option (A * Square.Grid))
    (k : Key) (game : Main.Game) :
  (forall (g : Square.Grid) (a : A) (g' : Square.Grid),
     Garden_ok g -> f k g = Some (a, g') -> Garden_ok g') ->
  Garden_ok (Main.squareState game) ->
  Garden_ok (Main.squareState (Main.onGrid f k game)).
Proof.
  intros Hf Hg. unfold Main.onGrid.
  destruct (f k (Main.squareState game)) as [[a g']|] eqn:E; [|exact Hg].
  cbn [Main.squareState]. exact (Hf _ _ _ Hg E).
Qed.

Lemma onSquare_money f k s game :
  Main.playerMoney (Main.onSquare f k s game) = Main.playerMoney game.
Proof. reflexivity. Qed.

Lemma onGrid_money {A} (f : Key -> Square.Grid -> option (A * Square.Grid))
    k game :
  Main.playerMoney (Main.onGrid f k game) = Main.playerMoney game.
Proof. unfold Main.onGrid. destruct (f k _) as [[a g']|]; reflexivity. Qed.

Lemma Math_round_nonneg x : 0 <= x -> 0 <= JS.Math_round x.
Proof.
  intros H. unfold JS.Math_round.
  change 0 with (inject_Z 0). rewrite <- Zle_Qle.
  change 0%Z with (Qfloor 0). apply Qfloor_resp_le. lra.
Qed.

(** The yield and the value of a successful harvest are present and
    non-negative. *)
Lemma harvest_value_nonneg s :
  Square_wf s ->
  Square.harvested (fst (Square.harvestPlant s)) = true ->
  exists y,
    Square.yield (fst (Square.harvestPlant s)) = Some y
    /\ Square.value (fst (Square.harvestPlant s))
       = Some (y * (Config.price
                      (match Square.plant s with
                       | Some p => Plant.properties p
                       | None => Plant.Test_properties
                       end) |? 0))
    /\ 0 <= y
    /\ 0 <= default 0 (Square.value (fst (Square.harvestPlant s))).
Proof.
  intros Hs. unfold Square.harvestPlant.
  destruct (Square.plant s) as [p|] eqn:Ep; [|discriminate].
  destruct (Plant.growthStage p =? 4)%Z; [discriminate|].
  destruct (_ && _); [|discriminate]. cbn [fst Square.harvested Square.yield Square.value].
  intros _.
  destruct Hs as (_ & _ & Hpl & _). destruct (Hpl p Ep) as [_ Hc].
  destruct (PLANT_PROPERTIES_nonneg _ _ Hc) as (_ & _ & _ & Hy & Hpr).
  match goal with |- exists y, Some ?v = Some y /\ _ => exists v; set (y := v) end.
  assert (0 <= y) as Hy0.
  { subst y. destruct (_ && _ && _); [lra|apply Math_max_lower]. }
  clearbody y.
  assert (0 <= y * (Config.price (Plant.properties p) |? 0)) as Hv.
  { apply Qmult_le_0_compat; [exact Hy0|apply or_default_nonneg; lra]. }
  repeat split; try reflexivity; assumption.
Qed.

Lemma handleSquareClick_ok mode pt uc k game :
  Garden_ok (Main.squareState game) ->
  Garden_ok (Main.squareState (Main.handleSquareClick mode pt uc k game)).
Proof.
  intros Hg. unfold Main.handleSquareClick.
  destruct (Main.squareState game !! k) as [s|] eqn:E; [|exact Hg].
  destruct (String.eqb mode "plant").
  { apply onSquare_ok; [intros; apply tryPlanting_ok|..]; assumption. }
  destruct (String.eqb mode "water").
  { apply onGrid_ok; [intros ? ? ?; apply addWater_ok|assumption]. }
  destruct (String.eqb mode "add_compost").
  { apply onSquare_ok; [intros; apply addAmendment_ok|..]; assumption. }
  destruct (String.eqb mode "add_crh").
  { apply onSquare_ok; [intros; apply addAmendment_ok|..]; assumption. }
  destruct (String.eqb mode "add_sand").
  { apply onSquare_ok; [intros; apply addAmendment_ok|..]; assumption. }
  destruct (String.eqb mode "add_olla").
  { apply onGrid_ok; [intros ? ? ?; apply tryAddingStructure_ok|assumption]. }
  destruct (String.eqb mode "add_trellis").
  { apply onGrid_ok; [intros ? ? ?; apply tryAddingStructure_ok|assumption]. }
  destruct (String.eqb mode "add_net").
  { apply onGrid_ok; [intros ? ? ?; apply tryAddingStructure_ok|assumption]. }
  destruct (String.eqb mode "till").
  { apply onGrid_ok; [intros ? ? ?; apply till_ok|assumption]. }
  destruct (String.eqb mode "apply_neem").
  { apply onSquare_ok; [intros; apply applyNeem_ok|..]; assumption. }
  destruct (String.eqb mode "shop").
  { destruct (JS.ge _ _); [|exact Hg].
    destruct (JS.gt _ 0); cbn [Main.squareState];
      (apply Garden_ok_insert; [exact Hg|apply applySoilConditioner_ok, (Hg k s E)]). }
  destruct (String.eqb mode "harvest").
  { pose proof (harvestPlant_ok s (Hg k s E)) as Hh.
    destruct (Square.harvestPlant s) as [res s']. cbn [snd] in Hh.
    destruct (Square.harvested res);
      [destruct (Main.recordHarvest _ _ _) as [hd ok]; destruct ok|];
      cbn [Main.squareState]; apply Garden_ok_insert; assumption. }
  destruct (String.eqb mode "remove").
  { apply onGrid_ok; [intros ? ? ?; apply removeEntity_ok|assumption]. }
  exact Hg.
Qed.

Lemma handleSquareClick_money mode pt uc k game :
  Garden_ok (Main.squareState game) ->
  0 <= Main.playerMoney game ->
  let m' := Main.playerMoney (Main.handleSquareClick mode pt uc k game) in
  0 <= m'
  /\ (String.eqb mode "harvest" = false -> m' <= Main.playerMoney game)
  /\ (String.eqb mode "shop" = false -> Main.playerMoney game <= m').
Proof.
  intros Hg Hm m'. subst m'. unfold Main.handleSquareClick.
  destruct (Main.squareState game !! k) as [s|] eqn:E; [|repeat split; lra].
  destruct (String.eqb mode "plant"); [rewrite onSquare_money; repeat split; lra|].
  destruct (String.eqb mode "water"); [rewrite onGrid_money; repeat split; lra|].
  destruct (String.eqb mode "add_compost"); [rewrite onSquare_money; repeat split; lra|].
  destruct (String.eqb mode "add_crh"); [rewrite onSquare_money; repeat split; lra|].
  destruct (String.eqb mode "add_sand"); [rewrite onSquare_money; repeat split; lra|].
  destruct (String.eqb mode "add_olla"); [rewrite onGrid_money; repeat split; lra|].
  destruct (String.eqb mode "add_trellis"); [rewrite onGrid_money; repeat split; lra|].
  destruct (String.eqb mode "add_net"); [rewrite onGrid_money; repeat split; lra|].
  destruct (String.eqb mode "till"); [rewrite onGrid_money; repeat split; lra|].
  destruct (String.eqb mode "apply_neem"); [rewrite onSquare_money; repeat split; lra|].
  destruct (String.eqb mode "shop").
  { destruct (JS.ge _ _) eqn:Eg; [|repeat split; lra].
    apply ge_true in Eg.
    destruct (JS.gt _ 0); cbn [Main.playerMoney Main.onSquare] in *;
      unfold Config.SHOP_COSTS.soilConditioner in *;
      (split; [|split; [intros _|intros ?; discriminate]]);
      revert Eg; js_arith. }
  destruct (String.eqb mode "harvest").
  { pose proof (harvest_value_nonneg s (proj2 (Hg k s E))) as Hv.
    destruct (Square.harvestPlant s) as [res s']. cbn [fst] in Hv.
    destruct (Square.harvested res).
    - destruct (Hv eq_refl) as (y & _ & _ & _ & Hval).
      destruct (Main.recordHarvest _ _ _) as [hd ok]; destruct ok;
        cbn [Main.playerMoney];
        (split; [lra|split; [intros ?; discriminate|intros _; lra]]).
    - cbn [Main.playerMoney]. split; [lra|split; [intros ?; discriminate|lra]]. }
  destruct (String.eqb mode "remove"); [rewrite onGrid_money; repeat split; lra|].
  repeat split; lra.
Qed.

Lemma massHarvestSquare_ok acc k :
  Garden_ok (Main.m_grid acc) -> 0 <= Main.totalValueGained acc ->
  Garden_ok (Main.m_grid (Main.massHarvestSquare acc k))
  /\ 0 <= Main.totalValueGained (Main.massHarvestSquare acc k).
Proof.
  intros Hg Ht. unfold Main.massHarvestSquare.
  destruct (Main.running acc); [|split; assumption].
  destruct (Main.m_grid acc !! k) as [s|] eqn:E; [|split; assumption].
  pose proof (harvestPlant_ok s (Hg k s E)) as Hh.
  pose proof (harvest_value_nonneg s (proj2 (Hg k s E))) as Hv.
  destruct (Square.harvestPlant s) as [res s']. cbn [fst snd] in Hh, Hv.
  destruct (Square.harvested res).
  - destruct (Hv eq_refl) as (y & _ & _ & _ & Hval).
    destruct (Main.recordHarvest _ _ _) as [hd ok]; destruct ok;
      cbn [Main.m_grid Main.totalValueGained];
      (split; [apply Garden_ok_insert; assumption|lra]).
  - cbn [Main.m_grid Main.totalValueGained].
    split; [apply Garden_ok_insert; assumption|lra].
Qed.

Lemma massHarvest_fold_ok l acc :
  Garden_ok (Main.m_grid acc) -> 0 <= Main.totalValueGained acc ->
  Garden_ok (Main.m_grid (fold_left Main.massHarvestSquare l acc))
  /\ 0 <= Main.totalValueGained (fold_left Main.massHarvestSquare l acc).
Proof.
  revert acc. induction l as [|k l IH]; intros acc Hg Ht; [split; assumption|].
  cbn [fold_left]. destruct (massHarvestSquare_ok acc k Hg Ht) as [H1 H2].
  apply IH; assumption.
Qed.

Lemma massHarvest_ok game :
  Garden_ok (Main.squareState game) -> 0 <= Main.playerMoney game ->
  Garden_ok (Main.squareState (Main.massHarvest game))
  /\ Main.playerMoney game <= Main.playerMoney (Main.massHarvest game).
Proof.
  intros Hg Hm. unfold Main.massHarvest.
  destruct (massHarvest_fold_ok Main.gridKeys
              (Main.mkMassHarvest (Main.squareState game) (Main.harvestData game)
                                  0 0 true) Hg ltac:(cbn; lra)) as [H1 H2].
  destruct (_ && _); cbn [Main.squareState Main.playerMoney]; split;
    try assumption; lra.
Qed.

Lemma Garden_ok_fmap (f : Square.t -> Square.t) (g : Square.Grid) :
  (forall s, Square_ok s -> Square_ok (f s)) ->
  Garden_ok g -> Garden_ok (f <$> g).
Proof.
  intros Hf Hg k s. rewrite lookup_fmap.
  destruct (g !! k) as [s0|] eqn:E; cbn; [|discriminate].
  intros E0; injection E0 as <-. apply Hf, (Hg k s0 E).
Qed.

Lemma buyMassNeem_ok game :
  Garden_ok (Main.squareState game) -> 0 <= Main.playerMoney game ->
  Garden_ok (Main.squareState (Main.buyMassNeem game))
  /\ 0 <= Main.playerMoney (Main.buyMassNeem game) <= Main.playerMoney game.
Proof.
  intros Hg Hm. unfold Main.buyMassNeem.
  destruct (JS.ge _ _) eqn:Eg; [|split; [exact Hg|lra]].
  apply ge_true in Eg. cbn [Main.squareState Main.playerMoney].
  split; [apply Garden_ok_fmap; [intros; apply applyNeem_ok; assumption|exact Hg]|].
  unfold Config.SHOP_COSTS.massNeem in *. revert Eg. js_arith.
Qed.

Lemma buyMassWeed_ok game :
  Garden_ok (Main.squareState game) -> 0 <= Main.playerMoney game ->
  Garden_ok (Main.squareState (Main.buyMassWeed game))
  /\ 0 <= Main.playerMoney (Main.buyMassWeed game) <= Main.playerMoney game.
Proof.
  intros Hg Hm. unfold Main.buyMassWeed.
  destruct (JS.ge _ _) eqn:Eg; [|split; [exact Hg|lra]].
  apply ge_true in Eg. cbn [Main.squareState Main.playerMoney].
  split.
  - apply Garden_ok_fmap; [|exact Hg]. intros s Hs.
    destruct (0 <? Square.weeds s)%Z; [|exact Hs].
    eapply Square_ok_entities; [..|exact Hs]; [destruct s; reflexivity|].
    apply Square_wf_set_weeds; [lia|exact (proj2 Hs)].
  - unfold Config.SHOP_COSTS.massWeed in *. revert Eg. js_arith.
Qed.

Lemma perform_ok game ev :
  Garden_ok (Main.squareState game) -> 0 <= Main.playerMoney game ->
  Garden_ok (Main.squareState (perform game ev))
  /\ 0 <= Main.playerMoney (perform game ev)
  /\ (harvests ev = false ->
      Main.playerMoney (perform game ev) <= Main.playerMoney game)
  /\ (buys ev = false ->
      Main.playerMoney game <= Main.playerMoney (perform game ev)).
Proof.
  intros Hg Hm. destruct ev as [a e lf gs r|mode pt uc k| | |];
    cbn [perform harvests buys].
  - cbn [Main.squareState Main.playerMoney].
    split; [apply updateSquares_ok, Hg|]. repeat split; lra.
  - split; [apply handleSquareClick_ok, Hg|].
    exact (handleSquareClick_money mode pt uc k game Hg Hm).
  - destruct (massHarvest_ok game Hg Hm) as [H1 H2].
    split; [exact H1|]. split; [lra|]. split; [intros ?; discriminate|intros _; exact H2].
  - destruct (buyMassNeem_ok game Hg Hm) as [H1 H2].
    split; [exact H1|]. split; [lra|]. split; [intros _; lra|intros ?; discriminate].
  - destruct (buyMassWeed_ok game Hg Hm) as [H1 H2].
    split; [exact H1|]. split; [lra|]. split; [intros _; lra|intros ?; discriminate].
Qed.


(** * The initial grid and the reachable states *)

Lemma gridKeys_inGrid k : In k Main.gridKeys <-> inGrid k.
Proof.
  split; [|apply inGrid_gridKeys].
  unfold Main.gridKeys, inGrid. intros H.
  apply in_flat_map in H as (y & Hy & H). apply in_map_iff in H as (x & <- & Hx).
  apply in_range in Hy, Hx. cbn [fst snd]. lia.
Qed.

Lemma Square_new_ok a w :
  (0 <= w <= 4)%Z -> Square_ok (Square.new a w Pests.none).
Proof.
  intros Hw. split; [apply Square_new_inv|].
  unfold Square.new.
  apply Square_wf_updateDisplayText, Square_wf_set_soil, Square_wf_set_soil.
  unfold Square_wf. square_fields.
  split; [exact Hw|]. split; [reflexivity|].
  split; [intros p E; discriminate|].
  split; [intros st E; discriminate|left; reflexivity].
Qed.

Lemma Square_new_Fresh a w :
  (w = 0 \/ w = 1)%Z -> Fresh a (Square.new a w Pests.none).
Proof. intros Hw. unfold Fresh. repeat split; try reflexivity. exact Hw. Qed.

Lemma createSquare_lookup (a : Q) (g : Square.Grid) (r : Rand.t) (k n : Key) :
  fst (Main.createSquare a (g, r) k) !! n
  = if decide (k = n)
    then Some (Square.new a
                 (if JS.lt (fst (Rand.next r)) (Config.INITIAL_WEED_CHANCE |? 0)
                  then 1%Z else 0%Z) Pests.none)
    else g !! n.
Proof.
  unfold Main.createSquare. destruct (Rand.next r) as [u r']. cbn [fst].
  rewrite lookup_insert. reflexivity.
Qed.

Lemma initialize_fold (a : Q) (l : list Key) (g : Square.Grid) (r : Rand.t) :
  let g' := fst (fold_left (Main.createSquare a) l (g, r)) in
  (forall n, is_Some (g' !! n) <-> In n l \/ is_Some (g !! n))
  /\ (forall n s, g' !! n = Some s ->
        g !! n = Some s \/ (Square_ok s /\ Fresh a s)).
Proof.
  revert g r. induction l as [|k l IH]; intros g r g'; subst g'.
  - cbn [fold_left fst]. split; [intros n; cbn [In]; tauto|intros n s E; left; exact E].
  - cbn [fold_left].
    pose proof (createSquare_lookup a g r k) as Hl.
    destruct (Main.createSquare a (g, r) k) as [g1 r1]. cbn [fst] in Hl.
    destruct (IH g1 r1) as [H1 H2]. split.
    + intros n. rewrite H1, Hl. cbn [In]. destruct (decide (k = n)) as [-> | Hne].
      * split; [intros _; left; left; reflexivity|intros _; right; eexists; reflexivity].
      * split; [intros [? | ?]; tauto|intros [[? | ?] | ?]; try tauto; congruence].
    + intros n s E. destruct (H2 n s E) as [E1 | ?]; [|right; assumption].
      rewrite Hl in E1. destruct (decide (k = n)) as [-> | Hne]; [|left; exact E1].
      right. injection E1 as <-.
      destruct (JS.lt _ _);
        (split; [apply Square_new_ok; lia|apply Square_new_Fresh; lia]).
Qed.

Lemma initial_grid_ok_aux (ambientTemperature : Q) (r : Rand.t) :
  Garden_ok (fst (Main.initializeGrid ambientTemperature r)).
Proof.
  unfold Main.initializeGrid.
  destruct (initialize_fold ambientTemperature Main.gridKeys ∅ r) as [_ H2].
  cbv zeta in H2. intros k s E. destruct (H2 k s E) as [E0 | [? _]]; [|assumption].
  rewrite lookup_empty in E0. discriminate.
Qed.

(** X12: the grid that [initializeGrid] builds has a square exactly at
    the 15 x 15 coordinates of the grid; each square is bare and
    pest-free at the ambient temperature, with no weed or a level-1 weed,
    and its soil and entities are within their ranges, whatever the
    draws. *)
Theorem initial_grid_is_complete_and_fresh
    (ambientTemperature : Q) (r : Rand.t) :
  let g := fst (Main.initializeGrid ambientTemperature r) in
  (forall k, is_Some (g !! k) <-> inGrid k)
  /\ (forall k s, g !! k = Some s -> Fresh ambientTemperature s)
  /\ Garden_ok g.
Proof.
  intros g. subst g. unfold Main.initializeGrid.
  destruct (initialize_fold ambientTemperature Main.gridKeys ∅ r) as [H1 H2].
  cbv zeta in H1, H2. split; [|split].
  - intros k. rewrite H1, gridKeys_inGrid. rewrite lookup_empty.
    split; [intros [? | [? ?]]; [assumption|discriminate]|intros ?; left; assumption].
  - intros k s E. destruct (H2 k s E) as [E0 | [_ ?]]; [|assumption].
    rewrite lookup_empty in E0. discriminate.
  - intros k s E. destruct (H2 k s E) as [E0 | [? _]]; [|assumption].
    rewrite lookup_empty in E0. discriminate.
Qed.

Lemma play_ok events game :
  Garden_ok (Main.squareState game) -> 0 <= Main.playerMoney game ->
  Garden_ok (Main.squareState (play events game))
  /\ 0 <= Main.playerMoney (play events game).
Proof.
  unfold play. revert game.
  induction events as [|ev events IH]; intros game Hg Hm; [split; assumption|].
  cbn [fold_left]. destruct (perform_ok game ev Hg Hm) as (H1 & H2 & _).
  apply IH; assumption.
Qed.

(** X9: a pass of the simulation over the squares keeps the entities of
    the garden well-formed: weeds at a level from 0 to 4, a pest entry
    that is empty at level 0 or names a pest at a level from 1 to 4, every
    plant within its ranges and with the properties of its type, every
    Olla within its capacity, and no square holding a plant together with
    a structure. *)
Theorem tick_keeps_entities_well_formed
    (ambientTemperature elapsedSimMinutes lightFactor : Q)
    (globalState : GlobalState) (g : Square.Grid) (r : Rand.t) :
  Garden_wf g ->
  Garden_wf (Main.grid (Main.updateSquares ambientTemperature elapsedSimMinutes
                          lightFactor globalState g r)).
Proof. apply updateSquares_wf. Qed.

Lemma tick_keeps_entities_well_formed_witness :
  Garden_wf (Main.grid (Main.updateSquares 20 72 0.5 eastWind weedGrid zeroDraws)).
Proof.
  apply (tick_keeps_entities_well_formed 20 72 0.5 eastWind weedGrid zeroDraws).
  unfold weedGrid. apply Garden_wf_insert; [apply Garden_wf_insert|].
  - intros k s E. rewrite lookup_empty in E. discriminate.
  - apply Square_wf_set_weeds; [lia|apply Square_new_ok; lia].
  - apply Square_new_ok; lia.
Defined.

(** X10: every state that a game reaches from its initialisation, through
    any sequence of ticks, clicks in any mode on any square and uses of
    the mass buttons, has all soils and entities within their ranges and
    non-negative money. *)
Theorem reachable_states_are_within_ranges
    (ambientTemperature : Q) (r : Rand.t) (events : list Event) :
  let game := play events (Main.newGame ambientTemperature r) in
  Garden_ok (Main.squareState game) /\ 0 <= Main.playerMoney game.
Proof.
  intros game. subst game. apply play_ok.
  - apply (initial_grid_ok_aux ambientTemperature r).
  - cbn [Main.newGame Main.playerMoney]. unfold Config.STARTING_MONEY. lra.
Qed.


(** * Money *)

(** X11: money only comes from harvests and only goes to the shop.  In a
    game whose garden is within its ranges and whose money is not
    negative, an event that is no harvest never raises the money, an
    event that is no purchase never lowers it, and no event leaves the
    money negative: a purchase that the player cannot afford is not
    made. *)
Theorem money_flows_through_harvest_and_shop
    (game : Main.Game) (ev : Event) :
  Garden_ok (Main.squareState game) ->
  0 <= Main.playerMoney game ->
  let game' := perform game ev in
  (harvests ev = false -> Main.playerMoney game' <= Main.playerMoney game)
  /\ (buys ev = false -> Main.playerMoney game <= Main.playerMoney game')
  /\ 0 <= Main.playerMoney game'.
Proof.
  intros Hg Hm game'. subst game'.
  destruct (perform_ok game ev Hg Hm) as (_ & H1 & H2 & H3).
  split; [exact H2|]. split; [exact H3|exact H1].
Qed.

Lemma money_flows_through_harvest_and_shop_witness :
  let game := Main.mkGame singleGrid 150 Main.initializeHarvestData in
  let ev := Click "shop" "Corn" false (7, 7)%Z in
  let game' := perform game ev in
  (harvests ev = false -> Main.playerMoney game' <= Main.playerMoney game)
  /\ (buys ev = false -> Main.playerMoney game <= Main.playerMoney game')
  /\ 0 <= Main.playerMoney game'.
Proof.
  apply (money_flows_through_harvest_and_shop
           (Main.mkGame singleGrid 150 Main.initializeHarvestData)
           (Click "shop" "Corn" false (7, 7)%Z)).
  - cbn [Main.squareState]. unfold singleGrid.
    apply Garden_ok_insert; [|apply Square_new_ok; lia].
    intros k s E. rewrite lookup_empty in E. discriminate.
  - cbn [Main.playerMoney]. lra.
Defined.

(** * The bee *)

Lemma neighbour_is_one_step (x y : Z) (n : Key) :
  In n (Utils.getNeighbors x y true 1) ->
  inGrid n /\ (Z.abs (fst n - x) + Z.abs (snd n - y) = 1)%Z.
Proof.
  intros H. apply getNeighbors_In in H as (Hg & Hne & Hd); [|lia].
  split; [exact Hg|]. destruct n as [nx ny]. cbn [fst snd] in *.
  assert ((nx - x)%Z <> 0%Z \/ (ny - y)%Z <> 0%Z) as Hnz.
  { destruct (Z.eq_dec (nx - x)%Z 0%Z) as [Ex|]; [|left; assumption].
    right. intros Ey. apply Hne. f_equal; lia. }
  pose proof (square_bound (nx - x) (ny - y) 1 ltac:(lia) Hd) as Hb.
  pose proof (square_bound (ny - y) (nx - x) 1 ltac:(lia) ltac:(lia)) as Ha.
  revert Hd Hnz Ha Hb. generalize (nx - x)%Z (ny - y)%Z. intros a b Hd Hnz Ha Hb.
  assert (a = (-1)%Z \/ a = 0%Z \/ a = 1%Z) as Ea by lia.
  assert (b = (-1)%Z \/ b = 0%Z \/ b = 1%Z) as Eb by lia.
  destruct Ea as [-> | [-> | ->]]; destruct Eb as [-> | [-> | ->]];
    cbn in Hd |- *; lia.
Qed.

(** X13: the bee walks the grid one orthogonal step at a time.  From a
    position on the grid, [updateBee] leaves the bee where it is or moves
    it to a square of the grid at distance exactly one in a row or a
    column, never diagonally, whatever the draws, the squares and the
    preference test. *)
Theorem bee_moves_one_step_on_the_grid
    (preferred : Key -> bool) (g : Square.Grid) (beePosition : Key)
    (r : Rand.t) :
  inGrid beePosition ->
  let next := fst (Main.updateBee preferred g beePosition r) in
  inGrid next
  /\ (next = beePosition
      \/ (Z.abs (fst next - fst beePosition)
          + Z.abs (snd next - snd beePosition) = 1)%Z).
Proof.
  intros Hb next. subst next. unfold Main.updateBee.
  destruct (size g =? 0)%nat; [cbn [fst]; split; [exact Hb|left; reflexivity]|].
  destruct beePosition as [x y].
  set (neighbors := Utils.getNeighbors x y true 1).
  assert (forall (o : option Key) (r0 : Rand.t),
            (forall n, o = Some n -> In n neighbors) ->
            let next := fst (match o with
                             | Some nk => (nk, r0)
                             | None => ((x, y), r0)
                             end) in
            inGrid next
            /\ (next = (x, y)
                \/ (Z.abs (fst next - fst (x, y))
                    + Z.abs (snd next - snd (x, y)) = 1)%Z)) as Hstep.
  { intros o r0 Ho. destruct o as [n|]; cbn [fst]; [|split; [exact Hb|left; reflexivity]].
    destruct (neighbour_is_one_step x y n (Ho n eq_refl)) as [H1 H2].
    split; [exact H1|right; exact H2]. }
  assert (forall r0 : Rand.t,
            forall n, fst (if (0 <? Z.of_nat (length neighbors))%Z
                           then let '(u, r1) := Rand.next r0 in
                                (Square.pick u neighbors, r1)
                           else (None, r0)) = Some n -> In n neighbors) as Hany.
  { intros r0 n. destruct (0 <? _)%Z; [|discriminate].
    destruct (Rand.next r0) as [u r1]. cbn [fst]. apply pick_In. }
  match goal with
  | |- inGrid (fst (let '(nextKey, rest) := ?c in _)) /\ _ =>
      assert (forall n, fst c = Some n -> In n neighbors) as Hc;
        [|destruct c as [o rr]; cbn [fst] in Hc; apply Hstep, Hc]
  end.
  destruct (0 <? Z.of_nat (length (List.filter preferred neighbors)))%Z;
    [|apply Hany].
  destruct (Rand.next r) as [u r1]. destruct (JS.lt u 0.7); [|apply Hany].
  destruct (Rand.next r1) as [u' r2]. cbn [fst]. intros n Hn.
  apply pick_In, filter_In in Hn. tauto.
Qed.

Lemma bee_moves_one_step_on_the_grid_witness :
  let next := fst (Main.updateBee (fun _ => false) singleGrid (3, 4)%Z zeroDraws) in
  inGrid next
  /\ (next = (3, 4)%Z
      \/ (Z.abs (fst next - fst (3, 4)%Z)
          + Z.abs (snd next - snd (3, 4)%Z) = 1)%Z).
Proof.
  apply (bee_moves_one_step_on_the_grid (fun _ => false) singleGrid (3, 4)%Z
                                        zeroDraws).
  unfold inGrid, Config.GRID_COLS, Config.GRID_ROWS. cbn [fst snd]. lia.
Defined.

(** * Dead plants *)

Lemma onSoil_plant (f : Soil.t -> Soil.t) (k n : Key) (g : Square.Grid) :
  Square.plant <$> (Square.onSoil f k g !! n) = Square.plant <$> (g !! n).
Proof.
  unfold Square.onSoil. rewrite lookup_alter. case_decide; [|reflexivity].
  subst n. destruct (g !! k) as [s|]; [|reflexivity]. destruct s; reflexivity.
Qed.

Lemma fold_onSoil_plant (f : Key -> Soil.t -> Soil.t) (l : list Key) (n : Key)
    (g : Square.Grid) :
  Square.plant <$> (fold_left (fun g nKey => Square.onSoil (f nKey) nKey g) l g !! n)
  = Square.plant <$> (g !! n).
Proof.
  revert g. induction l as [|a l IH]; intros g; [reflexivity|].
  cbn [fold_left]. rewrite IH. apply onSoil_plant.
Qed.

Lemma marigoldSuppress_plant (g : Square.Grid) (r : Rand.t) (nKey n : Key) :
  Square.plant <$> (fst (Square.marigoldSuppress (g, r) nKey) !! n)
  = Square.plant <$> (g !! n).
Proof.
  unfold Square.marigoldSuppress.
  destruct (g !! nKey) as [s|] eqn:E; [|reflexivity].
  destruct (Pests.is_type _ _); [|reflexivity].
  destruct (Rand.next r) as [u r']. destruct (JS.lt u 0.1); [|reflexivity].
  cbn [fst]. rewrite lookup_insert. case_decide; [|reflexivity].
  subst n. rewrite E. destruct s; reflexivity.
Qed.

Lemma fold_marigold_plant (l : list Key) (g : Square.Grid) (r : Rand.t) (n : Key) :
  Square.plant <$> (fst (fold_left Square.marigoldSuppress l (g, r)) !! n)
  = Square.plant <$> (g !! n).
Proof.
  revert g r. induction l as [|a l IH]; intros g r; [reflexivity|].
  cbn [fold_left]. pose proof (marigoldSuppress_plant g r a n) as H.
  destruct (Square.marigoldSuppress (g, r) a) as [g1 r1]. cbn [fst] in H.
  rewrite IH. exact H.
Qed.

Lemma neighborEffects_plant (k : Key) (p : Plant.t) (g : Square.Grid)
    (r : Rand.t) (n : Key) :
  Square.plant <$> (fst (Square.neighborEffects k p g r) !! n)
  = Square.plant <$> (g !! n).
Proof.
  unfold Square.neighborEffects.
  match goal with |- context [fold_left Square.marigoldSuppress _ (?g1, r)] =>
    assert (Square.plant <$> (g1 !! n) = Square.plant <$> (g !! n)) as H1 end.
  { destruct (_ || _); [|reflexivity].
    apply (fold_onSoil_plant (fun _ => Square.beanDonation _ _)). }
  destruct (Config.suppressesNematodes _ && _); [|exact H1].
  rewrite fold_marigold_plant. exact H1.
Qed.

Lemma updatePlant_alive e lf k gs s p :
  Square.plant (snd (Square.updatePlant e lf k gs s)) = Some p ->
  0 < Plant.size p /\ 0 < Plant.rootHealth p
  /\ ~ (Plant.growthStage p = 4%Z /\ Plant.size p < 0.01).
Proof.
  unfold Square.updatePlant.
  destruct (Square.plant s) as [p0|] eqn:Ep.
  2:{ cbn [snd]. destruct s; square_fields. rewrite Ep. discriminate. }
  destruct (Plant.update _ _ _ p0) as [[res p'] soil'].
  set (p2 := if _ || _ then Plant.set_wasPollinated true p' else p').
  clearbody p2.
  destruct (JS.le (Plant.size p2 |? 0) 0) eqn:E1;
    [cbn [orb snd]; destruct s; discriminate|].
  destruct (JS.le (Plant.rootHealth p2 |? 0) 0) eqn:E2;
    [cbn [orb snd]; destruct s; discriminate|].
  cbn [orb].
  destruct ((Plant.growthStage p2 =? 4)%Z && JS.lt (Plant.size p2 |? 0) 0.01) eqn:E3;
    [cbn [snd]; destruct s; discriminate|].
  cbn [snd]. intros E. assert (p2 = p) as <- by (destruct s; square_fields; congruence).
  pose proof (or_default_zero (Plant.size p2)) as Es.
  pose proof (or_default_zero (Plant.rootHealth p2)) as Er.
  unfold JS.le in E1, E2. apply Qle_bool_false in E1, E2.
  split; [lra|]. split; [lra|]. intros [E4 Hlt].
  apply andb_false_iff in E3 as [E3 | E3].
  - apply Z.eqb_neq in E3. contradiction.
  - unfold JS.lt in E3. apply negb_false_iff, Qle_bool_iff in E3. lra.
Qed.

(** X14: no dead plant stays on its square.  After [updateEntities] on a
    square of the grid, a plant that is still on that square has a
    positive size and a positive root health, and is not a senescent
    plant smaller than 0.01. *)
Theorem dead_plants_are_cleared
    (e lf : Q) (k : Key) (gs : GlobalState) (g : Square.Grid) (r : Rand.t)
    (s : Square.t) :
  g !! k = Some s ->
  exists g' r',
    Square.updateEntities e lf k gs g r = Some (g', r')
    /\ forall s' p,
         g' !! k = Some s' -> Square.plant s' = Some p ->
         0 < Plant.size p /\ 0 < Plant.rootHealth p
         /\ ~ (Plant.growthStage p = 4%Z /\ Plant.size p < 0.01).
Proof.
  intros E. unfold Square.updateEntities. rewrite E.
  match goal with |- context [let '(w0, s0) := ?c in _] => destruct c as [w s1] end.
  pose proof (updatePlant_alive e lf k gs s1) as Ha.
  destruct (Square.updatePlant e lf k gs s1) as [o2 s2]. cbn [snd] in Ha.
  match goal with |- context [let '(g0, r0) := ?c in _] =>
    assert (Square.plant <$> (fst c !! k) = Some (Square.plant s2)) as Hp;
      [|destruct c as [g3 r3]] end.
  { destruct (Square.plant s2) as [p|] eqn:Ep.
    - rewrite neighborEffects_plant, lookup_insert_eq. cbn. rewrite Ep. reflexivity.
    - cbn [fst]. rewrite lookup_insert_eq. cbn. rewrite Ep. reflexivity. }
  cbn [fst] in Hp. eexists _, _. split; [reflexivity|].
  intros s' p Es' Ep.
  pose proof (onSoil_plant (Soil.updateOxygen o2) k k g3) as Ho.
  rewrite Es', Hp in Ho. cbn in Ho. injection Ho as Ho.
  apply Ha. congruence.
Qed.

Lemma dead_plants_are_cleared_witness :
  let g : Square.Grid :=
    <[(7, 7)%Z := Square.set_plant (Some (Plant.set_size 0 (Plant.new "Corn")))
                    freshSquare]> ∅ in
  exists g' r',
    Square.updateEntities 72 0.5 (7, 7)%Z eastWind g zeroDraws = Some (g', r')
    /\ forall s' p,
         g' !! (7, 7)%Z = Some s' -> Square.plant s' = Some p ->
         0 < Plant.size p /\ 0 < Plant.rootHealth p
         /\ ~ (Plant.growthStage p = 4%Z /\ Plant.size p < 0.01).
Proof.
  apply (dead_plants_are_cleared 72 0.5 (7, 7)%Z eastWind
           (<[(7, 7)%Z := Square.set_plant (Some (Plant.set_size 0 (Plant.new "Corn")))
                            freshSquare]> ∅)
           zeroDraws
           (Square.set_plant (Some (Plant.set_size 0 (Plant.new "Corn"))) freshSquare)).
  reflexivity.
Defined.


(** * Placing a connected structure *)

Lemma neighbors1_step (k n : Key) :
  In n (Square.neighbors1 k) -> exists d, n = step k d.
Proof.
  destruct k as [x y]. unfold Square.neighbors1. intros H.
  apply neighbour_is_one_step in H as [_ H]. destruct n as [nx ny].
  cbn [fst snd] in H.
  assert ((nx = x /\ ny = y - 1) \/ (nx = x /\ ny = y + 1)
          \/ (nx = x - 1 /\ ny = y) \/ (nx = x + 1 /\ ny = y))%Z
    as [[-> ->] | [[-> ->] | [[-> ->] | [-> ->]]]] by lia.
  - exists Top. reflexivity.
  - exists Bottom. reflexivity.
  - exists Left. reflexivity.
  - exists Right. reflexivity.
Qed.

Lemma connectNeighbor_step (k : Key) (d : Dir) (c : Structure.Connections)
    (g : Square.Grid) (ns : Square.t) (nst : Structure.t) :
  g !! step k d = Some ns ->
  Square.structure ns = Some nst ->
  Square.connectNeighbor k (c, g) (step k d)
  = (set_flag d true c,
     <[step k d :=
         Square.set_structure
           (Some (set_connections
                    (set_flag (opposite d) true (Structure.connections nst)) nst))
           ns]> g).
Proof.
  intros E En. unfold Square.connectNeighbor. destruct k as [x y].
  destruct d; cbn [step] in *; rewrite E, En; cbn [opposite].
  - assert ((y - 1 <? y)%Z = true) as -> by (apply Z.ltb_lt; lia).
    rewrite Z.ltb_irrefl. reflexivity.
  - rewrite !Z.ltb_irrefl.
    assert ((x + 1 <? x)%Z = false) as -> by (apply Z.ltb_ge; lia).
    assert ((x <? x + 1)%Z = true) as -> by (apply Z.ltb_lt; lia).
    reflexivity.
  - assert ((y + 1 <? y)%Z = false) as -> by (apply Z.ltb_ge; lia).
    assert ((y <? y + 1)%Z = true) as -> by (apply Z.ltb_lt; lia).
    rewrite Z.ltb_irrefl. reflexivity.
  - rewrite !Z.ltb_irrefl.
    assert ((x - 1 <? x)%Z = true) as -> by (apply Z.ltb_lt; lia).
    reflexivity.
Qed.

Lemma flag_set_flag_true d d' c :
  flag d' c = true -> flag d' (set_flag d true c) = true.
Proof. destruct d, d', c; cbn; auto. Qed.

Lemma flag_set_flag_cases d d' c :
  flag d' (set_flag d true c) = true -> d' = d \/ flag d' c = true.
Proof. destruct d, d', c; cbn; auto. Qed.

Lemma step_back k m d : step m d = k -> m = step k (opposite d).
Proof. intros <-. symmetry. apply step_opposite. Qed.

Lemma Connecting_init (T : string) (k : Key) (g : Square.Grid) (s : Square.t) :
  Mirrored g -> g !! k = Some s -> Square.structure s = None ->
  Connecting T k Structure.noConnections g.
Proof.
  intros HM Ek Es. split; [|split].
  - intros m d sm stm _ Em Est Hf. right. exact (HM m d sm stm Em Est Hf).
  - intros d Hf. destruct d; discriminate.
  - exists s. split; assumption.
Qed.

Lemma Connecting_step (T : string) (k : Key) (d0 : Dir)
    (c : Structure.Connections) (g : Square.Grid) (ns : Square.t)
    (nst : Structure.t) :
  Connecting T k c g ->
  g !! step k d0 = Some ns ->
  Square.structure ns = Some nst ->
  Structure.type nst = T ->
  Connecting T k (set_flag d0 true c)
    (<[step k d0 :=
         Square.set_structure
           (Some (set_connections
                    (set_flag (opposite d0) true (Structure.connections nst)) nst))
           ns]> g).
Proof.
  intros (Ha & Hb & Hc) En Enst Ety.
  set (n := step k d0) in *.
  set (ns' := Square.set_structure _ ns).
  assert (Square.structure ns'
          = Some (set_connections
                    (set_flag (opposite d0) true (Structure.connections nst)) nst))
    as Ens' by (destruct ns; reflexivity).
  assert (n <> k) as Hnk by apply step_ne.
  (* what the neighbour of a square looks like after the step *)
  assert (forall (m : Key) (d : Dir) (x : Square.t) (stx : Structure.t) (ty : string),
            g !! step m d = Some x -> Square.structure x = Some stx ->
            Structure.type stx = ty ->
            flag (opposite d) (Structure.connections stx) = true ->
            exists x' stx',
              <[n := ns']> g !! step m d = Some x'
              /\ Square.structure x' = Some stx'
              /\ Structure.type stx' = ty
              /\ flag (opposite d) (Structure.connections stx') = true) as Hkeep.
  { intros m d x stx ty Ex Estx Ety' Hfl.
    destruct (decide (step m d = n)) as [E | E].
    - rewrite E in *. rewrite lookup_insert_eq.
      rewrite En in Ex. injection Ex as <-. rewrite Enst in Estx. injection Estx as <-.
      eexists _, _. split; [reflexivity|]. split; [exact Ens'|].
      split; [exact Ety'|]. cbn [set_connections Structure.connections].
      apply flag_set_flag_true, Hfl.
    - rewrite lookup_insert_ne by congruence.
      exists x, stx. repeat split; assumption. }
  split; [|split].
  - intros m d sm stm Hmk Em Estm Hf.
    destruct (decide (m = n)) as [-> | Hmn].
    + rewrite lookup_insert_eq in Em. injection Em as <-.
      rewrite Ens' in Estm. injection Estm as <-.
      cbn [set_connections Structure.connections Structure.type] in *.
      apply flag_set_flag_cases in Hf as [-> | Hf].
      * left. split; [apply step_opposite|]. split; [|exact Ety].
        rewrite opposite_involutive. apply flag_set_flag_same.
      * destruct (Ha n d ns nst Hnk En Enst Hf)
          as [(E1 & E2 & E3) | (x & stx & Ex & Estx & Etx & Hfx)].
        -- left. split; [exact E1|]. split; [|exact E3].
           apply flag_set_flag_true, E2.
        -- right. exact (Hkeep n d x stx _ Ex Estx Etx Hfx).
    + rewrite lookup_insert_ne in Em by congruence.
      destruct (Ha m d sm stm Hmk Em Estm Hf)
        as [(E1 & E2 & E3) | (x & stx & Ex & Estx & Etx & Hfx)].
      * left. split; [exact E1|]. split; [|exact E3].
        apply flag_set_flag_true, E2.
      * right. exact (Hkeep m d x stx _ Ex Estx Etx Hfx).
  - intros d Hf. apply flag_set_flag_cases in Hf as [-> | Hf].
    + fold n. rewrite lookup_insert_eq. eexists _, _.
      split; [reflexivity|]. split; [exact Ens'|]. split; [exact Ety|].
      cbn [set_connections Structure.connections]. apply flag_set_flag_same.
    + destruct (Hb d Hf) as (x & stx & Ex & Estx & Etx & Hfx).
      exact (Hkeep k d x stx T Ex Estx Etx Hfx).
  - destruct Hc as (s & Es & Hs). exists s.
    rewrite lookup_insert_ne by congruence. split; assumption.
Qed.

Lemma Connecting_fold (T : string) (k : Key) (l : list Key)
    (c : Structure.Connections) (g : Square.Grid) :
  Connecting T k c g ->
  (forall n, In n l ->
     (exists d, n = step k d)
     /\ exists ns nst, g !! n = Some ns /\ Square.structure ns = Some nst
                       /\ Structure.type nst = T) ->
  Connecting T k (fst (fold_left (Square.connectNeighbor k) l (c, g)))
                 (snd (fold_left (Square.connectNeighbor k) l (c, g))).
Proof.
  revert c g. induction l as [|n l IH]; intros c g HC Hl; [exact HC|].
  cbn [fold_left].
  destruct (Hl n (or_introl eq_refl)) as [[d0 ->] (ns & nst & En & Enst & Ety)].
  rewrite (connectNeighbor_step k d0 c g ns nst En Enst).
  apply IH; [apply Connecting_step; assumption|].
  intros m Hm. destruct (Hl m (or_intror Hm)) as [Hd (ms & mst & Em & Emst & Emty)].
  split; [exact Hd|].
  destruct (decide (m = step k d0)) as [-> | Hne].
  - rewrite lookup_insert_eq. eexists _, _. split; [reflexivity|].
    split; [destruct ns; reflexivity|exact Ety].
  - rewrite lookup_insert_ne by congruence. exists ms, mst. repeat split; assumption.
Qed.

Lemma Connecting_final (T : string) (k : Key) (c : Structure.Connections)
    (g : Square.Grid) (s' : Square.t) (st' : Structure.t) :
  Connecting T k c g ->
  Square.structure s' = Some st' ->
  Structure.type st' = T ->
  Structure.connections st' = c ->
  Mirrored (<[k := s']> g).
Proof.
  intros (Ha & Hb & (s & Es & Hs)) Est' Ety Ec m d sm stm Em Estm Hf.
  destruct (decide (m = k)) as [-> | Hmk].
  - rewrite lookup_insert_eq in Em. injection Em as <-.
    rewrite Est' in Estm. injection Estm as <-. rewrite Ec in Hf.
    destruct (Hb d Hf) as (x & stx & Ex & Estx & Etx & Hfx).
    rewrite lookup_insert_ne by (intros E; symmetry in E; exact (step_ne k d E)).
    exists x, stx. repeat split; try assumption. congruence.
  - rewrite lookup_insert_ne in Em by congruence.
    destruct (Ha m d sm stm Hmk Em Estm Hf)
      as [(E1 & E2 & E3) | (x & stx & Ex & Estx & Etx & Hfx)].
    + rewrite E1, lookup_insert_eq. exists s', st'.
      split; [reflexivity|]. split; [exact Est'|]. split; [congruence|].
      rewrite Ec. exact E2.
    + destruct (decide (step m d = k)) as [E | E].
      * rewrite E, Es in Ex. injection Ex as <-. congruence.
      * rewrite lookup_insert_ne by congruence.
        exists x, stx. repeat split; assumption.
Qed.

(** X15: placing a structure keeps the connections mirrored.  On a grid
    where every set connection flag is mirrored by the neighbour it points
    to, the grid after [tryAddingStructure] has the same property, for
    every structure type and every answer of the dialog, whether or not
    the placement succeeds. *)
Theorem placing_keeps_connections_mirrored
    (structureType : string) (userConfirmed : bool) (k : Key)
    (g : Square.Grid) (s : Square.t) :
  Mirrored g ->
  g !! k = Some s ->
  exists b g',
    Square.tryAddingStructure structureType userConfirmed k g = Some (b, g')
    /\ Mirrored g'.
Proof.
  intros HM E. unfold Square.tryAddingStructure. rewrite E.
  destruct (negb _); [eexists _, _; split; [reflexivity|exact HM]|].
  destruct (isSome (Square.plant s) || isSome (Square.structure s)) eqn:Eo;
    [eexists _, _; split; [reflexivity|exact HM]|].
  apply orb_false_iff in Eo as [_ Est].
  assert (Square.structure s = None) as Hs
    by (destruct (Square.structure s); [discriminate|reflexivity]).
  pose proof (Connecting_init structureType k g s HM E Hs) as HC.
  assert (Structure.type (Structure.new structureType) = structureType) as Ety
    by reflexivity.
  assert (Mirrored (<[k := Square.updateDisplayText
                             (Square.set_structure
                                (Some (Structure.new structureType)) s)]> g)) as Hplain.
  { apply (Connecting_final structureType k Structure.noConnections g _
             (Structure.new structureType) HC);
      [destruct s; reflexivity|reflexivity|reflexivity]. }
  destruct (_ || _); [|eexists _, _; split; [reflexivity|exact Hplain]].
  destruct (0 <? _)%Z; [|eexists _, _; split; [reflexivity|exact Hplain]].
  destruct userConfirmed; [|eexists _, _; split; [reflexivity|exact Hplain]].
  match goal with |- context [fold_left (Square.connectNeighbor k) ?l (?c, g)] =>
    pose proof (Connecting_fold structureType k l c g HC) as Hf;
    destruct (fold_left (Square.connectNeighbor k) l (c, g)) as [c1 g1] end.
  cbn [fst snd] in Hf. eexists _, _. split; [reflexivity|].
  apply (Connecting_final structureType k c1 g1 _
           (set_connections c1 (Structure.new structureType)));
    [|destruct s; reflexivity|reflexivity|reflexivity].
  apply Hf. intros n Hn. apply filter_In in Hn as [Hn Hty].
  split; [apply neighbors1_step, Hn|].
  destruct (g !! n) as [ns|] eqn:En; [|discriminate].
  destruct (Square.structure ns) as [nst|] eqn:Enst; [|discriminate].
  exists ns, nst. split; [reflexivity|]. split; [exact Enst|apply String.eqb_eq, Hty].
Qed.

Lemma placing_keeps_connections_mirrored_witness :
  let g : Square.Grid :=
    default ∅ (snd <$> Square.tryAddingStructure "Trellis" true (0, 0)%Z
                 (<[(1, 0)%Z := freshSquare]> (<[(0, 0)%Z := freshSquare]> ∅))) in
  exists b g',
    Square.tryAddingStructure "Trellis" true (1, 0)%Z g = Some (b, g')
    /\ Mirrored g'.
Proof.
  apply (placing_keeps_connections_mirrored "Trellis" true (1, 0)%Z
           (default ∅ (snd <$> Square.tryAddingStructure "Trellis" true (0, 0)%Z
                         (<[(1, 0)%Z := freshSquare]> (<[(0, 0)%Z := freshSquare]> ∅))))
           freshSquare).
  - intros m d sm stm Em Estm Hf. exfalso.
    change (default ∅ (snd <$> Square.tryAddingStructure "Trellis" true (0, 0)%Z
                         (<[(1, 0)%Z := freshSquare]> (<[(0, 0)%Z := freshSquare]> ∅))))
      with (<[(0, 0)%Z := Square.updateDisplayText
                            (Square.set_structure (Some (Structure.new "Trellis"))
                                                  freshSquare)]>
              (<[(1, 0)%Z := freshSquare]> (<[(0, 0)%Z := freshSquare]> ∅)
                 : Square.Grid)) in Em.
    apply lookup_insert_Some in Em as [[_ <-] | [_ Em]].
    { injection Estm as <-. destruct d; discriminate. }
    apply lookup_insert_Some in Em as [[_ <-] | [_ Em]]; [discriminate|].
    apply lookup_insert_Some in Em as [[_ <-] | [_ Em]]; [discriminate|].
    rewrite lookup_empty in Em. discriminate.
  - reflexivity.
Defined.


(** * The squares and the weeds across the events of a game *)

Section Relations.
Variable R : Square.t -> Square.t -> Prop.
Hypothesis R_refl : forall s, R s s.
Hypothesis R_trans : forall a b c, R a b -> R b c -> R a c.

Lemma Grid_rel_refl (g : Square.Grid) : Grid_rel R g g.
Proof. intros n. destruct (g !! n); [apply R_refl|trivial]. Qed.

Lemma Grid_rel_trans (g1 g2 g3 : Square.Grid) :
  Grid_rel R g1 g2 -> Grid_rel R g2 g3 -> Grid_rel R g1 g3.
Proof.
  intros H1 H2 n. specialize (H1 n). specialize (H2 n).
  destruct (g1 !! n), (g2 !! n), (g3 !! n); try tauto. eapply R_trans; eassumption.
Qed.

(** A square put back on its key after other squares were updated. *)
Lemma Grid_rel_insert (g g1 : Square.Grid) (k : Key) (s s' : Square.t) :
  Grid_rel R g g1 -> g !! k = Some s -> R s s' ->
  Grid_rel R g (<[k := s']> g1).
Proof.
  intros H E Hs n. destruct (decide (n = k)) as [-> | Hne].
  - rewrite E, lookup_insert_eq. exact Hs.
  - rewrite lookup_insert_ne by congruence. apply H.
Qed.

Lemma Grid_rel_insert_here (g : Square.Grid) (k : Key) (s s' : Square.t) :
  g !! k = Some s -> R s s' -> Grid_rel R g (<[k := s']> g).
Proof. intros E Hs. apply (Grid_rel_insert g g k s s'); [apply Grid_rel_refl|..]; assumption. Qed.

Lemma Grid_rel_alter (f : Square.t -> Square.t) (g : Square.Grid) (k : Key) :
  (forall s, R s (f s)) -> Grid_rel R g (alter f k g).
Proof.
  intros Hf n. rewrite lookup_alter. case_decide.
  - subst n. destruct (g !! k); cbn; [apply Hf|trivial].
  - destruct (g !! n); [apply R_refl|trivial].
Qed.

Lemma Grid_rel_fmap (f : Square.t -> Square.t) (g : Square.Grid) :
  (forall s, R s (f s)) -> Grid_rel R g (f <$> g).
Proof.
  intros Hf n. rewrite lookup_fmap. destruct (g !! n); cbn; [apply Hf|trivial].
Qed.

Lemma Grid_rel_fold {A} (f : Square.Grid -> A -> Square.Grid) (l : list A)
    (g : Square.Grid) :
  (forall g a, Grid_rel R g (f g a)) -> Grid_rel R g (fold_left f l g).
Proof.
  intros Hf. revert g. induction l as [|a l IH]; intros g; [apply Grid_rel_refl|].
  cbn [fold_left]. eapply Grid_rel_trans; [apply Hf|apply IH].
Qed.

End Relations.

Lemma Grid_rel_weaken (R R' : Square.t -> Square.t -> Prop) (g g' : Square.Grid) :
  (forall s s', R s s' -> R' s s') -> Grid_rel R g g' -> Grid_rel R' g g'.
Proof.
  intros HR H n. specialize (H n). destruct (g !! n), (g' !! n); try tauto.
  apply HR, H.
Qed.

Lemma Grid_rel_squares (R : Square.t -> Square.t -> Prop) (g g' : Square.Grid)
    (n : Key) :
  Grid_rel R g g' -> (is_Some (g' !! n) <-> is_Some (g !! n)).
Proof.
  intros H. specialize (H n).
  destruct (g !! n), (g' !! n); try tauto; split; intros [? ?];
    try discriminate; eexists; reflexivity.
Qed.

Lemma weedsKept_refl s : weedsKept s s.
Proof. left. reflexivity. Qed.

Lemma weedsKept_trans a b c : weedsKept a b -> weedsKept b c -> weedsKept a c.
Proof. unfold weedsKept. intros [H1 | H1] [H2 | H2]; try (right; congruence). left; congruence. Qed.

Lemma weedsKept_same (s s' : Square.t) :
  Square.weeds s' = Square.weeds s -> weedsKept s s'.
Proof. intros H. left. exact H. Qed.

Lemma NoWeeds_kept (g g' : Square.Grid) :
  Grid_rel weedsKept g g' -> NoWeeds g -> NoWeeds g'.
Proof.
  intros H Hg n s' E. specialize (H n). rewrite E in H.
  destruct (g !! n) as [s|] eqn:E0; [|destruct H].
  specialize (Hg n s E0). cbn in Hg. destruct H as [H | H]; congruence.
Qed.

#[local] Hint Resolve weedsKept_refl weedsKept_trans : kept.

Lemma Kept_refl (g : Square.Grid) : Kept g g.
Proof. apply Grid_rel_refl, weedsKept_refl. Qed.

Lemma Kept_trans (g1 g2 g3 : Square.Grid) : Kept g1 g2 -> Kept g2 g3 -> Kept g1 g3.
Proof. apply Grid_rel_trans, weedsKept_trans. Qed.

Lemma Kept_onSoil (f : Soil.t -> Soil.t) (k : Key) (g : Square.Grid) :
  Kept g (Square.onSoil f k g).
Proof.
  unfold Square.onSoil. apply Grid_rel_alter; [apply weedsKept_refl|].
  intros s. kept_same.
Qed.

Lemma Kept_fold_onSoil (f : Key -> Soil.t -> Soil.t) (l : list Key)
    (g : Square.Grid) :
  Kept g (fold_left (fun g nKey => Square.onSoil (f nKey) nKey g) l g).
Proof.
  apply Grid_rel_fold; [apply weedsKept_refl|apply weedsKept_trans|].
  intros g0 a. apply Kept_onSoil.
Qed.

(** ** The steps of a tick other than the weeds *)

Lemma updateEnvironment_kept (a hu w : Q) (k : Key) (g : Square.Grid) (ev : Q)
    (g' : Square.Grid) :
  Square.updateEnvironment a hu w k g = Some (ev, g') -> Kept g g'.
Proof.
  unfold Square.updateEnvironment.
  destruct (g !! k) as [s|] eqn:E; [|discriminate].
  assert (weedsKept s (snd (Square.updateEnvironment_at a hu w
                              (Square.squashModifier k g) s))) as H.
  { unfold Square.updateEnvironment_at.
    destruct (Soil.applyEvaporation _ _ _ _ _) as [ev' s1]. cbn [snd]. kept_same. }
  destruct (Square.updateEnvironment_at _ _ _ _ s) as [ev' s']. cbn [snd] in H.
  intros E0; simplify_eq.
  apply Grid_rel_insert_here with (s := s); auto with kept.
Qed.

Lemma distributeOllaWater_kept (k : Key) (w : Q) (g : Square.Grid) :
  Kept g (Square.distributeOllaWater k w g).
Proof.
  unfold Square.distributeOllaWater. destruct (JS.gt w 0); [|apply Kept_refl].
  apply Grid_rel_fold; [apply weedsKept_refl|apply weedsKept_trans|].
  intros g0 d. apply Kept_onSoil.
Qed.

Lemma updatePlant_weeds e lf k gs s :
  Square.weeds (snd (Square.updatePlant e lf k gs s)) = Square.weeds s.
Proof.
  unfold Square.updatePlant.
  destruct (Square.plant s) as [p|]; [|destruct s; reflexivity].
  destruct (Plant.update _ _ _ p) as [[res p'] soil'].
  match goal with |- context [if ?c then Square.set_statusText _ _ else _] =>
    destruct c end; destruct s; reflexivity.
Qed.

Lemma marigoldSuppress_kept (g : Square.Grid) (r : Rand.t) (n : Key) :
  Kept g (fst (Square.marigoldSuppress (g, r) n)).
Proof.
  unfold Square.marigoldSuppress.
  destruct (g !! n) as [s|] eqn:E; [|apply Kept_refl].
  destruct (Pests.is_type _ _); [|apply Kept_refl].
  destruct (Rand.next r) as [u r']. destruct (JS.lt u 0.1); [|apply Kept_refl].
  cbn [fst]. apply Grid_rel_insert_here with (s := s); auto with kept. kept_same.
Qed.

Lemma fold_marigold_kept (l : list Key) (g : Square.Grid) (r : Rand.t) :
  Kept g (fst (fold_left Square.marigoldSuppress l (g, r))).
Proof.
  revert g r. induction l as [|n l IH]; intros g r; [apply Kept_refl|].
  cbn [fold_left]. pose proof (marigoldSuppress_kept g r n) as H.
  destruct (Square.marigoldSuppress (g, r) n) as [g1 r1]. cbn [fst] in H.
  eapply Kept_trans; [exact H|apply IH].
Qed.

Lemma neighborEffects_kept (k : Key) (p : Plant.t) (g : Square.Grid) (r : Rand.t) :
  Kept g (fst (Square.neighborEffects k p g r)).
Proof.
  unfold Square.neighborEffects.
  match goal with |- context [fold_left Square.marigoldSuppress _ (?g1, r)] =>
    assert (Kept g g1) as H1 end.
  { destruct (_ || _); [|apply Kept_refl].
    apply (Kept_fold_onSoil (fun _ => Square.beanDonation _ _)). }
  destruct (Config.suppressesNematodes _ && _); [|exact H1].
  eapply Kept_trans; [exact H1|apply fold_marigold_kept].
Qed.

Lemma updateEntities_kept (e lf : Q) (k : Key) (gs : GlobalState)
    (g : Square.Grid) (r : Rand.t) (g' : Square.Grid) (r' : Rand.t) :
  Square.updateEntities e lf k gs g r = Some (g', r') -> Kept g g'.
Proof.
  unfold Square.updateEntities.
  destruct (g !! k) as [s|] eqn:E; [|discriminate].
  set (c := match Square.structure s with
            | Some st => let '(w, st') := Structure.update st in
                         (w, Square.set_structure (Some st') s)
            | None => (0, s) end).
  assert (Square.weeds (snd c) = Square.weeds s) as Hs1.
  { subst c. destruct (Square.structure s) as [st|]; [|reflexivity].
    destruct (Structure.update st) as [w st']. destruct s; reflexivity. }
  destruct c as [w s1]. cbn [snd] in Hs1.
  pose proof (updatePlant_weeds e lf k gs s1) as Hs2.
  destruct (Square.updatePlant e lf k gs s1) as [o2 s2]. cbn [snd] in Hs2.
  assert (Kept g (<[k:=s2]> (Square.distributeOllaWater k w (<[k:=s1]> g)))) as Hi.
  { apply Grid_rel_insert with (s := s); [|exact E|left; congruence].
    eapply Kept_trans; [|apply distributeOllaWater_kept].
    apply Grid_rel_insert_here with (s := s); auto with kept. left; congruence. }
  set (c2 := match Square.plant s2 with
             | Some p => Square.neighborEffects k p _ r
             | None => _ end).
  assert (Kept g (fst c2)) as Hg3.
  { subst c2. destruct (Square.plant s2); [|exact Hi].
    eapply Kept_trans; [exact Hi|apply neighborEffects_kept]. }
  destruct c2 as [g3 r3]. cbn [fst] in Hg3. intros E0; injection E0 as <- <-.
  eapply Kept_trans; [exact Hg3|apply Kept_onSoil].
Qed.

Lemma updatePests_at_weeds near gs s r :
  Square.weeds (fst (Square.updatePests_at near gs s r)) = Square.weeds s.
Proof.
  assert (forall s r, Square.weeds (fst (Square.pestSpawnOrLevelUp near gs s r))
                      = Square.weeds s) as H1.
  { intros s0 r0. unfold Square.pestSpawnOrLevelUp.
    destruct (negb (Pests.present (Square.pests s0))).
    - match goal with |- context [if ?c then (?a, ?b) else (0, ?d)] =>
        destruct c end;
      destruct (Rand.next r0) as [u r1]; destruct (JS.lt u _);
        try (destruct s0; reflexivity);
      destruct (Rand.next r1) as [u' r2]; destruct (JS.lt u' _);
        destruct s0; reflexivity.
    - destruct (Pests.level (Square.pests s0) <? 4)%Z; [|reflexivity].
      destruct (Rand.next r0) as [u r1]. destruct (JS.lt u _); destruct s0; reflexivity. }
  assert (forall s r, Square.weeds (fst (Square.ladybeetleRemoval gs s r))
                      = Square.weeds s) as H2.
  { intros s0 r0. unfold Square.ladybeetleRemoval.
    destruct (_ && _); [|reflexivity].
    destruct (Rand.next r0) as [u r1]. destruct (JS.lt u _); destruct s0; reflexivity. }
  assert (forall s r, Square.weeds (fst (Square.microbeDefense s r))
                      = Square.weeds s) as H3.
  { intros s0 r0. unfold Square.microbeDefense.
    destruct (_ && _); [|reflexivity].
    destruct (Rand.next r0) as [u r1]. destruct (JS.lt u _); destruct s0; reflexivity. }
  unfold Square.updatePests_at.
  specialize (H1 s r).
  destruct (Square.pestSpawnOrLevelUp near gs s r) as [s1 r1]. cbn [fst] in H1.
  destruct (Pests.present _); [|exact H1].
  unfold Square.pestRemoval.
  specialize (H2 s1 r1).
  destruct (Square.ladybeetleRemoval gs s1 r1) as [s2 r2]. cbn [fst] in H2.
  specialize (H3 s2 r2).
  destruct (Square.microbeDefense s2 r2) as [s3 r3]. cbn [fst] in *.
  destruct (negb _); [destruct s3; cbn in *; congruence|congruence].
Qed.

Lemma updatePests_kept (k : Key) (gs : GlobalState) (g : Square.Grid) (r : Rand.t)
    (g' : Square.Grid) (r' : Rand.t) :
  Square.updatePests k gs g r = Some (g', r') -> Kept g g'.
Proof.
  unfold Square.updatePests.
  destruct (g !! k) as [s|] eqn:E; [|discriminate].
  pose proof (updatePests_at_weeds (Square.isMarigoldNear k g) gs s r) as H.
  destruct (Square.updatePests_at _ gs s r) as [s' r1]. cbn [fst] in H.
  intros E0; injection E0 as <- <-.
  apply Grid_rel_insert_here with (s := s); auto with kept. left; exact H.
Qed.

(** ** The weeds *)

Lemma updateWeeds_squares (k : Key) (gs : GlobalState) (g : Square.Grid)
    (r : Rand.t) (g' : Square.Grid) (r' : Rand.t) :
  Square.updateWeeds k gs g r = Some (g', r') -> Same g g'.
Proof.
  unfold Square.updateWeeds.
  destruct (g !! k) as [s|] eqn:E; [|discriminate].
  match goal with |- context [let '(s0, r0) := ?c in _] => destruct c as [s1 r1] end.
  match goal with |- context [<[k := ?s2]> g] => set (s2' := s2) end.
  clearbody s2'.
  assert (Same g (<[k := s2']> g)) as H1
    by (apply Grid_rel_insert_here with (s := s); auto).
  destruct (Square.weeds s =? 4)%Z; [|intros E0; simplify_eq; exact H1].
  intros E0; injection E0 as E0.
  assert (g' = fst (Square.spreadWeeds k gs (<[k := s2']> g) r1)) as ->
    by (rewrite E0; reflexivity).
  clear E0.
  eapply (Grid_rel_trans _ (fun _ _ _ _ _ => I)); [exact H1|].
  unfold Square.spreadWeeds.
  assert (forall g0 : Square.Grid, Same g0 g0) as Hr
    by (intros g0; apply Grid_rel_refl; auto).
  destruct (Rand.next r1) as [u r2]. destruct (JS.lt u _); [|apply Hr].
  destruct (0 <? _)%Z; [|apply Hr].
  destruct (Rand.next r2) as [u' r3].
  destruct (Square.pick u' _) as [t|]; [|apply Hr].
  destruct (_ !! t) as [n|] eqn:Et; [|apply Hr].
  destruct (_ && _); [|apply Hr].
  cbn [fst]. apply Grid_rel_insert_here with (s := n); auto.
Qed.

Lemma updateWeeds_weed_free (k : Key) (gs : GlobalState) (g : Square.Grid)
    (r : Rand.t) (g' : Square.Grid) (r' : Rand.t) :
  NoWeeds g -> Square.updateWeeds k gs g r = Some (g', r') -> NoWeeds g'.
Proof.
  intros Hg. unfold Square.updateWeeds.
  destruct (g !! k) as [s|] eqn:E; [|discriminate].
  pose proof (Hg k s E) as Hs. cbn in Hs. rewrite Hs.
  cbn [Z.ltb Z.compare andb Z.eqb]. intros E0; injection E0 as <- <-.
  intros n x. rewrite lookup_insert. case_decide; [|apply Hg].
  intros E0; injection E0 as <-. exact Hs.
Qed.

(** ** A pass over the squares *)

Lemma updateSquare_squares (a e lf : Q) (gs : GlobalState) (acc : Main.Pass)
    (k : Key) :
  Same (Main.grid acc) (Main.grid (Main.updateSquare a e lf gs acc k))
  /\ (NoWeeds (Main.grid acc) ->
      NoWeeds (Main.grid (Main.updateSquare a e lf gs acc k))).
Proof.
  assert (forall g g' : Square.Grid, Kept g g' -> Same g g') as Hw
    by (intros g g'; apply Grid_rel_weaken; auto).
  assert (forall g1 g2 g3 : Square.Grid, Same g1 g2 -> Same g2 g3 -> Same g1 g3) as Ht
    by (intros g1 g2 g3; apply Grid_rel_trans; auto).
  assert (forall g0 : Square.Grid, Same g0 g0) as Hr
    by (intros g0; apply Grid_rel_refl; auto).
  unfold Main.updateSquare.
  destruct (Square.updateEnvironment _ _ _ k _) as [[ev g1]|] eqn:E1; [|split; auto].
  apply updateEnvironment_kept in E1.
  destruct (Square.updateEntities _ _ k gs g1 _) as [[g2 r2]|] eqn:E2; [|split; auto].
  apply updateEntities_kept in E2.
  destruct (Square.updateWeeds k gs g2 r2) as [[g3 r3]|] eqn:E3; [|split; auto].
  destruct (Square.updatePests k gs g3 r3) as [[g4 r4]|] eqn:E4; [|split; auto].
  apply updatePests_kept in E4.
  cbn [Main.grid].
  assert (Kept g4 (alter (fun s => Square.updateDisplayText
                            (Square.set_soil
                               (Soil.updateDerivedVariables (Square.soil s)) s)) k g4))
    as E5.
  { apply Grid_rel_alter; [apply weedsKept_refl|]. intros s. kept_same. }
  split.
  - eapply Ht; [apply Hw, E1|]. eapply Ht; [apply Hw, E2|].
    eapply Ht; [exact (updateWeeds_squares _ _ _ _ _ _ E3)|].
    eapply Ht; [apply Hw, E4|apply Hw, E5].
  - intros Hg. apply (NoWeeds_kept _ _ E5), (NoWeeds_kept _ _ E4).
    apply (updateWeeds_weed_free _ _ _ _ _ _ (NoWeeds_kept _ _ E2 (NoWeeds_kept _ _ E1 Hg)) E3).
Qed.

Lemma updateSquares_squares (a e lf : Q) (gs : GlobalState) (g : Square.Grid)
    (r : Rand.t) :
  Same g (Main.grid (Main.updateSquares a e lf gs g r))
  /\ (NoWeeds g -> NoWeeds (Main.grid (Main.updateSquares a e lf gs g r))).
Proof.
  unfold Main.updateSquares.
  assert (forall l acc,
            Same (Main.grid acc)
                 (Main.grid (fold_left (Main.updateSquare a e lf gs) l acc))
            /\ (NoWeeds (Main.grid acc) ->
                NoWeeds (Main.grid (fold_left (Main.updateSquare a e lf gs) l acc))))
    as H.
  { induction l as [|k l IH]; intros acc.
    - split; [apply Grid_rel_refl; auto|auto].
    - cbn [fold_left]. destruct (updateSquare_squares a e lf gs acc k) as [H1 H2].
      destruct (IH (Main.updateSquare a e lf gs acc k)) as [H3 H4].
      split; [eapply (Grid_rel_trans _ (fun _ _ _ _ _ => I)); eassumption|auto]. }
  apply (H Main.gridKeys (Main.mkPass 0 0 g r)).
Qed.


(** * The squares and the weeds under the player's actions *)

Lemma Kept_insert_here (g : Square.Grid) (k : Key) (s s' : Square.t) :
  g !! k = Some s -> weedsKept s s' -> Kept g (<[k := s']> g).
Proof. apply Grid_rel_insert_here, weedsKept_refl. Qed.

Lemma Kept_insert (g g1 : Square.Grid) (k : Key) (s s' : Square.t) :
  Kept g g1 -> g !! k = Some s -> weedsKept s s' -> Kept g (<[k := s']> g1).
Proof. apply Grid_rel_insert. Qed.

Lemma addWater_kept (k : Key) (g : Square.Grid) (b : bool) (g' : Square.Grid) :
  Square.addWater k g = Some (b, g') -> Kept g g'.
Proof.
  unfold Square.addWater.
  destruct (g !! k) as [s|] eqn:E; [|discriminate].
  match goal with |- context [let '(splash, s0) := ?c in _] =>
    assert (weedsKept s (snd c)) as Hc; [|destruct c as [splash s1]] end.
  { destruct (Square.structure s) as [st|];
      [destruct (String.eqb (Structure.type st) "Olla")|]; cbn [snd]; kept_same. }
  cbn [snd] in Hc. intros E0; injection E0 as _ <-.
  eapply Kept_trans; [|apply Kept_onSoil].
  destruct (JS.gt splash 0).
  - eapply Kept_trans; [apply (Kept_insert_here g k s s1 E Hc)|].
    apply (Kept_fold_onSoil (fun _ => Soil.addMoisture splash)).
  - apply (Kept_insert_here g k s s1 E Hc).
Qed.

Lemma addAmendment_kept type s : weedsKept s (snd (Square.addAmendment type s)).
Proof.
  unfold Square.addAmendment.
  destruct (String.eqb type "compost"); [|destruct (String.eqb type "crh");
    [|destruct (String.eqb type "sand")]]; cbn [snd]; kept_same.
Qed.

Lemma applyNeem_kept s : weedsKept s (snd (Square.applyNeem s)).
Proof. unfold Square.applyNeem. destruct (Pests.is_type _ _); cbn [snd]; kept_same. Qed.

Lemma applySoilConditioner_kept s :
  weedsKept s (snd (Square.applySoilConditioner s)).
Proof. right. destruct s; reflexivity. Qed.

Lemma harvestPlant_kept s : weedsKept s (snd (Square.harvestPlant s)).
Proof.
  unfold Square.harvestPlant.
  destruct (Square.plant s) as [p|]; [|kept_same].
  destruct (Plant.growthStage p =? 4)%Z; [kept_same|].
  destruct (_ && _); cbn [snd]; kept_same.
Qed.

Lemma tryPlanting_kept plantType s :
  weedsKept s (snd (Square.tryPlanting plantType s)).
Proof.
  unfold Square.tryPlanting.
  destruct (Square.plant s); [kept_same|].
  destruct (Square.structure s); cbn [snd]; kept_same.
Qed.

Lemma clearNeighborFlags_kept (k : Key) (c : Structure.Connections)
    (g : Square.Grid) :
  Kept g (Square.clearNeighborFlags k c g).
Proof.
  unfold Square.clearNeighborFlags.
  apply Grid_rel_fold; [apply weedsKept_refl|apply weedsKept_trans|].
  intros g0 dir. unfold Square.clearNeighborFlag.
  destruct (flag dir c); [|apply Kept_refl].
  destruct (g0 !! step k dir) as [n|] eqn:E; [|apply Kept_refl].
  destruct (Square.structure n) as [nst|]; [|apply Kept_refl].
  destruct (flag (opposite dir) _); [|apply Kept_refl].
  apply (Kept_insert_here g0 _ n _ E). kept_same.
Qed.

Lemma till_kept (k : Key) (g : Square.Grid) (res : Square.TillResult)
    (g' : Square.Grid) :
  Square.till k g = Some (res, g') -> Kept g g'.
Proof.
  unfold Square.till.
  destruct (g !! k) as [s|] eqn:E; [|discriminate].
  set (s1 := Square.set_soil _ s).
  assert (weedsKept s s1) as H1 by (subst s1; kept_same).
  clearbody s1.
  match goal with |- context [let '(removedItems, s0) := ?c in _] =>
    assert (weedsKept s (snd c)) as H2; [|destruct c as [items s2]] end.
  { destruct (0 <? Square.weeds s1)%Z; [|exact H1]. cbn [snd].
    right. destruct s1; reflexivity. }
  cbn [snd] in H2.
  match goal with |- context [let '(pr0, g0) := ?c in _] =>
    assert (weedsKept s (snd (fst c)) /\ Kept g (snd c)) as [H3 Hg3];
      [|destruct c as [[items3 s3] g3]] end.
  { destruct (Square.structure s2) as [st|]; [|split; [exact H2|apply Kept_refl]].
    destruct (_ || _); [|split; [exact H2|apply Kept_refl]]. cbn [fst snd].
    split; [|apply clearNeighborFlags_kept].
    eapply weedsKept_trans; [exact H2|]. kept_same. }
  cbn [fst snd] in H3, Hg3. intros E0; injection E0 as _ <-.
  apply (Kept_insert g g3 k s _ Hg3 E).
  eapply weedsKept_trans; [exact H3|]. kept_same.
Qed.

Lemma removeEntity_kept (k : Key) (g : Square.Grid) (res : option string)
    (g' : Square.Grid) :
  Square.removeEntity k g = Some (res, g') -> Kept g g'.
Proof.
  unfold Square.removeEntity.
  destruct (g !! k) as [s|] eqn:E; [|discriminate].
  match goal with |- context [let '(pr0, g0) := ?c in _] =>
    assert (weedsKept s (snd (fst c)) /\ Kept g (snd c)) as [H3 Hg3];
      [|destruct c as [[removed s3] g3]] end.
  { destruct (Square.plant s) as [p|].
    - cbn [fst snd]. split; [kept_same|apply Kept_refl].
    - destruct (Square.structure s) as [st|]; [|split; [kept_same|apply Kept_refl]].
      cbn [fst snd]. split; [kept_same|].
      destruct (_ || _); [apply clearNeighborFlags_kept|apply Kept_refl]. }
  cbn [fst snd] in H3, Hg3. intros E0; injection E0 as _ <-.
  apply (Kept_insert g g3 k s _ Hg3 E).
  eapply weedsKept_trans; [exact H3|]. kept_same.
Qed.

Lemma connectNeighbor_kept (k : Key) (c : Structure.Connections)
    (g : Square.Grid) (n : Key) :
  Kept g (snd (Square.connectNeighbor k (c, g) n)).
Proof.
  unfold Square.connectNeighbor.
  destruct k as [x y], n as [nx ny].
  destruct (_ !! _) as [ns|] eqn:E; [|apply Kept_refl].
  destruct (Square.structure ns) as [nst|]; [|apply Kept_refl].
  destruct (ny <? y)%Z; [|destruct (y <? ny)%Z];
    (destruct (nx <? x)%Z; [|destruct (x <? nx)%Z]); cbn [snd];
    (apply (Kept_insert_here g _ ns _ E); kept_same).
Qed.

Lemma fold_connectNeighbor_kept (k : Key) (l : list Key)
    (c : Structure.Connections) (g : Square.Grid) :
  Kept g (snd (fold_left (Square.connectNeighbor k) l (c, g))).
Proof.
  revert c g. induction l as [|n l IH]; intros c g; [apply Kept_refl|].
  cbn [fold_left]. pose proof (connectNeighbor_kept k c g n) as H.
  destruct (Square.connectNeighbor k (c, g) n) as [c1 g1]. cbn [snd] in H.
  eapply Kept_trans; [exact H|apply IH].
Qed.

Lemma tryAddingStructure_kept (structureType : string) (userConfirmed : bool)
    (k : Key) (g : Square.Grid) (b : bool) (g' : Square.Grid) :
  Square.tryAddingStructure structureType userConfirmed k g = Some (b, g') ->
  Kept g g'.
Proof.
  unfold Square.tryAddingStructure.
  destruct (g !! k) as [s|] eqn:E; [|discriminate].
  destruct (negb _); [intros E0; simplify_eq; apply Kept_refl|].
  destruct (isSome (Square.plant s) || isSome (Square.structure s));
    [intros E0; simplify_eq; apply Kept_refl|].
  assert (forall st, weedsKept s (Square.updateDisplayText
                                    (Square.set_structure (Some st) s))) as Hnew
    by (intros st; kept_same).
  destruct (_ || _).
  2:{ intros E0; injection E0 as _ <-. apply (Kept_insert_here g k s _ E), Hnew. }
  destruct (0 <? _)%Z.
  2:{ intros E0; injection E0 as _ <-. apply (Kept_insert_here g k s _ E), Hnew. }
  destruct userConfirmed.
  2:{ intros E0; injection E0 as _ <-. apply (Kept_insert_here g k s _ E), Hnew. }
  match goal with |- context [fold_left (Square.connectNeighbor k) ?l (?c, g)] =>
    pose proof (fold_connectNeighbor_kept k l c g) as Hf;
    destruct (fold_left (Square.connectNeighbor k) l (c, g)) as [c1 g1] end.
  cbn [snd] in Hf. intros E0; injection E0 as _ <-.
  apply (Kept_insert g g1 k s _ Hf E), Hnew.
Qed.

Lemma onSquare_kept (f : Square.t -> bool * Square.t) (k : Key) (s : Square.t)
    (game : Main.Game) :
  (forall s, weedsKept s (snd (f s))) ->
  Main.squareState game !! k = Some s ->
  Kept (Main.squareState game) (Main.squareState (Main.onSquare f k s game)).
Proof.
  intros Hf E. unfold Main.onSquare. cbn [Main.squareState].
  apply (Kept_insert_here _ k s _ E), Hf.
Qed.

Lemma onGrid_kept {A} (f : Key -> Square.Grid -> option (A * Square.Grid))
    (k : Key) (game : Main.Game) :
  (forall (g : Square.Grid) (a : A) (g' : Square.Grid),
     f k g = Some (a, g') -> Kept g g') ->
  Kept (Main.squareState game) (Main.squareState (Main.onGrid f k game)).
Proof.
  intros Hf. unfold Main.onGrid.
  destruct (f k (Main.squareState game)) as [[a g']|] eqn:E; [|apply Kept_refl].
  cbn [Main.squareState]. exact (Hf _ _ _ E).
Qed.

Lemma handleSquareClick_kept mode pt uc k game :
  Kept (Main.squareState game)
       (Main.squareState (Main.handleSquareClick mode pt uc k game)).
Proof.
  unfold Main.handleSquareClick.
  destruct (Main.squareState game !! k) as [s|] eqn:E; [|apply Kept_refl].
  destruct (String.eqb mode "plant").
  { apply onSquare_kept; [intros; apply tryPlanting_kept|assumption]. }
  destruct (String.eqb mode "water").
  { apply onGrid_kept. intros ? ? ?. apply addWater_kept. }
  destruct (String.eqb mode "add_compost").
  { apply onSquare_kept; [intros; apply addAmendment_kept|assumption]. }
  destruct (String.eqb mode "add_crh").
  { apply onSquare_kept; [intros; apply addAmendment_kept|assumption]. }
  destruct (String.eqb mode "add_sand").
  { apply onSquare_kept; [intros; apply addAmendment_kept|assumption]. }
  destruct (String.eqb mode "add_olla").
  { apply onGrid_kept. intros ? ? ?. apply tryAddingStructure_kept. }
  destruct (String.eqb mode "add_trellis").
  { apply onGrid_kept. intros ? ? ?. apply tryAddingStructure_kept. }
  destruct (String.eqb mode "add_net").
  { apply onGrid_kept. intros ? ? ?. apply tryAddingStructure_kept. }
  destruct (String.eqb mode "till").
  { apply onGrid_kept. intros ? ? ?. apply till_kept. }
  destruct (String.eqb mode "apply_neem").
  { apply onSquare_kept; [intros; apply applyNeem_kept|assumption]. }
  destruct (String.eqb mode "shop").
  { destruct (JS.ge _ _); [|apply Kept_refl].
    destruct (JS.gt _ 0); cbn [Main.squareState];
      apply (Kept_insert_here _ k s _ E), applySoilConditioner_kept. }
  destruct (String.eqb mode "harvest").
  { pose proof (harvestPlant_kept s) as Hh.
    destruct (Square.harvestPlant s) as [res s']. cbn [snd] in Hh.
    destruct (Square.harvested res);
      [destruct (Main.recordHarvest _ _ _) as [hd ok]; destruct ok|];
      cbn [Main.squareState]; apply (Kept_insert_here _ k s _ E), Hh. }
  destruct (String.eqb mode "remove").
  { apply onGrid_kept. intros ? ? ?. apply removeEntity_kept. }
  apply Kept_refl.
Qed.

Lemma massHarvest_kept game :
  Kept (Main.squareState game) (Main.squareState (Main.massHarvest game)).
Proof.
  unfold Main.massHarvest.
  assert (forall l acc,
            Kept (Main.m_grid acc)
                 (Main.m_grid (fold_left Main.massHarvestSquare l acc))) as H.
  { induction l as [|k l IH]; intros acc; [apply Kept_refl|].
    cbn [fold_left]. eapply Kept_trans; [|apply IH].
    unfold Main.massHarvestSquare.
    destruct (Main.running acc); [|apply Kept_refl].
    destruct (Main.m_grid acc !! k) as [s|] eqn:E; [|apply Kept_refl].
    pose proof (harvestPlant_kept s) as Hh.
    destruct (Square.harvestPlant s) as [res s']. cbn [snd] in Hh.
    destruct (Square.harvested res);
      [destruct (Main.recordHarvest _ _ _) as [hd ok]; destruct ok|];
      cbn [Main.m_grid]; apply (Kept_insert_here _ k s _ E), Hh. }
  specialize (H Main.gridKeys
                (Main.mkMassHarvest (Main.squareState game) (Main.harvestData game)
                                    0 0 true)).
  destruct (_ && _); cbn [Main.squareState]; exact H.
Qed.

Lemma buyMassNeem_kept game :
  Kept (Main.squareState game) (Main.squareState (Main.buyMassNeem game)).
Proof.
  unfold Main.buyMassNeem. destruct (JS.ge _ _); [|apply Kept_refl].
  cbn [Main.squareState]. apply Grid_rel_fmap. intros s. apply applyNeem_kept.
Qed.

Lemma buyMassWeed_kept game :
  Kept (Main.squareState game) (Main.squareState (Main.buyMassWeed game)).
Proof.
  unfold Main.buyMassWeed. destruct (JS.ge _ _); [|apply Kept_refl].
  cbn [Main.squareState]. apply Grid_rel_fmap. intros s.
  destruct (0 <? Square.weeds s)%Z; [right; destruct s; reflexivity|apply weedsKept_refl].
Qed.

Lemma buyMassWeed_clears game :
  Garden_wf (Main.squareState game) ->
  Config.SHOP_COSTS.massWeed <= Main.playerMoney game ->
  NoWeeds (Main.squareState (Main.buyMassWeed game)).
Proof.
  intros Hg Hm. unfold Main.buyMassWeed.
  assert (JS.ge (Main.playerMoney game) (Config.SHOP_COSTS.massWeed |? 0) = true) as ->.
  { apply ge_intro. unfold Config.SHOP_COSTS.massWeed in *. revert Hm. js_arith. }
  cbn [Main.squareState]. intros n s'. rewrite lookup_fmap.
  destruct (Main.squareState game !! n) as [s|] eqn:En; cbn; [|discriminate].
  intros E; injection E as <-.
  destruct (0 <? Square.weeds s)%Z eqn:Ew; [destruct s; reflexivity|].
  apply Z.ltb_ge in Ew. destruct (Hg n s En) as ([Hw _] & _). lia.
Qed.

Lemma perform_squares game ev :
  Same (Main.squareState game) (Main.squareState (perform game ev))
  /\ (NoWeeds (Main.squareState game) ->
      NoWeeds (Main.squareState (perform game ev))).
Proof.
  assert (forall g g' : Square.Grid,
            Kept g g' -> Same g g' /\ (NoWeeds g -> NoWeeds g')) as Hk.
  { intros g g' H. split; [revert H; apply Grid_rel_weaken; auto|apply NoWeeds_kept, H]. }
  destruct ev as [a e lf gs r|mode pt uc k| | |]; cbn [perform].
  - cbn [Main.squareState]. apply updateSquares_squares.
  - apply Hk, handleSquareClick_kept.
  - apply Hk, massHarvest_kept.
  - apply Hk, buyMassNeem_kept.
  - apply Hk, buyMassWeed_kept.
Qed.

Lemma play_squares events game :
  Same (Main.squareState game) (Main.squareState (play events game))
  /\ (NoWeeds (Main.squareState game) ->
      NoWeeds (Main.squareState (play events game))).
Proof.
  unfold play. revert game. induction events as [|ev events IH]; intros game.
  - split; [apply Grid_rel_refl; auto|auto].
  - cbn [fold_left]. destruct (perform_squares game ev) as [H1 H2].
    destruct (IH (perform game ev)) as [H3 H4].
    split; [eapply (Grid_rel_trans _ (fun _ _ _ _ _ => I)); eassumption|auto].
Qed.


(** * The squares of a game *)

Lemma initial_grid_squares (a : Q) (r : Rand.t) (n : Key) :
  is_Some (fst (Main.initializeGrid a r) !! n) <-> inGrid n.
Proof.
  unfold Main.initializeGrid.
  destruct (initialize_fold a Main.gridKeys ∅ r) as [H1 _]. cbv zeta in H1.
  rewrite H1, gridKeys_inGrid, lookup_empty.
  split; [intros [? | [? ?]]; [assumption|discriminate]|intros ?; left; assumption].
Qed.

(** X16: no event creates or removes a square.  After any sequence of
    ticks, clicks and mass buttons the grid has a square exactly where it
    had one before; so a game started by [initializeGrid] always has its
    squares exactly at the 15 x 15 coordinates of the grid. *)
Theorem events_keep_the_squares (events : list Event) :
  (forall (game : Main.Game) (n : Key),
     is_Some (Main.squareState (play events game) !! n)
     <-> is_Some (Main.squareState game !! n))
  /\ (forall (ambientTemperature : Q) (r : Rand.t) (n : Key),
        is_Some (Main.squareState
                   (play events (Main.newGame ambientTemperature r)) !! n)
        <-> inGrid n).
Proof.
  assert (forall (game : Main.Game) (n : Key),
            is_Some (Main.squareState (play events game) !! n)
            <-> is_Some (Main.squareState game !! n)) as H.
  { intros game n. destruct (play_squares events game) as [Hs _].
    exact (Grid_rel_squares _ _ _ n Hs). }
  split; [exact H|].
  intros a r n. rewrite H. cbn [Main.newGame Main.squareState].
  apply initial_grid_squares.
Qed.

(** X17: weeds never appear on their own.  In a garden whose entities are
    well-formed, one mass weeding that the player can afford leaves no
    weed on any square, and no later sequence of ticks, clicks and mass
    buttons brings a weed back. *)
Theorem weed_free_after_mass_weeding
    (game : Main.Game) (events : list Event) :
  Garden_wf (Main.squareState game) ->
  Config.SHOP_COSTS.massWeed <= Main.playerMoney game ->
  NoWeeds (Main.squareState (play events (perform game BuyMassWeed))).
Proof.
  intros Hg Hm. apply (play_squares events (perform game BuyMassWeed)).
  cbn [perform]. apply buyMassWeed_clears; assumption.
Qed.

Lemma weed_free_after_mass_weeding_witness :
  NoWeeds (Main.squareState
             (play [Tick 20 72 0.5 eastWind zeroDraws; Click "water" "" false (0, 1)%Z]
                   (perform (Main.mkGame weedGrid 5000 Main.initializeHarvestData)
                            BuyMassWeed))).
Proof.
  apply (weed_free_after_mass_weeding
           (Main.mkGame weedGrid 5000 Main.initializeHarvestData)
           [Tick 20 72 0.5 eastWind zeroDraws; Click "water" "" false (0, 1)%Z]).
  - cbn [Main.squareState]. unfold weedGrid.
    apply Garden_wf_insert; [apply Garden_wf_insert|].
    + intros k s E. rewrite lookup_empty in E. discriminate.
    + apply Square_wf_set_weeds; [lia|apply Square_new_ok; lia].
    + apply Square_new_ok; lia.
  - vm_compute. discriminate.
Defined.

(** * The yield of a harvest *)

Lemma PLANT_PROPERTIES_integral type props :
  Plant.lookupProperties type = Some props ->
  exists z : Z, (0 <= z)%Z /\ Config.maxYield props = inject_Z z.
Proof.
  intros H. apply lookupProperties_cases in H as [H | ->];
    [|exists 0%Z; split; [lia|reflexivity]].
  revert H. unfold Config.PLANT_PROPERTIES.
  repeat match goal with |- context [String.eqb ?a ?b] => destruct (String.eqb a b) end;
    intros E; try discriminate; injection E as <-; cbn [Config.maxYield];
    eexists; (split; [|reflexivity]); lia.
Qed.

Lemma Math_round_le (x : Q) (z : Z) :
  x <= inject_Z z -> JS.Math_round x <= inject_Z z.
Proof.
  intros H. unfold JS.Math_round. rewrite <- Zle_Qle.
  assert (Qfloor (x + 0.5) < z + 1)%Z as Hlt; [|lia].
  rewrite Zlt_Qlt. eapply Qle_lt_trans; [apply Qfloor_le|].
  rewrite inject_Z_plus. change (inject_Z 1) with 1. lra.
Qed.

Lemma Math_max_zero_integer (m z : Z) :
  (0 <= z)%Z -> (m <= z)%Z ->
  exists n : Z, (0 <= n <= z)%Z /\ JS.Math_max 0 (inject_Z m) = inject_Z n.
Proof.
  intros Hz Hm. unfold JS.Math_max. destruct (Qle_bool 0 (inject_Z m)) eqn:E.
  - apply Qle_bool_iff in E. change 0 with (inject_Z 0) in E.
    rewrite <- Zle_Qle in E. exists m. split; [lia|reflexivity].
  - exists 0%Z. split; [lia|reflexivity].
Qed.

(** X18: what a harvest pays.  A successful harvest of a plant that
    carries the properties of its type yields a whole, non-negative number
    of units, at most the [maxYield] of the type (or exactly one unit for
    a Flower, Marigold or Basil whose [maxYield] is 0); the money earned
    is that yield times the price of the type, and the type reported is
    the type of the plant. *)
Theorem harvest_yield_is_bounded (s : Square.t) (p : Plant.t) :
  Square.plant s = Some p ->
  Configured p ->
  Square.harvested (fst (Square.harvestPlant s)) = true ->
  exists (n : Z) (v : Q),
    Square.yield (fst (Square.harvestPlant s)) = Some (inject_Z n)
    /\ Square.value (fst (Square.harvestPlant s)) = Some v
    /\ v == inject_Z n * Config.price (Plant.properties p)
    /\ (0 <= n)%Z
    /\ (inject_Z n <= Config.maxYield (Plant.properties p)
        \/ (Config.maxYield (Plant.properties p) == 0 /\ n = 1%Z
            /\ includes Square.earlyHarvest (Plant.type p) = true))
    /\ Square.h_type (fst (Square.harvestPlant s)) = Some (Plant.type p).
Proof.
  intros Ep Hc. unfold Square.harvestPlant. rewrite Ep.
  destruct (Plant.growthStage p =? 4)%Z; [discriminate|].
  destruct (_ && _); [|discriminate].
  cbn [fst Square.harvested Square.yield Square.value Square.h_type]. intros _.
  unfold Configured in Hc.
  destruct (PLANT_PROPERTIES_nonneg _ _ Hc) as (_ & _ & _ & Hy & Hpr).
  destruct (PLANT_PROPERTIES_integral _ _ Hc) as (z & Hz & Ez).
  set (f0 := Utils.clamp (_ / 2) 0 1).
  assert (0 <= f0 <= 1) as H0 by (apply clamp_bounds; lra).
  clearbody f0.
  set (f1 := if _ && includes Plant.vining (Plant.type p) then _ else f0).
  assert (0 <= f1 <= 1) as H1.
  { subst f1. destruct (_ && _); [|exact H0]. js_arith. }
  clearbody f1.
  set (f2 := if Pests.present (Square.pests s) then _ else f1).
  assert (0 <= f2 <= 1) as H2.
  { subst f2. destruct (Pests.present _); [|exact H1].
    unfold Config.RATES.pestYieldFactorReduction.
    assert (0.4 |? 0 == 0.4) as -> by (vm_compute; reflexivity).
    lra. }
  clearbody f2.
  pose proof (or_default_zero (Config.maxYield (Plant.properties p))) as Em.
  assert ((Config.maxYield (Plant.properties p) |? 0) * f2 <= inject_Z z) as Hx.
  { rewrite Em, Ez. rewrite Ez in Hy.
    assert (0 <= inject_Z z * (1 - f2)) as Hp by (apply Qmult_le_0_compat; lra).
    assert (inject_Z z * (1 - f2) == inject_Z z - inject_Z z * f2) as Er by ring.
    rewrite Er in Hp. lra. }
  apply Math_round_le in Hx. unfold JS.Math_round in *. rewrite <- Zle_Qle in Hx.
  destruct (Math_max_zero_integer _ z Hz Hx) as (n & Hn & En).
  rewrite En.
  pose proof (or_default_zero (Config.price (Plant.properties p))) as Epr.
  destruct (Qeq_bool (Config.maxYield (Plant.properties p)) 0
            && Qeq_bool (inject_Z n) 0
            && includes Square.earlyHarvest (Plant.type p)) eqn:Es.
  - apply andb_true_iff in Es as [Es Ee]. apply andb_true_iff in Es as [Es _].
    apply Qeq_bool_iff in Es.
    exists 1%Z, (1 * (Config.price (Plant.properties p) |? 0)).
    split; [reflexivity|]. split; [reflexivity|].
    split; [change (inject_Z 1) with 1; rewrite Epr; reflexivity|].
    split; [lia|]. split; [right; repeat split; assumption|reflexivity].
  - exists n, (inject_Z n * (Config.price (Plant.properties p) |? 0)).
    split; [reflexivity|]. split; [reflexivity|].
    split; [rewrite Epr; reflexivity|]. split; [lia|].
    split; [|reflexivity]. left. rewrite Ez, <- Zle_Qle. lia.
Qed.

Lemma harvest_yield_is_bounded_witness :
  exists (n : Z) (v : Q),
    Square.yield (fst (Square.harvestPlant ripeCornWithAphids)) = Some (inject_Z n)
    /\ Square.value (fst (Square.harvestPlant ripeCornWithAphids)) = Some v
    /\ v == inject_Z n
            * Config.price
                (Plant.properties
                   (Plant.set_growthStage 3
                      (Plant.set_wasPollinated true (Plant.new "Corn"))))
    /\ (0 <= n)%Z
    /\ (inject_Z n
        <= Config.maxYield
             (Plant.properties
                (Plant.set_growthStage 3
                   (Plant.set_wasPollinated true (Plant.new "Corn"))))
        \/ (Config.maxYield
              (Plant.properties
                 (Plant.set_growthStage 3
                    (Plant.set_wasPollinated true (Plant.new "Corn")))) == 0
            /\ n = 1%Z
            /\ includes Square.earlyHarvest
                 (Plant.type
                    (Plant.set_growthStage 3
                       (Plant.set_wasPollinated true (Plant.new "Corn"))))
               = true))
    /\ Square.h_type (fst (Square.harvestPlant ripeCornWithAphids))
       = Some (Plant.type
                 (Plant.set_growthStage 3
                    (Plant.set_wasPollinated true (Plant.new "Corn")))).
Proof.
  apply (harvest_yield_is_bounded ripeCornWithAphids
           (Plant.set_growthStage 3
              (Plant.set_wasPollinated true (Plant.new "Corn")))).
  - reflexivity.
  - reflexivity.
  - reflexivity.
Defined.

(** * The water of an Olla *)

Lemma ollaRun_level (n : nat) (st : Structure.t) (w : Q) :
  Structure.type st = "Olla"%string ->
  Structure.waterLevel st = Some w ->
  0 <= w ->
  exists w',
    Structure.waterLevel (snd (ollaRun n st)) = Some w'
    /\ Structure.type (snd (ollaRun n st)) = "Olla"%string
    /\ w' == JS.Math_max 0 (w - inject_Z (Z.of_nat n) * Config.RATES.ollaWaterRelease)
    /\ fst (ollaRun n st) + w' == w.
Proof.
  revert st w. induction n as [|n IH]; intros st w Ht Ew Hw.
  - exists w. cbn [ollaRun fst snd]. split; [exact Ew|]. split; [exact Ht|].
    change (inject_Z (Z.of_nat 0)) with 0. split; [js_arith|lra].
  - cbn [ollaRun].
    assert (exists w1,
              Structure.waterLevel (snd (Structure.update st)) = Some w1
              /\ Structure.type (snd (Structure.update st)) = "Olla"%string
              /\ w1 == JS.Math_max 0 (w - Config.RATES.ollaWaterRelease)
              /\ fst (Structure.update st) + w1 == w) as (w1 & E1 & T1 & L1 & S1).
    { unfold Structure.update. rewrite Ew, Ht. cbn [String.eqb Ascii.eqb Bool.eqb andb].
      unfold Config.RATES.ollaWaterRelease.
      destruct (JS.gt w 0) eqn:Eg; cbn [fst snd Structure.waterLevel Structure.type].
      - eexists. split; [reflexivity|]. split; [reflexivity|].
        split; js_arith.
      - exists w. split; [exact Ew|]. split; [exact Ht|].
        unfold JS.gt in Eg. apply negb_false_iff, Qle_bool_iff in Eg.
        split; [js_arith|lra]. }
    destruct (Structure.update st) as [rel st1]. cbn [fst snd] in *.
    assert (0 <= w1) as Hw1 by (rewrite L1; apply Math_max_lower).
    destruct (IH st1 w1 T1 E1 Hw1) as (w' & E' & T' & L' & S').
    destruct (ollaRun n st1) as [total st2]. cbn [fst snd] in *.
    exists w'. split; [exact E'|]. split; [exact T'|].
    split; [|lra].
    rewrite L'. rewrite Nat2Z.inj_succ. unfold Z.succ. rewrite inject_Z_plus.
    change (inject_Z 1) with 1.
    assert (0 <= inject_Z (Z.of_nat n)) as Hn.
    { change 0 with (inject_Z 0). rewrite <- Zle_Qle. lia. }
    revert Hn. generalize (inject_Z (Z.of_nat n)). intros q Hq.
    unfold Config.RATES.ollaWaterRelease in *.
    revert L1. js_arith.
Qed.

(** X19: an Olla runs dry at a fixed pace and never loses water.  After
    [n] updates an Olla that held [w >= 0] holds [max(0, w - 3.5 n)], and
    the water it released over these updates plus the water it still
    holds is [w]. *)
Theorem olla_runs_dry_without_loss (n : nat) (st : Structure.t) (w : Q) :
  Structure.type st = "Olla"%string ->
  Structure.waterLevel st = Some w ->
  0 <= w ->
  exists w',
    Structure.waterLevel (snd (ollaRun n st)) = Some w'
    /\ w' == JS.Math_max 0 (w - inject_Z (Z.of_nat n) * Config.RATES.ollaWaterRelease)
    /\ fst (ollaRun n st) + w' == w.
Proof.
  intros Ht Ew Hw.
  destruct (ollaRun_level n st w Ht Ew Hw) as (w' & H1 & _ & H2 & H3).
  exists w'. repeat split; assumption.
Qed.

Lemma olla_runs_dry_without_loss_witness :
  exists w',
    Structure.waterLevel (snd (ollaRun 60 (Structure.new "Olla"))) = Some w'
    /\ w' == JS.Math_max 0 (200 - inject_Z (Z.of_nat 60) * Config.RATES.ollaWaterRelease)
    /\ fst (ollaRun 60 (Structure.new "Olla")) + w' == 200.
Proof.
  apply (olla_runs_dry_without_loss 60 (Structure.new "Olla") 200).
  - reflexivity.
  - reflexivity.
  - lra.
Defined.


(** * Watering an Olla *)

(** X20: watering a square that holds an Olla fills the Olla, not the
    soil.  The Olla gains 28 units of water, capped at its capacity of
    200; the moisture of its square is unchanged, no water splashes, and
    every other square of the grid stays exactly as it was. *)
Theorem watering_an_olla_refills_it
    (k : Key) (g : Square.Grid) (s : Square.t) (st : Structure.t) (w : Q) :
  g !! k = Some s ->
  Square.structure s = Some st ->
  Structure.type st = "Olla"%string ->
  Structure.waterLevel st = Some w ->
  0 <= w <= Config.THRESHOLDS.ollaMaxWater ->
  exists g' s' st' w',
    Square.addWater k g = Some (true, g')
    /\ g' !! k = Some s'
    /\ Square.structure s' = Some st'
    /\ Structure.type st' = "Olla"%string
    /\ Structure.waterLevel st' = Some w'
    /\ w' == JS.Math_min Config.THRESHOLDS.ollaMaxWater (w + 28)
    /\ Soil.moisture (Square.soil s') = Soil.moisture (Square.soil s)
    /\ forall n, n <> k -> g' !! n = g !! n.
Proof.
  intros E Est Ht Ew Hw. unfold Square.addWater. rewrite E, Est, Ht, Ew.
  assert (String.eqb "Olla" "Olla" = true) as -> by reflexivity.
  cbn [default from_option id].
  assert (JS.gt 0 0 = false) as -> by reflexivity.
  eexists _, _, _, _. split; [reflexivity|].
  unfold Square.onSoil.
  split; [rewrite lookup_alter_eq, lookup_insert_eq; reflexivity|].
  split; [destruct s; reflexivity|]. split; [reflexivity|].
  split; [reflexivity|].
  split.
  - unfold Config.THRESHOLDS.ollaMaxWater, Config.RATES.waterMoistureAdd in *.
    js_unfold; repeat js_case; unfold id in *; lra.
  - split; [destruct s; reflexivity|].
    intros n Hn. rewrite lookup_alter_ne, lookup_insert_ne by congruence. reflexivity.
Qed.

Lemma watering_an_olla_refills_it_witness :
  exists g' s' st' w',
    Square.addWater (7, 7)%Z ollaGrid = Some (true, g')
    /\ g' !! (7, 7)%Z = Some s'
    /\ Square.structure s' = Some st'
    /\ Structure.type st' = "Olla"%string
    /\ Structure.waterLevel st' = Some w'
    /\ w' == JS.Math_min Config.THRESHOLDS.ollaMaxWater (200 + 28)
    /\ Soil.moisture (Square.soil s')
       = Soil.moisture
           (Square.soil (Square.set_structure (Some (Structure.new "Olla"))
                                              freshSquare))
    /\ forall n, n <> (7, 7)%Z -> g' !! n = ollaGrid !! n.
Proof.
  apply (watering_an_olla_refills_it (7, 7)%Z ollaGrid
           (Square.set_structure (Some (Structure.new "Olla")) freshSquare)
           (Structure.new "Olla") 200).
  - reflexivity.
  - reflexivity.
  - reflexivity.
  - reflexivity.
  - vm_compute. split; discriminate.
Defined.
